(* ===== verification/_CoqProject ===== *)
-Q . S2P
Prelude.v
JsNumber.v
JsString.v
JsFormat.v
JsMap.v
JsDate.v
DutchAuction.v
PartialFill.v
FillSecrets.v
Merkle.v
OrderTypes.v
Signature.v
OrderService.v
OrderBook.v
OrderLedger.v
OrderFills.v
OrderApi.v
Async.v
Lockstep.v
Relayer.v
Chain.v
AptosChain.v
TokenServices.v
ChainService.v
FillStrategy.v
PriceService.v
Resolver.v
Swap.v
EscrowEvents.v
OrderIntake.v
SignedOrders.v
Web.v
WebServices.v
FusionPlusClient.v
SwapPage.v
PageSecrecy.v
PageSafety.v
PageValues.v
SwapSafety.v
IntakeSafety.v
SignedSafety.v
ResolverSafety.v
Htlc.v
Evm.v
SolEscrow.v
EscrowV2.v
GaslessEscrow.v
GaslessSafety.v
MoveEscrow.v
MovePartialFill.v
PermitContract.v
AtomicSwap.v
Settlement.v
PageShell.v
AuctionDisplay.v
AppShell.v
OrderPanels.v
Wallet.v
WalletUtils.v
WalletTests.v
SponsoredPages.v
SwapForm.v
