(* ===== verification/Prelude.v ===== *)
(** * Fusion+ cross-chain swaps: verification of services, contracts and page

    The program swaps tokens between Ethereum and Aptos with hash-locked
    escrows. A maker fills in the _swap page_ ([frontend]), which draws a
    secret, has the wallets sign, and posts an order with the secret's hash to
    the _order engine_ ([backend/order-engine]). The engine validates the
    order, keeps the order book and relays messages over a socket hub.
    _Resolvers_ ([backend/resolver]) read the orders, decide whether and how
    much of each to fill, lock the destination escrow, wait for the source
    escrow and the maker's secret, withdraw the source escrow and then pay the
    maker from the destination escrow. A _relayer_ ([backend/relayer]) submits
    escrow transactions on behalf of users of the _client SDK_
    ([backend/client-sdk]). The escrows live in _contracts_ ([contracts]), in
    Solidity on Ethereum and in Move on Aptos.

    ** Files

    Language and libraries
    - [Prelude]: tactics, hint databases, integer lemmas, sums over finite maps.
    - [JsNumber]: JavaScript numbers, binary64 with rounding to nearest even;
      every finite double is an integer multiple of 2^-1074. Comparisons,
      [+ - * /], [Math.floor], [Math.min], [Math.max], conversion to BigInt,
      and the monotonicity lemmas of the rounding.
    - [JsString]: strings, exceptions, the [result] type, [BigInt] parsing and
      printing with their round trip.
    - [JsFormat]: [parseFloat], [parseInt], [toString] and [toFixed] of
      numbers, and that reading a printed number gives it back.
    - [JsMap]: [Map] and [Set], which iterate in insertion order.
    - [JsDate]: the calendar, [toISOString] and [getTime] with their round trip,
      and the stable [sort].
    - [Async]: [async] functions as trees of field reads, field writes, awaited
      calls and messages; [run] (one oracle of answers), [wp] (all answers) and
      [Pool] (handlers interleaved at their awaits). [Lockstep]: two programs
      that make the same requests and send the same messages on related states.

    Order engine
    - [DutchAuction]: [utils/dutchAuction.ts] (the resolver has the same text).
    - [PartialFill], [FillSecrets]: [utils/partialFillSecrets.ts], the second
      with the functions that use the merkletreejs package.
    - [OrderTypes], [Signature], [OrderService]: [types/order.ts],
      [utils/signature.ts], [services/OrderService.ts]. The state is the two
      Maps and the emitted events; a call is a state transformer whose changes
      persist when it throws, as in the code.
    - [OrderBook]: histories of calls and their invariants. [OrderLedger]: the
      abstract specification of the book, a finite map of orders, which the
      service refines. [OrderFills]: what [createFill] computes.
    - [OrderApi]: [api/routes/orders.ts] and [websocket/orderSocket.ts].

    Relayer
    - [Relayer]: [services/RelayerServiceSimple.ts].

    Resolver ([services/])
    - [Chain]: the requests to the nodes, the engine, the price server and the
      socket.
    - [AptosChain], [ChainService], [TokenServices], [PriceService]:
      [AptosChainServiceV2.ts], [ChainServiceSimple.ts], [WETHService.ts] and
      [PermitService.ts], [PriceService.ts] (with the frontend's copy).
    - [FillStrategy]: the decision of [calculateOptimalFillPercentage].
    - [Resolver], [Swap], [EscrowEvents], [OrderIntake], [SignedOrders]: the
      partial-fill path, [completeSwap] with the secret reveal, the escrow
      events, whole orders ([handleNewOrder], [createDestinationEscrow]) and
      the orders signed by a maker ([order:signed] and its variants) of
      [ResolverServiceV2.ts]; [BalanceTracker.ts].
    - [SwapSafety], [IntakeSafety], [SignedSafety], [ResolverSafety]: theorems
      on these handlers.

    Frontend and client SDK
    - [Web]: the requests of the browser (wallets, nodes, HTTP, dialogs,
      timers) and the messages it sends.
    - [WebServices]: [frontend/src/services] and the gasless and sponsored
      transactions of [frontend/src/utils], one module per class.
    - [SwapPage]: [handleSwap] of [components/SwapInterface.tsx] with its
      listeners and timers. The values that the source keeps on [window] and
      the component state are the shared fields; an [Intent] is shared by
      reference, as a cell of [intents]. Also the rate shown by
      [DutchAuctionProgress.tsx].
    - [PageSecrecy]: pages that differ in the secret they keep, and that a swap
      and its listeners behave alike on them. [PageSafety], [PageValues]:
      theorems on the page's handlers, and on the amounts, rates and signatures
      it exchanges with the backend.
    - [FusionPlusClient]: [client-sdk/src/FusionPlusClient.ts].
    - [PageShell]: the resolver panel [ResolverStatus.tsx] with its concurrent
      health checks and the selection it keeps in [App.tsx].
    - [AuctionDisplay]: [DutchAuctionProgress.tsx], on a clock with milliseconds,
      against the auction status that the resolvers compute in whole seconds.
    - [AppShell]: accounts and balances of [App.tsx], [ApprovalBanner.tsx].
    - [SwapForm]: the form of [SwapInterface.tsx] before a swap: direction,
      amount, fetched rate and estimate, as handlers that interleave.
    - [OrderPanels]: [TransactionPanel.tsx] as a fold of the socket events and
      [OrderHistory.tsx] with its loads.
    - [Wallet]: the browser wallets on [window] and the requests to them and to
      the Aptos SDK. [WalletUtils]: the builders of escrow transactions, the
      permit texts, the wallet detection and the Martian connection of
      [frontend/src/utils], one module per file. [WalletTests]: the ranking and
      testing of wallets, [WalletTester.tsx]. [SponsoredPages]: the pages
      [SponsoredTxTest*.tsx].
    - [Merkle]: [generateSecrets] of [frontend/src/utils/partialFillSecrets.ts]
      against [verifyMerkleProof] of [FusionPlusGaslessEscrowV2.sol].

    Contracts and swaps
    - [Htlc]: the specification of a hash-locked escrow, [cell_step]; the
      interface [HtlcChain] of a ledger of such escrows, with its laws
      [HtlcLaws]; what follows from them for any history of transactions.
    - [Evm]: Solidity calls as state transformers that revert, over storage,
      ether and a token ledger ([ERC20], with [TokenLaws] of well-behaved
      tokens). [SolEscrow]: what the two escrow contracts share ([HasEscrows]).
    - [EscrowV2]: [FusionPlusEscrowV2.sol]. [GaslessEscrow], [GaslessSafety]:
      [FusionPlusGaslessEscrowV2.sol] and its traces. [PermitContract]:
      [FusionPlusPermit.sol]. [MoveEscrow]: [fusion_plus_escrow_v3.move].
      [MovePartialFill]: [fusion_plus_partial_fill.move].
    - [AtomicSwap]: two escrows on two ledgers, proved against [HtlcLaws].
      [Settlement]: [completeSwap] of the resolver run against the contracts.

    ** What the theorems show

    - Order book: it refines an abstract ledger; an invariant of every
      reachable book, immutability of the signed terms, finality of FILLED and
      CANCELLED with its one exception, exactness of the expiry sweep, and the
      types of the stored progress.
    - Accounting: percentage, amount and status after a fill on both branches
      of [createFill]; what an unreadable amount leaves behind.
    - Interfaces: the outcome of an order submission; which signatures pass, over
      which terms, and that a signed order cannot be altered; which requests the
      relayer refuses, the call it submits for the others and its nonce
      discipline, with the reachable race;
      orders and permits signed by the frontend are accepted by the engine and
      the resolver, intents signed by the client SDK are not.
    - Pricing, in binary64: the rate is bounded and antitone, so is the minimum
      return, and the status report is exact; the auction the page proposes and
      the rate it shows; the exchange rate with its cache, the margin, and the
      units of the offered amount.
    - Partial fills: bounds and conservation of the partial amounts, the secret
      index, exclusive turns, the three-resolver rotation that reaches exactly
      100, the share that is not cut, Merkle proofs; the page computes the same
      shares as the backend.
    - Swaps in the resolver: no payment before the source withdrawal is
      confirmed, in both directions and for all answers of the outside; whole
      and partial fills are announced only when backed; a source escrow of a
      signed order only when its transaction succeeded; whole orders are taken
      one at a time; the Aptos withdrawal and creation loops; funding guards on
      Ethereum; wrong secrets; the histories in which a swap is reported
      complete or failed against what happened on the chains.
    - Swaps in the browser: the posted order and its meta-transaction carry the
      hash, and the secret is not sent: two secrets with one hash lead to the
      same requests and messages until the reveal; a secret is scheduled for its reveal at most once, under every
      interleaving; an APT escrow is announced as it was signed when a part of an
      order is filled, and not announced when the whole is; waiting for an escrow
      ends; and the ways in which a secret is revealed too early or under
      another order.

    - Contracts: both Solidity escrows refine the escrow specification and
      can always pay what is open; escrows and partial fills of the gasless
      contract are signed, once, and within the signed total; permits are spent
      in order; the Move modules conserve coins and keep partial fills within
      their orders. Where they fall short: the secret is not checked on Aptos,
      approvals to the first contract can be taken by anybody, delegated
      escrows work once, partial fills on Aptos are not funded and do not
      accept the page's Merkle trees.
    - Whole swaps: the meta-transaction the page signs and the permit of an
      order are accepted by the contracts, each with its own typed-data types; who is paid on Ethereum has disclosed
      what pays on Aptos, and not conversely; against nodes that are up the
      resolver's completion pays both sides.
    - Resolver panel and shell: the selection agrees with the panel as long as
      no click meets a running health check, and what happens if one does; the
      display shows the resolvers' rate and countdown, and a progress that is
      less than a second ahead of theirs; the balance shown was read; the outcome
      of an approval.
    - Form, history and transactions: the estimate follows the rate that is
      shown under every interleaving, the rate can be that of the other
      direction or infinite; the history shows the orders of the engine's book
      and no others, newest first; each row of the panel depends on the events
      of its order alone, and countdowns are exact.
    - Wallet utilities and test pages: the builders describe the same escrow;
      a permit can be read back from the text that is signed; a wallet is
      reported to sponsor transactions only after it signed one; signatures are
      of the transaction that was built; what the detection and the ranking of
      wallets choose.

    ** Parameters, fuel and bounds

    Code that is not in the repository is a parameter: the classes [Ethers]
    ([PartialFill]), [Signing] ([Signature]), [EthersBytes] and [AptosSdk]
    ([Chain]), [SignatureParts] ([TokenServices]), [EthersUnits]
    ([OrderIntake]), [AptosCodec] ([SignedOrders]), [EthersDecimals] and
    [AptosErrors] ([WebServices]), [WalletSdk] ([SwapPage]), [ERC20] ([Evm]),
    [Solidity] ([GaslessEscrow]), [TypedHash] ([PermitContract]),
    [MoveHash] ([MovePartialFill]), [AptosResources] ([AppShell]),
    [MerkleTreeJs] ([FillSecrets]), [Locale] ([OrderPanels]), [AptosAccounts]
    ([Wallet]), the zod parser (an argument of [post_orders]). Random bytes are
    arguments. Where a theorem relies on their documented
    behaviour it names a class of laws ([EthersLaws], [AptosSdkLaws],
    [EthersUnitsLaws], [TokenLaws], [StrictTokens], [SpenderLaws],
    [SolidityLaws], [TypedHashLaws], [SameSigner], [MerkleTreeJsLaws]), and its witness instantiates
    it; that a typed-data signature belongs to one message of its signer is the
    hypothesis [signatures_bind] ([Signature]), also with an instance.
    [PriceFields] is the
    part of a component's state that the price service owns. Nodes, contracts,
    wallets and peers are the oracle of the asynchronous programs; they are not
    restricted, except where a theorem supposes a wallet that signs
    ([honest_wallet]), timers that wait ([timers_run]) or nodes that execute
    what they accept ([honest] in [Settlement]). A contract call runs to its end
    without calling back into the contract: the gasless and the permit contract
    have a reentrancy guard on their creating functions, and the calls out are
    to tokens and plain transfers. Addresses and 32-byte words are their texts
    in one spelling.

    The tree loop of [Merkle] runs on fuel equal to the number of leaves: a
    level is at most half the previous one rounded up, so a level of one node
    is reached before the fuel ends ([generate_secrets_shape]). The retry loops
    of the Aptos service count down from the constants of the source (three
    attempts, ten confirmation reads). The polling loop of
    [waitForEscrowCreation] has one round of fuel per two seconds of its limit
    and two more, which is proved to be enough. Printing a number tries up to
    17 digits, which is proved to be enough for every finite double. Auction
    theorems take whole-second times and durations below the bounds of
    [timestamp] and [seconds_auction], within which a count of seconds is exact
    in binary64; [AuctionDisplay] takes milliseconds, and 1024ths of a second,
    exact below 2^43 seconds, to bracket the quotient.

    ** Not modelled

    The markup of the user interface, apart from the texts that the panels
    compute, and its animated background; process start-up, deployment and test
    scripts; unused permit types; the LayerZero adapters and the contracts that
    a later version replaced. In the shell, the check for an earlier wallet
    session at mount and the disconnection call of one wallet. Logging is left
    out, also where it formats amounts; where formatting can throw, the model
    throws. The texts of status messages and dialogs are left out. A socket
    message keeps its name and the fields that name orders, escrows, amounts,
    percentages, secrets and transactions. *)

From Stdlib Require Import ZArith Lia.
From stdpp Require Import base numbers list strings gmap.

(** ** Tactics *)

(** Case analysis on the head [match]/[if] of the goal or of a hypothesis. *)
Ltac break_goal :=
  match goal with
  | |- context [match ?x with _ => _ end] => destruct x eqn:?
  end.

Ltac break_hyp :=
  match goal with
  | H : context [match ?x with _ => _ end] |- _ => destruct x eqn:?
  end.

(** Turn boolean tests on integers into propositions. *)
Ltac zbool :=
  repeat match goal with
  | H : (_ <? _)%Z = true |- _ => apply Z.ltb_lt in H
  | H : (_ <? _)%Z = false |- _ => apply Z.ltb_ge in H
  | H : (_ <=? _)%Z = true |- _ => apply Z.leb_le in H
  | H : (_ <=? _)%Z = false |- _ => apply Z.leb_gt in H
  | H : (_ =? _)%Z = true |- _ => apply Z.eqb_eq in H
  | H : (_ =? _)%Z = false |- _ => apply Z.eqb_neq in H
  end.

(** ** Integers *)

Section Integers.
Local Open Scope Z_scope.

Lemma pow2_pos (e : Z) : 0 <= e -> 0 < 2 ^ e.
Proof. intros; apply Z.pow_pos_nonneg; lia. Qed.

Lemma pow2_le (a b : Z) : a <= b -> 2 ^ a <= 2 ^ b.
Proof. intros; apply Z.pow_le_mono_r; lia. Qed.

Lemma pow2_add (a b : Z) : 0 <= a -> 0 <= b -> 2 ^ (a + b) = 2 ^ a * 2 ^ b.
Proof. intros; apply Z.pow_add_r; lia. Qed.

Lemma log2_pow2_bounds (n : Z) :
  0 < n -> 2 ^ Z.log2 n <= n < 2 ^ (Z.log2 n + 1).
Proof.
  intros Hn. rewrite Z.add_1_r. by apply Z.log2_spec.
Qed.
End Integers.

Create HintDb fusion.
Create Rewrite HintDb fusion_rw.
#[export] Hint Resolve pow2_pos pow2_le : fusion.

(** ** Sums over a finite map *)

(** An option that evaluates to a value is the value it defaults to. *)
Lemma some_default {A} (d : A) (o : option A) :
  match o with Some _ => true | None => false end = true -> o = Some (default d o).
Proof. by destruct o. Qed.

Section MapSum.
Context {K A : Type} `{Countable K}.
Local Open Scope Z_scope.

Definition map_sum (f : A -> Z) (m : gmap K A) : Z := map_fold (fun _ x acc => f x + acc) 0 m.

Lemma map_sum_empty f : map_sum f ∅ = 0.
Proof. apply map_fold_empty. Qed.

Lemma map_sum_fresh f (m : gmap K A) k x :
  m !! k = None -> map_sum f (<[k := x]> m) = f x + map_sum f m.
Proof. intros Hk. unfold map_sum. rewrite map_fold_insert_L; [done|lia|done]. Qed.

Lemma map_sum_insert f (m : gmap K A) k x :
  map_sum f (<[k := x]> m) = map_sum f m + f x - match m !! k with Some y => f y | None => 0 end.
Proof.
  destruct (m !! k) as [y|] eqn:Hk; [|rewrite map_sum_fresh by done; lia].
  rewrite <- (insert_delete_id m k y Hk) at 2. rewrite <- insert_delete_eq.
  rewrite !map_sum_fresh by apply lookup_delete_eq. lia.
Qed.

Lemma map_sum_nonneg f (m : gmap K A) :
  (forall k x, m !! k = Some x -> 0 <= f x) -> 0 <= map_sum f m.
Proof.
  induction m as [|k x m Hk IH] using map_ind; intros Hf; [by rewrite map_sum_empty|].
  rewrite map_sum_fresh by done.
  assert (0 <= f x) by (apply (Hf k); apply lookup_insert_eq).
  assert (0 <= map_sum f m); [|lia]. apply IH. intros k' x' Hk'. apply (Hf k').
  rewrite lookup_insert_ne; [done|]. by intros ->; rewrite Hk in Hk'.
Qed.

Lemma map_sum_lookup f (m : gmap K A) k x :
  (forall k' x', m !! k' = Some x' -> 0 <= f x') -> m !! k = Some x -> f x <= map_sum f m.
Proof.
  intros Hf Hk. rewrite <- (insert_delete_id m k x Hk), map_sum_fresh by apply lookup_delete_eq.
  assert (0 <= map_sum f (delete k m)); [|lia]. apply map_sum_nonneg. intros k' x' Hd.
  apply (Hf k'). by apply lookup_delete_Some in Hd as [_ ?].
Qed.
End MapSum.
