(* ===== verification/JsNumber.v ===== *)
(** * JavaScript numbers

    IEEE-754 binary64 with round-to-nearest-even.  Every finite double is an
    integer multiple of [2^-1074], so a finite number is represented by that
    integer.  Zero is unsigned. *)

From Stdlib Require Import ZArith Lia.
From stdpp Require Import base numbers.
From S2P Require Import Prelude.

Local Open Scope Z_scope.

(** ** Representation *)

(** [2^1074]: the number of smallest subnormals in 1. *)
Definition scale : Z := 2 ^ 1074.

(** [2^(1024+1074)]: the magnitude at which a rounded result overflows. *)
Definition overflow : Z := 2 ^ 2098.

Inductive number : Type :=
  | NaN
  | Infinity (negative : bool)
  | Finite (m : Z).

#[export] Instance number_eq_dec : EqDecision number.
Proof. solve_decision. Defined.

(** ** Rounding *)

(** Common factors of two are cancelled before dividing: a double has at most
    53 significant bits but its representation here has a thousand trailing
    zeros. *)
Fixpoint reduce_pos (n d : positive) : positive * positive :=
  match n, d with
  | xO n', xO d' => reduce_pos n' d'
  | _, _ => (n, d)
  end.

Definition reduce (n d : Z) : Z * Z :=
  match n, d with
  | Zpos p, Zpos q => let (p', q') := reduce_pos p q in (Zpos p', Zpos q')
  | _, _ => (n, d)
  end.

(** The integer nearest to [a/b], ties to even ([b > 0]). *)
Definition div_even (a b : Z) : Z :=
  let (a, b) := reduce a b in
  let (q, r) := Z.div_eucl a b in
  if 2 * r <? b then q
  else if b <? 2 * r then q + 1
  else if Z.even q then q else q + 1.

(** The integer quotient [n/d]. *)
Definition quotient (n d : Z) : Z :=
  let (n, d) := reduce n d in n / d.

(** Exponent of the unit in the last place of the binade of [q]. *)
Definition ulp_exp (q : Z) : Z := Z.max 0 (Z.log2 q - 52).

(** The double nearest to [n/d] smallest subnormals, for [n >= 0, d > 0]. *)
Definition round_abs (n d : Z) : Z :=
  let e := ulp_exp (quotient n d) in
  div_even n (d * 2 ^ e) * 2 ^ e.

Definition round_Z (n d : Z) : Z :=
  if n <? 0 then - round_abs (- n) d else round_abs n d.

Definition of_rounded (r : Z) : number :=
  if overflow <=? Z.abs r then Infinity (r <? 0) else Finite r.

Definition round (n d : Z) : number := of_rounded (round_Z n d).

(** A double: rounding leaves it unchanged. *)
Definition is_double (z : Z) : bool :=
  (round_Z z 1 =? z) && (Z.abs z <? overflow).

Definition wf_number (x : number) : bool :=
  match x with Finite z => is_double z | _ => true end.

(** ** Operators *)

Definition of_Z (z : Z) : number := round (z * scale) 1.

(** The decimal literal [n/d]. *)
Definition lit (n d : Z) : number := round (n * scale) d.

Definition neg (x : number) : number :=
  match x with
  | NaN => NaN
  | Infinity s => Infinity (negb s)
  | Finite a => Finite (- a)
  end.

Definition add (x y : number) : number :=
  match x, y with
  | NaN, _ | _, NaN => NaN
  | Infinity s, Infinity t => if Bool.eqb s t then Infinity s else NaN
  | Infinity s, Finite _ => Infinity s
  | Finite _, Infinity t => Infinity t
  | Finite a, Finite b => round (a + b) 1
  end.

Definition sub (x y : number) : number := add x (neg y).

Definition mul (x y : number) : number :=
  match x, y with
  | NaN, _ | _, NaN => NaN
  | Infinity s, Infinity t => Infinity (xorb s t)
  | Infinity s, Finite b =>
      if b =? 0 then NaN else Infinity (xorb s (b <? 0))
  | Finite a, Infinity t =>
      if a =? 0 then NaN else Infinity (xorb t (a <? 0))
  | Finite a, Finite b => round (a * b) scale
  end.

Definition div (x y : number) : number :=
  match x, y with
  | NaN, _ | _, NaN => NaN
  | Infinity _, Infinity _ => NaN
  | Infinity s, Finite b => Infinity (xorb s (b <? 0))
  | Finite _, Infinity _ => Finite 0
  | Finite a, Finite b =>
      if b =? 0 then
        if a =? 0 then NaN else Infinity (a <? 0)
      else round (Z.sgn b * a * scale) (Z.abs b)
  end.

(** The [%] operator: the exact remainder with the sign of the dividend. *)
Definition rem (x y : number) : number :=
  match x, y with
  | Finite a, Finite b => if b =? 0 then NaN else Finite (Z.rem a b)
  | Finite a, Infinity _ => Finite a
  | _, _ => NaN
  end.

Definition floor (x : number) : number :=
  match x with
  | Finite a => Finite (a / scale * scale)
  | _ => x
  end.

(** ** Comparisons *)

Definition leb (x y : number) : bool :=
  match x, y with
  | NaN, _ | _, NaN => false
  | Infinity true, _ => true
  | _, Infinity false => true
  | Infinity false, _ => false
  | _, Infinity true => false
  | Finite a, Finite b => a <=? b
  end.

Definition eqb (x y : number) : bool :=
  match x, y with
  | Finite a, Finite b => a =? b
  | Infinity s, Infinity t => Bool.eqb s t
  | _, _ => false
  end.

Definition ltb (x y : number) : bool := leb x y && negb (eqb x y).
Definition geb (x y : number) : bool := leb y x.
Definition gtb (x y : number) : bool := ltb y x.

Definition max (x y : number) : number :=
  match x, y with
  | NaN, _ | _, NaN => NaN
  | _, _ => if leb x y then y else x
  end.

Definition min (x y : number) : number :=
  match x, y with
  | NaN, _ | _, NaN => NaN
  | _, _ => if leb x y then x else y
  end.

(** Truthiness ([x || d] keeps [x] unless it is [0] or [NaN]). *)
Definition truthy (x : number) : bool :=
  match x with NaN => false | Finite 0 => false | _ => true end.

Definition or_else (x d : number) : number := if truthy x then x else d.

(** [BigInt(x)]: the integer value, or no value ([RangeError]). *)
Definition to_bigint (x : number) : option Z :=
  match x with
  | Finite a => if a mod scale =? 0 then Some (a / scale) else None
  | _ => None
  end.

(** ** Facts about rounding *)

Lemma scale_pos : 0 < scale.
Proof. by apply pow2_pos. Qed.

Lemma overflow_scale : overflow = 2 ^ 1024 * scale.
Proof. unfold overflow, scale. by rewrite <- Z.pow_add_r. Qed.

Lemma scale_pow2 : scale = 2 ^ 1074.
Proof. done. Qed.

#[global] Opaque scale overflow.

Lemma reduce_pos_spec (n d : positive) :
  exists k, 0 < k /\ Zpos n = Zpos (reduce_pos n d).1 * k /\ Zpos d = Zpos (reduce_pos n d).2 * k.
Proof.
  revert d. induction n as [n IH|n IH|]; intros d; try (exists 1; simpl; lia).
  destruct d as [d|d|]; try (exists 1; simpl; lia).
  destruct (IH d) as (k & Hk & Hn & Hd). exists (2 * k). simpl. lia.
Qed.

Lemma reduce_spec (n d : Z) :
  exists k, 0 < k /\ n = (reduce n d).1 * k /\ d = (reduce n d).2 * k.
Proof.
  destruct n as [|p|p]; try (exists 1; simpl; lia).
  destruct d as [|q|q]; try (exists 1; simpl; lia).
  destruct (reduce_pos_spec p q) as (k & Hk & Hn & Hd). exists k.
  simpl. destruct (reduce_pos p q). simpl in *. lia.
Qed.

Lemma quotient_eq (n d : Z) : 0 < d -> quotient n d = n / d.
Proof.
  intros Hd. unfold quotient. destruct (reduce_spec n d) as (k & Hk & Hn & Hd').
  destruct (reduce n d) as [n' d']. simpl in *. subst.
  rewrite Z.div_mul_cancel_r; [done|nia|lia].
Qed.

Lemma div_even_spec (a b : Z) :
  0 < b ->
  let r := div_even a b in
  - b <= 2 * (a - b * r) <= b /\
  (Z.abs (2 * (a - b * r)) = b -> Z.even r = true).
Proof.
  intros Hb. unfold div_even. destruct (reduce_spec a b) as (k & Hk & Ha & Hb').
  destruct (reduce a b) as [a' b']. simpl in Ha, Hb'. subst a b.
  assert (0 < b') as Hb0 by nia.
  pose proof (Z_div_mod a' b' ltac:(lia)) as Hdm.
  destruct (Z.div_eucl a' b') as [q r]. destruct Hdm as [Hdm Hr].
  match goal with |- context [if _ then _ else _] =>
    set (m := if 2 * r <? b' then q
              else if b' <? 2 * r then q + 1 else if Z.even q then q else q + 1)
  end.
  assert (- b' <= 2 * (a' - b' * m) <= b' /\
          (Z.abs (2 * (a' - b' * m)) = b' -> Z.even m = true)) as [H1 H2].
  { subst m. repeat case_match; zbool; split; try lia; try done.
    intros _. rewrite Z.even_add. by destruct (Z.even q). }
  cbn zeta. replace (2 * (a' * k - b' * k * m)) with (2 * (a' - b' * m) * k) by ring.
  split; [nia|]. rewrite Z.abs_mul, (Z.abs_eq k) by lia.
  intros Heq. apply H2. nia.
Qed.

Lemma div_even_unique (a b r : Z) :
  0 < b -> a = b * r -> div_even a b = r.
Proof. intros Hb ->. destruct (div_even_spec (b * r) b Hb) as [H _]. nia. Qed.

Lemma div_even_mono (a1 b1 a2 b2 : Z) :
  0 < b1 -> 0 < b2 -> a1 * b2 <= a2 * b1 -> div_even a1 b1 <= div_even a2 b2.
Proof.
  intros Hb1 Hb2 Hle.
  destruct (div_even_spec a1 b1 Hb1) as [H1 E1].
  destruct (div_even_spec a2 b2 Hb2) as [H2 E2].
  set (r1 := div_even a1 b1) in *. set (r2 := div_even a2 b2) in *.
  destruct (Z.le_gt_cases r1 r2) as [|Hgt]; [done|exfalso].
  assert (b1 * b2 * (r1 - r2) <= b1 * b2 * 1) as Hone by nia.
  assert (0 < b1 * b2) by nia.
  assert (r1 = r2 + 1) as Hr by nia.
  assert (2 * (a1 - b1 * r1) = - b1) as T1 by nia.
  assert (2 * (a2 - b2 * r2) = b2) as T2 by nia.
  rewrite T1, T2 in *.
  specialize (E1 ltac:(lia)). specialize (E2 ltac:(lia)).
  rewrite Hr, Z.even_add, E2 in E1. done.
Qed.

Lemma div_even_cancel (a b k : Z) :
  0 < b -> 0 < k -> div_even (a * k) (b * k) = div_even a b.
Proof.
  intros Hb Hk. apply Z.le_antisymm; apply div_even_mono; nia.
Qed.

Lemma ulp_exp_nonneg (q : Z) : 0 <= ulp_exp q.
Proof. unfold ulp_exp; lia. Qed.

Lemma ulp_exp_mono (q1 q2 : Z) : q1 <= q2 -> ulp_exp q1 <= ulp_exp q2.
Proof. intros H; unfold ulp_exp; pose proof (Z.log2_le_mono _ _ H); lia. Qed.

Lemma ulp_exp_upper (q : Z) : q < 2 ^ (53 + ulp_exp q).
Proof.
  destruct (Z.le_gt_cases q 0) as [Hq|Hq].
  - pose proof (pow2_pos (53 + ulp_exp q)). pose proof (ulp_exp_nonneg q). lia.
  - pose proof (log2_pow2_bounds q Hq) as [_ H].
    eapply Z.lt_le_trans; [exact H|]. apply pow2_le. unfold ulp_exp; lia.
Qed.

Lemma ulp_exp_lower (q : Z) : 0 < ulp_exp q -> 2 ^ (52 + ulp_exp q) <= q.
Proof.
  unfold ulp_exp. intros H.
  destruct (Z.le_gt_cases q 0) as [Hq|Hq]; [rewrite Z.log2_nonpos in H; lia|].
  pose proof (log2_pow2_bounds q Hq) as [L _].
  by replace (52 + Z.max 0 (Z.log2 q - 52)) with (Z.log2 q) by lia.
Qed.

#[export] Hint Resolve scale_pos ulp_exp_nonneg : fusion.

Lemma quot_le (n1 d1 n2 d2 : Z) :
  0 < d1 -> 0 < d2 -> n1 * d2 <= n2 * d1 -> n1 / d1 <= n2 / d2.
Proof.
  intros H1 H2 H. apply Z.div_le_lower_bound; [lia|].
  pose proof (Z.mul_div_le n1 d1 H1). nia.
Qed.

(** A rounded magnitude lies in the closed binade of its quotient. *)
Lemma round_abs_upper (n d : Z) :
  0 < d -> round_abs n d <= 2 ^ (53 + ulp_exp (n / d)).
Proof.
  intros Hd. unfold round_abs. rewrite quotient_eq by done. set (e := ulp_exp (n / d)).
  assert (0 <= e) by apply ulp_exp_nonneg.
  pose proof (pow2_pos e ltac:(lia)).
  pose proof (ulp_exp_upper (n / d)) as Hu. fold e in Hu.
  rewrite pow2_add in * by lia.
  apply Z.mul_le_mono_nonneg_r; [lia|].
  rewrite <- (div_even_unique (2 ^ 53) 1 (2 ^ 53)) by lia.
  apply div_even_mono; [nia|lia|].
  pose proof (Z.mul_succ_div_gt n d Hd). nia.
Qed.

Lemma round_abs_lower (n d : Z) :
  0 < d -> 0 < ulp_exp (n / d) -> 2 ^ (52 + ulp_exp (n / d)) <= round_abs n d.
Proof.
  intros Hd He. unfold round_abs. rewrite quotient_eq by done. set (e := ulp_exp (n / d)) in *.
  pose proof (pow2_pos e ltac:(lia)).
  pose proof (ulp_exp_lower (n / d) He) as Hl. fold e in Hl.
  rewrite pow2_add in * by lia.
  apply Z.mul_le_mono_nonneg_r; [lia|].
  rewrite <- (div_even_unique (2 ^ 52) 1 (2 ^ 52)) by lia.
  apply div_even_mono; [lia|nia|].
  pose proof (Z.mul_div_le n d Hd). nia.
Qed.

Lemma round_abs_mono (n1 d1 n2 d2 : Z) :
  0 < d1 -> 0 < d2 -> n1 * d2 <= n2 * d1 -> round_abs n1 d1 <= round_abs n2 d2.
Proof.
  intros H1 H2 H.
  pose proof (quot_le _ _ _ _ H1 H2 H) as Hq.
  pose proof (ulp_exp_mono _ _ Hq) as He.
  pose proof (ulp_exp_nonneg (n1 / d1)).
  destruct (Z.eq_dec (ulp_exp (n1 / d1)) (ulp_exp (n2 / d2))) as [Heq|Hne].
  - unfold round_abs. rewrite !quotient_eq, <- Heq by done.
    pose proof (pow2_pos (ulp_exp (n1 / d1)) ltac:(lia)).
    apply Z.mul_le_mono_nonneg_r; [lia|]. apply div_even_mono; nia.
  - etrans; [by apply round_abs_upper|].
    etrans; [|apply round_abs_lower; lia]. apply pow2_le; lia.
Qed.

Lemma round_abs_cancel (n d k : Z) :
  0 < d -> 0 < k -> round_abs (n * k) (d * k) = round_abs n d.
Proof.
  intros. apply Z.le_antisymm; apply round_abs_mono; nia.
Qed.

Lemma round_abs_0 (d : Z) : 0 < d -> round_abs 0 d = 0.
Proof.
  intros. unfold round_abs. rewrite quotient_eq, Zdiv_0_l by done. change (ulp_exp 0) with 0.
  rewrite (div_even_unique _ _ 0); lia.
Qed.

Lemma round_abs_nonneg (n d : Z) : 0 <= n -> 0 < d -> 0 <= round_abs n d.
Proof.
  intros. rewrite <- (round_abs_0 d) by done. apply round_abs_mono; nia.
Qed.

Lemma round_Z_mono (n1 d1 n2 d2 : Z) :
  0 < d1 -> 0 < d2 -> n1 * d2 <= n2 * d1 -> round_Z n1 d1 <= round_Z n2 d2.
Proof.
  intros H1 H2 H. unfold round_Z.
  destruct (n1 <? 0) eqn:E1, (n2 <? 0) eqn:E2; zbool.
  - apply Z.opp_le_mono. rewrite !Z.opp_involutive. apply round_abs_mono; nia.
  - pose proof (round_abs_nonneg (- n1) d1). pose proof (round_abs_nonneg n2 d2). lia.
  - nia.
  - by apply round_abs_mono.
Qed.

Lemma round_Z_opp (n d : Z) : 0 < d -> round_Z (- n) d = - round_Z n d.
Proof.
  intros Hd. unfold round_Z.
  destruct (- n <? 0) eqn:E1, (n <? 0) eqn:E2; zbool; try lia.
  - by rewrite Z.opp_involutive.
  - replace n with 0 by lia. rewrite Z.opp_0, round_abs_0; lia.
Qed.

Lemma round_Z_cancel (n d k : Z) :
  0 < d -> 0 < k -> round_Z (n * k) (d * k) = round_Z n d.
Proof.
  intros. apply Z.le_antisymm; apply round_Z_mono; nia.
Qed.

Lemma round_Z_0 (d : Z) : 0 < d -> round_Z 0 d = 0.
Proof. apply round_abs_0. Qed.

(** ** Doubles: a 53-bit significand and an exponent *)

Definition double_form (z : Z) : Prop :=
  exists m e, 0 <= e /\ Z.abs m <= 2 ^ 53 /\ z = m * 2 ^ e.

Lemma double_form_opp (z : Z) : double_form z -> double_form (- z).
Proof. intros (m & e & ? & ? & ->). exists (- m), e. lia. Qed.

Lemma double_form_divisible (z : Z) :
  0 < z -> double_form z -> exists k, z = k * 2 ^ ulp_exp z.
Proof.
  intros Hz (m & e & He & Hm & Heq).
  pose proof (pow2_pos e He).
  destruct (Z.le_gt_cases (ulp_exp z) e) as [Hle|Hgt].
  - exists (m * 2 ^ (e - ulp_exp z)).
    rewrite <- Z.mul_assoc, <- pow2_add by (pose proof (ulp_exp_nonneg z); lia).
    by replace (e - ulp_exp z + ulp_exp z) with e by lia.
  - pose proof (ulp_exp_lower z ltac:(lia)) as Hl.
    pose proof (pow2_le (53 + e) (52 + ulp_exp z) ltac:(lia)) as Hp.
    rewrite pow2_add in Hp by lia.
    assert (m = 2 ^ 53) as -> by nia.
    assert (z = 2 ^ (53 + e)) as Hze by (rewrite pow2_add; lia).
    assert (ulp_exp z = e + 1) as Hu.
    { unfold ulp_exp. rewrite Hze, Z.log2_pow2; lia. }
    exists (2 ^ 52). rewrite Hu, <- pow2_add by lia. rewrite Hze. f_equal; lia.
Qed.

Lemma round_abs_double (z : Z) :
  0 <= z -> double_form z -> round_abs z 1 = z.
Proof.
  intros Hz Hd. destruct (Z.eq_dec z 0) as [->|]; [by rewrite round_abs_0|].
  destruct (double_form_divisible z ltac:(lia) Hd) as [k Hk].
  unfold round_abs. rewrite quotient_eq, Z.div_1_r by done.
  pose proof (pow2_pos (ulp_exp z) (ulp_exp_nonneg z)).
  rewrite (div_even_unique _ _ k); lia.
Qed.

Lemma round_Z_double (z : Z) : double_form z -> round_Z z 1 = z.
Proof.
  intros Hd. unfold round_Z. case_match; zbool.
  - rewrite round_abs_double; [lia|lia|by apply double_form_opp].
  - by apply round_abs_double.
Qed.

Lemma double_form_round_abs (n d : Z) :
  0 <= n -> 0 < d -> double_form (round_abs n d).
Proof.
  intros Hn Hd. exists (div_even n (d * 2 ^ ulp_exp (n / d))), (ulp_exp (n / d)).
  split_and!; [apply ulp_exp_nonneg| |unfold round_abs; by rewrite quotient_eq].
  pose proof (round_abs_upper n d Hd) as Hu.
  pose proof (round_abs_nonneg n d Hn Hd) as Hl.
  pose proof (ulp_exp_nonneg (n / d)).
  pose proof (pow2_pos (ulp_exp (n / d)) ltac:(lia)).
  unfold round_abs in *. rewrite quotient_eq in * by done. rewrite pow2_add in Hu by lia.
  rewrite Z.abs_eq by nia. nia.
Qed.

Lemma double_form_round_Z (n d : Z) : 0 < d -> double_form (round_Z n d).
Proof.
  intros Hd. unfold round_Z. case_match; zbool.
  - apply double_form_opp, double_form_round_abs; lia.
  - apply double_form_round_abs; lia.
Qed.

Lemma is_double_spec (z : Z) :
  is_double z = true <-> double_form z /\ Z.abs z < overflow.
Proof.
  unfold is_double. rewrite andb_true_iff, Z.eqb_eq, Z.ltb_lt.
  split; intros [H1 H2]; split; try done.
  - rewrite <- H1. by apply double_form_round_Z.
  - by apply round_Z_double.
Qed.

(** ** Order *)

(** Neither [NaN] nor infinite. *)
Definition is_finite (x : number) : bool :=
  match x with Finite _ => true | _ => false end.

Definition is_number (x : number) : bool :=
  match x with NaN => false | _ => true end.

Ltac number_cases :=
  repeat match goal with
  | x : number |- _ => destruct x
  | b : bool |- _ => destruct b
  end; cbn [leb is_number is_finite wf_number neg add mul div floor] in *; try done.

Lemma leb_refl (x : number) : is_number x = true -> leb x x = true.
Proof. number_cases. intros _. apply Z.leb_refl. Qed.

Lemma leb_trans (x y z : number) :
  leb x y = true -> leb y z = true -> leb x z = true.
Proof. number_cases. rewrite !Z.leb_le. lia. Qed.

Lemma leb_total (x y : number) :
  is_number x = true -> is_number y = true -> leb x y = true \/ leb y x = true.
Proof. number_cases; auto. rewrite !Z.leb_le. lia. Qed.

Lemma leb_antisym (x y : number) : leb x y = true -> leb y x = true -> x = y.
Proof. number_cases. rewrite !Z.leb_le. intros. f_equal; lia. Qed.

Lemma ltb_not_leb (x y : number) :
  is_number x = true -> is_number y = true -> ltb x y = negb (leb y x).
Proof.
  unfold ltb. destruct x as [|[]|a], y as [|[]|b]; simpl; try done.
  intros _ _. destruct (Z.leb_spec a b), (Z.leb_spec b a), (Z.eqb_spec a b); simpl; done || lia.
Qed.

Lemma leb_is_number (x y : number) :
  leb x y = true -> is_number x = true /\ is_number y = true.
Proof. number_cases. Qed.

Lemma leb_finite_between (x y z : number) :
  leb x y = true -> leb y z = true -> is_finite x = true -> is_finite z = true ->
  is_finite y = true.
Proof. number_cases. Qed.

Lemma max_spec (x y : number) :
  is_number x = true -> is_number y = true -> max x y = if leb x y then y else x.
Proof. number_cases. Qed.

Lemma min_spec (x y : number) :
  is_number x = true -> is_number y = true -> min x y = if leb x y then x else y.
Proof. number_cases. Qed.

Lemma leb_false (x y : number) :
  is_number x = true -> is_number y = true -> leb x y = false -> leb y x = true.
Proof. intros Hx Hy H. destruct (leb_total x y Hx Hy); congruence. Qed.

Lemma max_l (x y : number) : is_number x = true -> is_number y = true -> leb x (max x y) = true.
Proof. intros Hx Hy. rewrite max_spec by done. case_match; [done|by apply leb_refl]. Qed.

Lemma max_r (x y : number) : is_number x = true -> is_number y = true -> leb y (max x y) = true.
Proof. intros Hx Hy. rewrite max_spec by done. case_match; [by apply leb_refl|by apply leb_false]. Qed.

Lemma max_lub (x y z : number) : leb x z = true -> leb y z = true -> leb (max x y) z = true.
Proof.
  intros Hx Hy. destruct (leb_is_number _ _ Hx), (leb_is_number _ _ Hy).
  rewrite max_spec by done. by case_match.
Qed.

Lemma max_mono_l (x y z : number) :
  leb x y = true -> is_number z = true -> leb (max x z) (max y z) = true.
Proof.
  intros H Hz. destruct (leb_is_number _ _ H).
  apply max_lub; [eapply leb_trans; [exact H|by apply max_l]|by apply max_r].
Qed.

Lemma min_l (x y : number) : is_number x = true -> is_number y = true -> leb (min x y) x = true.
Proof. intros Hx Hy. rewrite min_spec by done. case_match; [by apply leb_refl|by apply leb_false]. Qed.

Lemma min_r (x y : number) : is_number x = true -> is_number y = true -> leb (min x y) y = true.
Proof. intros Hx Hy. rewrite min_spec by done. case_match; [done|by apply leb_refl]. Qed.

Lemma min_glb (x y z : number) : leb z x = true -> leb z y = true -> leb z (min x y) = true.
Proof.
  intros Hx Hy. destruct (leb_is_number _ _ Hx), (leb_is_number _ _ Hy).
  rewrite min_spec by done. by case_match.
Qed.

(** ** Monotone operators *)

Lemma overflow_pos : 0 < overflow.
Proof. rewrite overflow_scale. pose proof scale_pos. lia. Qed.

Lemma of_rounded_mono (r1 r2 : Z) :
  r1 <= r2 -> leb (of_rounded r1) (of_rounded r2) = true.
Proof.
  intros H. pose proof overflow_pos. unfold of_rounded.
  destruct (overflow <=? Z.abs r1) eqn:E1, (overflow <=? Z.abs r2) eqn:E2;
    zbool; destruct (r1 <? 0) eqn:F1, (r2 <? 0) eqn:F2; zbool; simpl; try done; try lia.
Qed.

Lemma round_mono (n1 d1 n2 d2 : Z) :
  0 < d1 -> 0 < d2 -> n1 * d2 <= n2 * d1 ->
  leb (round n1 d1) (round n2 d2) = true.
Proof. intros. by apply of_rounded_mono, round_Z_mono. Qed.

Lemma round_is_number (n d : Z) : is_number (round n d) = true.
Proof. unfold round, of_rounded. by case_match. Qed.

Lemma round_double (z : Z) : is_double z = true -> round z 1 = Finite z.
Proof.
  intros [Hf Ho]%is_double_spec. unfold round, of_rounded.
  rewrite round_Z_double by done.
  destruct (Z.leb_spec overflow (Z.abs z)); [lia|done].
Qed.

Lemma round_cancel (n d k : Z) : 0 < d -> 0 < k -> round (n * k) (d * k) = round n d.
Proof. intros. unfold round. by rewrite round_Z_cancel. Qed.

Lemma leb_neg_infinity (x : number) : is_number x = true -> leb (Infinity true) x = true.
Proof. number_cases. Qed.

Lemma leb_pos_infinity (x : number) : is_number x = true -> leb x (Infinity false) = true.
Proof. number_cases. Qed.

Lemma add_mono_l (x y z : number) :
  leb x y = true -> is_finite z = true -> leb (add x z) (add y z) = true.
Proof.
  number_cases;
    try (intros; apply leb_neg_infinity, round_is_number);
    try (intros; apply leb_pos_infinity, round_is_number).
  rewrite Z.leb_le. intros. apply round_mono; lia.
Qed.

Lemma add_comm (x y : number) : add x y = add y x.
Proof. number_cases. by rewrite Z.add_comm. Qed.

Lemma neg_anti (x y : number) : leb x y = true -> leb (neg y) (neg x) = true.
Proof. number_cases. rewrite !Z.leb_le. lia. Qed.

Lemma sub_anti_r (x y z : number) :
  leb y z = true -> is_finite x = true -> leb (sub x z) (sub x y) = true.
Proof.
  intros H Hx. unfold sub. rewrite !(add_comm x).
  apply add_mono_l; [by apply neg_anti|done].
Qed.

(** Subtracting a non-negative number does not increase a double. *)
Lemma sub_le (x y : number) :
  wf_number x = true -> is_finite x = true ->
  leb (Finite 0) y = true -> leb (sub x y) x = true.
Proof.
  intros Hw Hf Hy. destruct x as [| |a]; try done.
  eapply leb_trans; [by apply (sub_anti_r (Finite a) (Finite 0) y)|].
  unfold sub. simpl. rewrite Z.add_0_r, round_double by done. apply Z.leb_refl.
Qed.

Lemma mul_mono_nonneg (x y z : number) :
  leb x y = true -> leb (Finite 0) z = true -> is_finite z = true ->
  is_finite x = true -> is_finite y = true ->
  leb (mul x z) (mul y z) = true.
Proof.
  destruct x as [| |a], y as [| |b], z as [| |c]; try done. cbn [leb].
  intros H%Z.leb_le Hc%Z.leb_le _ _ _. pose proof scale_pos.
  apply round_mono; [done|done|]. pose proof (Z.mul_le_mono_nonneg_r a b c Hc H). nia.
Qed.

Lemma mul_nonneg (x y : number) :
  leb (Finite 0) x = true -> leb (Finite 0) y = true ->
  is_finite x = true -> is_finite y = true -> leb (Finite 0) (mul x y) = true.
Proof.
  destruct x as [| |a], y as [| |b]; try done.
  intros Hx%Z.leb_le Hy%Z.leb_le _ _. pose proof scale_pos.
  assert (round 0 1 = Finite 0) as <- by (by apply round_double).
  apply round_mono; [done|done|]. pose proof (Z.mul_nonneg_nonneg a b Hx Hy). lia.
Qed.

Lemma add_nonneg (x y : number) :
  leb (Finite 0) x = true -> leb (Finite 0) y = true -> leb (Finite 0) (add x y) = true.
Proof.
  destruct x as [|[]|a], y as [|[]|b]; try done.
  intros Hx%Z.leb_le Hy%Z.leb_le.
  assert (round 0 1 = Finite 0) as <- by (by apply round_double).
  apply round_mono; lia.
Qed.

Lemma div_mono_pos (x y z : number) :
  leb x y = true -> ltb (Finite 0) z = true -> is_finite z = true ->
  is_finite x = true -> is_finite y = true ->
  leb (div x z) (div y z) = true.
Proof.
  destruct x as [| |a], y as [| |b], z as [| |c]; try done.
  unfold ltb; cbn [leb eqb div]. rewrite andb_true_iff, negb_true_iff.
  intros Hle%Z.leb_le [Hz1%Z.leb_le Hz2%Z.eqb_neq] _ _ _.
  destruct (Z.eqb_spec c 0); [lia|]. pose proof scale_pos.
  rewrite !Z.abs_eq, !Z.sgn_pos by lia. apply round_mono; [lia|lia|].
  pose proof (Z.mul_le_mono_nonneg_r a b scale ltac:(lia) Hle). nia.
Qed.

Lemma floor_mono (x y : number) : leb x y = true -> leb (floor x) (floor y) = true.
Proof.
  destruct x as [|[]|a], y as [|[]|b]; try done. cbn [leb floor].
  rewrite !Z.leb_le. intros H. pose proof scale_pos.
  pose proof (Z.div_le_mono a b scale). nia.
Qed.

Lemma floor_le (x : number) : is_number x = true -> leb (floor x) x = true.
Proof.
  number_cases. intros _. rewrite Z.leb_le. pose proof scale_pos.
  pose proof (Z.mul_div_le m scale). lia.
Qed.

(** ** Results are doubles *)

Lemma wf_round (n d : Z) : 0 < d -> wf_number (round n d) = true.
Proof.
  intros Hd. unfold round, of_rounded. case_match; [done|].
  apply is_double_spec. split; [by apply double_form_round_Z|]. zbool; lia.
Qed.

Lemma wf_neg (x : number) : wf_number x = true -> wf_number (neg x) = true.
Proof.
  destruct x as [| |a]; try done. cbn. rewrite !is_double_spec.
  intros [H1 H2]. split; [by apply double_form_opp|lia].
Qed.

Lemma wf_add (x y : number) : wf_number (add x y) = true.
Proof.
  destruct x, y; cbn [add]; try done; try case_match; try done; by apply wf_round.
Qed.

Lemma wf_mul (x y : number) : wf_number (mul x y) = true.
Proof.
  destruct x, y; cbn [mul]; try done; try case_match; try done. apply wf_round, scale_pos.
Qed.

Lemma wf_div (x y : number) : wf_number (div x y) = true.
Proof.
  destruct x, y; cbn [div]; try done. repeat case_match; try done.
  zbool. apply wf_round. lia.
Qed.

Lemma double_form_floor (z : Z) : double_form z -> double_form (z / scale * scale).
Proof.
  intros (m & e & He & Hm & ->). pose proof scale_pos as Hs.
  rewrite scale_pow2 in *.
  destruct (Z.le_gt_cases 1074 e) as [Hle|Hgt].
  - exists m, e. split_and!; [done|done|].
    replace e with (e - 1074 + 1074) by lia. rewrite pow2_add by lia.
    rewrite Z.mul_assoc, Z.div_mul by lia. done.
  - exists (m * 2 ^ e / 2 ^ 1074), 1074. split_and!; [lia| |done].
    pose proof (pow2_le e 1074 ltac:(lia)). pose proof (pow2_pos e He).
    apply Z.abs_le. split.
    + apply Z.div_le_lower_bound; [lia|]. nia.
    + apply Z.div_le_upper_bound; [lia|]. nia.
Qed.

Lemma is_double_floor (z : Z) :
  0 <= z -> is_double z = true -> is_double (z / scale * scale) = true.
Proof.
  rewrite !is_double_spec. intros Hz [Hf Ho]. split; [by apply double_form_floor|].
  pose proof scale_pos. pose proof (Z.mul_div_le z scale). pose proof (Z.div_pos z scale). lia.
Qed.

Lemma wf_max (x y : number) :
  wf_number x = true -> wf_number y = true -> wf_number (max x y) = true.
Proof. intros. unfold max. destruct x, y; try done; by case_match. Qed.

Lemma wf_min (x y : number) :
  wf_number x = true -> wf_number y = true -> wf_number (min x y) = true.
Proof. intros. unfold min. destruct x, y; try done; by case_match. Qed.

(** ** Integers below [2^53] are exact *)

Definition small (z : Z) : Prop := Z.abs z <= 2 ^ 53.

Lemma small_double (z : Z) : small z -> is_double (z * scale) = true.
Proof.
  intros H. unfold small in H. pose proof scale_pos. apply is_double_spec. split.
  - exists z, 1074. rewrite scale_pow2. lia.
  - rewrite overflow_scale, Z.abs_mul, (Z.abs_eq scale) by lia.
    apply Z.mul_lt_mono_pos_r; lia.
Qed.

Lemma of_Z_small (z : Z) : small z -> of_Z z = Finite (z * scale).
Proof. intros. by apply round_double, small_double. Qed.

Lemma wf_of_Z (z : Z) : wf_number (of_Z z) = true.
Proof. by apply wf_round. Qed.

Lemma add_of_Z (a b : Z) :
  small a -> small b -> add (of_Z a) (of_Z b) = of_Z (a + b).
Proof.
  intros. rewrite !(of_Z_small a), !(of_Z_small b) by done. cbn [add].
  unfold of_Z. f_equal. lia.
Qed.

Lemma sub_of_Z (a b : Z) :
  small a -> small b -> sub (of_Z a) (of_Z b) = of_Z (a - b).
Proof.
  intros. rewrite !(of_Z_small a), !(of_Z_small b) by done.
  unfold sub; cbn [add neg]. unfold of_Z. f_equal. lia.
Qed.

Lemma mul_of_Z (a b : Z) :
  small a -> small b -> mul (of_Z a) (of_Z b) = of_Z (a * b).
Proof.
  intros. rewrite !(of_Z_small a), !(of_Z_small b) by done. cbn [mul].
  unfold of_Z. rewrite <- (round_cancel (a * b * scale) 1 scale) by (pose proof scale_pos; lia).
  f_equal; lia.
Qed.

Lemma leb_of_Z (a b : Z) : small a -> small b -> leb (of_Z a) (of_Z b) = (a <=? b).
Proof.
  intros. rewrite !of_Z_small by done. cbn [leb]. pose proof scale_pos.
  destruct (Z.leb_spec a b), (Z.leb_spec (a * scale) (b * scale)); nia.
Qed.

Lemma eqb_of_Z (a b : Z) : small a -> small b -> eqb (of_Z a) (of_Z b) = (a =? b).
Proof.
  intros. rewrite !of_Z_small by done. cbn [eqb]. pose proof scale_pos.
  destruct (Z.eqb_spec a b), (Z.eqb_spec (a * scale) (b * scale)); nia.
Qed.

Lemma ltb_of_Z (a b : Z) : small a -> small b -> ltb (of_Z a) (of_Z b) = (a <? b).
Proof.
  intros. unfold ltb. rewrite leb_of_Z, eqb_of_Z by done.
  destruct (Z.leb_spec a b), (Z.eqb_spec a b), (Z.ltb_spec a b); simpl; done || lia.
Qed.

Lemma floor_of_Z (z : Z) : small z -> floor (of_Z z) = of_Z z.
Proof.
  intros. rewrite of_Z_small by done. cbn [floor]. pose proof scale_pos.
  by rewrite Z.div_mul by lia.
Qed.

(** Distance of a rounded magnitude to the exact quotient: half an ulp. *)
Lemma round_abs_near (n d : Z) :
  0 < d ->
  Z.abs (2 * (n - d * round_abs n d)) <= d * 2 ^ ulp_exp (n / d).
Proof.
  intros Hd. unfold round_abs. rewrite quotient_eq by done. set (e := ulp_exp (n / d)).
  pose proof (pow2_pos e (ulp_exp_nonneg _)).
  pose proof (div_even_spec n (d * 2 ^ e) ltac:(nia)) as [Hs _].
  replace (d * (div_even n (d * 2 ^ e) * 2 ^ e))
    with (d * 2 ^ e * div_even n (d * 2 ^ e)) by ring. lia.
Qed.

(** A quotient of integers below [2^53] never rounds up to the next integer. *)
Lemma round_quotient_below (a b : Z) :
  0 <= a < 2 ^ 53 -> 0 < b <= 2 ^ 53 ->
  round_abs (a * scale) b <> (a / b + 1) * scale.
Proof.
  intros Ha Hb Heq. pose proof scale_pos as Hs.
  pose proof (Z.mul_succ_div_gt a b ltac:(lia)) as Hhi.
  pose proof (round_abs_near (a * scale) b ltac:(lia)) as Hn.
  rewrite Heq in Hn. set (q := a / b) in *.
  pose proof (ulp_exp_nonneg (a * scale / b)) as He0.
  pose proof (ulp_exp_lower (a * scale / b)) as Hl.
  pose proof (Z.mul_div_le (a * scale) b ltac:(lia)) as Hd.
  set (e := ulp_exp (a * scale / b)) in *.
  assert (2 * scale <= b * 2 ^ e) as H2 by nia.
  destruct (Z.eq_dec e 0) as [He|He].
  - rewrite He, scale_pow2 in H2. lia.
  - specialize (Hl ltac:(lia)). rewrite pow2_add in Hl by lia. nia.
Qed.

Lemma round_quotient_bounds (a b : Z) :
  0 <= a < 2 ^ 53 -> 0 < b <= 2 ^ 53 ->
  a / b * scale <= round_abs (a * scale) b < (a / b + 1) * scale.
Proof.
  intros Ha Hb. pose proof scale_pos as Hs.
  assert (0 <= a / b <= a) as Hq.
  { split; [apply Z.div_pos; lia|]. apply Z.div_le_upper_bound; nia. }
  pose proof (Z.mul_div_le a b ltac:(lia)) as Hlo.
  pose proof (Z.mul_succ_div_gt a b ltac:(lia)) as Hhi.
  pose proof (round_quotient_below a b Ha Hb) as Hne.
  set (q := a / b) in *.
  assert (forall z, 0 <= z <= 2 ^ 53 -> round_abs (z * scale) 1 = z * scale) as Hid.
  { intros z Hz. apply round_abs_double; [nia|].
    exists z, 1074. rewrite scale_pow2; lia. }
  split.
  - rewrite <- (Hid q) by lia. apply round_abs_mono; nia.
  - enough (round_abs (a * scale) b <= (q + 1) * scale) by lia.
    rewrite <- (Hid (q + 1)) by lia. apply round_abs_mono; nia.
Qed.

(** [Math.floor(a / b)] is the exact integer quotient for integers below
    [2^53]. *)
Lemma floor_div_of_Z (a b : Z) :
  0 <= a < 2 ^ 53 -> 0 < b <= 2 ^ 53 ->
  floor (div (of_Z a) (of_Z b)) = of_Z (a / b).
Proof.
  intros Ha Hb. pose proof scale_pos as Hs.
  assert (0 <= a / b <= a) as Hq.
  { split; [apply Z.div_pos; lia|]. apply Z.div_le_upper_bound; nia. }
  pose proof (round_quotient_bounds a b Ha Hb) as Hr.
  rewrite !of_Z_small by (unfold small; lia). cbn [div].
  destruct (Z.eqb_spec (b * scale) 0); [nia|].
  rewrite Z.sgn_pos, Z.abs_eq, Z.mul_1_l, round_cancel by nia.
  unfold round, of_rounded, round_Z.
  destruct (Z.ltb_spec (a * scale) 0); [nia|].
  destruct (Z.leb_spec overflow (Z.abs (round_abs (a * scale) b))) as [Ho|Ho].
  { rewrite overflow_scale in Ho. nia. }
  cbn [floor]. f_equal. f_equal.
  apply Z.le_antisymm; [|apply Z.div_le_lower_bound; lia].
  apply Z.lt_succ_r, Z.div_lt_upper_bound; lia.
Qed.

Lemma to_bigint_floor (a : Z) : to_bigint (floor (Finite a)) = Some (a / scale).
Proof.
  pose proof scale_pos. cbn [floor to_bigint].
  by rewrite Z.mod_mul, Z.div_mul by lia.
Qed.

Lemma to_bigint_of_Z (z : Z) : small z -> to_bigint (of_Z z) = Some z.
Proof.
  intros. rewrite of_Z_small by done. pose proof scale_pos. cbn [to_bigint].
  by rewrite Z.mod_mul, Z.div_mul by lia.
Qed.

Lemma rem_of_Z (a b : Z) :
  0 <= a -> 0 < b -> small a -> small b -> rem (of_Z a) (of_Z b) = of_Z (a mod b).
Proof.
  intros Ha Hb Hsa Hsb. pose proof scale_pos as Hs.
  pose proof (Z.mod_pos_bound a b Hb) as Hm.
  rewrite !of_Z_small by (unfold small in *; lia). cbn [rem].
  destruct (Z.eqb_spec (b * scale) 0); [nia|].
  rewrite Z.mul_rem_distr_r by nia. by rewrite Z.rem_mod_nonneg by lia.
Qed.

Lemma div_self (b : Z) : 0 < b -> small b -> div (of_Z b) (of_Z b) = of_Z 1.
Proof.
  intros Hb Hs. pose proof scale_pos. rewrite of_Z_small by done. cbn [div].
  destruct (Z.eqb_spec (b * scale) 0); [nia|].
  rewrite Z.sgn_pos, Z.abs_eq by nia.
  replace (1 * (b * scale) * scale) with (scale * (b * scale)) by ring.
  rewrite <- (Z.mul_1_l (b * scale)) at 2. by rewrite round_cancel by nia.
Qed.

Lemma of_Z_finite (k : Z) : small k -> is_finite (of_Z k) = true.
Proof. intros. by rewrite of_Z_small. Qed.

Lemma of_Z_0 : of_Z 0 = Finite 0.
Proof. by rewrite of_Z_small. Qed.

Lemma finite_is_number (x : number) : is_finite x = true -> is_number x = true.
Proof. by destruct x. Qed.

Lemma div_nonneg (x y : number) :
  leb (Finite 0) x = true -> is_finite x = true -> is_finite y = true ->
  ltb (Finite 0) y = true -> leb (Finite 0) (div x y) = true.
Proof.
  intros Hx Hfx Hfy Hy.
  assert (div (Finite 0) y = Finite 0) as E.
  { destruct y as [| |b]; try done. cbn [div]. unfold ltb in Hy. cbn in Hy.
    destruct (Z.eqb_spec b 0) as [->|]; [done|].
    rewrite Z.mul_0_r, Z.mul_0_l. unfold round. rewrite round_Z_0 by lia. done. }
  rewrite <- E. by apply div_mono_pos.
Qed.

Lemma mul_comm (x y : number) : mul x y = mul y x.
Proof.
  destruct x as [|[]|a], y as [|[]|b]; cbn [mul]; try done; by rewrite Z.mul_comm.
Qed.

Lemma mul_1_r (x : number) :
  wf_number x = true -> is_finite x = true -> mul x (of_Z 1) = x.
Proof.
  intros Hw Hf. destruct x as [| |a]; try done. pose proof scale_pos.
  rewrite of_Z_small by (unfold small; lia). cbn [mul].
  replace (a * (1 * scale)) with (a * scale) by ring.
  rewrite <- (Z.mul_1_l scale) at 2. rewrite round_cancel by lia. by apply round_double.
Qed.

(** [BigInt(Math.floor(x))] is defined on finite numbers and monotone. *)
Lemma bigint_floor_mono (x y : number) :
  leb x y = true -> is_finite x = true -> is_finite y = true ->
  exists a b, to_bigint (floor x) = Some a /\ to_bigint (floor y) = Some b /\ a <= b.
Proof.
  intros Hle Hx Hy. destruct x as [| |a], y as [| |b]; try done.
  exists (a / scale), (b / scale). rewrite !to_bigint_floor. split_and!; try done.
  apply Z.div_le_mono; [apply scale_pos|by apply Z.leb_le].
Qed.

Lemma bigint_floor_nonneg (x : number) (z : Z) :
  leb (Finite 0) x = true -> to_bigint (floor x) = Some z -> 0 <= z.
Proof.
  intros Hle Hz. pose proof scale_pos. destruct x as [|[]|a]; try done.
  rewrite to_bigint_floor in Hz. injection Hz as <-.
  apply Z.div_pos; [by apply Z.leb_le|done].
Qed.

(** ** Fractions near a double *)

(** A fraction closer to a double than [2^-54] of it rounds to that double. *)
(** A quotient [n / d] close to a double [z]: [z] is within the range of the
    quotient's exponent, and a multiple of its unit in the last place. *)
Section Close.
Context (n d z : Z).
Context (Hz : 0 < z) (Hd : 0 < d) (Hf : double_form z).
Context (Hn : Z.abs (n - z * d) * 2 ^ 54 < z * d).

Lemma close_upper : z <= 2 ^ 53 * 2 ^ ulp_exp (n / d).
Proof.
  set (q := n / d). set (e := ulp_exp q). set (u := 2 ^ e).
  assert (0 <= e) as He by apply ulp_exp_nonneg.
  assert (0 < u) as Hu by by apply pow2_pos.
  destruct (double_form_divisible z Hz Hf) as [k' Hk'].
  set (ez := ulp_exp z) in *. assert (0 <= ez) as Hez by apply ulp_exp_nonneg.
  pose proof (Z.mul_succ_div_gt n d Hd) as Hqu. fold q in Hqu.
  assert (z < 2 ^ 53 * 2 ^ ez) as Hzu by (rewrite <- pow2_add by lia; apply ulp_exp_upper).
  assert (q < 2 ^ 53 * u) as Hqe by (unfold u; rewrite <- pow2_add by lia; apply ulp_exp_upper).
  apply Z.nlt_ge. intros Hlt.
  assert (e < ez) as Hee.
  { apply (Z.pow_lt_mono_r_iff 2); [lia|lia|]. fold u. nia. }
  assert (exists j, z = j * (2 * u)) as [j Hj].
  { exists (k' * 2 ^ (ez - e - 1)). rewrite Hk'. unfold u.
    replace ez with (ez - e - 1 + 1 + e) at 1 by lia. rewrite !pow2_add by lia. ring. }
  assert (2 ^ 52 + 1 <= j) as Hj1.
  { destruct (Z.le_gt_cases j (2 ^ 52)) as [Hle|]; [|lia].
    pose proof (Z.mul_le_mono_nonneg_r j (2 ^ 52) (2 * u) ltac:(lia) Hle). lia. }
  pose proof (Z.mul_le_mono_nonneg_r _ _ (2 * u) ltac:(lia) Hj1) as Hj2. rewrite <- Hj in Hj2.
  assert (n < 2 ^ 53 * u * d) as Hn1.
  { eapply Z.lt_le_trans; [exact Hqu|]. rewrite (Z.mul_comm (2 ^ 53 * u)).
    apply Z.mul_le_mono_nonneg_l; lia. }
  assert ((z - 2 ^ 53 * u) * 2 ^ 54 < z); [|lia].
  apply (Z.mul_lt_mono_pos_r d); [done|]. eapply Z.le_lt_trans; [|exact Hn]. lia.
Qed.

Lemma close_multiple : exists k, z = k * 2 ^ ulp_exp (n / d).
Proof.
  set (q := n / d). set (e := ulp_exp q).
  assert (0 <= e) as He by apply ulp_exp_nonneg.
  destruct (double_form_divisible z Hz Hf) as [k' Hk'].
  set (ez := ulp_exp z) in *. assert (0 <= ez) as Hez by apply ulp_exp_nonneg.
  assert (0 < 2 ^ ez) as Hv by by apply pow2_pos.
  pose proof (Z.mul_div_le n d Hd) as Hql. fold q in Hql.
  assert (z < 2 ^ 53 * 2 ^ ez) as Hzu by (rewrite <- pow2_add by lia; apply ulp_exp_upper).
  destruct (Z.le_gt_cases e ez) as [Hle|Hgt].
  - exists (k' * 2 ^ (ez - e)). rewrite Hk'.
    rewrite <- Z.mul_assoc, <- pow2_add by lia. repeat f_equal. lia.
  - exfalso. pose proof (ulp_exp_lower q ltac:(fold e; lia)) as Hl. fold e in Hl.
    pose proof (pow2_le (53 + ez) (52 + e) ltac:(lia)) as Hp. rewrite pow2_add in Hp by lia.
    assert (k' <= 2 ^ 53 - 1) as Hk1.
    { rewrite Hk' in Hzu. apply Z.mul_lt_mono_pos_r in Hzu; lia. }
    pose proof (Z.mul_le_mono_nonneg_r _ _ (2 ^ ez) ltac:(lia) Hk1) as Hk2. rewrite <- Hk' in Hk2.
    assert (d * (2 ^ 53 * 2 ^ ez) <= n) as Hn1.
    { etrans; [|exact Hql]. apply Z.mul_le_mono_nonneg_l; lia. }
    pose proof (Z.mul_le_mono_nonneg_l _ _ d ltac:(lia) Hk2) as Hk3.
    pose proof (Z.mul_pos_pos d (2 ^ ez) Hd Hv). lia.
Qed.

Lemma round_abs_close : round_abs n d = z.
Proof.
  unfold round_abs. rewrite quotient_eq by done.
  pose proof close_upper as H1. destruct close_multiple as [k Hk].
  set (u := 2 ^ ulp_exp (n / d)) in *.
  assert (0 < u) as Hu by apply pow2_pos, ulp_exp_nonneg.
  assert (2 * Z.abs (n - z * d) < u * d) as Hhalf.
  { pose proof (Z.mul_le_mono_nonneg_r _ _ d ltac:(lia) H1). lia. }
  destruct (div_even_spec n (d * u) ltac:(nia)) as [Hr _].
  set (r := div_even n (d * u)) in *. rewrite Hk in Hhalf.
  assert (0 < d * u) as Hdu by nia.
  rewrite Hk. f_equal. clearbody r. clear - Hhalf Hr Hdu. nia.
Qed.
End Close.

Lemma round_near (n d z : Z) :
  0 < z -> 0 < d -> is_double z = true -> Z.abs (n - z * d) * 2 ^ 54 < z * d ->
  round n d = Finite z.
Proof.
  intros Hz Hd [Hf Ho]%is_double_spec Hn. unfold round, round_Z.
  assert (0 <= n) as Hn0 by nia.
  rewrite (proj2 (Z.ltb_ge n 0)), (round_abs_close n d z) by done. unfold of_rounded.
  by rewrite (proj2 (Z.leb_gt overflow _)) by lia.
Qed.

(** A quotient of integers below [2^53] is rounded, but lies between the
    integers it should lie between. *)
Lemma div_of_Z_bounds (a b : Z) :
  0 <= a < 2 ^ 53 -> 0 < b <= 2 ^ 53 ->
  exists r, div (of_Z a) (of_Z b) = Finite r /\ a / b * scale <= r < (a / b + 1) * scale.
Proof.
  intros Ha Hb. pose proof scale_pos as Hs. exists (round_abs (a * scale) b).
  pose proof (round_quotient_bounds a b Ha Hb) as Hr. split; [|done].
  assert (0 <= a / b <= a) as Hq.
  { split; [apply Z.div_pos; lia|]. apply Z.div_le_upper_bound; nia. }
  rewrite !of_Z_small by (unfold small; lia). cbn [div].
  destruct (Z.eqb_spec (b * scale) 0); [nia|].
  rewrite Z.sgn_pos, Z.abs_eq, Z.mul_1_l, round_cancel by nia.
  unfold round, of_rounded, round_Z. destruct (Z.ltb_spec (a * scale) 0); [nia|].
  destruct (Z.leb_spec overflow (Z.abs (round_abs (a * scale) b))) as [Ho|Ho]; [|done].
  rewrite overflow_scale in Ho. nia.
Qed.

Lemma div_of_Z_exact (k b : Z) :
  0 < b -> small (k * b) -> small b -> div (of_Z (k * b)) (of_Z b) = of_Z k.
Proof.
  intros Hb Hk Hsb. pose proof scale_pos. rewrite (of_Z_small (k * b)), (of_Z_small b) by done.
  cbn [div]. destruct (Z.eqb_spec (b * scale) 0); [nia|].
  rewrite Z.sgn_pos, Z.abs_eq, Z.mul_1_l by nia. unfold of_Z.
  replace (k * b * scale * scale) with (k * scale * (b * scale)) by ring.
  replace (b * scale) with (1 * (b * scale)) at 2 by ring. apply round_cancel; nia.
Qed.

(** A difference of two moderate numbers has the sign it should have. *)
Lemma sub_sign (a b : Z) : Z.abs (a - b) < 2 ^ 54 * scale ->
  exists c, sub (Finite a) (Finite b) = Finite c /\ (0 < c <-> b < a).
Proof.
  intros Hab. pose proof scale_pos as Hs. unfold sub. cbn [neg add].
  assert (forall x y, 0 <= x <= y -> 0 <= round_abs x 1 <= round_abs y 1) as Hm.
  { intros x y Hxy. split; [apply round_abs_nonneg; lia|apply round_abs_mono; lia]. }
  assert (round_abs (2 ^ 54 * scale) 1 = 2 ^ 54 * scale) as Hbig.
  { apply round_abs_double; [lia|]. exists 1, (54 + 1074). rewrite Z.pow_add_r, scale_pow2; lia. }
  assert (round_abs 1 1 = 1) as H1 by reflexivity.
  assert (2 ^ 54 * scale < overflow) as Hov by (rewrite overflow_scale; nia).
  unfold round, of_rounded, round_Z. destruct (Z.ltb_spec (a + - b) 0) as [Hn|Hn].
  - pose proof (Hm (- (a + - b)) (2 ^ 54 * scale) ltac:(lia)).
    destruct (Z.leb_spec overflow (Z.abs (- round_abs (- (a + - b)) 1))); [lia|].
    eexists. split; [reflexivity|lia].
  - pose proof (Hm (a + - b) (2 ^ 54 * scale) ltac:(lia)).
    destruct (Z.leb_spec overflow (Z.abs (round_abs (a + - b) 1))); [lia|].
    eexists. split; [reflexivity|]. destruct (Z.eq_dec (a + - b) 0) as [E|E].
    + rewrite E. change (round_abs 0 1) with 0. lia.
    + pose proof (Hm 1 (a + - b) ltac:(lia)). lia.
Qed.

(** Concrete numbers are evaluated by [vm_compute], never by conversion. *)
#[global] Opaque round.
