(* ===== verification/JsString.v ===== *)
(** * JavaScript strings and BigInts

    The string operations the services use (trimming, case folding, prefix and
    substring tests), exceptions with their messages, and [BigInt] with its
    parser [BigInt(s)] and printer [n.toString()].  A BigInt is a [Z]; strings
    are ASCII. *)

From Stdlib Require Import ZArith NArith Lia Ascii String Decimal DecimalString DecimalN.
From stdpp Require Import base numbers strings.
From S2P Require Import Prelude.
From S2P Require Import JsNumber.

Local Open Scope string_scope.
Local Open Scope Z_scope.

(** ** Exceptions *)

(** The error classes that reach a [catch]; each carries its [message]. The
    last one is the Aptos SDK's error of a transaction that was not confirmed,
    with [lastSubmittedTransaction?.hash]. *)
Inductive exn : Type :=
  | Error (message : string)
  | SyntaxError (message : string)
  | RangeError (message : string)
  | TypeError (message : string)
  | TransactionError (message : string) (lastSubmitted : option string).

#[export] Instance exn_eq_dec : EqDecision exn.
Proof. solve_decision. Defined.

Definition message (e : exn) : string :=
  match e with
  | Error m | SyntaxError m | RangeError m | TypeError m | TransactionError m _ => m
  end.

(** Outcome of a call: a value or a thrown exception. *)
Inductive result (A : Type) : Type :=
  | Ok (a : A)
  | Throw (e : exn).
Arguments Ok {A} a.
Arguments Throw {A} e.

#[export] Instance result_eq_dec {A} `{EqDecision A} : EqDecision (result A).
Proof. solve_decision. Defined.

#[export] Instance Ok_inj {A} : Inj (=) (=) (@Ok A).
Proof. by intros a b [= ->]. Qed.

Definition result_bind {A B} (r : result A) (k : A -> result B) : result B :=
  match r with Ok a => k a | Throw e => Throw e end.

Declare Scope result_scope.
Delimit Scope result_scope with result.
Notation "x <-? c ; k" := (result_bind c (fun x => k))
  (at level 100, c at next level, right associativity) : result_scope.

(** ** Characters and strings *)

Definition is_space (c : ascii) : bool :=
  let n := N_of_ascii c in
  ((9 <=? n) && (n <=? 13) || (n =? 32) || (n =? 160))%N.

Fixpoint trim_start (s : string) : string :=
  match s with
  | String c s' => if is_space c then trim_start s' else s
  | EmptyString => EmptyString
  end.

Fixpoint trim_end (s : string) : string :=
  match s with
  | EmptyString => EmptyString
  | String c s' =>
      match trim_end s' with
      | EmptyString => if is_space c then EmptyString else String c EmptyString
      | r => String c r
      end
  end.

Definition trim (s : string) : string := trim_end (trim_start s).

Fixpoint all_chars (p : ascii -> bool) (s : string) : bool :=
  match s with
  | EmptyString => true
  | String c s' => p c && all_chars p s'
  end.

Fixpoint map_string (f : ascii -> ascii) (s : string) : string :=
  match s with
  | EmptyString => EmptyString
  | String c s' => String (f c) (map_string f s')
  end.

Definition lower_char (c : ascii) : ascii :=
  let n := N_of_ascii c in
  if ((65 <=? n) && (n <=? 90))%N then ascii_of_N (n + 32) else c.

Definition upper_char (c : ascii) : ascii :=
  let n := N_of_ascii c in
  if ((97 <=? n) && (n <=? 122))%N then ascii_of_N (n - 32) else c.

Definition toLowerCase : string -> string := map_string lower_char.
Definition toUpperCase : string -> string := map_string upper_char.

Fixpoint startsWith (s p : string) : bool :=
  match p, s with
  | EmptyString, _ => true
  | String c p', String d s' => Ascii.eqb c d && startsWith s' p'
  | String _ _, EmptyString => false
  end.

Fixpoint includes (s p : string) : bool :=
  startsWith s p ||
  match s with
  | EmptyString => false
  | String _ s' => includes s' p
  end.

(** A string used as a condition or with [||]: only [''] is falsy. *)
Definition str_truthy (s : string) : bool :=
  match s with EmptyString => false | _ => true end.

(** ** BigInt *)

Definition digit_value (c : ascii) : option Z :=
  let n := Z.of_N (N_of_ascii c) in
  if (48 <=? n) && (n <=? 57) then Some (n - 48)
  else if (97 <=? n) && (n <=? 102) then Some (n - 87)
  else if (65 <=? n) && (n <=? 70) then Some (n - 55)
  else None.

Fixpoint parse_digits (base : Z) (s : string) (acc : Z) : option Z :=
  match s with
  | EmptyString => Some acc
  | String c s' =>
      match digit_value c with
      | Some d => if d <? base then parse_digits base s' (acc * base + d) else None
      | None => None
      end
  end.

(** One or more digits. *)
Definition parse_nat (base : Z) (s : string) : option Z :=
  match s with EmptyString => None | _ => parse_digits base s 0 end.

(** StringToBigInt: whitespace around an optionally signed decimal, or a
    [0x], [0o], [0b] literal; the empty string is zero. *)
Definition string_to_bigint (s : string) : option Z :=
  match trim s with
  | EmptyString => Some 0
  | String "0" (String "x" t) | String "0" (String "X" t) => parse_nat 16 t
  | String "0" (String "o" t) | String "0" (String "O" t) => parse_nat 8 t
  | String "0" (String "b" t) | String "0" (String "B" t) => parse_nat 2 t
  | String "-" t => Z.opp <$> parse_nat 10 t
  | String "+" t => parse_nat 10 t
  | t => parse_nat 10 t
  end.

Definition BigInt (s : string) : result Z :=
  match string_to_bigint s with
  | Some z => Ok z
  | None => Throw (SyntaxError ("Cannot convert " ++ s ++ " to a BigInt"))
  end.

(** [BigInt(x)] of a number. *)
Definition BigInt_of_number (x : number) : result Z :=
  match to_bigint x with
  | Some z => Ok z
  | None => Throw (RangeError "The number cannot be converted to a BigInt because it is not an integer")
  end.

Definition N_toString (n : N) : string := NilZero.string_of_uint (N.to_uint n).

(** [n.toString()] *)
Definition toString (z : Z) : string :=
  if z <? 0 then "-" ++ N_toString (Z.to_N (- z)) else N_toString (Z.to_N z).

(** BigInt division truncates and throws on a zero divisor. *)
Definition bigint_div (a b : Z) : result Z :=
  if b =? 0 then Throw (RangeError "Division by zero") else Ok (Z.quot a b).

(** A decimal string in the form [toString] prints. *)
Definition canonical (s : string) : bool :=
  match string_to_bigint s with
  | Some z => String.eqb (toString z) s
  | None => false
  end.

(** ** Facts *)

Lemma all_chars_impl (p q : ascii -> bool) (s : string) :
  (forall c, p c = true -> q c = true) -> all_chars p s = true -> all_chars q s = true.
Proof.
  intros H. induction s as [|c s IH]; [done|]. simpl. rewrite !andb_true_iff.
  intros [Hc Hs]. split; [by apply H|by apply IH].
Qed.

Lemma trim_start_id (s : string) :
  all_chars (fun c => negb (is_space c)) s = true -> trim_start s = s.
Proof.
  destruct s; [done|]. simpl. rewrite andb_true_iff, negb_true_iff.
  intros [-> _]. done.
Qed.

Lemma trim_end_id (s : string) :
  all_chars (fun c => negb (is_space c)) s = true -> trim_end s = s.
Proof.
  induction s as [|c s IH]; [done|]. simpl. rewrite andb_true_iff, negb_true_iff.
  intros [Hc Hs]. rewrite IH by done. destruct s; [by rewrite Hc|done].
Qed.

Lemma trim_id (s : string) :
  all_chars (fun c => negb (is_space c)) s = true -> trim s = s.
Proof. intros H. unfold trim. by rewrite trim_start_id, trim_end_id. Qed.

Definition is_digit (c : ascii) : bool :=
  match digit_value c with Some d => d <? 10 | None => false end.

Lemma digit_not_space (c : ascii) : is_digit c = true -> negb (is_space c) = true.
Proof. by destruct c as [[] [] [] [] [] [] [] []]. Qed.

Lemma uint_digits (d : uint) : all_chars is_digit (NilEmpty.string_of_uint d) = true.
Proof. by induction d. Qed.

Lemma N_toString_eq (n : N) :
  N_toString n = NilEmpty.string_of_uint (N.to_uint n) /\ N.to_uint n <> Nil.
Proof.
  assert (N.to_uint n <> Nil) as Hn.
  { destruct n; [done|]. apply DecimalPos.Unsigned.to_uint_nonnil. }
  split; [|done]. unfold N_toString, NilZero.string_of_uint. by destruct (N.to_uint n).
Qed.

Lemma N_toString_digits (n : N) : all_chars is_digit (N_toString n) = true.
Proof. destruct (N_toString_eq n) as [-> _]. apply uint_digits. Qed.

Lemma parse_uint_acc (d : uint) (p : positive) :
  parse_digits 10 (NilEmpty.string_of_uint d) (Z.pos p) = Some (Z.pos (Pos.of_uint_acc d p)).
Proof.
  revert p. induction d; intros p; [done|..];
    cbn [NilEmpty.string_of_uint parse_digits Pos.of_uint_acc];
    change (digit_value _) with (Some 0) || change (digit_value _) with (Some 1) ||
    change (digit_value _) with (Some 2) || change (digit_value _) with (Some 3) ||
    change (digit_value _) with (Some 4) || change (digit_value _) with (Some 5) ||
    change (digit_value _) with (Some 6) || change (digit_value _) with (Some 7) ||
    change (digit_value _) with (Some 8) || change (digit_value _) with (Some 9);
    rewrite <- IHd; f_equal; lia.
Qed.

Lemma parse_uint (d : uint) :
  parse_digits 10 (NilEmpty.string_of_uint d) 0 = Some (Z.of_N (N.of_uint d)).
Proof.
  induction d; try done; cbn [NilEmpty.string_of_uint parse_digits];
    by rewrite <- ?IHd, ?parse_uint_acc || (simpl; apply parse_uint_acc).
Qed.

Lemma parse_N_toString (n : N) : parse_nat 10 (N_toString n) = Some (Z.of_N n).
Proof.
  destruct (N_toString_eq n) as [-> Hn]. unfold parse_nat.
  destruct (NilEmpty.string_of_uint (N.to_uint n)) eqn:E.
  - by destruct (N.to_uint n).
  - rewrite <- E, parse_uint. by rewrite DecimalN.Unsigned.of_to.
Qed.

(** Two-character prefixes [0x], [0o], [0b] are not decimal digits. *)
Lemma string_to_bigint_digits (s : string) :
  s <> "" -> all_chars is_digit s = true -> string_to_bigint s = parse_nat 10 s.
Proof.
  intros Hs Hd. unfold string_to_bigint.
  rewrite trim_id by (by eapply all_chars_impl; [apply digit_not_space|]).
  destruct s as [|c s]; [done|].
  simpl in Hd. apply andb_true_iff in Hd as [Hc Hd].
  destruct c as [[] [] [] [] [] [] [] []]; try discriminate Hc; try reflexivity.
  destruct s as [|c s]; [reflexivity|].
  simpl in Hd. apply andb_true_iff in Hd as [Hc' _].
  destruct c as [[] [] [] [] [] [] [] []]; try discriminate Hc'; reflexivity.
Qed.

Lemma N_toString_nonempty (n : N) : N_toString n <> "".
Proof.
  destruct (N_toString_eq n) as [-> Hn]. by destruct (N.to_uint n).
Qed.

Lemma string_to_bigint_toString (z : Z) : string_to_bigint (toString z) = Some z.
Proof.
  unfold toString. case_match; zbool.
  - unfold string_to_bigint. rewrite trim_id.
    + change (Z.opp <$> parse_nat 10 (N_toString (Z.to_N (- z))) = Some z).
      rewrite parse_N_toString. simpl. f_equal. lia.
    + change (all_chars (fun c => negb (is_space c)) (N_toString (Z.to_N (- z))) = true).
      eapply all_chars_impl; [apply digit_not_space|apply N_toString_digits].
  - rewrite string_to_bigint_digits, parse_N_toString;
      [f_equal; lia|apply N_toString_nonempty|apply N_toString_digits].
Qed.

Lemma BigInt_toString (z : Z) : BigInt (toString z) = Ok z.
Proof. unfold BigInt. by rewrite string_to_bigint_toString. Qed.

Lemma canonical_toString (z : Z) : canonical (toString z) = true.
Proof. unfold canonical. rewrite string_to_bigint_toString. apply String.eqb_refl. Qed.

Lemma canonical_inv (s : string) :
  canonical s = true -> exists z, s = toString z.
Proof.
  unfold canonical. case_match; [|done]. intros <-%String.eqb_eq. eauto.
Qed.

#[export] Instance toString_inj : Inj (=) (=) toString.
Proof.
  intros a b H. apply (f_equal string_to_bigint) in H.
  rewrite !string_to_bigint_toString in H. by injection H.
Qed.

#[export] Hint Rewrite string_to_bigint_toString BigInt_toString canonical_toString : fusion_rw.
