(* ===== verification/JsFormat.v ===== *)
(** * Numbers as text

    [parseFloat], [Number.prototype.toString] and [toFixed].  A number is
    printed with the fewest decimal digits that read back as the same number,
    and [parseFloat] reads back every printed number. *)

From Stdlib Require Import ZArith Lia Ascii String Decimal DecimalFacts DecimalString DecimalN.
From stdpp Require Import base numbers list strings.
From S2P Require Import Prelude.
From S2P Require Import JsNumber.
From S2P Require Import JsString.

Local Open Scope string_scope.
Local Open Scope Z_scope.

(** ** Decimal literals *)

(** The number nearest to [s * 10^e]. *)
Definition decimal (s e : Z) : number :=
  if 0 <=? e then round (s * 10 ^ e * scale) 1 else round (s * scale) (10 ^ (- e)).

(** The longest prefix of decimal digits, and the rest. *)
Fixpoint span_digits (s : string) : string * string :=
  match s with
  | EmptyString => ("", "")
  | String c s' =>
      if is_digit c then let (ds, r) := span_digits s' in (String c ds, r) else ("", s)
  end.

Definition digits_value (s : string) : Z := default 0 (parse_digits 10 s 0).

Definition str_length (s : string) : Z := Z.of_nat (String.length s).

(** An exponent part [e], [e+] or [e-] followed by digits; without digits there
    is none. *)
Definition exponent_part (s : string) : Z :=
  match s with
  | String c t =>
      if Ascii.eqb (lower_char c) "e" then
        match t with
        | String "-" u => - digits_value (span_digits u).1
        | String "+" u => digits_value (span_digits u).1
        | _ => digits_value (span_digits t).1
        end
      else 0
  | EmptyString => 0
  end.

Definition fraction_part (s : string) : string * string :=
  match s with
  | String "." t => span_digits t
  | _ => ("", s)
  end.

(** The longest prefix that is an unsigned decimal literal. *)
Definition parse_unsigned (s : string) : number :=
  if startsWith s "Infinity" then Infinity false
  else
    let (whole, r) := span_digits s in
    let (frac, r') := fraction_part r in
    if str_truthy (whole ++ frac) then
      decimal (digits_value (whole ++ frac)) (exponent_part r' - str_length frac)
    else NaN.

Definition parseFloat (s : string) : number :=
  match trim_start s with
  | String "-" t => neg (parse_unsigned t)
  | String "+" t => parse_unsigned t
  | t => parse_unsigned t
  end.

(** [parseInt(s)] and [parseInt(s, 16)]: the longest prefix of digits, with a
    [0x] prefix read as base 16. *)
Fixpoint span_base (base : Z) (s : string) : string :=
  match s with
  | String c s' =>
      match digit_value c with
      | Some d => if d <? base then String c (span_base base s') else ""
      | None => ""
      end
  | EmptyString => ""
  end.

Definition parse_int_unsigned (base : Z) (s : string) : number :=
  let '(base, s) := match s with
                    | String "0" (String "x" t) | String "0" (String "X" t) => (16, t)
                    | _ => (base, s)
                    end in
  match parse_nat base (span_base base s) with
  | Some z => of_Z z
  | None => NaN
  end.

Definition parseInt_base (base : Z) (s : string) : number :=
  match trim_start s with
  | String "-" t => neg (parse_int_unsigned base t)
  | String "+" t => parse_int_unsigned base t
  | t => parse_int_unsigned base t
  end.

Definition parseInt : string -> number := parseInt_base 10.

(** ** Printing *)

Definition num_digits (z : Z) : Z := str_length (toString z).

(** The decade of [m] units: [10^(n-1) <= m/scale < 10^n]. *)
Definition decade (m : Z) : Z :=
  if scale <=? m then num_digits (m / scale) else 1 - num_digits ((scale - 1) / m).

(** [m/scale * 10^(k-n)] as a fraction. *)
Definition scaled (m e : Z) : Z * Z :=
  if 0 <=? e then (m * 10 ^ e, scale) else (m, scale * 10 ^ (- e)).

(** The two [k]-digit decimals around [m], the closer one first. *)
Definition candidates (m k n : Z) : list Z :=
  let (a, b) := scaled m (k - n) in
  let (q, r) := Z.div_eucl a b in
  if (2 * r <? b) || ((2 * r =? b) && Z.even q) then [q; q + 1] else [q + 1; q].

Definition reads_back (m n k s : Z) : bool := JsNumber.eqb (decimal s (n - k)) (Finite m).

(** The fewest digits that read back, from [k] digits on. *)
Fixpoint shortest (fuel : nat) (m n k : Z) : Z * Z :=
  match fuel with
  | O => (0, 0)
  | Datatypes.S fuel' =>
      match List.find (reads_back m n k) (candidates m k n) with
      | Some s => (s, k)
      | None => shortest fuel' m n (k + 1)
      end
  end.

Fixpoint zeros (n : nat) : string :=
  match n with O => "" | Datatypes.S n' => String "0" (zeros n') end.

(** The digits [ds], [n] of them before the decimal point. *)
Definition layout (ds : string) (n : Z) : string :=
  let k := str_length ds in
  if (k <=? n) && (n <=? 21) then ds ++ zeros (Z.to_nat (n - k))
  else if (0 <? n) && (n <=? 21) then
    String.substring 0 (Z.to_nat n) ds ++ "." ++
    String.substring (Z.to_nat n) (Z.to_nat (k - n)) ds
  else if (-6 <? n) && (n <=? 0) then "0." ++ zeros (Z.to_nat (- n)) ++ ds
  else
    let mantissa := match ds with
                    | String c EmptyString => ds
                    | String c t => String c ("." ++ t)
                    | EmptyString => ds
                    end in
    mantissa ++ "e" ++ (if n - 1 <? 0 then "-" else "+") ++ toString (Z.abs (n - 1)).

Definition positive_toString (m : Z) : string :=
  let n := decade m in
  let (s, k) := shortest 17 m n 1 in
  if s =? 10 ^ k then layout "1" (n + 1) else layout (toString s) n.

Definition number_toString (x : number) : string :=
  match x with
  | NaN => "NaN"
  | Infinity true => "-Infinity"
  | Infinity false => "Infinity"
  | Finite m =>
      if m =? 0 then "0"
      else if m <? 0 then "-" ++ positive_toString (- m)
      else positive_toString m
  end.

(** [x.toFixed(f)]: the nearest multiple of [10^-f], the larger one on a tie. *)
Definition fixed_digits (n f : Z) : string :=
  let ds := toString n in
  let ds := zeros (Z.to_nat (f + 1 - str_length ds)) ++ ds in
  if f =? 0 then ds
  else
    let k := str_length ds in
    String.substring 0 (Z.to_nat (k - f)) ds ++ "." ++
    String.substring (Z.to_nat (k - f)) (Z.to_nat f) ds.

Definition toFixed (x : number) (f : Z) : string :=
  match x with
  | Finite m =>
      if 10 ^ 21 * scale <=? Z.abs m then number_toString x
      else
        (if m <? 0 then "-" else "") ++
        fixed_digits ((2 * Z.abs m * 10 ^ f + scale) / (2 * scale)) f
  | _ => number_toString x
  end.

(** ** Digit strings *)

Abbreviation digits := (all_chars is_digit).

Lemma app_cons (c : ascii) (s t : string) : String c s ++ t = String c (s ++ t).
Proof. done. Qed.

Lemma all_chars_app (p : ascii -> bool) (s t : string) :
  all_chars p (s ++ t) = all_chars p s && all_chars p t.
Proof. induction s as [|c s IH]; [done|]. rewrite app_cons. simpl. by rewrite IH, andb_assoc. Qed.

Lemma string_app_nil (s : string) : s ++ "" = s.
Proof. induction s as [|c s IH]; [done|]. by rewrite app_cons, IH. Qed.

Lemma str_length_cons (c : ascii) (s : string) : str_length (String c s) = str_length s + 1.
Proof. unfold str_length. simpl. lia. Qed.

Lemma str_length_app (s t : string) : str_length (s ++ t) = str_length s + str_length t.
Proof.
  induction s as [|c s IH]; [done|]. rewrite app_cons, !str_length_cons. lia.
Qed.

Lemma str_length_nonneg (s : string) : 0 <= str_length s.
Proof. unfold str_length. lia. Qed.

(** The next character does not continue the digits. *)
Definition stops (r : string) : bool :=
  match r with String c _ => negb (is_digit c) | EmptyString => true end.

Lemma span_digits_app (ds r : string) :
  digits ds = true -> stops r = true -> span_digits (ds ++ r) = (ds, r).
Proof.
  intros Hd Hr. induction ds as [|c ds IH].
  - destruct r as [|c r]; [done|]. simpl in *. by destruct (is_digit c).
  - simpl in Hd. apply andb_true_iff in Hd as [Hc Hd]. rewrite app_cons. simpl.
    by rewrite Hc, IH.
Qed.

Lemma span_digits_all (ds : string) : digits ds = true -> span_digits ds = (ds, "").
Proof. intros Hd. rewrite <- (string_app_nil ds) at 1. by apply span_digits_app. Qed.

Lemma digit_value_range (c : ascii) (d : Z) : digit_value c = Some d -> 0 <= d.
Proof.
  unfold digit_value. repeat case_match; intros; simplify_eq; rewrite ?andb_true_iff in *;
    destruct_and?; zbool; lia.
Qed.

Lemma parse_digits_app (ds t : string) (acc : Z) :
  digits ds = true ->
  0 <= digits_value ds < 10 ^ str_length ds /\
  parse_digits 10 (ds ++ t) acc = parse_digits 10 t (acc * 10 ^ str_length ds + digits_value ds).
Proof.
  revert t acc. induction ds as [|c ds IH]; intros t acc Hd.
  - change (str_length "") with 0. change (digits_value "") with 0.
    split; [lia|]. simpl. f_equal. lia.
  - cbn [all_chars] in Hd. apply andb_true_iff in Hd as [Hc Hd].
    unfold is_digit in Hc. destruct (digit_value c) as [d|] eqn:E; [|done].
    pose proof (digit_value_range c d E) as Hd0.
    assert (digits_value (String c ds) = d * 10 ^ str_length ds + digits_value ds) as Hv.
    { unfold digits_value at 1. cbn [parse_digits]. rewrite E, Hc.
      destruct (IH "" (0 * 10 + d) Hd) as [_ Hp]. rewrite string_app_nil in Hp. by rewrite Hp. }
    rewrite Hv, str_length_cons, Z.pow_add_r, Z.pow_1_r by (pose proof (str_length_nonneg ds); lia).
    destruct (IH t (acc * 10 + d) Hd) as [Hr Hp]. zbool. split; [nia|].
    rewrite app_cons. cbn [parse_digits]. rewrite E, (proj2 (Z.ltb_lt d 10)) by lia.
    rewrite Hp. f_equal. ring.
Qed.

Lemma digits_value_app (ds t : string) :
  digits ds = true -> digits t = true ->
  digits_value (ds ++ t) = digits_value ds * 10 ^ str_length t + digits_value t.
Proof.
  intros Hd Ht. unfold digits_value at 1.
  rewrite (proj2 (parse_digits_app ds t 0 Hd)).
  rewrite <- (string_app_nil t) at 1. by rewrite (proj2 (parse_digits_app t "" _ Ht)).
Qed.

Lemma digits_value_bound (ds : string) :
  digits ds = true -> 0 <= digits_value ds < 10 ^ str_length ds.
Proof. intros Hd. exact (proj1 (parse_digits_app ds "" 0 Hd)). Qed.

Lemma zeros_digits (n : nat) : digits (zeros n) = true.
Proof. by induction n. Qed.

Lemma zeros_value (n : nat) : digits_value (zeros n) = 0.
Proof. unfold digits_value. by induction n. Qed.

Lemma zeros_length (n : nat) : str_length (zeros n) = Z.of_nat n.
Proof. induction n as [|n IH]; [done|]. cbn [zeros]. rewrite str_length_cons. lia. Qed.

Lemma toString_digits (z : Z) : 0 <= z -> digits (toString z) = true.
Proof.
  intros Hz. unfold toString. rewrite (proj2 (Z.ltb_ge z 0)) by done. apply N_toString_digits.
Qed.

Lemma digits_value_toString (z : Z) : 0 <= z -> digits_value (toString z) = z.
Proof.
  intros Hz. unfold toString. rewrite (proj2 (Z.ltb_ge z 0)) by done.
  pose proof (parse_N_toString (Z.to_N z)) as Hp. unfold parse_nat in Hp.
  unfold digits_value. destruct (N_toString (Z.to_N z)); [done|]. rewrite Hp. simpl. lia.
Qed.

Lemma toString_nonempty (z : Z) : 0 <= z -> toString z <> "".
Proof.
  intros Hz. unfold toString. rewrite (proj2 (Z.ltb_ge z 0)) by done. apply N_toString_nonempty.
Qed.

(** A printed integer has no leading zero. *)
Lemma uint_head (d : Decimal.uint) :
  Decimal.unorm d = d -> N.of_uint d <> 0%N ->
  10 ^ (str_length (NilEmpty.string_of_uint d) - 1) <=
    digits_value (NilEmpty.string_of_uint d).
Proof.
  intros Hn Hz.
  assert (exists c (v : Z) e, NilEmpty.string_of_uint d = String c (NilEmpty.string_of_uint e) /\
            digit_value c = Some v /\ 1 <= v < 10) as (c & v & e & -> & Hc & Hv).
  { destruct d as [|d|d|d|d|d|d|d|d|d|d]; [done|..];
      try (eexists _, _, d; split; [reflexivity|]; split; [vm_compute; reflexivity|done]).
    exfalso. unfold Decimal.unorm in Hn. rewrite DecimalFacts.nzhead_D0 in Hn.
    destruct (Decimal.nzhead d) eqn:E; try discriminate Hn.
    - injection Hn as <-. done.
    - by apply DecimalFacts.nzhead_nonzero in E. }
  replace (str_length (String c (NilEmpty.string_of_uint e)) - 1)
    with (str_length (NilEmpty.string_of_uint e)) by (rewrite str_length_cons; lia).
  pose proof (digits_value_bound _ (uint_digits e)).
  change (String c (NilEmpty.string_of_uint e)) with (String c "" ++ NilEmpty.string_of_uint e).
  rewrite digits_value_app; [|simpl; unfold is_digit; rewrite Hc; zbool|apply uint_digits].
  - unfold digits_value at 1. cbn [parse_digits]. rewrite Hc, (proj2 (Z.ltb_lt v 10)) by lia.
    simpl. nia.
  - rewrite (proj2 (Z.ltb_lt v 10)) by lia. done.
Qed.

(** The decade of a positive integer is its number of digits. *)
Lemma num_digits_spec (z : Z) :
  0 < z -> 1 <= num_digits z /\ 10 ^ (num_digits z - 1) <= z < 10 ^ num_digits z.
Proof.
  intros Hz. unfold num_digits.
  pose proof (digits_value_bound _ (toString_digits z ltac:(lia))) as Hb.
  rewrite digits_value_toString in Hb by lia.
  assert (1 <= str_length (toString z)) as H1.
  { pose proof (toString_nonempty z ltac:(lia)). destruct (toString z); [done|].
    rewrite str_length_cons. pose proof (str_length_nonneg s). lia. }
  split; [done|]. split; [|lia].
  rewrite <- (digits_value_toString z) at 2 by lia.
  unfold toString. rewrite (proj2 (Z.ltb_ge z 0)) by lia.
  rewrite (proj1 (N_toString_eq (Z.to_N z))). apply uint_head.
  - pose proof (DecimalN.Unsigned.to_of (N.to_uint (Z.to_N z))) as Ht.
    rewrite DecimalN.Unsigned.of_to in Ht. done.
  - rewrite DecimalN.Unsigned.of_to. lia.
Qed.

Lemma num_digits_unique (z k : Z) : 0 < z -> 1 <= k -> 10 ^ (k - 1) <= z < 10 ^ k -> num_digits z = k.
Proof.
  intros Hz Hk [Hl Hu]. destruct (num_digits_spec z Hz) as (Hn & Hnl & Hnu).
  apply Z.le_antisymm; apply Z.lt_succ_r.
  - assert (num_digits z - 1 < k); [|lia]. apply (Z.pow_lt_mono_r_iff 10); lia.
  - assert (k - 1 < num_digits z); [|lia]. apply (Z.pow_lt_mono_r_iff 10); lia.
Qed.

(** ** Decimals *)

Lemma pow10_pos (e : Z) : 0 <= e -> 0 < 10 ^ e.
Proof. intros. apply Z.pow_pos_nonneg; lia. Qed.

Lemma pow10_add (a b : Z) : 0 <= a -> 0 <= b -> 10 ^ (a + b) = 10 ^ a * 10 ^ b.
Proof. intros. by apply Z.pow_add_r. Qed.

Lemma decimal_shift (s j e : Z) : 0 <= j -> decimal (s * 10 ^ j) e = decimal s (e + j).
Proof.
  intros Hj. unfold decimal.
  destruct (0 <=? e) eqn:He, (0 <=? e + j) eqn:Hej; zbool; try lia.
  - f_equal. rewrite (Z.add_comm e j), pow10_add by lia. ring.
  - pose proof (pow10_pos (- e) ltac:(lia)).
    rewrite <- (round_cancel _ 1 (10 ^ (- e))) by lia.
    replace j with (e + j + - e) at 1 by lia. rewrite (pow10_add (e + j)) by lia.
    f_equal; ring.
  - replace (- e) with (- (e + j) + j) by lia. rewrite pow10_add by lia.
    pose proof (pow10_pos j Hj). pose proof (pow10_pos (- (e + j)) ltac:(lia)).
    rewrite <- (round_cancel (s * scale) _ (10 ^ j)) by lia. f_equal; ring.
Qed.

Lemma scaled_spec (m e : Z) :
  exists d, 0 < d /\ 0 < (scaled m e).2 /\ (scaled m e).1 = m * d /\
    forall c, decimal c (- e) = round (c * (scaled m e).2) d.
Proof.
  pose proof scale_pos. unfold scaled, decimal.
  destruct (0 <=? e) eqn:He; zbool; cbn [fst snd].
  - exists (10 ^ e). pose proof (pow10_pos e He). split_and!; try done.
    intros c. destruct (0 <=? - e) eqn:E; zbool.
    + replace e with 0 by lia. change (- 0) with 0. change (10 ^ 0) with 1. by rewrite Z.mul_1_r.
    + by rewrite Z.opp_involutive.
  - exists 1. pose proof (pow10_pos (- e) ltac:(lia)). split_and!; [lia|nia|lia|].
    intros c. rewrite (proj2 (Z.leb_le 0 (- e))) by lia. f_equal. ring.
Qed.

(** ** The decade *)

Lemma decade_spec (m k : Z) :
  0 < m -> 1 <= k ->
  10 ^ (k - 1) * (scaled m (k - decade m)).2 <= (scaled m (k - decade m)).1 <
  10 ^ k * (scaled m (k - decade m)).2.
Proof.
  intros Hm Hk. pose proof scale_pos as Hs. unfold decade.
  destruct (scale <=? m) eqn:E; zbool.
  - destruct (num_digits_spec (m / scale)) as (Hn & Hl & Hu).
    { apply Z.div_str_pos. lia. }
    set (n := num_digits (m / scale)) in *.
    assert (10 ^ (n - 1) * scale <= m) as Hl' by (pose proof (Z.mul_div_le m scale Hs); nia).
    assert (m < 10 ^ n * scale) as Hu' by (pose proof (Z.mul_succ_div_gt m scale Hs); nia).
    clear Hl Hu. unfold scaled. destruct (0 <=? k - n) eqn:He; zbool; cbn [fst snd].
    + assert (10 ^ (k - 1) = 10 ^ (n - 1) * 10 ^ (k - n)) as -> by (rewrite <- pow10_add by lia; f_equal; lia).
      assert (10 ^ k = 10 ^ n * 10 ^ (k - n)) as -> by (rewrite <- pow10_add by lia; f_equal; lia).
      pose proof (pow10_pos (k - n) He). nia.
    + replace (10 ^ (k - 1) * (scale * 10 ^ (- (k - n)))) with (10 ^ (n - 1) * scale).
      * replace (10 ^ k * (scale * 10 ^ (- (k - n)))) with (10 ^ n * scale); [done|].
        replace n with (k + - (k - n)) at 1 by lia. rewrite pow10_add by lia. ring.
      * replace (n - 1) with (k - 1 + - (k - n)) by lia. rewrite pow10_add by lia. ring.
  - set (q := (scale - 1) / m).
    assert (0 < q) as Hq by (apply Z.div_str_pos; lia).
    destruct (num_digits_spec q Hq) as (Hn & Hl & Hu). set (j := num_digits q) in *.
    assert (m * 10 ^ (j - 1) < scale) as Hl'.
    { pose proof (Z.mul_div_le (scale - 1) m Hm) as Hd. fold q in Hd. nia. }
    assert (scale <= m * 10 ^ j) as Hu'.
    { pose proof (Z.mul_succ_div_gt (scale - 1) m Hm) as Hd. fold q in Hd. nia. }
    unfold scaled. rewrite (proj2 (Z.leb_le 0 _)) by lia. cbn [fst snd].
    replace (k - (1 - j)) with (k - 1 + j) by lia.
    split.
    + rewrite pow10_add by lia. pose proof (pow10_pos (k - 1) ltac:(lia)). nia.
    + replace (k - 1 + j) with (k + (j - 1)) by lia.
      rewrite pow10_add by lia. pose proof (pow10_pos k ltac:(lia)). nia.
Qed.

(** ** Seventeen digits are enough *)

Lemma candidates_spec (m k n : Z) :
  0 < m ->
  let a := (scaled m (k - n)).1 in
  let b := (scaled m (k - n)).2 in
  exists c c', candidates m k n = [c; c'] /\ Z.abs (2 * (a - b * c)) <= b /\
    forall s, List.In s [c; c'] -> s * b - b <= a < s * b + b.
Proof.
  intros Hm. unfold candidates.
  destruct (scaled_spec m (k - n)) as (d & Hd & Hb & Ha & _).
  destruct (scaled m (k - n)) as [a b]. cbn [fst snd] in *.
  pose proof (Z_div_mod a b ltac:(lia)) as Hdm. destruct (Z.div_eucl a b) as [q r].
  destruct Hdm as [-> Hr].
  destruct ((2 * r <? b) || _) eqn:E.
  - exists q, (q + 1). rewrite orb_true_iff, andb_true_iff in E.
    split; [done|]. split.
    + destruct E as [E|[E _]]; zbool; lia.
    + intros s [<-|[<-|[]]]; lia.
  - exists (q + 1), q. rewrite orb_false_iff in E. destruct E as [E _].
    split; [done|]. split; [zbool; lia|]. intros s [<-|[<-|[]]]; lia.
Qed.

Lemma seventeen_digits (m : Z) :
  0 < m -> is_double m = true ->
  exists s, List.find (reads_back m (decade m) 17) (candidates m 17 (decade m)) = Some s.
Proof.
  intros Hm Hd. set (n := decade m).
  destruct (candidates_spec m 17 n Hm) as (c & c' & -> & Hc & _).
  pose proof (decade_spec m 17 Hm ltac:(lia)) as [Hl _]. fold n in Hl.
  destruct (scaled_spec m (17 - n)) as (d & Hd0 & Hb & Ha & Hdec).
  set (a := (scaled m (17 - n)).1) in *. set (b := (scaled m (17 - n)).2) in *.
  exists c. cbn [List.find]. unfold reads_back.
  replace (n - 17) with (- (17 - n)) by lia. rewrite Hdec, (round_near _ _ m); try done.
  - cbn [JsNumber.eqb]. by rewrite Z.eqb_refl.
  - change (10 ^ (17 - 1)) with 10000000000000000 in Hl.
    change (2 ^ 54) with 18014398509481984. rewrite <- Ha. nia.
Qed.

Lemma shortest_spec (m : Z) :
  0 < m -> is_double m = true ->
  exists s k, shortest 17 m (decade m) 1 = (s, k) /\ 1 <= k /\
    List.In s (candidates m k (decade m)) /\ decimal s (decade m - k) = Finite m.
Proof.
  intros Hm Hd.
  assert (forall fuel k, Z.of_nat fuel = 18 - k -> 1 <= k <= 17 ->
    exists s k', shortest fuel m (decade m) k = (s, k') /\ 1 <= k' /\
      List.In s (candidates m k' (decade m)) /\ decimal s (decade m - k') = Finite m)
    as Hg; [|by apply (Hg 17%nat 1)].
  induction fuel as [|fuel IH]; intros k Hf Hk; [lia|]. cbn [shortest].
  destruct (List.find _ _) as [s|] eqn:E.
  - apply List.find_some in E as [Hin Hr]. exists s, k. split_and!; try done; [lia|].
    unfold reads_back in Hr. destruct (decimal s _) as [| |m']; try done.
    cbn in Hr. zbool. by subst.
  - destruct (Z.eq_dec k 17) as [->|]; [|apply IH; lia].
    destruct (seventeen_digits m Hm Hd) as [s Hs]. congruence.
Qed.

(** ** Reading back *)

Lemma substring_split (n : nat) (s : string) :
  (n <= String.length s)%nat ->
  String.substring 0 n s ++ String.substring n (String.length s - n) s = s.
Proof.
  revert n. induction s as [|c s IH]; intros n Hn; simpl in *.
  - by replace n with 0%nat by lia.
  - destruct n as [|n]; simpl.
    + change (String c (String.substring 0 (String.length s) s) = String c s). f_equal.
      specialize (IH 0%nat ltac:(lia)). rewrite Nat.sub_0_r in IH.
      assert (String.substring 0 0 s = "") as E by (by destruct s). by rewrite E in IH.
    + rewrite app_cons. f_equal. apply IH. lia.
Qed.

Lemma substring_length (n : nat) (s : string) :
  (n <= String.length s)%nat -> String.length (String.substring 0 n s) = n.
Proof.
  revert n. induction s as [|c s IH]; intros [|n] Hn; simpl in *; try lia.
  by rewrite IH by lia.
Qed.

(** Digits, a point and digits, then an exponent. *)
Lemma parse_unsigned_spec (whole frac ex : string) :
  digits whole = true -> digits frac = true -> whole <> "" -> stops ex = true ->
  (forall t, ex <> String "." t) ->
  parse_unsigned (whole ++ "." ++ frac ++ ex) =
    decimal (digits_value (whole ++ frac)) (exponent_part ex - str_length frac) /\
  parse_unsigned (whole ++ ex) = decimal (digits_value whole) (exponent_part ex).
Proof.
  intros Hw Hf Hne Hs Hdot. unfold parse_unsigned.
  assert (forall t, startsWith (whole ++ t) "Infinity" = false) as Hinf.
  { intros t. destruct whole as [|c w]; [done|]. rewrite app_cons. simpl in *.
    apply andb_true_iff in Hw as [Hc _]. clear - Hc.
    destruct c as [[] [] [] [] [] [] [] []]; done. }
  assert (forall t, str_truthy (whole ++ t) = true) as Ht by (by destruct whole).
  rewrite !Hinf, (span_digits_app whole ("." ++ frac ++ ex)), (span_digits_app whole ex) by done.
  split.
  - change (fraction_part ("." ++ frac ++ ex)) with (span_digits (frac ++ ex)).
    by rewrite (span_digits_app frac ex), Ht.
  - assert (fraction_part ex = ("", ex)) as ->.
    { destruct ex as [|c ex]; [done|]. simpl. destruct (ascii_dec c ".") as [->|Hc].
      - by destruct (Hdot ex).
      - destruct c as [[] [] [] [] [] [] [] []]; done. }
    rewrite Ht, string_app_nil. f_equal. change (str_length "") with 0. lia.
Qed.

Lemma exponent_part_spec (e : Z) :
  exponent_part ("e" ++ (if e <? 0 then "-" else "+") ++ toString (Z.abs e)) = e.
Proof.
  pose proof (toString_digits (Z.abs e) ltac:(lia)) as Hd.
  pose proof (digits_value_toString (Z.abs e) ltac:(lia)) as Hv.
  destruct (e <? 0) eqn:E; zbool.
  - change (- digits_value (span_digits (toString (Z.abs e))).1 = e).
    rewrite span_digits_all by done. cbn [fst]. lia.
  - change (digits_value (span_digits (toString (Z.abs e))).1 = e).
    rewrite span_digits_all by done. cbn [fst]. lia.
Qed.

Lemma parse_whole (ds : string) :
  digits ds = true -> ds <> "" -> parse_unsigned ds = decimal (digits_value ds) 0.
Proof.
  intros Hd Hne. destruct (parse_unsigned_spec ds "" "" Hd) as [_ Hp]; try done.
  by rewrite string_app_nil in Hp.
Qed.

Lemma parse_point (whole frac : string) :
  digits whole = true -> digits frac = true -> whole <> "" ->
  parse_unsigned (whole ++ "." ++ frac) =
    decimal (digits_value (whole ++ frac)) (- str_length frac).
Proof.
  intros Hw Hf Hne. destruct (parse_unsigned_spec whole frac "" Hw Hf) as [Hp _]; try done.
  by rewrite string_app_nil in Hp.
Qed.

(** The three layouts of a decimal that is no whole number. *)
Lemma parse_split (ds : string) (n : Z) :
  digits ds = true -> 0 < n < str_length ds ->
  parse_unsigned (String.substring 0 (Z.to_nat n) ds ++ "." ++
                  String.substring (Z.to_nat n) (Z.to_nat (str_length ds - n)) ds) =
  decimal (digits_value ds) (n - str_length ds).
Proof.
  intros Hd Hnk.
  assert (Z.to_nat n <= String.length ds)%nat as Hn by (unfold str_length in *; lia).
  replace (Z.to_nat (str_length ds - n)) with (String.length ds - Z.to_nat n)%nat
    by (unfold str_length; lia).
  pose proof (substring_split (Z.to_nat n) ds Hn) as Hsp.
  pose proof (substring_length (Z.to_nat n) ds Hn) as Hlen.
  set (w := String.substring 0 (Z.to_nat n) ds) in *.
  set (f := String.substring (Z.to_nat n) _ ds) in *.
  rewrite <- Hsp, all_chars_app, andb_true_iff in Hd. destruct Hd as [Hw Hf].
  assert (str_length w = n) as Hwn by (unfold str_length; lia).
  pose proof (str_length_app w f) as Hl. rewrite Hsp in Hl.
  rewrite parse_point; try done.
  - rewrite Hsp. f_equal. lia.
  - intros ->. unfold str_length in Hwn. simpl in Hwn. lia.
Qed.

Lemma parse_leading_zeros (ds : string) (j : nat) :
  digits ds = true ->
  parse_unsigned ("0." ++ zeros j ++ ds) = decimal (digits_value ds) (- Z.of_nat j - str_length ds).
Proof.
  intros Hd. change ("0." ++ zeros j ++ ds) with ("0" ++ "." ++ zeros j ++ ds).
  rewrite parse_point; [|done|rewrite all_chars_app, zeros_digits; done|done].
  rewrite (digits_value_app "0"), (digits_value_app (zeros _)) by
    (done || apply zeros_digits || (rewrite all_chars_app, zeros_digits; done)).
  rewrite zeros_value, str_length_app, zeros_length. change (digits_value "0") with 0.
  f_equal; lia.
Qed.

Lemma parse_scientific (ds ex : string) (e : Z) :
  digits ds = true -> ds <> "" -> exponent_part ex = e -> stops ex = true ->
  (forall t, ex <> String "." t) ->
  parse_unsigned (match ds with
                  | String c EmptyString => ds
                  | String c t => String c ("." ++ t)
                  | EmptyString => ds
                  end ++ ex) =
  decimal (digits_value ds) (e + 1 - str_length ds).
Proof.
  intros Hd Hne Hex Hs Hdot. destruct ds as [|c [|c' t]]; [done|..].
  - destruct (parse_unsigned_spec (String c "") "" ex) as [_ ->]; try done.
    rewrite Hex. f_equal. change (str_length (String c "")) with 1. lia.
  - change (String c ("." ++ String c' t) ++ ex) with (String c "" ++ "." ++ String c' t ++ ex).
    assert (digits (String c "") = true /\ digits (String c' t) = true) as [H1 H2].
    { cbn [all_chars] in *. rewrite !andb_true_iff in *. tauto. }
    destruct (parse_unsigned_spec (String c "") (String c' t) ex) as [-> _]; try done.
    rewrite Hex. change (String c "" ++ String c' t) with (String c (String c' t)).
    f_equal. rewrite (str_length_cons c). lia.
Qed.

Lemma layout_reads_back (ds : string) (n : Z) :
  digits ds = true -> ds <> "" ->
  parse_unsigned (layout ds n) = decimal (digits_value ds) (n - str_length ds).
Proof.
  intros Hd Hne. unfold layout.
  assert (1 <= str_length ds) as Hk.
  { destruct ds as [|c ds]; [done|]. rewrite str_length_cons.
    pose proof (str_length_nonneg ds). lia. }
  destruct ((str_length ds <=? n) && (n <=? 21)) eqn:E1; [|destruct ((0 <? n) && (n <=? 21)) eqn:E2;
    [|destruct ((-6 <? n) && (n <=? 0)) eqn:E3]];
    rewrite ?andb_true_iff, ?andb_false_iff in *.
  - destruct E1 as [E1 _]. zbool.
    rewrite parse_whole; [|rewrite all_chars_app, Hd; apply zeros_digits|by destruct ds].
    rewrite digits_value_app, zeros_value, zeros_length, Z.add_0_r by (done || apply zeros_digits).
    rewrite decimal_shift by lia. f_equal. lia.
  - destruct E2 as [E2 E2']. zbool. apply parse_split; [done|]. destruct E1; zbool; lia.
  - destruct E3 as [E3 E3']. zbool. rewrite parse_leading_zeros by done. f_equal. lia.
  - rewrite (parse_scientific ds _ (n - 1)); try done; [|apply exponent_part_spec].
    f_equal. lia.
Qed.

Lemma parse_positive (m : Z) :
  0 < m -> is_double m = true -> parse_unsigned (positive_toString m) = Finite m.
Proof.
  intros Hm Hd. unfold positive_toString.
  destruct (shortest_spec m Hm Hd) as (s & k & -> & Hk & Hin & Hdec).
  set (n := decade m) in *.
  destruct (candidates_spec m k n Hm) as (c & c' & Hc & _ & Hs). rewrite Hc in Hin.
  pose proof (decade_spec m k Hm Hk) as [Hl Hu]. fold n in Hl, Hu.
  destruct (scaled_spec m (k - n)) as (d & _ & Hb & _ & _). specialize (Hs s Hin).
  set (a := (scaled m (k - n)).1) in *. set (b := (scaled m (k - n)).2) in *.
  assert (10 ^ (k - 1) <= s <= 10 ^ k) as Hsr by nia.
  pose proof (pow10_pos (k - 1) ltac:(lia)).
  destruct (s =? 10 ^ k) eqn:E; zbool.
  - rewrite layout_reads_back by done. change (digits_value "1") with 1.
    change (str_length "1") with 1. rewrite <- Hdec, E, <- (Z.mul_1_l (10 ^ k)).
    rewrite decimal_shift by lia. f_equal. lia.
  - rewrite layout_reads_back by (apply toString_digits || apply toString_nonempty; lia).
    fold (num_digits s). rewrite digits_value_toString, (num_digits_unique s k) by lia. done.
Qed.

(** The text of a number starts with a digit. *)
Definition digit_first (s : string) : bool :=
  match s with String c _ => is_digit c | EmptyString => false end.

Lemma layout_digit_first (ds : string) (n : Z) :
  digits ds = true -> ds <> "" -> digit_first (layout ds n) = true.
Proof.
  intros Hd Hne. destruct ds as [|c ds]; [done|].
  cbn [all_chars] in Hd. apply andb_true_iff in Hd as [Hc _].
  unfold layout. destruct ((_ <=? n) && _); [by rewrite app_cons|].
  destruct ((0 <? n) && _) eqn:E.
  { rewrite andb_true_iff in E. destruct E. zbool.
    destruct (Z.to_nat n) as [|i] eqn:Ei; [lia|]. cbn [String.substring]. by rewrite app_cons. }
  destruct ((-6 <? n) && _); [done|]. by destruct ds.
Qed.

Lemma positive_digit_first (m : Z) :
  0 < m -> is_double m = true -> digit_first (positive_toString m) = true.
Proof.
  intros Hm Hd. unfold positive_toString.
  destruct (shortest_spec m Hm Hd) as (s & k & -> & Hk & Hin & _).
  destruct (candidates_spec m k (decade m) Hm) as (c & c' & Hc & _ & Hs). rewrite Hc in Hin.
  pose proof (decade_spec m k Hm Hk) as [Hl Hu].
  destruct (scaled_spec m (k - decade m)) as (d & _ & Hb & _ & _). specialize (Hs s Hin).
  pose proof (pow10_pos (k - 1) ltac:(lia)).
  assert (0 <= s) by nia.
  destruct (s =? 10 ^ k); apply layout_digit_first;
    done || (by apply toString_digits) || (by apply toString_nonempty).
Qed.

Lemma parseFloat_digit_first (s : string) :
  digit_first s = true -> parseFloat s = parse_unsigned s.
Proof.
  intros Hd. unfold parseFloat. destruct s as [|c s]; [done|]. simpl in *.
  rewrite (proj1 (negb_true_iff _) (digit_not_space c Hd)).
  destruct c as [[] [] [] [] [] [] [] []]; done.
Qed.

(** Every number is read back from its text. *)
Lemma parseFloat_toString (x : number) :
  wf_number x = true -> parseFloat (number_toString x) = x.
Proof.
  intros Hw. destruct x as [|[]|m]; [vm_compute; reflexivity..|].
  unfold number_toString. destruct (m =? 0) eqn:E0; zbool.
  { subst. vm_compute. reflexivity. }
  destruct (m <? 0) eqn:E1; zbool.
  - change (neg (parse_unsigned (positive_toString (- m))) = Finite m).
    rewrite (parse_positive (- m)); [|lia|exact (wf_neg (Finite m) Hw)].
    unfold neg. by rewrite Z.opp_involutive.
  - rewrite parseFloat_digit_first by (apply positive_digit_first; [lia|done]).
    apply parse_positive; [lia|done].
Qed.

#[export] Hint Rewrite parseFloat_toString : fusion_rw.

(** [parseInt] reads a printed natural number. *)
Lemma span_base_digits (s : string) : digits s = true -> span_base 10 s = s.
Proof.
  induction s as [|c s IH]; [done|]. simpl. rewrite andb_true_iff. unfold is_digit.
  intros [Hc Hs]. destruct (digit_value c); [|done]. by rewrite Hc, IH.
Qed.

Lemma parseInt_toString (z : Z) : 0 <= z -> parseInt (toString z) = of_Z z.
Proof.
  intros Hz. pose proof (toString_digits z Hz) as Hd. pose proof (toString_nonempty z Hz) as Hne.
  assert (parse_nat 10 (toString z) = Some z) as Hp.
  { rewrite <- string_to_bigint_digits by done. apply string_to_bigint_toString. }
  unfold parseInt, parseInt_base.
  rewrite trim_start_id by (by eapply all_chars_impl; [apply digit_not_space|]).
  assert (parse_int_unsigned 10 (toString z) = of_Z z) as Hu.
  { unfold parse_int_unsigned. pose proof (span_base_digits _ Hd) as Hs.
    destruct (toString z) as [|c [|c' t]]; [done|..].
    - destruct c as [[] [] [] [] [] [] [] []]; by rewrite Hs, Hp.
    - cbn [all_chars] in Hd. rewrite !andb_true_iff in Hd. destruct Hd as (Hc & Hc' & _).
      destruct c as [[] [] [] [] [] [] [] []]; try discriminate Hc; try by rewrite Hs, Hp.
      destruct c' as [[] [] [] [] [] [] [] []]; try discriminate Hc'; by rewrite Hs, Hp. }
  destruct (toString z) as [|c t]; [done|]. cbn [all_chars] in Hd.
  apply andb_true_iff in Hd as [Hc _].
  destruct c as [[] [] [] [] [] [] [] []]; try discriminate Hc; exact Hu.
Qed.

(** ** Whole numbers *)

Lemma decimal_whole (s e : Z) : 0 <= e -> decimal s e = of_Z (s * 10 ^ e).
Proof. intros He. unfold decimal, of_Z. by rewrite (proj2 (Z.leb_le 0 e) He). Qed.

(** A whole number never needs a fraction. *)
Lemma shortest_whole (z n : Z) (fuel : nat) (k : Z) :
  0 < z -> is_double (z * scale) = true -> 0 <= k <= n ->
  0 <= (shortest fuel (z * scale) n k).2 <= n.
Proof.
  intros Hz Hd. revert k. induction fuel as [|fuel IH]; intros k Hk; cbn [shortest]; [simpl; lia|].
  destruct (List.find _ _) as [s|] eqn:E; [done|].
  apply IH. destruct (Z.eq_dec k n) as [->|]; [|lia]. exfalso.
  assert (reads_back (z * scale) n n z = true) as Hr.
  { unfold reads_back. rewrite Z.sub_diag, decimal_whole by lia. change (10 ^ 0) with 1.
    rewrite Z.mul_1_r. unfold of_Z. rewrite round_double by done. cbn. apply Z.eqb_refl. }
  rewrite (List.find_none _ _ E z) in Hr; [done|].
  pose proof scale_pos. unfold candidates, scaled. rewrite Z.sub_diag. cbn [Z.leb Z.compare].
    change (10 ^ 0) with 1. rewrite Z.mul_1_r.
    pose proof (Z_div_mod (z * scale) scale ltac:(lia)) as Hdm.
    destruct (Z.div_eucl (z * scale) scale) as [q r]. destruct Hdm as [Heq Hrem].
    assert (q = z) as -> by nia. case_match; simpl; auto.
Qed.

Lemma pow10_double (n : nat) : (n <= 22)%nat -> is_double (10 ^ Z.of_nat n * scale) = true.
Proof.
  intros Hn. assert (forallb (fun n => is_double (10 ^ Z.of_nat n * scale)) (seq 0 23) = true) as H
    by (vm_compute; reflexivity).
  rewrite forallb_forall in H. apply H. apply in_seq. lia.
Qed.

Lemma digits_BigInt (s : string) : digits s = true -> s <> "" -> BigInt s = Ok (digits_value s).
Proof.
  intros Hd Hne. unfold BigInt. rewrite string_to_bigint_digits by done. unfold parse_nat.
  destruct s as [|c s]; [done|]. unfold digits_value.
  rewrite <- (string_app_nil (String c s)) at 1.
  by rewrite (proj2 (parse_digits_app (String c s) "" 0 Hd)).
Qed.

(** The text of a whole number below [10^21] is read by [BigInt], as an integer
    that converts back to the number. *)
Lemma whole_toString (z : Z) :
  0 <= z < 10 ^ 21 -> is_double (z * scale) = true ->
  exists z', 0 <= z' /\ BigInt (number_toString (Finite (z * scale))) = Ok z' /\
    of_Z z' = Finite (z * scale).
Proof.
  intros Hz Hd. pose proof scale_pos as Hs. destruct (Z.eq_dec z 0) as [->|Hnz].
  { exists 0. split; [lia|]. split; vm_compute; reflexivity. }
  set (m := z * scale) in *. assert (0 < m) as Hm by (subst m; nia).
  unfold number_toString. rewrite (proj2 (Z.eqb_neq m 0)), (proj2 (Z.ltb_ge m 0)) by lia.
  unfold positive_toString. set (n := decade m).
  assert (n = num_digits z) as Hn.
  { subst n. unfold decade. rewrite (proj2 (Z.leb_le scale m)) by (subst m; nia).
    subst m. by rewrite Z.div_mul by lia. }
  destruct (num_digits_spec z ltac:(lia)) as (Hn1 & Hl & Hu). rewrite <- Hn in Hn1, Hl, Hu.
  assert (n <= 21) as Hn21.
  { assert (n - 1 < 21); [|lia]. apply (Z.pow_lt_mono_r_iff 10); lia. }
  destruct (shortest_spec m Hm Hd) as (s & k & Heq & Hk & Hin & Hdec). fold n in Heq, Hin, Hdec.
  pose proof (shortest_whole z n 17 1 ltac:(lia) Hd ltac:(lia)) as Hkn.
  fold m in Hkn. rewrite Heq in *. cbn [snd] in Hkn.
  rewrite decimal_whole in Hdec by lia.
  destruct (candidates_spec m k n Hm) as (c & c' & Hc & _ & Hsp). rewrite Hc in Hin.
  pose proof (decade_spec m k Hm Hk) as [Hcl Hcu]. fold n in Hcl, Hcu.
  destruct (scaled_spec m (k - n)) as (d & _ & Hb & _ & _). specialize (Hsp s Hin).
  pose proof (pow10_pos (k - 1) ltac:(lia)).
  assert (0 < s) as Hs0 by nia.
  destruct (s =? 10 ^ k) eqn:E; zbool.
  - exfalso. subst s. rewrite <- pow10_add in Hdec by lia.
    replace (k + (n - k)) with (Z.of_nat (Z.to_nat n)) in Hdec by lia.
    unfold of_Z in Hdec. rewrite round_double in Hdec by (apply pow10_double; lia).
    injection Hdec as Hdec. rewrite Z2Nat.id in Hdec by lia. subst m. nia.
  - assert (num_digits s = k) as Hks.
    { apply num_digits_unique; [done|done|]. split; [|nia]. nia. }
    assert (layout (toString s) n = toString s ++ zeros (Z.to_nat (n - k))) as ->.
    { unfold layout. fold (num_digits s). rewrite Hks.
      by rewrite (proj2 (Z.leb_le k n)), (proj2 (Z.leb_le n 21)) by lia. }
    pose proof (toString_digits s ltac:(lia)). pose proof (toString_nonempty s ltac:(lia)).
    exists (s * 10 ^ (n - k)). split; [nia|]. split; [|done].
    rewrite digits_BigInt.
    + rewrite digits_value_app, zeros_value, zeros_length, digits_value_toString, Z2Nat.id, Z.add_0_r
        by (done || apply zeros_digits || lia). done.
    + rewrite all_chars_app, zeros_digits. by rewrite andb_true_r.
    + by destruct (toString s).
Qed.
