(* ===== verification/JsMap.v ===== *)
(** * JavaScript [Map] and [Set] with string keys

    Both iterate in insertion order, and the services rely on it (the first
    matching fill, the order of the expiry events), so a map is an association
    list: [set] on a present key updates in place, on a new key appends.
    [to_gmap] forgets the order; the operations refine those of [gmap]. *)

From Stdlib Require Import ZArith Lia.
From stdpp Require Import base list strings gmap.
From S2P Require Import Prelude.

Module JsMap.
Section Map.
Context {V : Type}.

Abbreviation t := (list (string * V)).

Fixpoint get (k : string) (m : t) : option V :=
  match m with
  | [] => None
  | (k', v) :: m' => if decide (k = k') then Some v else get k m'
  end.

Fixpoint set (k : string) (v : V) (m : t) : t :=
  match m with
  | [] => [(k, v)]
  | (k', v') :: m' =>
      if decide (k = k') then (k, v) :: m' else (k', v') :: set k v m'
  end.

Fixpoint remove (k : string) (m : t) : t :=
  match m with
  | [] => []
  | (k', v') :: m' => if decide (k = k') then remove k m' else (k', v') :: remove k m'
  end.

Definition has (k : string) (m : t) : bool :=
  match get k m with Some _ => true | None => false end.

Definition keys (m : t) : list string := m.*1.
Definition values (m : t) : list V := m.*2.

(** The first entry, in insertion order, that satisfies [p]. *)
Definition find (p : string -> V -> bool) (m : t) : option (string * V) :=
  List.find (fun kv => p kv.1 kv.2) m.

Definition wf (m : t) : Prop := NoDup (keys m).

Definition to_gmap (m : t) : gmap string V := list_to_map m.

(** ** Laws *)

Lemma get_set_eq k v m : get k (set k v m) = Some v.
Proof.
  induction m as [|[k' v'] m IH]; simpl; [by rewrite decide_True|].
  case_decide; simpl; [by rewrite decide_True|by rewrite decide_False].
Qed.

Lemma get_set_ne k k' v m : k ≠ k' -> get k' (set k v m) = get k' m.
Proof.
  intros Hne. induction m as [|[j w] m IH]; simpl.
  - by rewrite decide_False.
  - case_decide; simpl; subst; repeat case_decide; congruence.
Qed.

Lemma get_set k k' v m :
  get k' (set k v m) = if decide (k = k') then Some v else get k' m.
Proof. case_decide; subst; [apply get_set_eq|by apply get_set_ne]. Qed.

Lemma set_set k v v' m : set k v (set k v' m) = set k v m.
Proof.
  induction m as [|[j w] m IH]; simpl; [by rewrite decide_True|].
  case_decide; simpl; [by rewrite decide_True|]. by rewrite decide_False, IH.
Qed.

Lemma get_remove_eq k m : get k (remove k m) = None.
Proof.
  induction m as [|[j w] m IH]; simpl; [done|].
  case_decide; simpl; [done|by rewrite decide_False].
Qed.

Lemma get_remove_ne k k' m : k ≠ k' -> get k' (remove k m) = get k' m.
Proof.
  intros Hne. induction m as [|[j w] m IH]; simpl; [done|].
  case_decide; simpl; subst; [by rewrite decide_False|by case_decide].
Qed.

Lemma elem_remove k m p : p ∈ remove k m -> p ∈ m.
Proof.
  induction m as [|[j w] m IH]; simpl; [done|].
  case_decide; set_solver.
Qed.

Lemma has_spec k m : has k m = true <-> is_Some (get k m).
Proof. unfold has, is_Some. destruct (get k m); naive_solver. Qed.

Lemma get_None k m : get k m = None <-> k ∉ keys m.
Proof.
  unfold keys. induction m as [|[j w] m IH]; csimpl.
  - split; [intros _; apply not_elem_of_nil|done].
  - rewrite not_elem_of_cons, <- IH. case_decide; naive_solver.
Qed.

Lemma get_elem k v m : get k m = Some v -> (k, v) ∈ m.
Proof.
  induction m as [|[j w] m IH]; simpl; [done|].
  case_decide; intros; simplify_eq; rewrite elem_of_cons; auto.
Qed.

Lemma elem_get k v m : wf m -> (k, v) ∈ m -> get k m = Some v.
Proof.
  unfold wf, keys. induction m as [|[j w] m IH]; simpl; [set_solver|].
  intros [Hj Hm]%NoDup_cons [Heq|Hin]%elem_of_cons; simplify_eq.
  - by rewrite decide_True.
  - rewrite decide_False; [by apply IH|].
    intros ->. apply Hj. apply list_elem_of_fmap. by exists (j, v).
Qed.

Lemma keys_set k v m :
  keys (set k v m) = if has k m then keys m else keys m ++ [k].
Proof.
  unfold keys, has. induction m as [|[j w] m IH]; csimpl; [done|].
  case_decide; subst; csimpl; [done|]. rewrite IH. by destruct (get k m).
Qed.

Lemma wf_set k v m : wf m -> wf (set k v m).
Proof.
  unfold wf. rewrite keys_set. destruct (has k m) eqn:E; [done|].
  intros Hw. apply NoDup_app. split_and!; [done| |apply NoDup_singleton].
  intros j Hj ->%list_elem_of_singleton.
  assert (get k m = None) as Hn.
  { unfold has in E. by destruct (get k m). }
  by apply get_None in Hn.
Qed.

Lemma wf_remove k m : wf m -> wf (remove k m).
Proof.
  unfold wf, keys. induction m as [|[j w] m IH]; [done|].
  csimpl. intros [Hj Hm]%NoDup_cons. case_decide; [by apply IH|].
  csimpl. apply NoDup_cons. split; [|by apply IH].
  intros Hin. apply Hj. apply list_elem_of_fmap in Hin as [p [-> Hin]].
  apply list_elem_of_fmap. exists p. split; [done|by eapply elem_remove].
Qed.

Lemma elem_values (m : t) v : v ∈ values m <-> exists k, (k, v) ∈ m.
Proof.
  unfold values. rewrite list_elem_of_fmap. split.
  - intros [[k w] [-> H]]. by exists k.
  - intros [k H]. by exists (k, v).
Qed.

(** ** Refinement to [gmap] *)

Lemma lookup_to_gmap k m : to_gmap m !! k = get k m.
Proof.
  unfold to_gmap. induction m as [|[j w] m IH]; simpl; [by rewrite lookup_empty|].
  rewrite lookup_insert. repeat case_decide; subst; done || congruence.
Qed.

Lemma to_gmap_set k v m : to_gmap (set k v m) = <[k := v]> (to_gmap m).
Proof.
  apply map_eq. intros i. rewrite lookup_insert, !lookup_to_gmap, get_set. done.
Qed.

Lemma to_gmap_remove k m : to_gmap (remove k m) = delete k (to_gmap m).
Proof.
  apply map_eq. intros i. rewrite lookup_delete, !lookup_to_gmap.
  case_decide; subst; [apply get_remove_eq|by apply get_remove_ne].
Qed.
End Map.

Abbreviation t V := (list (string * V)) (only parsing).
End JsMap.

#[export] Hint Resolve JsMap.wf_set JsMap.wf_remove : fusion.
#[export] Hint Rewrite @JsMap.get_set_eq @JsMap.get_remove_eq @JsMap.set_set : fusion_rw.

(** Replacing the value of each entry, keys and order kept. *)
Definition map_values {V W} (f : V -> W) (m : JsMap.t V) : JsMap.t W :=
  (fun kv => (kv.1, f kv.2)) <$> m.

Lemma get_map_values {V W} (f : V -> W) (m : JsMap.t V) (k : string) :
  JsMap.get k (map_values f m) = f <$> JsMap.get k m.
Proof.
  induction m as [|[j w] m IH]; simpl; [done|]. by case_decide.
Qed.

Lemma keys_map_values {V W} (f : V -> W) (m : JsMap.t V) :
  JsMap.keys (map_values f m) = JsMap.keys m.
Proof.
  unfold JsMap.keys, map_values. rewrite <- list_fmap_compose. by apply list_fmap_ext.
Qed.

(** ** Sets *)

Module JsSet.
Definition t := list string.

Definition has (x : string) (s : t) : bool := bool_decide (x ∈ s).

Definition add (x : string) (s : t) : t := if has x s then s else s ++ [x].

Definition remove (x : string) (s : t) : t := base.filter (fun y => y ≠ x) s.

Lemma elem_add x y s : y ∈ add x s <-> y = x \/ y ∈ s.
Proof. unfold add, has. case_bool_decide; set_solver. Qed.

Lemma elem_set_remove x y s : y ∈ remove x s <-> y ∈ s /\ y ≠ x.
Proof. unfold remove. rewrite list_elem_of_filter. naive_solver. Qed.

Lemma set_has_spec x s : has x s = true <-> x ∈ s.
Proof. unfold has. apply bool_decide_eq_true. Qed.

Lemma set_has_false x s : has x s = false <-> x ∉ s.
Proof. unfold has. apply bool_decide_eq_false. Qed.

Lemma remove_add x s : x ∉ s -> remove x (add x s) = s.
Proof.
  intros Hx. unfold remove, add, has, t in *. rewrite bool_decide_eq_false_2 by done.
  induction s as [|y s IH].
  - cbn. by rewrite decide_False by auto.
  - change ((y :: s) ++ [x]) with (y :: (s ++ [x])). rewrite filter_cons_True by set_solver.
    f_equal. apply IH. set_solver.
Qed.

Lemma nodup_add x s : NoDup s -> NoDup (add x s).
Proof.
  unfold add, has. case_bool_decide; [done|]. intros Hs.
  apply NoDup_app. split_and!; [done| |apply NoDup_singleton].
  by intros y Hy ->%list_elem_of_singleton.
Qed.
End JsSet.
