(* ===== verification/JsDate.v ===== *)
(** * Dates and sorting

    [Date.prototype.toISOString], the reading of such a text by [new Date],
    and [Array.prototype.sort], as far as the frontend uses them. Times are
    milliseconds since 1970. *)

From Stdlib Require Import ZArith Lia Ascii String.
From stdpp Require Import base numbers list strings sorting.
From S2P Require Import Prelude.
From S2P Require Import JsString.

Local Open Scope Z_scope.

(** ** The calendar *)

(** Year, month and day of a day counted from 1970-01-01, in the proleptic
    Gregorian calendar: the day is placed in its cycle of 400 years, whose years
    are counted from March. *)
Definition century (doe : Z) : Z := Z.min 3 (doe / 36524).
Definition leap_cycle (doe : Z) : Z := (doe - century doe * 36524) / 1461.
Definition year_of_cycle (doe : Z) : Z :=
  Z.min 3 ((doe - century doe * 36524 - leap_cycle doe * 1461) / 365).

Definition year_of_era (doe : Z) : Z :=
  100 * century doe + 4 * leap_cycle doe + year_of_cycle doe.

Definition day_of_year (doe : Z) : Z :=
  doe - century doe * 36524 - leap_cycle doe * 1461 - year_of_cycle doe * 365.

Definition month_place (doy : Z) : Z := (5 * doy + 2) / 153.

Definition month_of_place (mp : Z) : Z := if mp <? 10 then mp + 3 else mp - 9.

Definition civil (day : Z) : Z * Z * Z :=
  let z := day + 719468 in
  let era := z / 146097 in
  let doe := z mod 146097 in
  let doy := day_of_year doe in
  let mp := month_place doy in
  let m := month_of_place mp in
  (year_of_era doe + era * 400 + (if m <=? 2 then 1 else 0), m, doy - (153 * mp + 2) / 5 + 1).

Definition day_of (y m d : Z) : Z :=
  let y' := if m <=? 2 then y - 1 else y in
  let era := y' / 400 in
  let yoe := y' mod 400 in
  let mp := if 2 <? m then m - 3 else m + 9 in
  era * 146097 + (yoe * 365 + yoe / 4 - yoe / 100 + (153 * mp + 2) / 5 + d - 1) - 719468.

Lemma era_parts doe : 0 <= doe < 146097 ->
  0 <= century doe <= 3 /\ 0 <= leap_cycle doe <= 24 /\ 0 <= year_of_cycle doe <= 3 /\
  0 <= day_of_year doe <= 365.
Proof.
  intros Hd. unfold day_of_year, year_of_cycle, leap_cycle, century.
  assert (0 <= doe / 36524) by (apply Z.div_pos; lia).
  pose proof (Z.div_mod doe 36524 ltac:(lia)). pose proof (Z.mod_pos_bound doe 36524 ltac:(lia)).
  set (c := Z.min 3 (doe / 36524)). assert (0 <= doe - c * 36524 <= 36524) as Hr by lia.
  set (r := doe - c * 36524) in *.
  pose proof (Z.div_mod r 1461 ltac:(lia)). pose proof (Z.mod_pos_bound r 1461 ltac:(lia)).
  set (r2 := r - r / 1461 * 1461). assert (0 <= r2 < 1461) by lia.
  pose proof (Z.div_mod r2 365 ltac:(lia)). pose proof (Z.mod_pos_bound r2 365 ltac:(lia)). lia.
Qed.

(** A year of the cycle starts on the day its number says. *)
Lemma year_start doe : 0 <= doe < 146097 ->
  let yoe := year_of_era doe in
  0 <= yoe < 400 /\ doe = yoe * 365 + yoe / 4 - yoe / 100 + day_of_year doe.
Proof.
  intros Hd. pose proof (era_parts doe Hd) as (Hc & Hq & Ha & _). cbv zeta. split; [unfold year_of_era; lia|].
  assert (year_of_era doe / 4 = 25 * century doe + leap_cycle doe) as ->.
  { symmetry. apply (Z.div_unique _ _ _ (year_of_cycle doe)); unfold year_of_era; lia. }
  assert (year_of_era doe / 100 = century doe) as ->.
  { symmetry. apply (Z.div_unique _ _ _ (4 * leap_cycle doe + year_of_cycle doe)); unfold year_of_era; lia. }
  unfold day_of_year, year_of_era. lia.
Qed.

(** What has to hold of one day of the year. *)
Definition month_ok (doy : nat) : bool :=
  let mp := month_place (Z.of_nat doy) in
  let m := month_of_place mp in
  let d := Z.of_nat doy - (153 * mp + 2) / 5 + 1 in
  (1 <=? m) && (m <=? 12) && (1 <=? d) && (d <=? 31) && ((if 2 <? m then m - 3 else m + 9) =? mp).

Lemma month_facts doy : 0 <= doy <= 365 ->
  let mp := month_place doy in
  let m := month_of_place mp in
  1 <= m <= 12 /\ 1 <= doy - (153 * mp + 2) / 5 + 1 <= 31 /\ (if 2 <? m then m - 3 else m + 9) = mp.
Proof.
  intros Hd. assert (forallb month_ok (seq 0 366) = true) as Hall by (vm_compute; reflexivity).
  rewrite forallb_forall in Hall. specialize (Hall (Z.to_nat doy)).
  unfold month_ok in Hall. rewrite Z2Nat.id in Hall by lia.
  assert (List.In (Z.to_nat doy) (seq 0 366)) as Hin by (apply in_seq; lia).
  specialize (Hall Hin). rewrite !andb_true_iff in Hall. destruct Hall as [[[[E1 E2] E3] E4] E5].
  zbool. cbv zeta. split_and!; lia.
Qed.

Lemma day_of_civil day : let '(y, m, d) := civil day in day_of y m d = day.
Proof.
  unfold civil. set (z := day + 719468).
  pose proof (Z.mod_pos_bound z 146097 ltac:(lia)) as Hb.
  pose proof (era_parts _ Hb) as (_ & _ & _ & Hdoy). pose proof (month_facts _ Hdoy) as (Hm & _ & Hp).
  pose proof (year_start _ Hb) as (Hy & Hs). cbv zeta in Hm, Hp, Hs, Hy.
  unfold day_of. rewrite Hp.
  set (m := month_of_place _) in *. set (yoe := year_of_era (z mod 146097)) in *.
  replace (if m <=? 2 then yoe + z / 146097 * 400 + (if m <=? 2 then 1 else 0) - 1
           else yoe + z / 146097 * 400 + (if m <=? 2 then 1 else 0))
    with (yoe + z / 146097 * 400) by (destruct (m <=? 2); lia).
  rewrite Z.div_add, Z.mod_add, (Z.div_small yoe 400), (Z.mod_small yoe 400) by lia.
  pose proof (Z.div_mod z 146097 ltac:(lia)). lia.
Qed.

Lemma civil_ranges day : let '(_, m, d) := civil day in 1 <= m <= 12 /\ 1 <= d <= 31.
Proof.
  unfold civil. pose proof (Z.mod_pos_bound (day + 719468) 146097 ltac:(lia)) as Hb.
  pose proof (era_parts _ Hb) as (_ & _ & _ & Hdoy). pose proof (month_facts _ Hdoy) as (Hm & Hd & _).
  done.
Qed.

(** The years 0 to 9999, which are printed with four digits. *)
Lemma civil_year day : -719468 <= day < 2932897 -> let '(y, _, _) := civil day in 0 <= y <= 9999.
Proof.
  intros Hday. unfold civil. set (z := day + 719468) in *.
  pose proof (Z.mod_pos_bound z 146097 ltac:(lia)) as Hb.
  pose proof (era_parts _ Hb) as (_ & _ & _ & Hdoy). pose proof (month_facts _ Hdoy) as (Hm & _ & _).
  pose proof (year_start _ Hb) as (Hy & Hs). cbv zeta in Hm, Hs, Hy.
  assert (0 <= z / 146097) as He by (apply Z.div_pos; lia).
  pose proof (Z.div_mod z 146097 ltac:(lia)) as Hz.
  set (yoe := year_of_era (z mod 146097)) in *. set (doy := day_of_year (z mod 146097)) in *.
  destruct (month_of_place (month_place doy) <=? 2) eqn:E; zbool; [|lia].
  split; [lia|].
  destruct (decide (yoe + z / 146097 * 400 + 1 <= 9999)) as [|Hn]; [lia|].
  assert (z / 146097 = 24 /\ yoe = 399) as [E1 E2] by lia. rewrite E2 in Hs.
  change (399 * 365 + 399 / 4 - 399 / 100) with 145731 in Hs.
  assert (doy < 306) as Hlast by lia. unfold month_of_place, month_place in E.
  assert ((5 * doy + 2) / 153 < 10) as Hmp by (apply Z.div_lt_upper_bound; lia).
  pose proof (Z.div_pos (5 * doy + 2) 153 ltac:(lia) ltac:(lia)).
  destruct ((5 * doy + 2) / 153 <? 10) eqn:Ep; zbool; lia.
Qed.

(** ** Texts *)

Definition digit_char (d : Z) : ascii := ascii_of_N (Z.to_N (48 + d)).

(** [z] in exactly [n] decimal digits. *)
Fixpoint fixed_width (n : nat) (z : Z) : string :=
  match n with
  | O => EmptyString
  | S n' => String (digit_char (z / 10 ^ Z.of_nat n')) (fixed_width n' (z mod 10 ^ Z.of_nat n'))
  end.

(** Four digits, or a sign and six. *)
Definition year_text (y : Z) : string :=
  if (0 <=? y) && (y <=? 9999) then fixed_width 4 y
  else (if y <? 0 then "-" else "+") +:+ fixed_width 6 (Z.abs y).

Definition MAX_TIME : Z := 8640000000000000.

(** [new Date(t).toISOString()] *)
Definition toISOString (t : Z) : result string :=
  if MAX_TIME <? Z.abs t then Throw (RangeError "Invalid time value")
  else
    let '(y, m, d) := civil (t / 86400000) in
    let ms := t mod 86400000 in
    Ok (year_text y +:+ "-" +:+ fixed_width 2 m +:+ "-" +:+ fixed_width 2 d +:+ "T" +:+
        fixed_width 2 (ms / 3600000) +:+ ":" +:+ fixed_width 2 (ms / 60000 mod 60) +:+ ":" +:+
        fixed_width 2 (ms / 1000 mod 60) +:+ "." +:+ fixed_width 3 (ms mod 1000) +:+ "Z").

(** Reading: exactly [n] digits, or one character. *)
Fixpoint read_digits (n : nat) (acc : Z) (s : string) : option (Z * string) :=
  match n, s with
  | O, _ => Some (acc, s)
  | S n', String c t =>
      match digit_value c with
      | Some d => if d <? 10 then read_digits n' (10 * acc + d) t else None
      | None => None
      end
  | _, EmptyString => None
  end.

Definition read_char (c : ascii) (s : string) : option string :=
  match s with
  | String c' t => if Ascii.eqb c c' then Some t else None
  | EmptyString => None
  end.

Definition field (n : nat) (after : ascii) (s : string) : option (Z * string) :=
  '(z, s1) ← read_digits n 0 s; s2 ← read_char after s1; Some (z, s2).

(** [new Date(text).getTime()] of a text in the format that [toISOString] prints
    for the years 0 to 9999; nothing stands for [NaN]. *)
Definition getTime (text : string) : option Z :=
  '(y, s) ← field 4 "-" text;
  '(m, s) ← field 2 "-" s;
  '(d, s) ← field 2 "T" s;
  '(h, s) ← field 2 ":" s;
  '(mi, s) ← field 2 ":" s;
  '(sec, s) ← field 2 "." s;
  '(ms, s) ← field 3 "Z" s;
  if (m <=? 12) && (1 <=? m) && (d <=? 31) && (1 <=? d) && (h <=? 23) && (mi <=? 59) && (sec <=? 59)
     && String.eqb s ""
  then Some (day_of y m d * 86400000 + h * 3600000 + mi * 60000 + sec * 1000 + ms)
  else None.

Lemma digit_char_value d : 0 <= d < 10 -> digit_value (digit_char d) = Some d.
Proof.
  intros Hd. assert (forallb (fun n => bool_decide (digit_value (digit_char (Z.of_nat n)) = Some (Z.of_nat n)))
                       (seq 0 10) = true) as Hall by (vm_compute; reflexivity).
  rewrite forallb_forall in Hall. specialize (Hall (Z.to_nat d) ltac:(apply in_seq; lia)).
  rewrite Z2Nat.id in Hall by lia. by apply bool_decide_eq_true in Hall.
Qed.

Lemma read_fixed_width n z acc s : 0 <= z < 10 ^ Z.of_nat n ->
  read_digits n acc (fixed_width n z +:+ s) = Some (acc * 10 ^ Z.of_nat n + z, s).
Proof.
  revert z acc. induction n as [|n IH]; intros z acc Hz.
  { simpl in *. change (10 ^ 0) with 1 in *. rewrite Z.mul_1_r. do 2 f_equal. lia. }
  assert (0 < 10 ^ Z.of_nat n) as Hp by (apply Z.pow_pos_nonneg; lia).
  rewrite Nat2Z.inj_succ, Z.pow_succ_r in * by lia. change (fixed_width (S n) z +:+ s) with
    (String (digit_char (z / 10 ^ Z.of_nat n)) (fixed_width n (z mod 10 ^ Z.of_nat n) +:+ s)).
  cbn [read_digits].
  assert (0 <= z / 10 ^ Z.of_nat n < 10) as Hd.
  { split; [apply Z.div_pos; lia|apply Z.div_lt_upper_bound; lia]. }
  rewrite digit_char_value by done.
  replace (z / 10 ^ Z.of_nat n <? 10) with true by (symmetry; apply Z.ltb_lt; lia).
  rewrite IH by (apply Z.mod_pos_bound; lia). do 2 f_equal.
  pose proof (Z.div_mod z (10 ^ Z.of_nat n) ltac:(lia)). lia.
Qed.

Lemma field_fixed_width n z c s : 0 <= z < 10 ^ Z.of_nat n ->
  field n c (fixed_width n z +:+ String c EmptyString +:+ s) = Some (z, s).
Proof.
  intros Hz. unfold field. rewrite read_fixed_width by done. simpl. by rewrite Ascii.eqb_refl.
Qed.

(** The times of the years 0 to 9999. *)
Definition common_time (t : Z) : Prop := -62162035200000 <= t < 253402300800000.

(** A time that is printed is read back. *)
Lemma getTime_toISOString t :
  common_time t -> exists text, toISOString t = Ok text /\ getTime text = Some t.
Proof.
  unfold common_time. intros Ht. unfold toISOString.
  replace (MAX_TIME <? Z.abs t) with false by (symmetry; apply Z.ltb_ge; unfold MAX_TIME; lia).
  pose proof (Z.div_mod t 86400000 ltac:(lia)) as Hdm.
  pose proof (Z.mod_pos_bound t 86400000 ltac:(lia)) as Hms. set (ms := t mod 86400000) in *.
  pose proof (civil_ranges (t / 86400000)) as Hr. pose proof (day_of_civil (t / 86400000)) as Hday.
  assert (-719468 <= t / 86400000 < 2932897) as Hrange.
  { split; [apply Z.div_le_lower_bound; lia|apply Z.div_lt_upper_bound; lia]. }
  pose proof (civil_year _ Hrange) as Hyear.
  destruct (civil (t / 86400000)) as [[y m] d]. eexists. split; [reflexivity|].
  unfold year_text. replace ((0 <=? y) && (y <=? 9999)) with true
    by (symmetry; apply andb_true_iff; split; apply Z.leb_le; lia).
  assert (0 <= ms / 3600000 <= 23) as Hh.
  { split; [apply Z.div_pos; lia|]. assert (ms / 3600000 < 24); [apply Z.div_lt_upper_bound; lia|lia]. }
  pose proof (Z.mod_pos_bound (ms / 60000) 60 ltac:(lia)) as Hmi.
  pose proof (Z.mod_pos_bound (ms / 1000) 60 ltac:(lia)) as Hs.
  pose proof (Z.mod_pos_bound ms 1000 ltac:(lia)) as Hmm.
  unfold getTime. change "Z"%string with ("Z" +:+ "").
  repeat (rewrite field_fixed_width; [cbn [mbind option_bind]|change (10 ^ Z.of_nat 4) with 10000;
    change (10 ^ Z.of_nat 3) with 1000; change (10 ^ Z.of_nat 2) with 100; lia]).
  rewrite !(proj2 (Z.leb_le _ _)) by lia. cbn [andb String.eqb].
  f_equal. rewrite Hday.
  pose proof (Z.div_mod ms 3600000 ltac:(lia)). pose proof (Z.div_mod ms 60000 ltac:(lia)).
  pose proof (Z.div_mod ms 1000 ltac:(lia)). pose proof (Z.div_mod (ms / 60000) 60 ltac:(lia)).
  pose proof (Z.div_mod (ms / 1000) 60 ltac:(lia)).
  rewrite !Z.div_div in * by lia.
  change (60000 * 60) with 3600000 in *. change (1000 * 60) with 60000 in *. lia.
Qed.

(** ** Sorting *)

Section Sort.
Context {A : Type} (before : A -> A -> bool).

(** [l.sort(cmp)], where [before x y] is [cmp(x, y) < 0]: the sort is stable, and
    an element is moved only in front of those it has to precede. *)
Fixpoint sort_insert (x : A) (l : list A) : list A :=
  match l with
  | [] => [x]
  | y :: l' => if before y x then y :: sort_insert x l' else x :: y :: l'
  end.

Fixpoint js_sort (l : list A) : list A :=
  match l with [] => [] | x :: l' => sort_insert x (js_sort l') end.

Lemma sort_insert_perm x l : sort_insert x l ≡ₚ x :: l.
Proof.
  induction l as [|y l IH]; simpl; [done|]. case_match; [|done].
  rewrite IH. apply Permutation_swap.
Qed.

Lemma js_sort_perm l : js_sort l ≡ₚ l.
Proof. induction l as [|x l IH]; simpl; [done|]. by rewrite sort_insert_perm, IH. Qed.
End Sort.

(** Sorting the images is sorting the originals. *)
Lemma sort_insert_map {A B} (f : A -> B) before before' x l :
  Forall (fun y => before' (f y) (f x) = before y x) l ->
  sort_insert before' (f x) (f <$> l) = f <$> sort_insert before x l.
Proof.
  induction 1 as [|y l Hy _ IH]; [done|]. csimpl. rewrite Hy, IH. by destruct (before y x).
Qed.

Lemma js_sort_map {A B} (f : A -> B) before before' l :
  (forall x y, x ∈ l -> y ∈ l -> before' (f x) (f y) = before x y) ->
  js_sort before' (f <$> l) = f <$> js_sort before l.
Proof.
  induction l as [|x l IH]; intros Hb; [done|]. csimpl. rewrite IH by (intros; apply Hb; by right).
  apply sort_insert_map. rewrite js_sort_perm. apply Forall_forall. intros y Hy.
  apply Hb; [by right|by left].
Qed.

(** Comparing by a key, largest first. *)
Section SortByKey.
Context {A : Type} (key : A -> Z).

Definition larger (x y : A) : bool := key y <? key x.
Definition descending (x y : A) : Prop := key y <= key x.

#[export] Instance descending_trans : Transitive descending.
Proof. unfold descending. intros x y z. lia. Qed.

Lemma sort_insert_descending x l :
  StronglySorted descending l -> StronglySorted descending (sort_insert larger x l).
Proof.
  induction 1 as [|y l Hl IH Hy]; simpl; [by repeat constructor|].
  unfold larger at 1. destruct (key x <? key y) eqn:E; zbool.
  - constructor; [done|]. rewrite sort_insert_perm. constructor; [unfold descending; lia|done].
  - constructor; [by constructor|]. constructor; [done|].
    eapply Forall_impl; [exact Hy|]. intros z Hz. unfold descending in *. lia.
Qed.

Lemma js_sort_descending l : StronglySorted descending (js_sort larger l).
Proof. induction l; simpl; [constructor|]. by apply sort_insert_descending. Qed.

(** The first element is one of the largest. *)
Lemma js_sort_head l x : head (js_sort larger l) = Some x -> x ∈ l /\ forall y, y ∈ l -> key y <= key x.
Proof.
  intros Hx. pose proof (js_sort_descending l) as Hs. pose proof (js_sort_perm larger l) as Hp.
  destruct (js_sort larger l) as [|z l'] eqn:E; [done|]. injection Hx as ->.
  split; [rewrite <- Hp; by left|]. intros y Hy. rewrite <- Hp in Hy.
  apply elem_of_cons in Hy as [->|Hy]; [lia|].
  inversion Hs as [|? ? _ Hall]; subst. rewrite Forall_forall in Hall. by apply Hall.
Qed.

(** The order of elements with the same key is kept. *)
Lemma sort_insert_stable k x l : StronglySorted descending l ->
  List.filter (fun y => key y =? k) (sort_insert larger x l) =
  List.filter (fun y => key y =? k) (x :: l).
Proof.
  induction 1 as [|y l Hl IH Hy]; simpl; [done|]. unfold larger at 1.
  destruct (key x <? key y) eqn:E; [|done]. zbool. simpl. rewrite IH. simpl.
  destruct (key y =? k) eqn:Ey; destruct (key x =? k) eqn:Ex; try done.
  apply Z.eqb_eq in Ex, Ey. lia.
Qed.

Lemma js_sort_stable k l :
  List.filter (fun y => key y =? k) (js_sort larger l) = List.filter (fun y => key y =? k) l.
Proof.
  induction l as [|x l IH]; [done|]. cbn [js_sort].
  rewrite sort_insert_stable by apply js_sort_descending. simpl. by rewrite IH.
Qed.
End SortByKey.

Example iso_text : toISOString 1722470400123 = Ok "2024-08-01T00:00:00.123Z"%string.
Proof. vm_compute. reflexivity. Qed.
