(* ===== verification/DutchAuction.v ===== *)
(** * Dutch auction pricing

    [DutchAuctionPricing] of [backend/order-engine/src/utils/dutchAuction.ts]
    (the resolver ships the same class): the rate that decays from [startRate]
    to [endRate] by [decrementAmount] every [decrementInterval] seconds, the
    minimum return it implies, the acceptance test and the status report, all
    in binary64 arithmetic with the operations in the order of the source. *)

From Stdlib Require Import ZArith Lia.
From stdpp Require Import base numbers strings.
From S2P Require Import Prelude.
From S2P Require Import JsNumber.
From S2P Require Import JsString.

Local Open Scope Z_scope.
Local Open Scope result_scope.

(** ** Data and operations *)

(** [DutchAuctionSchema] *)
Record DutchAuction := {
  enabled : bool;
  startTimestamp : number;
  duration : number;
  startRate : number;
  endRate : number;
  decrementInterval : number;
  decrementAmount : number
}.

Definition getCurrentRate (auction : DutchAuction) (currentTimestamp : number) : number :=
  if ltb currentTimestamp (startTimestamp auction) then startRate auction
  else
    let auctionEndTime := add (startTimestamp auction) (duration auction) in
    if geb currentTimestamp auctionEndTime then endRate auction
    else
      let elapsedTime := sub currentTimestamp (startTimestamp auction) in
      let intervalsPassed := floor (div elapsedTime (decrementInterval auction)) in
      let totalDecrease := mul intervalsPassed (decrementAmount auction) in
      let currentRate := sub (startRate auction) totalDecrease in
      max currentRate (endRate auction).

Definition getRateForFill (auction : DutchAuction)
    (fillPercentage currentTimestamp : number) : number :=
  let baseRate := getCurrentRate auction currentTimestamp in
  let fillBonus := div (mul (sub fillPercentage (of_Z 25)) (lit 1 1000)) (of_Z 75) in
  mul baseRate (add (of_Z 1) (max (of_Z 0) fillBonus)).

Definition calculateMinReturn (fromAmount : string) (auction : DutchAuction)
    (currentTimestamp : number) : result string :=
  let currentRate := getCurrentRate auction currentTimestamp in
  fromAmountBigInt <-? BigInt fromAmount;
  rate <-? BigInt_of_number (floor (mul currentRate (of_Z 1000000)));
  minReturn <-? bigint_div (fromAmountBigInt * rate) 1000000;
  Ok (toString minReturn).

Definition isAcceptableOffer (offeredRate : number) (auction : DutchAuction)
    (currentTimestamp : number) : bool :=
  let currentMinRate := getCurrentRate auction currentTimestamp in
  geb offeredRate currentMinRate.

Record AuctionStatus := {
  isActive : bool;
  hasStarted : bool;
  hasEnded : bool;
  timeRemaining : number;
  currentRate : number;
  nextRateDropIn : number;
  percentComplete : number
}.

Definition getAuctionStatus (auction : DutchAuction) (currentTimestamp : number) : AuctionStatus :=
  let hasStarted := geb currentTimestamp (startTimestamp auction) in
  let auctionEndTime := add (startTimestamp auction) (duration auction) in
  let hasEnded := geb currentTimestamp auctionEndTime in
  let isActive := hasStarted && negb hasEnded in
  let timeRemaining := max (of_Z 0) (sub auctionEndTime currentTimestamp) in
  let currentRate := getCurrentRate auction currentTimestamp in
  let nextRateDropIn :=
    if isActive then
      let elapsedTime := sub currentTimestamp (startTimestamp auction) in
      let timeInCurrentInterval := rem elapsedTime (decrementInterval auction) in
      sub (decrementInterval auction) timeInCurrentInterval
    else of_Z 0 in
  let percentComplete :=
    if hasEnded then of_Z 100
    else if hasStarted then
      min (of_Z 100)
        (mul (div (sub currentTimestamp (startTimestamp auction)) (duration auction)) (of_Z 100))
    else of_Z 0 in
  {| isActive := isActive; hasStarted := hasStarted; hasEnded := hasEnded;
     timeRemaining := timeRemaining; currentRate := currentRate;
     nextRateDropIn := nextRateDropIn; percentComplete := percentComplete |}.

Definition calculateCompetitionScore (resolver : string)
    (fillTimestamp fillPercentage : number) (auction : DutchAuction) : number :=
  let timeScore :=
    max (of_Z 0)
      (sub (of_Z 100)
         (mul (div (sub fillTimestamp (startTimestamp auction)) (duration auction)) (of_Z 100))) in
  let sizeScore := fillPercentage in
  add (mul timeScore (lit 7 10)) (mul sizeScore (lit 3 10)).

(** ** Auctions on whole seconds *)

(** The clients build an auction from whole Unix seconds
    ([Math.floor(Date.now() / 1000)]), a positive interval and duration, and a
    rate that does not increase. *)
Record seconds_auction (a : DutchAuction) (start dur interval : Z) : Prop := {
  sa_start : startTimestamp a = of_Z start;
  sa_duration : duration a = of_Z dur;
  sa_interval : decrementInterval a = of_Z interval;
  sa_start_range : 0 <= start < 2 ^ 51;
  sa_duration_range : 0 < dur < 2 ^ 51;
  sa_interval_range : 0 < interval < 2 ^ 51;
  sa_startRate : is_finite (startRate a) = true /\ wf_number (startRate a) = true;
  sa_endRate : is_finite (endRate a) = true /\ wf_number (endRate a) = true;
  sa_rates : leb (endRate a) (startRate a) = true;
  sa_decrement : is_finite (decrementAmount a) = true /\ leb (of_Z 0) (decrementAmount a) = true
}.

Arguments sa_start {a start dur interval}.
Arguments sa_duration {a start dur interval}.
Arguments sa_interval {a start dur interval}.
Arguments sa_start_range {a start dur interval}.
Arguments sa_duration_range {a start dur interval}.
Arguments sa_interval_range {a start dur interval}.
Arguments sa_startRate {a start dur interval}.
Arguments sa_endRate {a start dur interval}.
Arguments sa_rates {a start dur interval}.
Arguments sa_decrement {a start dur interval}.

Definition timestamp (t : Z) : Prop := 0 <= t < 2 ^ 52.

Lemma timestamp_small (t : Z) : timestamp t -> small t.
Proof. unfold timestamp, small. lia. Qed.

Section Seconds.
Context (a : DutchAuction) (start dur interval : Z).
Context (Ha : seconds_auction a start dur interval).

Local Ltac sa := destruct Ha.
Local Ltac tiny := unfold timestamp, small in *; sa; lia.

Lemma before_start (t : Z) :
  timestamp t -> ltb (of_Z t) (startTimestamp a) = (t <? start).
Proof. intros Ht. rewrite (sa_start Ha). apply ltb_of_Z; tiny. Qed.

Lemma auction_end : add (startTimestamp a) (duration a) = of_Z (start + dur).
Proof. destruct Ha as [-> ->]. apply add_of_Z; tiny. Qed.

Lemma after_end (t : Z) :
  timestamp t -> geb (of_Z t) (add (startTimestamp a) (duration a)) = (start + dur <=? t).
Proof. intros Ht. rewrite auction_end. apply leb_of_Z; tiny. Qed.

Lemma intervals_passed (t : Z) :
  timestamp t -> start <= t ->
  floor (div (sub (of_Z t) (startTimestamp a)) (decrementInterval a))
    = of_Z ((t - start) / interval).
Proof.
  intros Ht Hs. destruct Ha as [-> _ -> _ _ _ _ _ _ _].
  rewrite sub_of_Z by tiny. apply floor_div_of_Z; tiny.
Qed.

(** The rate after [k] whole intervals. *)
Definition rate_after (k : Z) : number :=
  max (sub (startRate a) (mul (of_Z k) (decrementAmount a))) (endRate a).

Lemma getCurrentRate_seconds (t : Z) :
  timestamp t ->
  getCurrentRate a (of_Z t) =
    if t <? start then startRate a
    else if start + dur <=? t then endRate a
    else rate_after ((t - start) / interval).
Proof.
  intros Ht. unfold getCurrentRate. rewrite before_start, after_end by done.
  destruct (Z.ltb_spec t start); [done|].
  destruct (Z.leb_spec (start + dur) t); [done|].
  by rewrite intervals_passed by (done || lia).
Qed.

Lemma intervals_range (t : Z) :
  timestamp t -> start <= t -> 0 <= (t - start) / interval <= t - start.
Proof.
  intros Ht Hs. split; [apply Z.div_pos; tiny|].
  apply Z.div_le_upper_bound; [tiny|]. unfold timestamp in *; sa; nia.
Qed.

Lemma decrease_nonneg (k : Z) :
  0 <= k -> small k -> leb (Finite 0) (mul (of_Z k) (decrementAmount a)) = true.
Proof.
  intros Hk Hs. destruct (sa_decrement Ha) as [Hf Hn].
  rewrite of_Z_0 in Hn.
  apply mul_nonneg; [|done|by apply of_Z_finite|done].
  rewrite <- of_Z_0, leb_of_Z; [by apply Z.leb_le|unfold small; lia|done].
Qed.

Lemma rate_after_bounds (k : Z) :
  0 <= k -> small k ->
  leb (endRate a) (rate_after k) = true /\ leb (rate_after k) (startRate a) = true.
Proof.
  intros Hk Hs.
  destruct (sa_startRate Ha) as [Hsf Hsw], (sa_endRate Ha) as [Hef _].
  assert (leb (sub (startRate a) (mul (of_Z k) (decrementAmount a))) (startRate a) = true)
    as Hle by (apply sub_le; [done|done|by apply decrease_nonneg]).
  destruct (leb_is_number _ _ Hle).
  split; [apply max_r; [done|by destruct (endRate a)]|].
  apply max_lub; [done|apply (sa_rates Ha)].
Qed.

Lemma rate_after_antitone (k1 k2 : Z) :
  0 <= k1 <= k2 -> small k2 -> leb (rate_after k2) (rate_after k1) = true.
Proof.
  intros Hk Hs.
  destruct (sa_startRate Ha) as [Hsf _], (sa_endRate Ha) as [Hef _].
  destruct (sa_decrement Ha) as [Hdf Hdn].
  rewrite of_Z_0 in Hdn.
  apply max_mono_l; [|by destruct (endRate a)].
  apply sub_anti_r; [|done].
  apply mul_mono_nonneg; try done; try (apply of_Z_finite; unfold small in *; lia).
  rewrite leb_of_Z by (unfold small in *; lia). apply Z.leb_le; lia.
Qed.

(** Fraction of the duration that has elapsed, as a double in [0, 1]. *)
Lemma elapsed_fraction (t : Z) :
  timestamp t -> start <= t -> t < start + dur ->
  let f := div (sub (of_Z t) (startTimestamp a)) (duration a) in
  is_finite f = true /\ leb (Finite 0) f = true.
Proof.
  intros Ht H1 H2. simpl. rewrite (sa_start Ha), (sa_duration Ha).
  rewrite sub_of_Z by tiny.
  assert (ltb (Finite 0) (of_Z dur) = true) as Hd.
  { rewrite <- of_Z_0, ltb_of_Z by tiny. apply Z.ltb_lt. tiny. }
  assert (leb (Finite 0) (of_Z (t - start)) = true) as He.
  { rewrite <- of_Z_0, leb_of_Z by tiny. apply Z.leb_le. lia. }
  assert (leb (Finite 0) (div (of_Z (t - start)) (of_Z dur)) = true) as Hn
    by (apply div_nonneg; try done; apply of_Z_finite; tiny).
  split; [|done].
  eapply leb_finite_between; [exact Hn| |done|apply (of_Z_finite 1); unfold small; lia].
  rewrite <- (div_self dur) by tiny.
  apply div_mono_pos; try done; try (apply of_Z_finite; tiny).
  rewrite leb_of_Z by tiny. apply Z.leb_le. lia.
Qed.

Lemma next_drop (t : Z) :
  timestamp t -> start <= t ->
  sub (decrementInterval a) (rem (sub (of_Z t) (startTimestamp a)) (decrementInterval a))
    = of_Z (interval - (t - start) mod interval).
Proof.
  intros Ht H1. rewrite (sa_start Ha), (sa_interval Ha).
  pose proof (sa_interval_range Ha).
  pose proof (Z.mod_pos_bound (t - start) interval ltac:(lia)).
  rewrite sub_of_Z, rem_of_Z, sub_of_Z by tiny. done.
Qed.
End Seconds.

(** ** Properties *)

(** A concrete auction: 500 falling to 475 by 2.5 every 30 s over 300 s. *)
Definition sample_auction : DutchAuction :=
  {| enabled := true; startTimestamp := of_Z 1700000000; duration := of_Z 300;
     startRate := of_Z 500; endRate := of_Z 475;
     decrementInterval := of_Z 30; decrementAmount := lit 5 2 |}.

Lemma sample_auction_ok : seconds_auction sample_auction 1700000000 300 30.
Proof. split; try reflexivity; try lia; try split; vm_compute; reflexivity. Qed.

Lemma auction_rate_bounds_aux (a : DutchAuction) (start dur interval t : Z)
    (Ha : seconds_auction a start dur interval) (Ht : timestamp t) :
  leb (endRate a) (getCurrentRate a (of_Z t)) = true /\
  leb (getCurrentRate a (of_Z t)) (startRate a) = true.
Proof.
  rewrite (getCurrentRate_seconds a start dur interval Ha t Ht).
  pose proof (sa_rates Ha) as Hr. destruct (leb_is_number _ _ Hr).
  destruct (Z.ltb_spec t start); [by split; [|apply leb_refl]|].
  destruct (Z.leb_spec (start + dur) t); [by split; [apply leb_refl|]|].
  pose proof (intervals_range a start dur interval Ha t Ht ltac:(lia)).
  apply (rate_after_bounds a start dur interval Ha); [lia|].
  unfold timestamp, small in *. pose proof (sa_start_range Ha). lia.
Qed.

(** C23. The auction rate never leaves the band the maker signed: for every
    whole-second time it lies between [endRate] and [startRate]. *)
Theorem auction_rate_bounded (a : DutchAuction) (start dur interval t : Z)
    (Ha : seconds_auction a start dur interval) (Ht : timestamp t) :
  leb (endRate a) (getCurrentRate a (of_Z t)) = true /\
  leb (getCurrentRate a (of_Z t)) (startRate a) = true.
Proof. by apply (auction_rate_bounds_aux a start dur interval t). Qed.

Lemma auction_rate_bounded_witness :
  leb (of_Z 475) (getCurrentRate sample_auction (of_Z 1700000100)) = true /\
  leb (getCurrentRate sample_auction (of_Z 1700000100)) (of_Z 500) = true.
Proof.
  apply (auction_rate_bounded sample_auction 1700000000 300 30 1700000100 sample_auction_ok).
  unfold timestamp; lia.
Defined.

Lemma auction_antitone_aux (a : DutchAuction) (start dur interval t1 t2 : Z)
    (Ha : seconds_auction a start dur interval)
    (Ht1 : timestamp t1) (Ht2 : timestamp t2) (Hle : t1 <= t2) :
  leb (getCurrentRate a (of_Z t2)) (getCurrentRate a (of_Z t1)) = true.
Proof.
  destruct (auction_rate_bounds_aux a start dur interval t1 Ha Ht1) as [Hlo1 Hhi1].
  destruct (auction_rate_bounds_aux a start dur interval t2 Ha Ht2) as [Hlo2 Hhi2].
  rewrite (getCurrentRate_seconds a start dur interval Ha t2 Ht2) in *.
  rewrite (getCurrentRate_seconds a start dur interval Ha t1 Ht1) in *.
  destruct (Z.ltb_spec t1 start); [done|].
  destruct (Z.ltb_spec t2 start); [lia|].
  destruct (Z.leb_spec (start + dur) t2); [done|].
  destruct (Z.leb_spec (start + dur) t1); [lia|].
  pose proof (intervals_range a start dur interval Ha t1 Ht1 ltac:(lia)).
  pose proof (intervals_range a start dur interval Ha t2 Ht2 ltac:(lia)).
  pose proof (sa_interval_range Ha). pose proof (sa_start_range Ha).
  pose proof (Z.div_le_mono (t1 - start) (t2 - start) interval ltac:(lia) ltac:(lia)).
  apply (rate_after_antitone a start dur interval Ha); [lia|].
  unfold timestamp, small in *. lia.
Qed.

(** C22. The auction is a Dutch auction: the rate never rises as time passes,
    in binary64 arithmetic and across the start and the end. *)
Theorem auction_rate_antitone (a : DutchAuction) (start dur interval t1 t2 : Z)
    (Ha : seconds_auction a start dur interval)
    (Ht1 : timestamp t1) (Ht2 : timestamp t2) (Hle : t1 <= t2) :
  leb (getCurrentRate a (of_Z t2)) (getCurrentRate a (of_Z t1)) = true.
Proof. by apply (auction_antitone_aux a start dur interval t1 t2). Qed.

Lemma auction_rate_antitone_witness :
  leb (getCurrentRate sample_auction (of_Z 1700000200))
      (getCurrentRate sample_auction (of_Z 1700000100)) = true.
Proof.
  apply (auction_rate_antitone sample_auction 1700000000 300 30 1700000100 1700000200
           sample_auction_ok); unfold timestamp; lia.
Defined.

(** The status report is exact while the auction runs: the flags are those
    of the integer comparison, the progress is in [0, 100], and waiting
    [nextRateDropIn] seconds moves the clock into exactly the next interval. *)
Theorem auction_status_exact (a : DutchAuction) (start dur interval t : Z)
    (Ha : seconds_auction a start dur interval) (Ht : timestamp t)
    (Hrun : start <= t < start + dur) :
  let st := getAuctionStatus a (of_Z t) in
  isActive st = true /\ hasEnded st = false /\
  timeRemaining st = of_Z (start + dur - t) /\
  leb (of_Z 0) (percentComplete st) = true /\
  leb (percentComplete st) (of_Z 100) = true /\
  exists drop, nextRateDropIn st = of_Z drop /\ 0 < drop <= interval /\
    (t + drop - start) / interval = (t - start) / interval + 1.
Proof.
  pose proof (sa_interval_range Ha) as Hi. pose proof (sa_start_range Ha) as Hs0.
  pose proof (sa_duration_range Ha) as Hd0.
  assert (geb (of_Z t) (startTimestamp a) = true) as Hst.
  { unfold geb. rewrite (sa_start Ha), leb_of_Z by (unfold timestamp, small in *; lia).
    apply Z.leb_le; lia. }
  assert (geb (of_Z t) (add (startTimestamp a) (duration a)) = false) as Hen.
  { rewrite (after_end a start dur interval Ha t Ht). apply Z.leb_gt; lia. }
  destruct (elapsed_fraction a start dur interval Ha t Ht ltac:(lia) ltac:(lia)) as [Hff Hfn].
  unfold getAuctionStatus; cbn [isActive hasEnded timeRemaining percentComplete nextRateDropIn].
  rewrite Hst, Hen; cbn [andb negb].
  rewrite (auction_end a start dur interval Ha).
  rewrite sub_of_Z by (unfold timestamp, small in *; lia).
  rewrite (next_drop a start dur interval Ha t Ht) by lia.
  assert (leb (Finite 0) (of_Z 100) = true) as H100
    by (rewrite <- of_Z_0, leb_of_Z by (unfold small; lia); done).
  pose proof (mul_nonneg _ (of_Z 100) Hfn H100 Hff (of_Z_finite 100 ltac:(unfold small; lia))) as Hp.
  destruct (leb_is_number _ _ Hp) as [_ Hpn].
  split; [reflexivity|]. split; [reflexivity|]. split_and!.
  - rewrite max_spec, leb_of_Z by (apply round_is_number || (unfold timestamp, small in *; lia)).
    destruct (Z.leb_spec 0 (start + dur - t)); [reflexivity|lia].
  - rewrite of_Z_0. apply min_glb; [exact H100|exact Hp].
  - apply min_l; [apply round_is_number|exact Hpn].
  - exists (interval - (t - start) mod interval). split; [reflexivity|].
    pose proof (Z.mod_pos_bound (t - start) interval ltac:(lia)).
    split; [lia|].
    pose proof (Z.div_mod (t - start) interval ltac:(lia)).
    symmetry; apply Z.div_unique with 0; lia.
Qed.

Lemma auction_status_exact_witness :
  let st := getAuctionStatus sample_auction (of_Z 1700000100) in
  isActive st = true /\ hasEnded st = false /\
  timeRemaining st = of_Z 200 /\
  leb (of_Z 0) (percentComplete st) = true /\
  leb (percentComplete st) (of_Z 100) = true /\
  exists drop, nextRateDropIn st = of_Z drop /\ 0 < drop <= 30 /\
    (1700000100 + drop - 1700000000) / 30 = (1700000100 - 1700000000) / 30 + 1.
Proof.
  apply (auction_status_exact sample_auction 1700000000 300 30 1700000100 sample_auction_ok);
    unfold timestamp; lia.
Defined.

Lemma auction_rate_finite (a : DutchAuction) (start dur interval t : Z)
    (Ha : seconds_auction a start dur interval) (Ht : timestamp t) :
  is_finite (getCurrentRate a (of_Z t)) = true.
Proof.
  destruct (auction_rate_bounds_aux a start dur interval t Ha Ht) as [Hlo Hhi].
  eapply leb_finite_between; [exact Hlo|exact Hhi|apply (sa_endRate Ha)|apply (sa_startRate Ha)].
Qed.

Lemma auction_rate_wf (a : DutchAuction) (start dur interval t : Z)
    (Ha : seconds_auction a start dur interval) (Ht : timestamp t) :
  wf_number (getCurrentRate a (of_Z t)) = true.
Proof.
  rewrite (getCurrentRate_seconds a start dur interval Ha t Ht).
  destruct (t <? start); [apply (sa_startRate Ha)|].
  destruct (start + dur <=? t); [apply (sa_endRate Ha)|].
  apply wf_max; [apply wf_add|apply (sa_endRate Ha)].
Qed.

(** Applying an operation monotone in [x] to both ends of an interval. *)
Lemma bonus_le (p : number) :
  leb (of_Z 0) p = true -> leb p (of_Z 100) = true ->
  leb (div (mul (sub p (of_Z 25)) (lit 1 1000)) (of_Z 75)) (lit 1 1000) = true.
Proof.
  intros H0 H1.
  assert (is_finite p = true) as Hp
    by (eapply leb_finite_between; [exact H0|exact H1|vm_compute; reflexivity..]).
  assert (leb (of_Z (-25)) (sub p (of_Z 25)) = true /\
          leb (sub p (of_Z 25)) (of_Z 75) = true) as [L1 U1].
  { split; [replace (of_Z (-25)) with (sub (of_Z 0) (of_Z 25)) by (vm_compute; reflexivity)
           |replace (of_Z 75) with (sub (of_Z 100) (of_Z 25)) by (vm_compute; reflexivity)];
      (apply add_mono_l; [|vm_compute; reflexivity]); [exact H0|exact H1]. }
  set (x := sub p (of_Z 25)) in *.
  assert (is_finite x = true) as Hx
    by (eapply leb_finite_between; [exact L1|exact U1|vm_compute; reflexivity..]).
  assert (leb (mul (of_Z (-25)) (lit 1 1000)) (mul x (lit 1 1000)) = true /\
          leb (mul x (lit 1 1000)) (mul (of_Z 75) (lit 1 1000)) = true) as [L2 U2].
  { split; [apply (mul_mono_nonneg _ _ _ L1)|apply (mul_mono_nonneg _ _ _ U1)];
      first [exact Hx|vm_compute; reflexivity]. }
  set (y := mul x (lit 1 1000)) in *.
  assert (is_finite y = true) as Hy
    by (eapply leb_finite_between; [exact L2|exact U2|vm_compute; reflexivity..]).
  eapply leb_trans; [apply (div_mono_pos y _ (of_Z 75) U2)|];
    [vm_compute; reflexivity|vm_compute; reflexivity|exact Hy|vm_compute; reflexivity..].
Qed.

(** The factor [1 + max(0, bonus)] lies in [1, 1.001]. *)
Lemma bonus_factor (p : number) :
  leb (of_Z 0) p = true -> leb p (of_Z 100) = true ->
  let factor := add (of_Z 1)
    (max (of_Z 0) (div (mul (sub p (of_Z 25)) (lit 1 1000)) (of_Z 75))) in
  leb (of_Z 1) factor = true /\ leb factor (lit 1001 1000) = true /\ is_finite factor = true.
Proof.
  intros Hp0 Hp factor. pose proof (bonus_le p Hp0 Hp) as Hb. unfold factor.
  set (bonus := div (mul (sub p (of_Z 25)) (lit 1 1000)) (of_Z 75)) in *.
  destruct (leb_is_number _ _ Hb) as [Hbn _].
  assert (leb (of_Z 0) (max (of_Z 0) bonus) = true) as H0
    by (apply max_l; [apply round_is_number|exact Hbn]).
  assert (leb (max (of_Z 0) bonus) (lit 1 1000) = true) as H1
    by (apply max_lub; [vm_compute; reflexivity|exact Hb]).
  fold factor. assert (leb (of_Z 1) factor = true) as Hlo.
  { unfold factor. fold bonus. rewrite (add_comm (of_Z 1)).
    replace (of_Z 1) with (add (of_Z 0) (of_Z 1)) at 1 by (vm_compute; reflexivity).
    apply add_mono_l; [exact H0|vm_compute; reflexivity]. }
  assert (leb factor (lit 1001 1000) = true) as Hhi.
  { unfold factor. fold bonus. rewrite (add_comm (of_Z 1)).
    replace (lit 1001 1000) with (add (lit 1 1000) (of_Z 1)) by (vm_compute; reflexivity).
    apply add_mono_l; [exact H1|vm_compute; reflexivity]. }
  split_and!; [exact Hlo|exact Hhi|].
  eapply leb_finite_between; [exact Hlo|exact Hhi|vm_compute; reflexivity|vm_compute; reflexivity].
Qed.

(** The rate scaled to six decimals stays finite when the start rate does. *)
Lemma scaled_rate (a : DutchAuction) (start dur interval t : Z)
    (Ha : seconds_auction a start dur interval) (Ht : timestamp t) :
  leb (Finite 0) (endRate a) = true ->
  is_finite (mul (startRate a) (of_Z 1000000)) = true ->
  let r := mul (getCurrentRate a (of_Z t)) (of_Z 1000000) in
  is_finite r = true /\ leb (Finite 0) r = true.
Proof.
  intros He Hf r. destruct (auction_rate_bounds_aux a start dur interval t Ha Ht) as [Hlo Hhi].
  destruct (sa_startRate Ha) as [Hsf _], (sa_endRate Ha) as [Hef _].
  assert (is_finite (getCurrentRate a (of_Z t)) = true) as Hcf
    by (eapply leb_finite_between; [exact Hlo|exact Hhi|exact Hef|exact Hsf]).
  assert (leb (Finite 0) (of_Z 1000000) = true) as Hm
    by (rewrite <- of_Z_0, leb_of_Z by (unfold small; lia); reflexivity).
  assert (is_finite (of_Z 1000000) = true) as Hmf by (apply of_Z_finite; unfold small; lia).
  assert (leb (Finite 0) r = true) as Hr.
  { apply mul_nonneg; [exact (leb_trans _ _ _ He Hlo)|exact Hm|exact Hcf|exact Hmf]. }
  split; [|exact Hr].
  eapply leb_finite_between; [exact Hr| |reflexivity|exact Hf].
  apply mul_mono_nonneg; [exact Hhi|exact Hm|exact Hmf|exact Hcf|exact Hsf].
Qed.

(** The minimum return is defined on every whole-second time and never
    rises as the auction decays: a later fill owes the maker at most as much. *)
Theorem min_return_antitone (a : DutchAuction) (start dur interval t1 t2 amount : Z)
    (Ha : seconds_auction a start dur interval)
    (Ht1 : timestamp t1) (Ht2 : timestamp t2) (Hle : t1 <= t2) (Hn : 0 <= amount)
    (He : leb (Finite 0) (endRate a) = true)
    (Hf : is_finite (mul (startRate a) (of_Z 1000000)) = true) :
  exists m1 m2,
    calculateMinReturn (toString amount) a (of_Z t1) = Ok (toString m1) /\
    calculateMinReturn (toString amount) a (of_Z t2) = Ok (toString m2) /\
    0 <= m2 <= m1.
Proof.
  destruct (scaled_rate a start dur interval t1 Ha Ht1 He Hf) as [Hf1 Hn1].
  destruct (scaled_rate a start dur interval t2 Ha Ht2 He Hf) as [Hf2 Hn2].
  pose proof (auction_antitone_aux a start dur interval t1 t2 Ha Ht1 Ht2 Hle) as Hanti.
  assert (leb (mul (getCurrentRate a (of_Z t2)) (of_Z 1000000))
              (mul (getCurrentRate a (of_Z t1)) (of_Z 1000000)) = true) as Hm.
  { apply mul_mono_nonneg; [exact Hanti|..].
    - rewrite <- of_Z_0, leb_of_Z by (unfold small; lia); reflexivity.
    - apply of_Z_finite; unfold small; lia.
    - exact (auction_rate_finite a start dur interval t2 Ha Ht2).
    - exact (auction_rate_finite a start dur interval t1 Ha Ht1). }
  destruct (bigint_floor_mono _ _ Hm Hf2 Hf1) as (r2 & r1 & E2 & E1 & Hr).
  pose proof (bigint_floor_nonneg _ _ Hn2 E2).
  exists (amount * r1 / 1000000), (amount * r2 / 1000000).
  unfold calculateMinReturn, BigInt_of_number. rewrite BigInt_toString, E1, E2.
  cbn [result_bind]. unfold bigint_div. cbn [Z.eqb result_bind].
  rewrite !Z.quot_div_nonneg by nia. split; [reflexivity|]. split; [reflexivity|]. split.
  - apply Z.div_pos; nia.
  - apply Z.div_le_mono; nia.
Qed.

Lemma min_return_antitone_witness :
  exists m1 m2,
    calculateMinReturn (toString 1000000) sample_auction (of_Z 1700000100) = Ok (toString m1) /\
    calculateMinReturn (toString 1000000) sample_auction (of_Z 1700000200) = Ok (toString m2) /\
    0 <= m2 <= m1.
Proof.
  apply (min_return_antitone sample_auction 1700000000 300 30 1700000100 1700000200 1000000
           sample_auction_ok); try (unfold timestamp; lia); vm_compute; reflexivity.
Defined.

(** The size bonus of a fill is at least zero and at most one tenth of a
    percent: the bonus factor at 100 % is [1.001]. *)
Theorem fill_bonus_bounded (a : DutchAuction) (start dur interval t : Z) (p : number)
    (Ha : seconds_auction a start dur interval) (Ht : timestamp t)
    (He : leb (Finite 0) (endRate a) = true)
    (Hp0 : leb (of_Z 0) p = true) (Hp : leb p (of_Z 100) = true) :
  let base := getCurrentRate a (of_Z t) in
  leb base (getRateForFill a p (of_Z t)) = true /\
  leb (getRateForFill a p (of_Z t)) (mul base (lit 1001 1000)) = true.
Proof.
  destruct (auction_rate_bounds_aux a start dur interval t Ha Ht) as [Hlo Hhi].
  pose proof (auction_rate_finite a start dur interval t Ha Ht) as Hbf.
  pose proof (auction_rate_wf a start dur interval t Ha Ht) as Hbw.
  destruct (bonus_factor p Hp0 Hp) as (H1 & H2 & Hff).
  assert (leb (Finite 0) (getCurrentRate a (of_Z t)) = true) as Hb0
    by exact (leb_trans _ _ _ He Hlo).
  cbn zeta. unfold getRateForFill.
  set (base := getCurrentRate a (of_Z t)) in *.
  set (factor := add (of_Z 1) _) in *.
  rewrite !(mul_comm base). split.
  - rewrite <- (mul_1_r base Hbw Hbf) at 1. rewrite (mul_comm base).
    apply mul_mono_nonneg; [exact H1|exact Hb0|exact Hbf|apply of_Z_finite; unfold small; lia|exact Hff].
  - apply mul_mono_nonneg; [exact H2|exact Hb0|exact Hbf|exact Hff|vm_compute; reflexivity].
Qed.

Lemma fill_bonus_bounded_witness :
  let base := getCurrentRate sample_auction (of_Z 1700000100) in
  leb base (getRateForFill sample_auction (of_Z 100) (of_Z 1700000100)) = true /\
  leb (getRateForFill sample_auction (of_Z 100) (of_Z 1700000100)) (mul base (lit 1001 1000)) = true.
Proof.
  apply (fill_bonus_bounded sample_auction 1700000000 300 30 1700000100 (of_Z 100)
           sample_auction_ok); try (unfold timestamp; lia); vm_compute; reflexivity.
Defined.
