(* ===== verification/PartialFill.v ===== *)
(** * Partial-fill arithmetic

    [PartialFillSecretsManager] of
    [backend/order-engine/src/utils/partialFillSecrets.ts]: the fill
    thresholds, the secret index of a cumulative fill, the amount of a partial
    fill and the identifiers of partial escrows.  The [ethers] functions it
    calls are a parameter, the class [Ethers]. *)

From Stdlib Require Import ZArith Lia.
From stdpp Require Import base numbers list strings.
From S2P Require Import Prelude.
From S2P Require Import JsNumber.
From S2P Require Import JsString.

Local Open Scope Z_scope.
Local Open Scope result_scope.

(** ** The ethers library *)

(** Hex strings stand for byte arrays, as in the source. *)
Class Ethers := {
  keccak256 : string -> string;
  concat : list string -> string;
  id : string -> string;
  getBigInt : string -> result Z
}.

(** What the code relies on: a decimal string in the form BigInt prints is
    read back as its value. *)
Class EthersLaws `{Ethers} := {
  getBigInt_decimal : forall z, 0 <= z -> getBigInt (toString z) = Ok z
}.

(** ** Operations *)

Section Operations.
Context `{Ethers}.

(** [fillThresholds] of [generateSecrets]: [(i * 100) / parts]. *)
Definition fillThresholds (parts : nat) : list number :=
  (fun i => div (mul (of_Z (Z.of_nat i)) (of_Z 100)) (of_Z (Z.of_nat parts)))
    <$> seq 1 parts.

Fixpoint secretIndex_from (i : nat) (cumulative : number) (thresholds : list number) : nat :=
  match thresholds with
  | [] => i
  | t :: ts => if leb cumulative t then i else secretIndex_from (S i) cumulative ts
  end.

(** The loop returns the first index; past the end it is the length. *)
Definition getSecretIndex (cumulativeFillPercentage : number)
    (thresholds : list number) : nat :=
  secretIndex_from 0 cumulativeFillPercentage thresholds.

(** [secrets[secretIndex]] is [undefined] out of range. *)
Definition getSecretForFill (secrets : list string)
    (currentFillPercentage newFillPercentage : number)
    (thresholds : list number) : option string * nat :=
  let cumulativeFill := add currentFillPercentage newFillPercentage in
  let secretIndex := getSecretIndex cumulativeFill thresholds in
  (secrets !! secretIndex, secretIndex).

Definition calculatePartialAmount (totalAmount : string) (fillPercentage : number)
    : result string :=
  total <-? getBigInt totalAmount;
  basisPoints <-? BigInt_of_number (floor (mul fillPercentage (of_Z 100)));
  partial <-? bigint_div (total * basisPoints) 10000;
  Ok (toString partial).

Definition generatePartialEscrowId (baseOrderId : string) (fillIndex : Z) : string :=
  id (baseOrderId +:+ "-partial-" +:+ toString fillIndex).

(** The secret chain: each secret is the hash of the previous one and a
    fresh nonce. *)
Fixpoint derive_secrets (prev : string) (nonces : list string) : list string :=
  match nonces with
  | [] => []
  | nonce :: rest =>
      let child := keccak256 (concat [prev; nonce]) in
      child :: derive_secrets child rest
  end.

Definition secret_chain (rootSecret : string) (nonces : list string) : list string :=
  rootSecret :: derive_secrets rootSecret nonces.
End Operations.

Lemma length_secret_chain `{Ethers} (rootSecret : string) (nonces : list string) :
  length (secret_chain rootSecret nonces) = S (length nonces).
Proof.
  unfold secret_chain. simpl. f_equal. revert rootSecret.
  induction nonces as [|n ns IH]; intros r; simpl; [done|]. by rewrite IH.
Qed.

(** ** Secret index *)

Lemma secretIndex_from_shift (i : nat) (c : number) (ts : list number) :
  secretIndex_from i c ts = (i + secretIndex_from 0 c ts)%nat.
Proof.
  revert i. induction ts as [|t ts IH]; intros i; simpl; [lia|].
  case_match; [lia|]. rewrite (IH (S i)), (IH 1%nat). lia.
Qed.

Lemma getSecretIndex_cons (c t : number) (ts : list number) :
  getSecretIndex c (t :: ts) = if leb c t then 0%nat else S (getSecretIndex c ts).
Proof.
  unfold getSecretIndex. simpl. case_match; [done|].
  by rewrite secretIndex_from_shift.
Qed.

Lemma getSecretIndex_le (c : number) (ts : list number) :
  (getSecretIndex c ts <= length ts)%nat.
Proof.
  induction ts as [|t ts IH]; [done|].
  rewrite getSecretIndex_cons. simpl. case_match; lia.
Qed.

Lemma getSecretIndex_found (c : number) (ts : list number) (t : number) :
  ts !! getSecretIndex c ts = Some t -> leb c t = true.
Proof.
  induction ts as [|u ts IH]; [done|]. rewrite getSecretIndex_cons.
  case_match; simpl; [congruence|done].
Qed.

Lemma getSecretIndex_before (c : number) (ts : list number) (j : nat) (t : number) :
  (j < getSecretIndex c ts)%nat -> ts !! j = Some t -> leb c t = false.
Proof.
  revert j. induction ts as [|u ts IH]; intros j; [done|].
  rewrite getSecretIndex_cons. case_match; [lia|].
  destruct j; simpl; [congruence|]. intros. apply (IH j); [lia|done].
Qed.

Lemma getSecretIndex_lt (c : number) (ts : list number) (j : nat) (t : number) :
  ts !! j = Some t -> leb c t = true -> (getSecretIndex c ts <= j)%nat.
Proof.
  intros Hj Hc. destruct (Nat.le_gt_cases (getSecretIndex c ts) j) as [|Hgt]; [done|].
  by rewrite (getSecretIndex_before c ts j t Hgt Hj) in Hc.
Qed.

(** ** Thresholds *)

(** A quotient that is an integer is exact. *)
Lemma div_exact (a b : Z) :
  0 < b -> small b -> small (a * b) -> small a -> div (of_Z (a * b)) (of_Z b) = of_Z a.
Proof.
  intros Hb Hsb Hsab Hsa. pose proof scale_pos.
  rewrite (of_Z_small (a * b)), (of_Z_small b) by done. cbn [div].
  destruct (Z.eqb_spec (b * scale) 0); [nia|].
  rewrite Z.sgn_pos, Z.abs_eq by nia.
  replace (1 * (a * b * scale) * scale) with (a * scale * (b * scale)) by ring.
  rewrite <- (Z.mul_1_l (b * scale)) at 2. by rewrite round_cancel by nia.
Qed.

Lemma fillThresholds_length (parts : nat) : length (fillThresholds parts) = parts.
Proof. unfold fillThresholds. by rewrite length_fmap, length_seq. Qed.

Lemma fillThresholds_lookup (parts i : nat) :
  (i < parts)%nat ->
  fillThresholds parts !! i =
    Some (div (mul (of_Z (Z.of_nat (S i))) (of_Z 100)) (of_Z (Z.of_nat parts))).
Proof.
  intros Hi. unfold fillThresholds. rewrite list_lookup_fmap.
  rewrite lookup_seq_lt by done. done.
Qed.

Lemma fillThresholds_last (parts : nat) :
  (0 < parts)%nat -> Z.of_nat parts < 2 ^ 40 ->
  fillThresholds parts !! Nat.pred parts = Some (of_Z 100).
Proof.
  intros Hp Hb. rewrite fillThresholds_lookup by lia. f_equal.
  replace (S (Nat.pred parts)) with parts by lia.
  rewrite mul_of_Z by (unfold small; lia).
  rewrite Z.mul_comm. apply div_exact; unfold small; lia.
Qed.

(** ** Amounts *)

(** Basis points of a percentage in [0, 100]. *)
Lemma basis_points (p : number) :
  leb (of_Z 0) p = true -> leb p (of_Z 100) = true ->
  exists b, to_bigint (floor (mul p (of_Z 100))) = Some b /\ 0 <= b <= 10000.
Proof.
  intros H0 H1.
  assert (is_finite (of_Z 100) = true) as F100 by (vm_compute; reflexivity).
  assert (is_finite (of_Z 10000) = true) as F10000 by (vm_compute; reflexivity).
  assert (leb (Finite 0) (of_Z 100) = true) as N100 by (vm_compute; reflexivity).
  assert (is_finite p = true) as Fp
    by (eapply leb_finite_between; [exact H0|exact H1|vm_compute; reflexivity|exact F100]).
  assert (leb (mul p (of_Z 100)) (of_Z 10000) = true) as U.
  { replace (of_Z 10000) with (mul (of_Z 100) (of_Z 100)) by (vm_compute; reflexivity).
    apply mul_mono_nonneg; [exact H1|exact N100|exact F100|exact Fp|exact F100]. }
  assert (leb (Finite 0) (mul p (of_Z 100)) = true) as L.
  { rewrite of_Z_0 in H0. apply mul_nonneg; [exact H0|exact N100|exact Fp|exact F100]. }
  assert (is_finite (mul p (of_Z 100)) = true) as Fm
    by (eapply leb_finite_between; [exact L|exact U|reflexivity|exact F10000]).
  destruct (bigint_floor_mono _ _ U Fm F10000) as (b & c & Eb & Ec & Hbc).
  exists b. split; [exact Eb|]. split; [by eapply bigint_floor_nonneg|].
  enough (c = 10000) by lia.
  assert (to_bigint (floor (of_Z 10000)) = Some 10000) as E by (vm_compute; reflexivity).
  congruence.
Qed.

Section Amounts.
Context `{EthersLaws}.

Lemma partial_amount_value (total b : Z) (p : number) :
  0 <= total -> 0 <= b -> to_bigint (floor (mul p (of_Z 100))) = Some b ->
  calculatePartialAmount (toString total) p = Ok (toString (total * b / 10000)).
Proof.
  intros Ht Hb E. unfold calculatePartialAmount, BigInt_of_number.
  rewrite getBigInt_decimal, E by done. cbn [result_bind]. unfold bigint_div.
  cbn [Z.eqb result_bind]. by rewrite Z.quot_div_nonneg by nia.
Qed.

Lemma partial_amount_percent (total p : Z) :
  0 <= total -> 0 <= p <= 100 ->
  calculatePartialAmount (toString total) (of_Z p) = Ok (toString (total * p / 100)).
Proof.
  intros Ht Hp.
  rewrite (partial_amount_value total (p * 100)); [|lia|lia|].
  - replace (total * (p * 100)) with (total * p * 100) by ring.
    change 10000 with (100 * 100). by rewrite Z.div_mul_cancel_r by lia.
  - rewrite mul_of_Z, floor_of_Z by (unfold small; lia).
    apply to_bigint_of_Z. unfold small; lia.
Qed.

Lemma partial_amounts_sum (total : Z) (ps : list Z) :
  0 <= total -> Forall (fun p => 0 <= p) ps ->
  foldr Z.add 0 ((fun p => total * p / 100) <$> ps) * 100 <= total * foldr Z.add 0 ps.
Proof.
  intros Ht. induction 1 as [|p ps Hp _ IH]; csimpl; [lia|].
  pose proof (Z.mul_div_le (total * p) 100 ltac:(lia)). lia.
Qed.
End Amounts.

(** ** Properties *)

(** A model of the [ethers] functions in which hashing tags its argument. *)
#[export, refine] Instance tagged_ethers : Ethers := {|
  keccak256 := fun s => "K(" +:+ s +:+ ")";
  concat := fun l => foldr (fun a b => a +:+ "," +:+ b) "" l;
  id := fun s => "I(" +:+ s +:+ ")";
  getBigInt := BigInt
|}.
Defined.

#[export] Instance tagged_ethers_laws : EthersLaws.
Proof. split. intros z _. apply BigInt_toString. Qed.

(** The secret index is the first threshold that covers the cumulative
    fill, and the number of thresholds when none does. *)
Theorem secret_index_correct (c : number) (thresholds : list number) :
  let i := getSecretIndex c thresholds in
  (forall j t, (j < i)%nat -> thresholds !! j = Some t -> leb c t = false) /\
  (forall t, thresholds !! i = Some t -> leb c t = true) /\
  (thresholds !! i = None -> i = length thresholds).
Proof.
  cbn zeta. split_and!.
  - intros j t Hj. by apply getSecretIndex_before.
  - intros t. apply getSecretIndex_found.
  - intros Hn%lookup_ge_None. pose proof (getSecretIndex_le c thresholds). lia.
Qed.

(** A fill of at most 100 % uses one of the [parts] regular secrets; the
    extra secret [parts] is only for over-filled orders. *)
Theorem secret_index_within_parts (parts : nat) (c : number)
    (Hp : (0 < parts)%nat) (Hb : Z.of_nat parts < 2 ^ 40) (Hc : leb c (of_Z 100) = true) :
  (getSecretIndex c (fillThresholds parts) < parts)%nat.
Proof.
  pose proof (getSecretIndex_lt c _ _ _ (fillThresholds_last parts Hp Hb) Hc). lia.
Qed.

Lemma secret_index_within_parts_witness :
  (getSecretIndex (of_Z 60) (fillThresholds 4) < 4)%nat.
Proof.
  apply (secret_index_within_parts 4 (of_Z 60)); [lia|lia|vm_compute; reflexivity].
Defined.

(** A partial amount is defined and never exceeds the order amount, for
    every percentage in [0, 100], whole or fractional. *)
Theorem partial_amount_bounded `{EthersLaws} (total : Z) (p : number)
    (Ht : 0 <= total) (Hlo : leb (of_Z 0) p = true) (Hhi : leb p (of_Z 100) = true) :
  exists q, calculatePartialAmount (toString total) p = Ok (toString q) /\ 0 <= q <= total.
Proof.
  destruct (basis_points p Hlo Hhi) as (b & Eb & Hb).
  exists (total * b / 10000). rewrite (partial_amount_value total b p) by (done || lia).
  split; [done|]. split; [apply Z.div_pos; nia|].
  apply Z.div_le_upper_bound; nia.
Qed.

Lemma partial_amount_bounded_witness :
  exists q, calculatePartialAmount (toString 1000) (lit 125 10) = Ok (toString q) /\ 0 <= q <= 1000.
Proof.
  apply (partial_amount_bounded 1000 (lit 125 10)); [lia|vm_compute; reflexivity..].
Defined.

(** C38. Splitting an order into whole percentages that add up to at most 100
    never gives out more than the order amount. *)
Theorem partial_amounts_conserve `{EthersLaws} (total : Z) (ps : list Z)
    (Ht : 0 <= total) (Hp : Forall (fun p => 0 <= p <= 100) ps)
    (Hs : foldr Z.add 0 ps <= 100) :
  exists qs, mapM (M := option) (fun p =>
      match calculatePartialAmount (toString total) (of_Z p) with
      | Ok s => string_to_bigint s
      | Throw _ => None
      end) ps = Some qs /\ foldr Z.add 0 qs <= total.
Proof.
  exists ((fun p => total * p / 100) <$> ps). split.
  - apply mapM_Some. clear Hs. induction Hp as [|p ps Hp _ IH]; csimpl; constructor.
    + rewrite partial_amount_percent by done. apply string_to_bigint_toString.
    + exact IH.
  - assert (Forall (fun p => 0 <= p) ps) as Hnn by (eapply Forall_impl; [exact Hp|]; simpl; lia).
    pose proof (partial_amounts_sum total ps Ht Hnn). nia.
Qed.

Lemma partial_amounts_conserve_witness :
  exists qs, mapM (M := option) (fun p =>
      match calculatePartialAmount (toString 1001) (of_Z p) with
      | Ok s => string_to_bigint s
      | Throw _ => None
      end) [25; 25; 25; 25] = Some qs /\ foldr Z.add 0 qs <= 1001.
Proof.
  apply (partial_amounts_conserve 1001 [25; 25; 25; 25]);
    [lia|repeat constructor; lia|simpl; lia].
Defined.

(** The basis points of an equal share among [n] resolvers, as the resolver
    computes it ([100 / n], then [Math.floor(p * 100)]). *)
Definition share_basis_points (n : nat) : option Z :=
  to_bigint (floor (mul (div (of_Z 100) (of_Z (Z.of_nat n))) (of_Z 100))).

Lemma equal_shares_fit :
  Forall (fun n => match share_basis_points n with
                   | Some b => 0 <= b /\ b * Z.of_nat n <= 10000
                   | None => False
                   end) (seq 1 20).
Proof.
  apply Forall_forall. intros n Hn.
  assert (forallb (fun n => match share_basis_points n with
                            | Some b => (0 <=? b) && (b * Z.of_nat n <=? 10000)
                            | None => false
                            end) (seq 1 20) = true) as Hall by (vm_compute; reflexivity).
  rewrite forallb_forall in Hall. specialize (Hall n ltac:(by apply list_elem_of_In)).
  destruct (share_basis_points n); [|done]. lia.
Qed.

(** Equal shares among up to twenty resolvers never exceed the order, and
    the three-way split of the deployed configuration leaves at least one
    ten-thousandth of the order unfilled. *)
Theorem equal_split_amounts `{EthersLaws} (total : Z) (n : nat)
    (Ht : 0 <= total) (Hn : (1 <= n <= 20)%nat) :
  exists q,
    calculatePartialAmount (toString total) (div (of_Z 100) (of_Z (Z.of_nat n)))
      = Ok (toString q) /\
    q * Z.of_nat n <= total /\
    (n = 3%nat -> (total - q * Z.of_nat n) * 10000 >= total).
Proof.
  pose proof equal_shares_fit as Hall. rewrite Forall_forall in Hall.
  specialize (Hall n ltac:(apply elem_of_seq; lia)). cbv beta in Hall.
  destruct (share_basis_points n) as [b|] eqn:E; [|destruct Hall]. destruct Hall as [Hb0 Hb].
  exists (total * b / 10000). unfold share_basis_points in E.
  split; [exact (partial_amount_value total b _ Ht Hb0 E)|].
  pose proof (Z.mul_div_le (total * b) 10000 ltac:(lia)).
  split; [nia|]. intros ->.
  assert (b = 3333) as ->; [|lia].
  assert (to_bigint (floor (mul (div (of_Z 100) (of_Z (Z.of_nat 3))) (of_Z 100))) = Some 3333)
    as E3 by (vm_compute; reflexivity).
  congruence.
Qed.

Lemma equal_split_amounts_witness :
  exists q,
    calculatePartialAmount (toString 1000000) (div (of_Z 100) (of_Z (Z.of_nat 3)))
      = Ok (toString q) /\
    q * Z.of_nat 3 <= 1000000 /\
    (3%nat = 3%nat -> (1000000 - q * Z.of_nat 3) * 10000 >= 1000000).
Proof. apply (equal_split_amounts 1000000 3); lia. Defined.
