(* ===== verification/FillSecrets.v ===== *)
(** * The engine's partial-fill secrets

    [generateSecrets] and [verifySecret] of
    [backend/order-engine/src/utils/partialFillSecrets.ts]. The Merkle trees
    are those of the package merkletreejs, which is a parameter (the class
    [MerkleTreeJs]). The random bytes of a call are its arguments. *)

From Stdlib Require Import ZArith Lia.
From stdpp Require Import base numbers list strings.
From S2P Require Import Prelude.
From S2P Require Import JsNumber.
From S2P Require Import JsString.
From S2P Require Import PartialFill.

(** ** The package *)

(** [new MerkleTree(leaves, hash, { sortPairs, hashLeaves: false })] with its
    methods; every tree of the source has [ethers.keccak256] for hash. *)
Class MerkleTreeJs := {
  getHexRoot : bool -> list string -> string;
  getHexProof : bool -> list string -> string -> list string;
  verify : bool -> list string -> list string -> string -> string -> bool
}.

(** What its documentation promises of hex proofs: those of a tree with sorted
    pairs are accepted by every tree with sorted pairs. *)
Class MerkleTreeJsLaws `{MerkleTreeJs} := {
  sorted_proof_accepted : forall leaves others leaf, leaf ∈ leaves ->
    verify true others (getHexProof true leaves leaf) leaf (getHexRoot true leaves) = true
}.

Record PartialFillSecrets := {
  pf_merkleRoot : string;
  pf_secrets : list string;
  pf_merkleProofs : list (list string);
  pf_fillThresholds : list number
}.

Section Manager.
Context `{Ethers, MerkleTreeJs}.

(** [nonces] are the sixteen random bytes of each turn of the loop that derives
    the secrets; it makes [parts] turns. *)
Definition generateSecrets (parts : nat) (rootSecret : string) (nonces : nat -> string) : PartialFillSecrets :=
  let secrets := secret_chain rootSecret (nonces <$> seq 1 parts) in
  let secretHashes := keccak256 <$> secrets in
  {| pf_merkleRoot := getHexRoot false secretHashes;
     pf_secrets := secrets;
     pf_merkleProofs := getHexProof false secretHashes <$> secretHashes;
     pf_fillThresholds := fillThresholds parts |}.

Definition verifySecret (secret merkleRoot : string) (proof : list string) : bool :=
  verify true [] proof (keccak256 secret) merkleRoot.

(** ** Properties *)

(** One secret more than parts, a proof for each of them, a threshold for each
    part. *)
Theorem generated_shape (parts : nat) (root : string) (nonces : nat -> string) :
  let g := generateSecrets parts root nonces in
  length (pf_secrets g) = S parts /\ length (pf_merkleProofs g) = S parts /\
  length (pf_fillThresholds g) = parts.
Proof.
  unfold generateSecrets. cbn [pf_secrets pf_merkleProofs pf_fillThresholds].
  by rewrite !length_fmap, length_secret_chain, fillThresholds_length, length_fmap, length_seq.
Qed.

(** Every fill has a secret: whatever was filled before and is filled now, also
    beyond the whole order or with a share that is no number, the secret that
    [getSecretForFill] selects is one of those generated, never undefined, and
    the proof at its index is the tree's proof for it. *)
Theorem fill_has_secret (parts : nat) (root : string) (nonces : nat -> string) (current new : number) :
  let g := generateSecrets parts root nonces in
  let '(secret, index) := getSecretForFill (pf_secrets g) current new (pf_fillThresholds g) in
  exists s, secret = Some s /\ s ∈ pf_secrets g /\
    pf_merkleProofs g !! index = Some (getHexProof false (keccak256 <$> pf_secrets g) (keccak256 s)).
Proof.
  intros g. destruct (generated_shape parts root nonces) as (Hs & _ & Ht). fold g in Hs, Ht.
  unfold getSecretForFill. set (i := getSecretIndex _ _).
  assert (i < length (pf_secrets g))%nat as Hi.
  { pose proof (getSecretIndex_le (add current new) (pf_fillThresholds g)). lia. }
  destruct (lookup_lt_is_Some_2 _ _ Hi) as [s Hl]. exists s. rewrite Hl. split_and!; [done| |].
  - by eapply list_elem_of_lookup_2.
  - change (pf_merkleProofs g) with (getHexProof false (keccak256 <$> pf_secrets g) <$> (keccak256 <$> pf_secrets g)).
    by rewrite !list_lookup_fmap, Hl.
Qed.

(** [verifySecret] judges proofs of trees with sorted pairs: it accepts every
    secret with such a proof. The trees of [generateSecrets] are of the other
    kind. *)
Theorem sorted_tree_verified `{!MerkleTreeJsLaws} (secrets : list string) (s : string) :
  s ∈ secrets ->
  verifySecret s (getHexRoot true (keccak256 <$> secrets))
    (getHexProof true (keccak256 <$> secrets) (keccak256 s)) = true.
Proof. intros Hs. apply sorted_proof_accepted. by apply list_elem_of_fmap_2. Qed.
End Manager.

(** ** The two kinds of trees differ *)

Module SecretsExample.

(** Trees whose hash is written as a bracket: sorted pairs are put in order
    before they are hashed. Three leaves and more are one node, whose proof is
    all of them. *)
Definition pair_hash (sorted : bool) (a b : string) : string :=
  let ordered := negb sorted || String.leb a b in
  "[" +:+ (if ordered then a +:+ b else b +:+ a) +:+ "]".

Definition bracket_trees : MerkleTreeJs :=
  {| getHexRoot sorted l :=
       match l with [a; b] => pair_hash sorted a b | [a] => a | _ => String.concat "," l end;
     getHexProof sorted l leaf :=
       match l with
       | [a; b] => if bool_decide (leaf = a) then [b] else [a]
       | [a] => []
       | _ => l
       end;
     verify sorted _ proof leaf root :=
       match proof with
       | [] => bool_decide (root = leaf)
       | [p] => bool_decide (root = pair_hash sorted leaf p)
       | _ => bool_decide (leaf ∈ proof /\ root = String.concat "," proof)
       end |}.

Lemma pair_hash_sorted a b : pair_hash true a b = pair_hash true b a.
Proof.
  unfold pair_hash. simpl. destruct (String.leb a b) eqn:Hab, (String.leb b a) eqn:Hba; try done.
  - by rewrite (String.leb_antisym _ _ Hab Hba).
  - destruct (String.leb_total a b); congruence.
Qed.

Lemma bracket_laws : @MerkleTreeJsLaws bracket_trees.
Proof.
  constructor. intros l others leaf Hl. destruct l as [|a [|b [|c l]]].
  - by apply elem_of_nil in Hl.
  - apply list_elem_of_singleton in Hl as ->. by apply bool_decide_eq_true.
  - simpl. case_bool_decide as Ha; apply bool_decide_eq_true; [by subst|].
    apply elem_of_cons in Hl as [Hl|Hl%list_elem_of_singleton]; [done|]. subst. apply pair_hash_sorted.
  - by apply bool_decide_eq_true.
Qed.

Definition bracket_ethers : Ethers :=
  {| keccak256 s := match s with "first" => "b" | _ => "a" end;
     concat l := String.concat "" l; id s := s; getBigInt s := Throw (Error s) |}.

(** With one part: the generated proofs are not accepted by [verifySecret] as
    soon as the hashes of the two secrets are not in order. *)
Example generated_proof_refused :
  let g := @generateSecrets bracket_ethers bracket_trees 1 "first" (fun _ => "n") in
  (pf_secrets g !! 0%nat) = Some "first" /\
  @verifySecret bracket_ethers bracket_trees "first" (pf_merkleRoot g) (default [] (pf_merkleProofs g !! 0%nat)) = false.
Proof. by vm_compute. Qed.

(** A proof of a tree with sorted pairs over the same secrets is accepted. *)
Lemma sorted_tree_verified_witness :
  let leaves := @keccak256 bracket_ethers <$> ["first"; "second"] in
  @verifySecret bracket_ethers bracket_trees "first" (@getHexRoot bracket_trees true leaves)
    (@getHexProof bracket_trees true leaves "b") = true.
Proof.
  apply (@sorted_tree_verified bracket_ethers bracket_trees bracket_laws ["first"; "second"] "first"). by left.
Defined.
End SecretsExample.
