(* ===== verification/Merkle.v ===== *)
(** * The Merkle tree of fill secrets

    [generateSecrets] of [frontend/src/utils/partialFillSecrets.ts] builds the
    tree itself (pairs hashed in order, an odd node promoted) and a proof per
    leaf; [verifyMerkleProof] of
    [contracts/ethereum/contracts/FusionPlusGaslessEscrowV2.sol] checks one. *)

From Stdlib Require Import ZArith Lia.
From stdpp Require Import base numbers list strings.
From S2P Require Import Prelude.
From S2P Require Import JsNumber.
From S2P Require Import JsString.
From S2P Require Import PartialFill.

(** ** The tree *)

Section Tree.
Context `{Ethers}.

Definition hash_pair (a b : string) : string := keccak256 (concat [a; b]).

(** One pass of the inner loop: hash pairs, promote an odd last node. *)
Fixpoint next_level (level : list string) : list string :=
  match level with
  | a :: b :: rest => hash_pair a b :: next_level rest
  | rest => rest
  end.

(** The [while] loop, bottom level first; [fuel] bounds its iterations. *)
Fixpoint build_levels (fuel : nat) (level : list string) : list (list string) :=
  match fuel with
  | O => [level]
  | S fuel' =>
      if (1 <? length level)%nat then level :: build_levels fuel' (next_level level)
      else [level]
  end.

Definition tree (leaves : list string) : list (list string) :=
  build_levels (length leaves) leaves.

(** [tree[tree.length - 1][0]] *)
Definition merkle_root (leaves : list string) : option string :=
  last (tree leaves) ≫= head.

(** The proof of the leaf [index]: the sibling at each level below the root
    that has one. *)
Fixpoint proof_from (levels : list (list string)) (index : nat) : list string :=
  match levels with
  | [] | [_] => []
  | level :: rest =>
      let isRightNode := Nat.odd index in
      let siblingIndex := if isRightNode then Nat.pred index else S index in
      match level !! siblingIndex with
      | Some node => node :: proof_from rest (Nat.div2 index)
      | None => proof_from rest (Nat.div2 index)
      end
  end.

Definition merkle_proof (leaves : list string) (index : nat) : list string :=
  proof_from (tree leaves) index.

Record PartialFillSecrets := {
  merkleRoot : option string;
  secrets : list string;
  merkleProofs : list (list string);
  thresholds : list number
}.

(** [generateSecrets(parts)] with its random bytes as arguments. *)
Definition generateSecrets (parts : nat) (rootSecret : string) (nonces : list string)
    : PartialFillSecrets :=
  let secrets := secret_chain rootSecret nonces in
  let leaves := keccak256 <$> secrets in
  {| merkleRoot := merkle_root leaves;
     secrets := secrets;
     merkleProofs := merkle_proof leaves <$> seq 0 (length secrets);
     thresholds := fillThresholds parts |}.

(** ** The contract's verifier *)

Fixpoint compute_root (computedHash : string) (proof : list string) (index : nat) : string :=
  match proof with
  | [] => computedHash
  | proofElement :: rest =>
      let computedHash' :=
        if Nat.even index then hash_pair computedHash proofElement
        else hash_pair proofElement computedHash in
      compute_root computedHash' rest (Nat.div2 index)
  end.

Definition verifyMerkleProof (proof : list string) (root leaf : string) (index : nat) : bool :=
  String.eqb (compute_root leaf proof index) root.
End Tree.

(** ** Facts *)

Section TreeFacts.
Context `{Ethers}.

(** Induction two elements at a time. *)
Lemma pair_ind {A} (P : list A -> Prop) :
  P [] -> (forall a, P [a]) -> (forall a b l, P l -> P (a :: b :: l)) -> forall l, P l.
Proof.
  intros H0 H1 H2 l.
  enough (forall n l, (length l <= n)%nat -> P l) as Hn by eauto.
  induction n as [|n IH]; intros [|a [|b l']] Hl; simpl in *; auto; try lia.
  apply H2, IH. lia.
Qed.

Lemma length_next_level (l : list string) : length (next_level l) = Nat.div2 (S (length l)).
Proof. induction l as [|a|a b l IH] using pair_ind; [done..|]. simpl in *. by rewrite IH. Qed.

Lemma next_level_shorter (l : list string) (fuel : nat) :
  (1 < length l)%nat -> (length l <= S (S fuel))%nat -> (length (next_level l) <= S fuel)%nat.
Proof.
  intros H1 Hl. rewrite length_next_level, Nat.div2_div.
  pose proof (Nat.div_mod_eq (S (length l)) 2). lia.
Qed.

Lemma next_level_lookup (l : list string) (i : nat) (a b : string) :
  l !! (2 * i)%nat = Some a -> l !! S (2 * i) = Some b ->
  next_level l !! i = Some (hash_pair a b).
Proof.
  revert i. induction l as [|x|x y l IH] using pair_ind; intros i.
  - done.
  - destruct i; done.
  - destruct i as [|i]; simpl; [congruence|].
    replace (i + S (i + 0))%nat with (S (2 * i)) by lia. simpl.
    intros Ha Hb. apply IH; simpl; done.
Qed.

Lemma build_levels_cons (fuel : nat) (level : list string) :
  exists rest, build_levels fuel level = level :: rest.
Proof. destruct fuel; simpl; [eauto|]. case_match; eauto. Qed.

(** The loop ends with a single node when the fuel covers the level. *)
Lemma build_levels_last (fuel : nat) (level : list string) :
  level <> [] -> (length level <= S fuel)%nat ->
  exists r, last (build_levels fuel level) = Some [r].
Proof.
  revert level. induction fuel as [|fuel IH]; intros level Hne Hl; simpl.
  - destruct level as [|a [|b l]]; simpl in *; [done|eauto|lia].
  - destruct (Nat.ltb_spec 1 (length level)) as [H1|H1].
    + destruct (IH (next_level level)) as [r Hr].
      * intros Hnil. pose proof (length_next_level level) as Hlen.
        rewrite Hnil in Hlen. destruct level as [|a [|b l]]; simpl in *; try done; lia.
      * by apply next_level_shorter.
      * exists r. destruct (build_levels_cons fuel (next_level level)) as [rest Hrest].
        rewrite Hrest in *. done.
    + destruct level as [|a [|b l]]; simpl in *; [done|eauto|lia].
Qed.

Lemma proof_length (levels : list (list string)) (i : nat) :
  (length (proof_from levels i) <= Nat.pred (length levels))%nat.
Proof.
  revert i. induction levels as [|l [|l' levels] IH]; intros i; simpl in *; [lia|lia|].
  destruct (l !! _); simpl; [apply le_n_S|apply le_S]; apply IH.
Qed.

(** A proof step that has a sibling climbs to the parent node. *)
Lemma parent_lookup (level : list string) (i : nat) (x y : string) :
  level !! i = Some x ->
  level !! (if Nat.odd i then Nat.pred i else S i) = Some y ->
  next_level level !! Nat.div2 i =
    Some (if Nat.even i then hash_pair x y else hash_pair y x).
Proof.
  intros Hx Hy. pose proof (Nat.div2_odd i) as Hi. rewrite <- Nat.negb_odd.
  destruct (Nat.odd i); cbn [Nat.b2n negb] in *.
  - apply next_level_lookup.
    + rewrite <- Hy. f_equal. lia.
    + rewrite <- Hx. f_equal. lia.
  - apply next_level_lookup.
    + rewrite <- Hx. f_equal. lia.
    + rewrite <- Hy. f_equal. lia.
Qed.

Lemma proof_from_root (fuel : nat) (level : list string) (i : nat) (x : string) :
  (length level <= S fuel)%nat ->
  level !! i = Some x ->
  length (proof_from (build_levels fuel level) i) =
    Nat.pred (length (build_levels fuel level)) ->
  last (build_levels fuel level) =
    Some [compute_root x (proof_from (build_levels fuel level) i) i].
Proof.
  revert level i x. induction fuel as [|fuel IH]; intros level i x Hlen Hx Hfull; simpl in *.
  - destruct level as [|a [|b l]]; simpl in *; [done| |lia].
    destruct i as [|i]; simplify_eq/=. done.
  - destruct (Nat.ltb_spec 1 (length level)) as [H1|H1].
    + pose proof (next_level_shorter level fuel H1 Hlen) as Hb.
      pose proof (proof_length (build_levels fuel (next_level level)) (Nat.div2 i)) as Hp.
      destruct (build_levels_cons fuel (next_level level)) as [rest Hrest].
      specialize (IH (next_level level) (Nat.div2 i)). rewrite Hrest in *. simpl in *.
      destruct (level !! (if Nat.odd i then _ else _)) as [y|] eqn:Hy; simpl in *; [|lia].
      rewrite (IH _ Hb (parent_lookup _ _ _ _ Hx Hy)); [done|lia].
    + destruct level as [|a [|b l]]; simpl in *; [done| |lia].
      destruct i as [|i]; simplify_eq/=. done.
Qed.

Lemma tree_single_root (leaves : list string) :
  leaves <> [] -> exists r, last (tree leaves) = Some [r].
Proof. intros Hne. apply build_levels_last; [done|lia]. Qed.
End TreeFacts.

(** ** Properties *)

Section Properties.
Context `{Ethers}.

(** The tree-building loop of [generateSecrets] terminates within one
    iteration per leaf and ends in a single root, whatever the number of
    parts: the published [merkleRoot] is always defined, and there are one
    secret and one proof per part plus one. *)
Theorem generate_secrets_shape (parts : nat) (rootSecret : string) (nonces : list string)
    (Hn : length nonces = parts) :
  let r := generateSecrets parts rootSecret nonces in
  (exists root, merkleRoot r = Some root) /\
  length (secrets r) = S parts /\
  length (merkleProofs r) = S parts /\
  length (thresholds r) = parts.
Proof.
  intros r. subst r parts. cbn -[fillThresholds secret_chain merkle_root].
  rewrite length_fmap, length_seq, length_secret_chain, fillThresholds_length.
  split; [|done].
  destruct (tree_single_root (keccak256 <$> secret_chain rootSecret nonces)) as [r Hr].
  - intros Hnil. apply (f_equal length) in Hnil.
    rewrite length_fmap, length_secret_chain in Hnil. done.
  - unfold merkle_root. rewrite Hr. by exists r.
Qed.

(** C26. Round trip between the frontend and the escrow contract: a proof
    that [generateSecrets] emits with one sibling per level is accepted by
    [verifyMerkleProof] for the leaf and the index it was made for. *)
Theorem merkle_proof_verifies (leaves : list string) (i : nat) (leaf root : string)
    (Hleaf : leaves !! i = Some leaf)
    (Hroot : merkle_root leaves = Some root)
    (Hfull : length (merkle_proof leaves i) = Nat.pred (length (tree leaves))) :
  verifyMerkleProof (merkle_proof leaves i) root leaf i = true.
Proof.
  unfold verifyMerkleProof, merkle_root, merkle_proof, tree in *.
  rewrite (proof_from_root _ _ i leaf) in Hroot; [|lia|exact Hleaf|exact Hfull].
  simplify_eq/=. apply String.eqb_refl.
Qed.

(** With the default of four parts (five secrets) the contract accepts
    the proofs of the four secrets that fills up to 100% use, and it accepts
    the proof of the fifth (promoted) secret exactly when the hash is blind
    to the order of the last pair: promotion drops levels that the
    contract's index arithmetic still counts. *)
Theorem default_parts_proofs (l0 l1 l2 l3 l4 : string) :
  let leaves := [l0; l1; l2; l3; l4] in
  let h := hash_pair (hash_pair l0 l1) (hash_pair l2 l3) in
  merkle_root leaves = Some (hash_pair h l4) /\
  (forall i leaf, (i < 4)%nat -> leaves !! i = Some leaf ->
     verifyMerkleProof (merkle_proof leaves i) (hash_pair h l4) leaf i = true) /\
  (verifyMerkleProof (merkle_proof leaves 4) (hash_pair h l4) l4 4 = true <->
     hash_pair l4 h = hash_pair h l4).
Proof.
  intros leaves h. split; [done|split].
  - intros i leaf Hi Hl.
    do 4 (destruct i as [|i]; [simplify_eq/=; apply String.eqb_refl|]). lia.
  - unfold verifyMerkleProof. simpl. apply String.eqb_eq.
Qed.
End Properties.

(** ** Witnesses *)

Lemma generate_secrets_shape_witness :
  let r := @generateSecrets tagged_ethers 2 "r" ["n"; "m"] in
  (exists root, merkleRoot r = Some root) /\ length (secrets r) = 3%nat /\
  length (merkleProofs r) = 3%nat /\ length (thresholds r) = 2%nat.
Proof. apply (@generate_secrets_shape tagged_ethers 2 "r" ["n"; "m"]). reflexivity. Defined.

Lemma merkle_proof_verifies_witness :
  let leaves := ["a"; "b"; "c"] in
  @verifyMerkleProof tagged_ethers (@merkle_proof tagged_ethers leaves 1)
    (@hash_pair tagged_ethers (@hash_pair tagged_ethers "a" "b") "c") "b" 1 = true.
Proof.
  apply (@merkle_proof_verifies tagged_ethers ["a"; "b"; "c"] 1 "b"); reflexivity.
Defined.

