(* ===== verification/OrderTypes.v ===== *)
(** * Orders and fills

    The data of [backend/order-engine/src/types/order.ts]: the statuses and
    chains (string enums), the zod schemas of an order submission, and the
    [Order] and [Fill] interfaces the order engine keeps. A field that the
    schema makes optional is an [option]; a date is its epoch time in
    milliseconds. *)

From Stdlib Require Import ZArith.
From stdpp Require Import base numbers list strings.
From S2P Require Import Prelude.
From S2P Require Import JsNumber.
From S2P Require Import JsString.
From S2P Require Import DutchAuction.

Inductive OrderStatus := PENDING | PARTIALLY_FILLED | FILLED | CANCELLED | EXPIRED.

Inductive Chain := ETHEREUM | APTOS.

Inductive FillStatus := FillPending | FillLocked | FillCompleted | FillFailed.

#[export] Instance OrderStatus_eq_dec : EqDecision OrderStatus.
Proof. solve_decision. Defined.

#[export] Instance Chain_eq_dec : EqDecision Chain.
Proof. solve_decision. Defined.

#[export] Instance FillStatus_eq_dec : EqDecision FillStatus.
Proof. solve_decision. Defined.

(** The value of the string enum. *)
Definition chain_string (c : Chain) : string :=
  match c with ETHEREUM => "ETHEREUM" | APTOS => "APTOS" end.

(** [PermitSchema] *)
Record Permit := {
  permit_owner : string;
  permit_spender : string;
  permit_value : string;
  permit_nonce : string;
  permit_deadline : number
}.

(** [GaslessDataSchema] *)
Record GaslessData := {
  gd_escrowId : string;
  gd_depositor : string;
  gd_beneficiary : string;
  gd_token : string;
  gd_amount : string;
  gd_hashlock : string;
  gd_timelock : string;
  gd_deadline : string;
  gd_metaTxV : number;
  gd_metaTxR : string;
  gd_metaTxS : string;
  gd_baseOrderId : option string;
  gd_totalAmount : option string;
  gd_merkleRoot : option string;
  gd_numFills : option number;
  gd_secrets : option (list string);
  gd_merkleProofs : option (list (list string));
  gd_fillThresholds : option (list number)
}.

(** [PartialFillSecretsSchema] *)
Record PartialFillSecretsDto := {
  pfs_merkleRoot : string;
  pfs_secrets : list string;
  pfs_merkleProofs : list (list string);
  pfs_fillThresholds : list number
}.

(** [CreateOrderSchema] *)
Record CreateOrderDto := {
  fromChain : Chain;
  toChain : Chain;
  fromToken : string;
  toToken : string;
  fromAmount : string;
  minToAmount : string;
  maker : string;
  receiver : string;
  signature : string;
  deadline : number;
  nonce : string;
  partialFillAllowed : bool;
  partialFillEnabled : bool;
  secretHash : option string;
  secretHashes : option (list string);
  partialFillSecrets : option PartialFillSecretsDto;
  maxParts : option number;
  activeResolvers : option (list string);
  dutchAuction : option DutchAuction;
  permit : option Permit;
  permitSignature : option string;
  gasless : option bool;
  gaslessData : option GaslessData
}.

(** A fill as a resolver submits it: the interface [Fill] without the
    engine's own [id], [orderId], [createdAt] and [updatedAt].
    [fillPercentage] may be missing at run time, which [createFill] tests. *)
Record FillInput := {
  fill_resolver : string;
  fill_amount : string;
  fill_fillPercentage : option number;
  fill_cumulativePercentage : option number;
  fill_secretHash : string;
  fill_secretIndex : option number;
  fill_merkleProof : option (list string);
  fill_merkleIndex : option number;
  fill_partialSecret : option string;
  fill_actualEscrowId : option string;
  fill_sourceChainTxHash : option string;
  fill_destChainTxHash : option string;
  fill_status : FillStatus
}.

(** [Fill] *)
Record Fill := {
  fill_input :> FillInput;
  fill_id : string;
  fill_orderId : string;
  fill_createdAt : Z;
  fill_updatedAt : Z
}.

(** [Order] *)
Record Order := {
  order_dto :> CreateOrderDto;
  id : string;
  status : OrderStatus;
  filledAmount : string;
  filledPercentage : number;
  createdAt : Z;
  updatedAt : Z;
  fills : list Fill
}.

(** ** Field assignments *)

Definition set_status (st : OrderStatus) (o : Order) : Order :=
  {| order_dto := order_dto o; id := id o; status := st; filledAmount := filledAmount o;
     filledPercentage := filledPercentage o; createdAt := createdAt o;
     updatedAt := updatedAt o; fills := fills o |}.

Definition set_updatedAt (now : Z) (o : Order) : Order :=
  {| order_dto := order_dto o; id := id o; status := status o; filledAmount := filledAmount o;
     filledPercentage := filledPercentage o; createdAt := createdAt o;
     updatedAt := now; fills := fills o |}.

Definition set_fills (fs : list Fill) (o : Order) : Order :=
  {| order_dto := order_dto o; id := id o; status := status o; filledAmount := filledAmount o;
     filledPercentage := filledPercentage o; createdAt := createdAt o;
     updatedAt := updatedAt o; fills := fs |}.

Definition set_filledPercentage (p : number) (o : Order) : Order :=
  {| order_dto := order_dto o; id := id o; status := status o; filledAmount := filledAmount o;
     filledPercentage := p; createdAt := createdAt o;
     updatedAt := updatedAt o; fills := fills o |}.

Definition set_filledAmount (a : string) (o : Order) : Order :=
  {| order_dto := order_dto o; id := id o; status := status o; filledAmount := a;
     filledPercentage := filledPercentage o; createdAt := createdAt o;
     updatedAt := updatedAt o; fills := fills o |}.

(** [txHash?: { sourceChainTxHash?, destChainTxHash? }] *)
Record TxHashes := {
  tx_source : option string;
  tx_dest : option string
}.

(** [if (txHash?.x) field = txHash.x]: an absent or empty hash leaves the field. *)
Definition assign_truthy (new old : option string) : option string :=
  match new with
  | Some h => if str_truthy h then Some h else old
  | None => old
  end.

Definition update_fill (st : FillStatus) (txHash : option TxHashes) (now : Z) (f : Fill) : Fill :=
  {| fill_input :=
       {| fill_resolver := fill_resolver f;
          fill_amount := fill_amount f;
          fill_fillPercentage := fill_fillPercentage f;
          fill_cumulativePercentage := fill_cumulativePercentage f;
          fill_secretHash := fill_secretHash f;
          fill_secretIndex := fill_secretIndex f;
          fill_merkleProof := fill_merkleProof f;
          fill_merkleIndex := fill_merkleIndex f;
          fill_partialSecret := fill_partialSecret f;
          fill_actualEscrowId := fill_actualEscrowId f;
          fill_sourceChainTxHash :=
            assign_truthy (txHash ≫= tx_source) (fill_sourceChainTxHash f);
          fill_destChainTxHash :=
            assign_truthy (txHash ≫= tx_dest) (fill_destChainTxHash f);
          fill_status := st |};
     fill_id := fill_id f;
     fill_orderId := fill_orderId f;
     fill_createdAt := fill_createdAt f;
     fill_updatedAt := now |}.
