(* ===== verification/Signature.v ===== *)
(** * Order signatures

    [validateOrderSignature] and [generateOrderHash] of
    [backend/order-engine/src/utils/signature.ts]. The EIP-712 recovery and the
    ABI encoder of ethers are the operations of the class [Signing]; either may
    throw. *)

From Stdlib Require Import ZArith.
From stdpp Require Import base numbers list strings.
From S2P Require Import Prelude.
From S2P Require Import JsNumber.
From S2P Require Import JsString.
From S2P Require Import OrderTypes.
From S2P Require Import PartialFill.

Local Open Scope string_scope.
Local Open Scope Z_scope.
Local Open Scope result_scope.

(** A value of a typed message or of an ABI tuple. *)
Inductive SolValue := VString (s : string) | VNumber (n : number) | VBool (b : bool).

Record Domain := {
  domain_name : string;
  domain_version : string;
  domain_chainId : Z;
  domain_contract : option string
}.

(** The primary type: its name and its fields ([name], [type]); and the message
    ([name], value). *)
Definition FieldTypes : Type := string * list (string * string).
Definition Message := list (string * SolValue).

Class Signing := {
  verifyTypedData : Domain -> FieldTypes -> Message -> string -> result string;
  abi_encode : list string -> list SolValue -> result string
}.

Definition EIP712_DOMAIN : Domain :=
  {| domain_name := "FusionPlusAptos"; domain_version := "1"; domain_chainId := 11155111;
     domain_contract := None |}.

Definition ORDER_TYPE : FieldTypes :=
  ("Order",
   [("fromChain", "string"); ("toChain", "string"); ("fromToken", "string");
    ("toToken", "string"); ("fromAmount", "uint256"); ("minToAmount", "uint256");
    ("maker", "string"); ("receiver", "string"); ("deadline", "uint256");
    ("nonce", "uint256"); ("partialFillAllowed", "bool")]).

Definition ORDER_TYPE_WITH_PERMIT : FieldTypes :=
  ("Order",
   [("fromChain", "string"); ("toChain", "string"); ("fromToken", "string");
    ("toToken", "string"); ("fromAmount", "uint256"); ("minToAmount", "uint256");
    ("maker", "string"); ("receiver", "string"); ("deadline", "uint256");
    ("nonce", "uint256"); ("partialFillAllowed", "bool"); ("permitHash", "bytes32")]).

(** The message both [validateEthereumSignature] and [generateOrderHash] build. *)
Definition order_message (order : CreateOrderDto) : Message :=
  [("fromChain", VString (chain_string (fromChain order)));
   ("toChain", VString (chain_string (toChain order)));
   ("fromToken", VString (fromToken order));
   ("toToken", VString (toToken order));
   ("fromAmount", VString (fromAmount order));
   ("minToAmount", VString (minToAmount order));
   ("maker", VString (maker order));
   ("receiver", VString (receiver order));
   ("deadline", VNumber (deadline order));
   ("nonce", VString (nonce order));
   ("partialFillAllowed", VBool (partialFillAllowed order))].

Section Operations.
Context `{Ethers, Signing}.

Definition permit_hash (p : Permit) : result string :=
  encoded <-? abi_encode ["address"; "address"; "uint256"; "uint256"; "uint256"]
    [VString (permit_owner p); VString (permit_spender p); VString (permit_value p);
     VString (permit_nonce p); VNumber (permit_deadline p)];
  Ok (keccak256 encoded).

(** The [try] block of [validateEthereumSignature]. *)
Definition recover_signer (order : CreateOrderDto) : result string :=
  match permit order with
  | Some p =>
      permitHash <-? permit_hash p;
      verifyTypedData EIP712_DOMAIN ORDER_TYPE_WITH_PERMIT
        (order_message order ++ [("permitHash", VString permitHash)])%list (signature order)
  | None =>
      verifyTypedData EIP712_DOMAIN ORDER_TYPE (order_message order) (signature order)
  end.

Definition validateEthereumSignature (order : CreateOrderDto) : bool :=
  match recover_signer order with
  | Ok recoveredAddress =>
      String.eqb (toLowerCase recoveredAddress) (toLowerCase (maker order))
  | Throw _ => false
  end.

Definition validateAptosSignature (order : CreateOrderDto) : bool :=
  String.eqb (signature order) "0x00".

Definition validateOrderSignature (order : CreateOrderDto) : bool :=
  if (bool_decide (fromChain order = APTOS) || bool_decide (toChain order = APTOS))
     && String.eqb (signature order) "0x00"
  then true
  else
    match fromChain order with
    | ETHEREUM => validateEthereumSignature order
    | APTOS => validateAptosSignature order
    end.

Definition generateOrderHash (order : CreateOrderDto) : result string :=
  encoded <-? abi_encode
    ["tuple(string,string,address,address,uint256,uint256,address,address,uint256,uint256,bool)"]
    (order_message order).*2;
  Ok (keccak256 encoded).
End Operations.

(** ** What a signature covers *)

(** The terms of an order that its maker must have signed: name, type and
    value of each. *)
Definition order_terms (o : CreateOrderDto) : list (string * (string * SolValue)) :=
  [("fromChain", ("string", VString (match fromChain o with ETHEREUM => "ETHEREUM" | APTOS => "APTOS" end)));
   ("toChain", ("string", VString (match toChain o with ETHEREUM => "ETHEREUM" | APTOS => "APTOS" end)));
   ("fromToken", ("string", VString (fromToken o)));
   ("toToken", ("string", VString (toToken o)));
   ("fromAmount", ("uint256", VString (fromAmount o)));
   ("minToAmount", ("uint256", VString (minToAmount o)));
   ("maker", ("string", VString (maker o)));
   ("receiver", ("string", VString (receiver o)));
   ("deadline", ("uint256", VNumber (deadline o)));
   ("nonce", ("uint256", VString (nonce o)));
   ("partialFillAllowed", ("bool", VBool (partialFillAllowed o)))].

Definition terms_type (terms : list (string * (string * SolValue))) : FieldTypes :=
  ("Order", (fun t => (t.1, t.2.1)) <$> terms).

Definition terms_message (terms : list (string * (string * SolValue))) : Message :=
  (fun t => (t.1, t.2.2)) <$> terms.

Section Coverage.
Context `{Ethers, Signing}.

(** The owner, spender, value, nonce and deadline of a permit, hashed. *)
Definition permit_digest (p : Permit) (h : string) : Prop :=
  exists encoded,
    abi_encode ["address"; "address"; "uint256"; "uint256"; "uint256"]
      [VString (permit_owner p); VString (permit_spender p); VString (permit_value p);
       VString (permit_nonce p); VNumber (permit_deadline p)] = Ok encoded /\
    h = keccak256 encoded.

(** The further term of an order with a permit. *)
Definition permit_term (o : CreateOrderDto) (ext : list (string * (string * SolValue))) : Prop :=
  match permit o with
  | None => ext = []
  | Some p => exists h, permit_digest p h /\ ext = [("permitHash", ("bytes32", VString h))]
  end.

Definition covered (o : CreateOrderDto) (terms : list (string * (string * SolValue))) : Prop :=
  exists ext, permit_term o ext /\ terms = (order_terms o ++ ext)%list.

(** Two values that a type encodes alike: an integer may be written in several
    ways. *)
Definition uint_value (v : SolValue) : result Z :=
  match v with
  | VString s => getBigInt s
  | VNumber n => BigInt_of_number n
  | VBool _ => Throw (TypeError "invalid BigNumberish value")
  end.

Definition encoded_alike (ty : string) (v v' : SolValue) : Prop :=
  if String.eqb ty "uint256" then uint_value v = uint_value v' else v = v'.

(** The value of a field of a message. *)
Definition field (name : string) (m : Message) : option SolValue :=
  snd <$> List.find (fun f => String.eqb f.1 name) m.

Definition alike (t : FieldTypes) (m m' : Message) : Prop :=
  forall name ty, (name, ty) ∈ t.2 -> option_Forall2 (encoded_alike ty) (field name m) (field name m').

(** One signature is recovered as one signer for one message only. *)
Definition signatures_bind : Prop :=
  forall d t m d' t' m' sig a a',
    verifyTypedData d t m sig = Ok a -> verifyTypedData d' t' m' sig = Ok a' ->
    toLowerCase a = toLowerCase a' -> d = d' /\ t = t' /\ alike t m m'.

(** The terms of two orders, amounts and times by their values. *)
Definition same_terms (o o' : CreateOrderDto) : Prop :=
  fromChain o = fromChain o' /\ toChain o = toChain o' /\ fromToken o = fromToken o' /\
  toToken o = toToken o' /\ getBigInt (fromAmount o) = getBigInt (fromAmount o') /\
  getBigInt (minToAmount o) = getBigInt (minToAmount o') /\ maker o = maker o' /\
  receiver o = receiver o' /\ BigInt_of_number (deadline o) = BigInt_of_number (deadline o') /\
  getBigInt (nonce o) = getBigInt (nonce o') /\ partialFillAllowed o = partialFillAllowed o' /\
  match permit o, permit o' with
  | None, None => True
  | Some p, Some p' => forall h h', permit_digest p h -> permit_digest p' h' -> h = h'
  | _, _ => False
  end.

(** The engine recovers the signer from exactly these terms. *)
Lemma recover_signer_covered o signer :
  recover_signer o = Ok signer <->
  exists terms, covered o terms /\
    verifyTypedData EIP712_DOMAIN (terms_type terms) (terms_message terms) (signature o) = Ok signer.
Proof.
  assert (order_message o = terms_message (order_terms o)) as E by (by destruct o as [[] []]).
  unfold recover_signer, covered, permit_term, permit_hash, permit_digest. rewrite E.
  destruct (permit o) as [p|].
  - destruct (abi_encode _ _) as [encoded|e]; cbn [result_bind]; [|split; [done|naive_solver]].
    split.
    + intros Hv. eexists. split; [by eauto 10|]. exact Hv.
    + by intros (terms & (ext & (h & (encoded' & [= <-] & ->) & ->) & ->) & Hv).
  - split.
    + intros Hv. exists (order_terms o). split; [|exact Hv]. exists []. by rewrite app_nil_r.
    + intros (terms & (ext & -> & ->) & Hv). by rewrite app_nil_r in Hv.
Qed.

Lemma permit_digest_unique p h h' : permit_digest p h -> permit_digest p h' -> h = h'.
Proof. intros (e & He & ->) (e' & He' & ->). congruence. Qed.

(** From the fields of a message to the terms. *)
Lemma chain_string_inj (c c' : Chain) :
  (match c with ETHEREUM => "ETHEREUM" | APTOS => "APTOS" end) =
  (match c' with ETHEREUM => "ETHEREUM" | APTOS => "APTOS" end) -> c = c'.
Proof. by destruct c, c'. Qed.

Lemma covered_same_terms o o' terms terms' :
  covered o terms -> covered o' terms' -> terms_type terms = terms_type terms' ->
  alike (terms_type terms) (terms_message terms) (terms_message terms') -> same_terms o o'.
Proof.
  intros (ext & Hext & ->) (ext' & Hext' & ->) Ht Ha.
  assert (forall name ty v v',
    (name, ty) ∈ (terms_type (order_terms o ++ ext)).2 ->
    field name (terms_message (order_terms o ++ ext)) = Some v ->
    field name (terms_message (order_terms o' ++ ext')) = Some v' -> encoded_alike ty v v') as Hf.
  { intros name ty v v' Hin Hv Hv'. specialize (Ha name ty Hin). rewrite Hv, Hv' in Ha. by inversion Ha. }
  assert (forall name ty v v', (name, ty) ∈ (terms_type (order_terms o)).2 ->
    field name (terms_message (order_terms o ++ ext)) = Some v ->
    field name (terms_message (order_terms o' ++ ext')) = Some v' -> encoded_alike ty v v') as Hg.
  { intros name ty v v' Hin. apply Hf. unfold terms_type. cbn [snd]. rewrite fmap_app.
    apply elem_of_app. by left. }
  assert (forall name v v', (name, "string") ∈ (terms_type (order_terms o)).2 ->
    field name (terms_message (order_terms o ++ ext)) = Some (VString v) ->
    field name (terms_message (order_terms o' ++ ext')) = Some (VString v') -> v = v') as Hs.
  { intros name v v' Hin Hv Hv'. by injection (Hg name "string" _ _ Hin Hv Hv'). }
  unfold same_terms. split_and!.
  - apply chain_string_inj, (Hs "fromChain"); [by repeat constructor|reflexivity..].
  - apply chain_string_inj, (Hs "toChain"); [by repeat constructor|reflexivity..].
  - apply (Hs "fromToken"); [by repeat constructor|reflexivity..].
  - apply (Hs "toToken"); [by repeat constructor|reflexivity..].
  - apply (Hg "fromAmount" "uint256" (VString (fromAmount o)) (VString (fromAmount o'))); [by repeat constructor|reflexivity..].
  - apply (Hg "minToAmount" "uint256" (VString (minToAmount o)) (VString (minToAmount o'))); [by repeat constructor|reflexivity..].
  - apply (Hs "maker"); [by repeat constructor|reflexivity..].
  - apply (Hs "receiver"); [by repeat constructor|reflexivity..].
  - apply (Hg "deadline" "uint256" (VNumber (deadline o)) (VNumber (deadline o'))); [by repeat constructor|reflexivity..].
  - apply (Hg "nonce" "uint256" (VString (nonce o)) (VString (nonce o'))); [by repeat constructor|reflexivity..].
  - assert (encoded_alike "bool" (VBool (partialFillAllowed o)) (VBool (partialFillAllowed o'))) as Hb
      by (apply (Hg "partialFillAllowed" "bool"); [by repeat constructor|reflexivity..]).
    by injection Hb.
  - unfold permit_term in Hext, Hext'.
    destruct (permit o) as [p|], (permit o') as [p'|]; try done;
      [|destruct Hext as (h & _ & ->); by subst ext'|destruct Hext' as (h & _ & ->); by subst ext].
    destruct Hext as (h & Hd & ->), Hext' as (h' & Hd' & ->). intros k k' Hk Hk'.
    rewrite (permit_digest_unique _ _ _ Hk Hd), (permit_digest_unique _ _ _ Hk' Hd').
    assert (encoded_alike "bytes32" (VString h) (VString h')) as Hb
      by (apply (Hf "permitHash" "bytes32"); [by repeat constructor|reflexivity..]).
    by injection Hb.
Qed.
End Coverage.

(** ** Properties *)

Section Properties.
Context `{Ethers, Signing}.

(** The complete decision of [validateOrderSignature]. *)
Lemma validateOrderSignature_spec (order : CreateOrderDto) :
  validateOrderSignature order = true <->
  (signature order = "0x00" /\ (fromChain order = APTOS \/ toChain order = APTOS)) \/
  (fromChain order = ETHEREUM /\
   exists signer, recover_signer order = Ok signer /\
                  toLowerCase signer = toLowerCase (maker order)).
Proof.
  unfold validateOrderSignature, validateAptosSignature, validateEthereumSignature.
  destruct (String.eqb_spec (signature order) "0x00") as [Hs|Hs];
    destruct (fromChain order) eqn:Hf, (toChain order) eqn:Ht; simpl;
    try (split; [intros; left; split; auto; fail|done]);
    try (split; [done|naive_solver]).
  all: destruct (recover_signer order) as [signer|e] eqn:Hr.
  all: try (rewrite String.eqb_eq); naive_solver.
Qed.

(** C27. An order that carries a real signature (anything but the ['0x00']
    placeholder) passes validation only when the EIP-712 signer recovered from
    all eleven terms of the order, and the hash of its permit if it has one, is
    the maker, up to letter case: a recovery failure or an Aptos source chain is
    a rejection, and the function never throws. Where a signature belongs to one
    message of its signer, an accepted order cannot be altered: any other order
    that is accepted with the same signature for the same maker has the same
    terms and the same permit. *)
Theorem accepted_signature_is_makers (order : CreateOrderDto)
    (Hsig : signature order <> "0x00") :
  (validateOrderSignature order = true <->
   fromChain order = ETHEREUM /\
   exists terms signer, covered order terms /\
     verifyTypedData
       {| domain_name := "FusionPlusAptos"; domain_version := "1"; domain_chainId := 11155111;
          domain_contract := None |}
       (terms_type terms) (terms_message terms) (signature order) = Ok signer /\
     toLowerCase signer = toLowerCase (maker order)) /\
  (signatures_bind -> validateOrderSignature order = true ->
   forall order', signature order' = signature order ->
     toLowerCase (maker order') = toLowerCase (maker order) ->
     validateOrderSignature order' = true -> same_terms order order').
Proof.
  assert (forall o, signature o <> "0x00" -> validateOrderSignature o = true <->
    fromChain o = ETHEREUM /\ exists terms signer, covered o terms /\
      verifyTypedData EIP712_DOMAIN (terms_type terms) (terms_message terms) (signature o) = Ok signer /\
      toLowerCase signer = toLowerCase (maker o)) as Hv.
  { intros o Ho. rewrite validateOrderSignature_spec. setoid_rewrite recover_signer_covered. naive_solver. }
  split; [by apply Hv|].
  intros Hbind (_ & terms & a & Hc & Hr & Ha)%Hv order' Hs Hm Ho'; [|done].
  apply Hv in Ho' as (_ & terms' & a' & Hc' & Hr' & Ha'); [|congruence].
  rewrite Hs in Hr'. destruct (Hbind _ _ _ _ _ _ _ _ _ Hr Hr') as (_ & Ht & Hal); [congruence|].
  by eapply covered_same_terms.
Qed.

(** The ['0x00'] placeholder is accepted for every order that touches
    Aptos, whoever the maker is and also when the source chain is Ethereum:
    the engine then checks no signature at all. *)
Theorem placeholder_signature_unchecked (order : CreateOrderDto)
    (Hsig : signature order = "0x00")
    (Haptos : fromChain order = APTOS \/ toChain order = APTOS) :
  validateOrderSignature order = true.
Proof. apply validateOrderSignature_spec. by left. Qed.
End Properties.

(** ** Witnesses *)

(** A recovery that returns the signature itself as the address. *)
Definition echo_signing : Signing := {|
  verifyTypedData := fun _ _ _ sig => Ok sig;
  abi_encode := fun _ _ => Ok "0x"
|}.

Definition sample_dto : CreateOrderDto := {|
  fromChain := ETHEREUM; toChain := APTOS; fromToken := "0xweth"; toToken := "apt";
  fromAmount := "1000"; minToAmount := "900"; maker := "0xMaker"; receiver := "0xr";
  signature := "0x00"; deadline := of_Z 2000000000; nonce := "1";
  partialFillAllowed := true; partialFillEnabled := true; secretHash := None;
  secretHashes := None; partialFillSecrets := None; maxParts := None;
  activeResolvers := None; dutchAuction := None; permit := None; permitSignature := None;
  gasless := None; gaslessData := None
|}.

Definition signed_dto : CreateOrderDto := {|
  fromChain := ETHEREUM; toChain := APTOS; fromToken := "0xweth"; toToken := "apt";
  fromAmount := "1000"; minToAmount := "900"; maker := "0xMaker"; receiver := "0xr";
  signature := "0xmaker"; deadline := of_Z 2000000000; nonce := "1";
  partialFillAllowed := true; partialFillEnabled := true; secretHash := None;
  secretHashes := None; partialFillSecrets := None; maxParts := None;
  activeResolvers := None; dutchAuction := None; permit := None; permitSignature := None;
  gasless := None; gaslessData := None
|}.

#[export] Instance SolValue_eq_dec : EqDecision SolValue.
Proof. solve_decision. Defined.

#[export] Instance Domain_eq_dec : EqDecision Domain.
Proof. solve_decision. Defined.

(** One signature exists, of the sample order. *)
Definition one_signature : Signing := {|
  verifyTypedData := fun d t m sig =>
    if bool_decide ((d, t, m, sig) = (EIP712_DOMAIN, ORDER_TYPE, order_message signed_dto, "0xmaker"))
    then Ok "0xmaker" else Throw (Error "invalid signature");
  abi_encode := fun _ _ => Ok "0x"
|}.

Lemma one_signature_binds : @signatures_bind tagged_ethers one_signature.
Proof.
  intros d t m d' t' m' sig a a'. simpl. case_bool_decide as E; [|done]. case_bool_decide as E'; [|done].
  simplify_eq. intros _ _ _. split_and!; [done..|]. intros name ty _.
  destruct (field name (order_message signed_dto)); constructor. unfold encoded_alike. by case_match.
Qed.

Lemma accepted_signature_is_makers_witness :
  @validateOrderSignature tagged_ethers one_signature signed_dto = true /\
  (forall order', signature order' = "0xmaker" -> toLowerCase (maker order') = "0xmaker" ->
     @validateOrderSignature tagged_ethers one_signature order' = true ->
     @same_terms tagged_ethers one_signature signed_dto order').
Proof.
  destruct (@accepted_signature_is_makers tagged_ethers one_signature signed_dto) as [Hv Hb];
    [discriminate|].
  assert (@validateOrderSignature tagged_ethers one_signature signed_dto = true) as Ha.
  { apply Hv. split; [reflexivity|]. exists (order_terms signed_dto), "0xmaker".
    split; [by exists []|]. split; vm_compute; reflexivity. }
  split; [exact Ha|]. intros order' Hs Hm Ho.
  apply (Hb one_signature_binds Ha order' Hs Hm Ho).
Defined.

Lemma placeholder_signature_unchecked_witness :
  @validateOrderSignature tagged_ethers echo_signing sample_dto = true.
Proof.
  apply (@placeholder_signature_unchecked tagged_ethers echo_signing sample_dto);
    [reflexivity|right; reflexivity].
Defined.
