(* ===== verification/OrderService.v ===== *)
(** * The order book

    [OrderService] of [backend/order-engine/src/services/OrderService.ts]: the
    two maps it keeps, its operations and the events it emits.

    Every method runs without yielding once it touches the maps (the only
    [await], on the signature, precedes them), so an operation is one step on
    the state. It returns a value or throws, and what it changed before it
    threw stays changed. The clock ([now], milliseconds) and the fresh UUID
    are arguments. *)

From Stdlib Require Import ZArith Lia.
From stdpp Require Import base numbers list strings gmap.
From S2P Require Import Prelude.
From S2P Require Import JsNumber.
From S2P Require Import JsString.
From S2P Require Import JsMap.
From S2P Require Import PartialFill.
From S2P Require Import Signature.
From S2P Require Import OrderTypes.

Local Open Scope string_scope.
Local Open Scope Z_scope.
Local Open Scope result_scope.

(** ** State and the error-state monad *)

Inductive Event :=
  | newOrder (order : Order)
  | orderFill (order : Order) (fill : Fill)
  | fillStatusUpdate (order : Order) (fill : Fill)
  | orderCancelled (order : Order)
  | orderUpdate (order : Order)
  | orderExpired (order : Order).

Record State := {
  orders : JsMap.t Order;
  ordersByMaker : JsMap.t JsSet.t;
  events : list Event
}.

Definition initial : State := {| orders := []; ordersByMaker := []; events := [] |}.

Definition M (A : Type) := State -> result A * State.

Definition ret {A} (a : A) : M A := fun s => (Ok a, s).
Definition throw {A} (e : exn) : M A := fun s => (Throw e, s).
Definition bind {A B} (m : M A) (k : A -> M B) : M B := fun s =>
  match m s with
  | (Ok a, s') => k a s'
  | (Throw e, s') => (Throw e, s')
  end.
Definition lift {A} (r : result A) : M A := fun s => (r, s).

Declare Scope order_scope.
Delimit Scope order_scope with order.
Notation "x <- m ; k" := (bind m (fun x => k))
  (at level 100, m at next level, right associativity) : order_scope.
Notation "m ;; k" := (bind m (fun _ => k))
  (at level 100, right associativity) : order_scope.
Local Open Scope order_scope.

Definition put_orders (f : JsMap.t Order -> JsMap.t Order) : M unit := fun s =>
  (Ok tt, {| orders := f (orders s); ordersByMaker := ordersByMaker s; events := events s |}).

Definition emit (e : Event) : M unit := fun s =>
  (Ok tt, {| orders := orders s; ordersByMaker := ordersByMaker s; events := (events s ++ [e])%list |}).

(** The order object is shared by reference: writing it back under its key
    is what a field assignment does to the map. *)
Definition store (orderId : string) (order : Order) : M unit :=
  put_orders (JsMap.set orderId order).

(** [this.orders.get(orderId)], throwing when it is [undefined]. *)
Definition find_order (orderId : string) : M Order := fun s =>
  match JsMap.get orderId (orders s) with
  | Some order => (Ok order, s)
  | None => (Throw (Error "Order not found"), s)
  end.

(** ** Operations *)

Section Operations.
Context `{Ethers, Signing}.

Definition new_order (dto : CreateOrderDto) (uuid : string) (now : Z) : Order :=
  {| order_dto := dto; id := uuid; status := PENDING; filledAmount := "0";
     filledPercentage := of_Z 0; createdAt := now; updatedAt := now; fills := [] |}.

Definition track_maker (mk : string) (orderId : string) : M unit := fun s =>
  let byMaker :=
    if JsMap.has mk (ordersByMaker s) then ordersByMaker s
    else JsMap.set mk [] (ordersByMaker s) in
  let set := default [] (JsMap.get mk byMaker) in
  (Ok tt, {| orders := orders s;
             ordersByMaker := JsMap.set mk (JsSet.add orderId set) byMaker;
             events := events s |}).

Definition createOrder (dto : CreateOrderDto) (uuid : string) (now : Z) : M Order :=
  if negb (validateOrderSignature dto) then throw (Error "Invalid order signature")
  else if gtb (of_Z now) (mul (deadline dto) (of_Z 1000))
  then throw (Error "Order deadline has passed")
  else
    let order := new_order dto uuid now in
    store uuid order;;
    track_maker (maker dto) uuid;;
    emit (newOrder order);;
    ret order.
End Operations.

Definition getOrder (orderId : string) (s : State) : option Order :=
  JsMap.get orderId (orders s).

Definition getOrdersByMaker (mk : string) (s : State) : list Order :=
  let orderIds := default [] (JsMap.get mk (ordersByMaker s)) in
  omap (fun i => JsMap.get i (orders s)) orderIds.

Definition is_active (o : Order) : bool :=
  bool_decide (status o = PENDING) || bool_decide (status o = PARTIALLY_FILLED).

Definition getActiveOrders (s : State) : list Order :=
  List.filter is_active (JsMap.values (orders s)).

(** [(f as any).fillPercentage || 0] *)
Definition fill_percent (f : Fill) : number :=
  match fill_fillPercentage f with
  | Some p => or_else p (of_Z 0)
  | None => of_Z 0
  end.

Definition total_percent (fs : list Fill) : number :=
  fold_left (fun sum (f : Fill) => add sum (fill_percent f)) fs (of_Z 0).

(** The reduction over the amounts, threading the sum as a decimal string. *)
Definition sum_amounts (fs : list Fill) : result string :=
  fold_left (fun acc (f : Fill) =>
    sum <-? acc;
    a <-? BigInt sum;
    b <-? BigInt (fill_amount f);
    Ok (toString (a + b))) fs (Ok "0").

Definition uses_percentages (order : Order) : bool :=
  negb (bool_decide (fromChain order = toChain order))
  && existsb (fun f : Fill => bool_decide (is_Some (fill_fillPercentage f))) (fills order).

(** The accounting block of [createFill]. A throw keeps the fields assigned
    before it. *)
Definition account_fills (orderId : string) (order : Order) : M Order :=
  if uses_percentages order then
    let order1 := set_filledPercentage (min (total_percent (fills order)) (of_Z 100)) order in
    store orderId order1;;
    amount <- lift (
      total <-? BigInt (fromAmount order);
      pct <-? BigInt_of_number (floor (filledPercentage order1));
      q <-? bigint_div (total * pct) 100;
      Ok (toString q));
    ret (set_filledAmount amount order1)
  else
    totalFilled <- lift (sum_amounts (fills order));
    let order1 := set_filledAmount totalFilled order in
    store orderId order1;;
    pct <- lift (
      t <-? BigInt totalFilled;
      total <-? BigInt (fromAmount order);
      q <-? bigint_div (t * 100) total;
      Ok (of_Z q));
    ret (set_filledPercentage pct order1).

Definition status_after_fill (order : Order) : OrderStatus :=
  if String.eqb (filledAmount order) (fromAmount order) then FILLED
  else if negb (String.eqb (filledAmount order) "0") then PARTIALLY_FILLED
  else status order.

Definition new_fill (input : FillInput) (orderId uuid : string) (now : Z) : Fill :=
  {| fill_input := input; fill_id := uuid; fill_orderId := orderId;
     fill_createdAt := now; fill_updatedAt := now |}.

Definition createFill (orderId : string) (input : FillInput) (uuid : string) (now : Z) : M Fill :=
  order <- find_order orderId;
  if bool_decide (status order = FILLED) || bool_decide (status order = CANCELLED)
  then throw (Error "Order is not fillable")
  else
    let newFill := new_fill input orderId uuid now in
    let order1 := set_updatedAt now (set_fills (fills order ++ [newFill])%list order) in
    store orderId order1;;
    order2 <- account_fills orderId order1;
    let order3 := set_status (status_after_fill order2) order2 in
    store orderId order3;;
    emit (orderFill order3 newFill);;
    ret newFill.

(** [order.fills.find(f => f.id === fillId)] and the assignments to it: the
    first fill with the id is updated in place. *)
Fixpoint update_first (fillId : string) (f : Fill -> Fill) (fs : list Fill)
    : option (Fill * list Fill) :=
  match fs with
  | [] => None
  | x :: rest =>
      if String.eqb (fill_id x) fillId then Some (f x, f x :: rest)
      else '(y, rest') ← update_first fillId f rest; Some (y, x :: rest')
  end.

Definition updateFillStatus (orderId fillId : string) (st : FillStatus)
    (txHash : option TxHashes) (now : Z) : M unit :=
  order <- find_order orderId;
  match update_first fillId (update_fill st txHash now) (fills order) with
  | None => throw (Error "Fill not found")
  | Some (fill, fs) =>
      let order1 := set_updatedAt now (set_fills fs order) in
      store orderId order1;;
      emit (fillStatusUpdate order1 fill)
  end.

Definition cancelOrder (orderId mk : string) (now : Z) : M unit :=
  order <- find_order orderId;
  if negb (String.eqb (maker order) mk) then throw (Error "Only maker can cancel order")
  else if bool_decide (status order = FILLED) then throw (Error "Cannot cancel filled order")
  else
    let order1 := set_updatedAt now (set_status CANCELLED order) in
    store orderId order1;;
    emit (orderCancelled order1).

Definition status_after_percentage (percentage : number) (st : OrderStatus) : OrderStatus :=
  if geb percentage (of_Z 100) then FILLED
  else if gtb percentage (of_Z 0) then PARTIALLY_FILLED
  else st.

Definition updateOrderFilledPercentage (orderId : string) (percentage : number) (now : Z)
    : M unit :=
  order <- find_order orderId;
  let order1 := set_updatedAt now (set_filledPercentage percentage order) in
  let order2 := set_status (status_after_percentage percentage (status order)) order1 in
  store orderId order2;;
  emit (orderUpdate order2).

Definition expires (now : Z) (o : Order) : bool :=
  bool_decide (status o = PENDING) && ltb (mul (deadline o) (of_Z 1000)) (of_Z now).

Definition expire (now : Z) (o : Order) : Order :=
  if expires now o then set_updatedAt now (set_status EXPIRED o) else o.

(** The loop visits the values in insertion order and rewrites them in place. *)
Definition cleanupExpiredOrders (now : Z) : M unit := fun s =>
  let expired := List.filter (expires now) (JsMap.values (orders s)) in
  (Ok tt, {| orders := map_values (expire now) (orders s);
             ordersByMaker := ordersByMaker s;
             events := (events s ++ ((fun o => orderExpired (expire now o)) <$> expired))%list |}).

(** ** How an operation may change the book *)

(** [o'] is a later version of [o]: the signed terms, the identity and the
    creation time are those of [o], and no fill was dropped or reordered. *)
Record evolves (k : string) (o o' : Order) : Prop := {
  evolves_dto : order_dto o' = order_dto o;
  evolves_id : id o' = id o;
  evolves_createdAt : createdAt o' = createdAt o;
  evolves_fills : (fill_id <$> fills o) `prefix_of` (fill_id <$> fills o');
  evolves_owner : Forall (fun f => fill_orderId f = k) (fills o) ->
                  Forall (fun f => fill_orderId f = k) (fills o')
}.

#[export] Instance evolves_preorder k : PreOrder (evolves k).
Proof.
  split.
  - intros o. by split.
  - intros o1 o2 o3 [] []. split; try congruence; try tauto. by etrans.
Qed.

(** An operation on one order: nothing changed, or the order under [k] was
    replaced by a later version of itself. *)
Inductive touches (k : string) (s : State) : State -> Prop :=
  | touches_none s' :
      orders s' = orders s -> ordersByMaker s' = ordersByMaker s -> touches k s s'
  | touches_order s' o o' :
      JsMap.get k (orders s) = Some o ->
      orders s' = JsMap.set k o' (orders s) ->
      ordersByMaker s' = ordersByMaker s ->
      evolves k o o' ->
      touches k s s'.

Lemma touches_refl k s : touches k s s.
Proof. by apply touches_none. Qed.

(** Outcome of [account_fills] on an order already in the book. *)
Lemma account_fills_spec k o s :
  exists r o' s',
    account_fills k o s = (r, s') /\ ordersByMaker s' = ordersByMaker s /\
    events s' = events s /\
    (orders s' = orders s \/ orders s' = JsMap.set k o' (orders s)) /\
    order_dto o' = order_dto o /\ id o' = id o /\ createdAt o' = createdAt o /\
    fills o' = fills o /\ status o' = status o /\
    (forall o2, r = Ok o2 -> order_dto o2 = order_dto o /\ id o2 = id o /\
       createdAt o2 = createdAt o /\ fills o2 = fills o /\ status o2 = status o).
Proof.
  unfold account_fills, bind, lift, ret, store, put_orders.
  destruct (uses_percentages o).
  - destruct (_ : result string) as [a|e]; (eexists _, (set_filledPercentage _ o), _);
      split_and!; try done; try (by right); intros; by simplify_eq.
  - destruct (sum_amounts (fills o)) as [t|e].
    + destruct (_ : result number) as [a|e]; (eexists _, (set_filledAmount _ o), _);
        split_and!; try done; try (by right); intros; by simplify_eq.
    + exists (Throw e), o, s. split_and!; try done. by left.
Qed.

Lemma update_first_ids fillId g fs y fs' :
  (forall f, fill_id (g f) = fill_id f) ->
  (forall f, fill_orderId (g f) = fill_orderId f) ->
  update_first fillId g fs = Some (y, fs') ->
  fill_id <$> fs' = fill_id <$> fs /\ fill_orderId <$> fs' = fill_orderId <$> fs.
Proof.
  intros Hid Hoid. revert y fs'. induction fs as [|x fs IH]; intros y fs' Hu; simpl in *; [done|].
  destruct (String.eqb _ _); simplify_eq/=; [by rewrite Hid, Hoid|].
  destruct (update_first fillId g fs) as [[y' fs'']|]; simplify_eq/=.
  by destruct (IH _ _ eq_refl) as [-> ->].
Qed.

Lemma Forall_orderId k (fs fs' : list Fill) :
  fill_orderId <$> fs' = fill_orderId <$> fs ->
  Forall (fun f => fill_orderId f = k) fs -> Forall (fun f => fill_orderId f = k) fs'.
Proof.
  intros Heq HF. assert (Forall (fun x => x = k) (fill_orderId <$> fs')) as HF'.
  { rewrite Heq. by apply Forall_fmap. }
  by apply Forall_fmap in HF'.
Qed.

(** ** One lemma per operation *)

Lemma createFill_touches k input uuid now s : touches k s (createFill k input uuid now s).2.
Proof.
  unfold createFill, find_order, bind at 1.
  destruct (JsMap.get k (orders s)) as [o|] eqn:Hk; [|apply touches_refl].
  destruct (_ || _); [apply touches_refl|].
  set (f := new_fill input k uuid now). set (o1 := set_updatedAt now _).
  assert (evolves k o o1) as Hev1.
  { split; try done; simpl.
    - rewrite fmap_app. by apply prefix_app_r.
    - intros HF. apply Forall_app. by split; [|apply Forall_singleton]. }
  unfold bind at 1, store, put_orders. cbn [fst snd].
  set (s1 := Build_State _ _ _).
  destruct (account_fills_spec k o1 s1)
    as (r & o' & s' & Ha & Hm & _ & Ho & Hd & Hi & Hc & Hf & _ & Hr).
  unfold bind at 1. rewrite Ha.
  assert (forall o2, order_dto o2 = order_dto o1 -> id o2 = id o1 ->
            createdAt o2 = createdAt o1 -> fills o2 = fills o1 -> evolves k o o2) as Hev.
  { intros o2 E1 E2 E3 E4. destruct Hev1. split; rewrite ?E1, ?E2, ?E3, ?E4; assumption. }
  destruct r as [o2|e]; cbn [fst snd].
  - unfold bind, store, put_orders, emit, ret. cbn [fst snd orders ordersByMaker].
    destruct (Hr o2 eq_refl) as (E1 & E2 & E3 & E4 & _).
    apply (touches_order _ _ _ o (set_status (status_after_fill o2) o2)); [done| | |by apply Hev].
    + destruct Ho as [Ho|Ho]; cbn; rewrite Ho; cbn; by rewrite ?JsMap.set_set.
    + exact Hm.
  - destruct Ho as [Ho|Ho].
    + by apply (touches_order _ _ _ o o1).
    + apply (touches_order _ _ _ o o'); [done| |done|by apply Hev].
      rewrite Ho. apply JsMap.set_set.
Qed.

Lemma updateFillStatus_touches k fillId st tx now s :
  touches k s (updateFillStatus k fillId st tx now s).2.
Proof.
  unfold updateFillStatus, find_order, bind at 1.
  destruct (JsMap.get k (orders s)) as [o|] eqn:Hk; [|apply touches_refl].
  destruct (update_first _ _ _) as [[f fs]|] eqn:Hu; [|apply touches_refl].
  apply update_first_ids in Hu as [Hid Hoid]; [|done..].
  apply (touches_order _ _ _ o (set_updatedAt now (set_fills fs o))); try done.
  split; try done; simpl; [by rewrite Hid|]. by apply Forall_orderId.
Qed.

Lemma cancelOrder_touches k mk now s : touches k s (cancelOrder k mk now s).2.
Proof.
  unfold cancelOrder, find_order, bind at 1.
  destruct (JsMap.get k (orders s)) as [o|] eqn:Hk; [|apply touches_refl].
  do 2 (case_match; [apply touches_refl|]).
  by apply (touches_order _ _ _ o (set_updatedAt now (set_status CANCELLED o))).
Qed.

Lemma updateOrderFilledPercentage_touches k p now s :
  touches k s (updateOrderFilledPercentage k p now s).2.
Proof.
  unfold updateOrderFilledPercentage, find_order, bind at 1.
  destruct (JsMap.get k (orders s)) as [o|] eqn:Hk; [|apply touches_refl].
  by eapply (touches_order _ _ _ o).
Qed.

(** The state after a percentage update of an existing order. *)
Lemma updateOrderFilledPercentage_eq k p now s o :
  JsMap.get k (orders s) = Some o ->
  let o' := set_status (status_after_percentage p (status o))
              (set_updatedAt now (set_filledPercentage p o)) in
  updateOrderFilledPercentage k p now s =
    (Ok tt, {| orders := JsMap.set k o' (orders s); ordersByMaker := ordersByMaker s;
               events := (events s ++ [orderUpdate o'])%list |}).
Proof. intros Hk o'. unfold updateOrderFilledPercentage, find_order, bind. by rewrite Hk. Qed.

#[export] Hint Resolve createFill_touches updateFillStatus_touches cancelOrder_touches
  updateOrderFilledPercentage_touches : fusion.

(** ** Well-formed books *)

(** Keys are identities, the maker index lists exactly the orders of each
    maker, once, and every fill belongs to the order that holds it. *)
Record wf (s : State) : Prop := {
  wf_orders : JsMap.wf (orders s);
  wf_byMaker : JsMap.wf (ordersByMaker s);
  wf_id : forall k o, JsMap.get k (orders s) = Some o -> id o = k;
  wf_indexed : forall k o, JsMap.get k (orders s) = Some o ->
    exists ids, JsMap.get (maker o) (ordersByMaker s) = Some ids /\ k ∈ ids;
  wf_index : forall m ids, JsMap.get m (ordersByMaker s) = Some ids ->
    NoDup ids /\
    (forall k, k ∈ ids -> exists o, JsMap.get k (orders s) = Some o /\ maker o = m);
  wf_owner : forall k o, JsMap.get k (orders s) = Some o ->
    Forall (fun f => fill_orderId f = k) (fills o)
}.

Lemma wf_initial : wf initial.
Proof. split; try done; apply NoDup_nil_2. Qed.

(** Any pointwise evolution of the orders keeps a book well formed. *)
Lemma wf_pointwise s s' :
  ordersByMaker s' = ordersByMaker s ->
  JsMap.keys (orders s') = JsMap.keys (orders s) ->
  (forall k o', JsMap.get k (orders s') = Some o' ->
     exists o, JsMap.get k (orders s) = Some o /\ evolves k o o') ->
  (forall k o, JsMap.get k (orders s) = Some o ->
     exists o', JsMap.get k (orders s') = Some o' /\ evolves k o o') ->
  wf s -> wf s'.
Proof.
  intros Hm Hk Hback Hforth [W1 W2 W3 W4 W5 W6]. split.
  - unfold JsMap.wf. by rewrite Hk.
  - by rewrite Hm.
  - intros k o' (o & Ho & E)%Hback. rewrite (evolves_id _ _ _ E). eauto.
  - intros k o' (o & Ho & E)%Hback. rewrite Hm, (evolves_dto _ _ _ E). eauto.
  - intros m ids Hids. rewrite Hm in Hids. destruct (W5 _ _ Hids) as [Hn Hi].
    split; [done|]. intros k (o & Ho & Hmk)%Hi. destruct (Hforth _ _ Ho) as (o' & Ho' & E).
    exists o'. by rewrite (evolves_dto _ _ _ E).
  - intros k o' (o & Ho & E)%Hback. apply (evolves_owner _ _ _ E). eauto.
Qed.

Lemma keys_set_existing {V} (k : string) (v w : V) (m : JsMap.t V) :
  JsMap.get k m = Some w -> JsMap.keys (JsMap.set k v m) = JsMap.keys m.
Proof.
  intros Hk. unfold JsMap.keys. induction m as [|[j u] m IH]; simpl in *; [done|].
  case_decide; simplify_eq/=; [done|]. by rewrite IH.
Qed.

Lemma touches_get k s s' :
  touches k s s' ->
  (forall j o', JsMap.get j (orders s') = Some o' ->
     exists o, JsMap.get j (orders s) = Some o /\ evolves j o o') /\
  (forall j o, JsMap.get j (orders s) = Some o ->
     exists o', JsMap.get j (orders s') = Some o' /\ evolves j o o').
Proof.
  intros [s1 Ho _|s1 o o' Hk Ho _ E]; rewrite Ho.
  - split; intros j o Hj; exists o; by split.
  - split; intros j o2; rewrite JsMap.get_set; case_decide as Hd; subst; intros Hj;
      simplify_eq; eauto; exists o2; by split.
Qed.

Lemma wf_touches k s s' : touches k s s' -> wf s -> wf s'.
Proof.
  intros Ht. destruct (touches_get _ _ _ Ht) as [Hb Hf].
  apply wf_pointwise; [by destruct Ht| |done..].
  destruct Ht as [s' Ho _|s' o o' Hk Ho _ _]; rewrite Ho; [done|].
  by apply (keys_set_existing _ _ o).
Qed.

Lemma evolves_expire k now o : evolves k o (expire now o).
Proof. unfold expire. by destruct (expires now o). Qed.

Lemma wf_cleanup now s : wf s -> wf (cleanupExpiredOrders now s).2.
Proof.
  apply wf_pointwise; [done|apply keys_map_values| |]; intros k o; cbn; rewrite get_map_values.
  - destruct (JsMap.get k (orders s)) as [o0|]; intros [= <-]. eauto using evolves_expire.
  - intros ->. eexists; split; [done|apply evolves_expire].
Qed.

Section CreateOrder.
Context `{Ethers, Signing}.

(** [createOrder] either throws and changes nothing or files a new order. *)
Lemma createOrder_cases dto uuid now s :
  let order := new_order dto uuid now in
  (exists e, createOrder dto uuid now s = (Throw e, s)) \/
  createOrder dto uuid now s =
    (Ok order,
     {| orders := JsMap.set uuid order (orders s);
        ordersByMaker :=
          JsMap.set (maker dto)
            (JsSet.add uuid (default [] (JsMap.get (maker dto) (ordersByMaker s))))
            (ordersByMaker s);
        events := (events s ++ [newOrder order])%list |}).
Proof.
  intros order. unfold createOrder.
  destruct (negb _); [by left; eexists|]. destruct (gtb _ _); [by left; eexists|]. right.
  unfold bind, store, put_orders, track_maker, emit, ret. cbn [orders ordersByMaker events].
  unfold JsMap.has. destruct (JsMap.get (maker dto) (ordersByMaker s)) as [ids|] eqn:Hm.
  - by rewrite Hm.
  - by rewrite JsMap.get_set_eq, JsMap.set_set.
Qed.

Lemma wf_createOrder dto uuid now s :
  JsMap.get uuid (orders s) = None ->
  wf s -> wf (createOrder dto uuid now s).2.
Proof.
  intros Hfresh W.
  destruct (createOrder_cases dto uuid now s) as [[e ->]| ->]; [exact W|].
  destruct W as [W1 W2 W3 W4 W5 W6]. cbn [snd]. split; cbn [orders ordersByMaker].
  - by apply JsMap.wf_set.
  - by apply JsMap.wf_set.
  - intros k o. rewrite JsMap.get_set. case_decide; [by intros [= <-]; subst|eauto].
  - intros k o. rewrite JsMap.get_set. case_decide.
    + intros [= <-]; subst. cbn. rewrite JsMap.get_set_eq. eexists; split; [done|].
      apply JsSet.elem_add. by left.
    + intros Ho. destruct (W4 _ _ Ho) as (ids & Hids & Hin). rewrite JsMap.get_set.
      case_decide as Hd; [|by exists ids]. rewrite Hd, Hids. eexists; split; [done|].
      apply JsSet.elem_add. by right.
  - intros m ids. rewrite JsMap.get_set. case_decide as Hd.
    + intros [= <-]; subst m. split.
      * apply JsSet.nodup_add.
        destruct (JsMap.get (maker dto) _) eqn:E; [by eapply W5|apply NoDup_nil_2].
      * intros k [->|Hin]%JsSet.elem_add; [rewrite JsMap.get_set_eq; by eexists|].
        destruct (JsMap.get (maker dto) _) eqn:E; [|by apply not_elem_of_nil in Hin].
        destruct (proj2 (W5 _ _ E) _ Hin) as (o & Ho & Hmk).
        exists o. rewrite JsMap.get_set_ne; [done|]. by intros ->; rewrite Ho in Hfresh.
    + intros Hids. destruct (W5 _ _ Hids) as [Hn Hi]. split; [done|].
      intros k Hin. destruct (Hi _ Hin) as (o & Ho & Hmk). exists o.
      rewrite JsMap.get_set_ne; [done|]. by intros ->; rewrite Ho in Hfresh.
  - intros k o. rewrite JsMap.get_set. case_decide; [by intros [= <-]|eauto].
Qed.
End CreateOrder.
