(* ===== verification/OrderBook.v ===== *)
(** * Histories of the order book

    The operations of [OrderService] as a transition system: any sequence of
    calls, failing ones included, with UUIDs that do not repeat. Invariants by
    induction on the history, and what the queries return on the books it
    reaches. *)

From Stdlib Require Import ZArith Lia.
From stdpp Require Import base numbers list strings gmap relations.
From S2P Require Import Prelude.
From S2P Require Import JsNumber.
From S2P Require Import JsString.
From S2P Require Import JsMap.
From S2P Require Import PartialFill.
From S2P Require Import Signature.
From S2P Require Import OrderTypes.
From S2P Require Import OrderService.

Local Open Scope string_scope.
Local Open Scope Z_scope.

(** ** The transition system *)

Inductive Op :=
  | OpCreate (dto : CreateOrderDto) (uuid : string) (now : Z)
  | OpFill (orderId : string) (input : FillInput) (uuid : string) (now : Z)
  | OpFillStatus (orderId fillId : string) (st : FillStatus) (tx : option TxHashes) (now : Z)
  | OpCancel (orderId mk : string) (now : Z)
  | OpPercentage (orderId : string) (percentage : number) (now : Z)
  | OpCleanup (now : Z).

(** A UUID is fresh when no order was filed under it. *)
Definition fresh (op : Op) (s : State) : Prop :=
  match op with
  | OpCreate _ uuid _ => JsMap.get uuid (orders s) = None
  | _ => True
  end.

Section History.
Context `{Ethers, Signing}.

(** The state after a call, whether it returned or threw. *)
Definition run_op (op : Op) (s : State) : State :=
  match op with
  | OpCreate dto uuid now => (createOrder dto uuid now s).2
  | OpFill orderId input uuid now => (createFill orderId input uuid now s).2
  | OpFillStatus orderId fillId st tx now => (updateFillStatus orderId fillId st tx now s).2
  | OpCancel orderId mk now => (cancelOrder orderId mk now s).2
  | OpPercentage orderId p now => (updateOrderFilledPercentage orderId p now s).2
  | OpCleanup now => (cleanupExpiredOrders now s).2
  end.

Inductive step (s : State) : State -> Prop :=
  | step_op op : fresh op s -> step s (run_op op s).

Definition reachable (s : State) : Prop := rtc step initial s.

Lemma wf_step s s' : step s s' -> wf s -> wf s'.
Proof.
  intros [op Hfresh]. destruct op; simpl in *.
  - by apply wf_createOrder.
  - eapply wf_touches, createFill_touches.
  - eapply wf_touches, updateFillStatus_touches.
  - eapply wf_touches, cancelOrder_touches.
  - eapply wf_touches, updateOrderFilledPercentage_touches.
  - apply wf_cleanup.
Qed.

Lemma reachable_wf s : reachable s -> wf s.
Proof.
  intros Hr. unfold reachable in Hr. remember initial as s0 eqn:Hs0.
  assert (wf s0) as W by (subst; apply wf_initial). clear Hs0.
  induction Hr; eauto using wf_step.
Qed.

Lemma step_evolves s s' k o :
  step s s' -> JsMap.get k (orders s) = Some o ->
  exists o', JsMap.get k (orders s') = Some o' /\ evolves k o o'.
Proof.
  intros [op Hfresh] Hk. destruct op as [dto uuid now| | | | |now]; simpl in *.
  - destruct (createOrder_cases dto uuid now s) as [[e ->]| ->]; [by exists o|]. cbn.
    exists o. rewrite JsMap.get_set_ne; [done|]. by intros ->; rewrite Hk in Hfresh.
  - eapply touches_get; [apply createFill_touches|done].
  - eapply touches_get; [apply updateFillStatus_touches|done].
  - eapply touches_get; [apply cancelOrder_touches|done].
  - eapply touches_get; [apply updateOrderFilledPercentage_touches|done].
  - exists (expire now o). cbn. by rewrite get_map_values, Hk; split; [|apply evolves_expire].
Qed.

Lemma getOrdersByMaker_spec s m (o : Order) :
  wf s -> o ∈ getOrdersByMaker m s <-> o ∈ JsMap.values (orders s) /\ maker o = m.
Proof.
  intros [W1 W2 W3 W4 W5 W6]. unfold getOrdersByMaker.
  rewrite list_elem_of_omap, JsMap.elem_values. split.
  - intros (k & Hin & Hk). destruct (JsMap.get m (ordersByMaker s)) as [ids|] eqn:Hm;
      [|by apply not_elem_of_nil in Hin].
    destruct (proj2 (W5 _ _ Hm) _ Hin) as (o' & Ho' & Hmk). rewrite Hk in Ho'. simplify_eq.
    eauto using JsMap.get_elem.
  - intros [(k & Hk%JsMap.elem_get) <-]; [|done].
    destruct (W4 _ _ Hk) as (ids & -> & Hin). by exists k.
Qed.

Lemma getOrdersByMaker_ids s m :
  wf s -> id <$> getOrdersByMaker m s = default [] (JsMap.get m (ordersByMaker s)).
Proof.
  intros W. unfold getOrdersByMaker.
  assert (forall k, k ∈ default [] (JsMap.get m (ordersByMaker s)) ->
            exists o, JsMap.get k (orders s) = Some o /\ id o = k) as Hids.
  { intros k Hin. destruct (JsMap.get m _) as [ids|] eqn:Hm; [|by apply not_elem_of_nil in Hin].
    destruct (proj2 (wf_index _ W _ _ Hm) _ Hin) as (o & Ho & _).
    exists o. split; [done|]. by apply (wf_id _ W). }
  induction (default [] _) as [|k ids IH]; csimpl; [done|].
  destruct (Hids k) as (o & Ho & Hid); [by left|]. rewrite Ho. csimpl. rewrite Hid, IH; [done|].
  intros j Hj. apply Hids. by right.
Qed.

(** The status an operation leaves on an order that it found FILLED or
    CANCELLED, unless it is a percentage update. *)
Lemma final_status_step op s k o o' :
  fresh op s -> (forall i p now, op <> OpPercentage i p now) ->
  JsMap.get k (orders s) = Some o ->
  status o = FILLED \/ status o = CANCELLED ->
  JsMap.get k (orders (run_op op s)) = Some o' ->
  status o' = status o.
Proof.
  intros Hfresh Hop Hk Hst. destruct op as [dto uuid now|j input uuid now|j fid st tx now
    |j mk now|j p now|now]; simpl in *.
  - destruct (createOrder_cases dto uuid now s) as [[e ->]| ->]; cbn; [congruence|].
    rewrite JsMap.get_set_ne; [congruence|]. by intros ->; rewrite Hk in Hfresh.
  - destruct (decide (j = k)) as [->|Hne].
    + unfold createFill, find_order, bind at 1. rewrite Hk.
      rewrite (proj2 (orb_true_iff _ _)); [cbn; congruence|].
      destruct Hst as [-> | ->]; auto.
    + destruct (createFill_touches j input uuid now s) as [s' Ho _|s' ? ? _ Ho _ _];
        rewrite Ho; [congruence|]. rewrite JsMap.get_set_ne by done. congruence.
  - unfold updateFillStatus, find_order, bind at 1.
    destruct (JsMap.get j (orders s)) as [oj|] eqn:Hj; [|cbn; congruence].
    destruct (update_first _ _ _) as [[f fs]|]; cbn; [|congruence].
    rewrite JsMap.get_set. case_decide; [|congruence]. intros [= <-]. cbn. congruence.
  - unfold cancelOrder, find_order, bind at 1.
    destruct (JsMap.get j (orders s)) as [oj|] eqn:Hj; [|cbn; congruence].
    case_match; [cbn; congruence|]. case_bool_decide as Hb; [cbn; congruence|].
    cbn. rewrite JsMap.get_set. case_decide; [|congruence].
    intros [= <-]. cbn. destruct Hst; congruence.
  - by destruct (Hop j p now).
  - rewrite get_map_values, Hk. intros [= <-]. unfold expire, expires.
    by destruct Hst as [Hs|Hs]; rewrite Hs; simpl; rewrite Hs.
Qed.
End History.

Lemma expires_expire now o : expires now (expire now o) = false.
Proof. unfold expire. destruct (expires now o) eqn:E; [reflexivity|exact E]. Qed.

Lemma expire_idemp now (m : JsMap.t Order) :
  map_values (expire now) (map_values (expire now) m) = map_values (expire now) m.
Proof.
  unfold map_values. rewrite <- list_fmap_compose. apply list_fmap_ext.
  intros _ [k o] _. unfold compose. simpl. unfold expire at 1. by rewrite expires_expire.
Qed.

Lemma expired_once now (m : JsMap.t Order) :
  List.filter (expires now) (JsMap.values (map_values (expire now) m)) = [].
Proof.
  unfold JsMap.values, map_values.
  induction m as [|[k o] m IH]; csimpl; [done|]. by rewrite expires_expire.
Qed.

(** ** Properties *)

Section Properties.
Context `{Ethers, Signing}.

(** C1. Invariant of the order book: after any sequence of calls, failed
    ones included, the keys of the book are the identities of its orders,
    the maker index lists exactly the orders of each maker and each of them
    once, and every recorded fill belongs to the order that holds it. *)
Theorem order_book_invariant (s : State) (Hr : reachable s) : wf s.
Proof. by apply reachable_wf. Qed.

(** [getOrdersByMaker] is exact on every reachable book: it returns the
    orders whose maker is [m], all of them and no other, without repeating
    one. *)
Theorem orders_by_maker_exact (s : State) (m : string) (Hr : reachable s) :
  (forall o : Order, o ∈ getOrdersByMaker m s <-> o ∈ JsMap.values (orders s) /\ maker o = m) /\
  NoDup (id <$> getOrdersByMaker m s).
Proof.
  pose proof (reachable_wf _ Hr) as W. split; [intros o; by apply getOrdersByMaker_spec|].
  rewrite getOrdersByMaker_ids by done.
  destruct (JsMap.get m _) as [ids|] eqn:Hm; [|apply NoDup_nil_2]. by apply (wf_index _ W _ _ Hm).
Qed.

(** C19. Signed terms are immutable: along any history an order is never
    removed, and its terms (chains, tokens, amounts, maker, receiver,
    deadline, nonce, secrets), identity and creation time never change;
    recorded fills are never dropped nor reordered, only appended. *)
Theorem signed_terms_immutable (s s' : State) (k : string) (o : Order)
    (Hsteps : rtc step s s') (Hk : JsMap.get k (orders s) = Some o) :
  exists o', JsMap.get k (orders s') = Some o' /\
    order_dto o' = order_dto o /\ id o' = id o /\ createdAt o' = createdAt o /\
    (fill_id <$> fills o) `prefix_of` (fill_id <$> fills o').
Proof.
  assert (exists o', JsMap.get k (orders s') = Some o' /\ evolves k o o') as (o' & Ho' & []).
  { revert o Hk. induction Hsteps as [s|s1 s2 s3 Hs _ IH]; intros o Hk; [by exists o|].
    destruct (step_evolves _ _ _ _ Hs Hk) as (o2 & H2 & E2).
    destruct (IH _ H2) as (o3 & H3 & E3). exists o3. split; [done|]. by etrans. }
  by exists o'.
Qed.

(** FILLED and CANCELLED are final for every operation of the service
    other than [updateOrderFilledPercentage]: no fill, fill-status update,
    cancellation, expiry sweep or new order moves an order out of them. *)
Theorem final_status_stable (op : Op) (s : State) (k : string) (o : Order)
    (Hfresh : fresh op s) (Hop : forall i p now, op <> OpPercentage i p now)
    (Hk : JsMap.get k (orders s) = Some o)
    (Hst : status o = FILLED \/ status o = CANCELLED) :
  exists o', JsMap.get k (orders (run_op op s)) = Some o' /\ status o' = status o.
Proof.
  destruct (step_evolves s (run_op op s) k o) as (o' & Ho' & _); [by constructor|done|].
  exists o'. split; [done|]. by eapply final_status_step.
Qed.

(** [updateOrderFilledPercentage], which the websocket relay calls with
    the resolver's number, has no status guard: for a percentage strictly
    between 0 and 100 it makes any order of the book PARTIALLY_FILLED,
    a cancelled, expired or filled one included, so that resolvers can fill
    it again. *)
Theorem percentage_update_revives (k : string) (p : number) (now : Z) (s : State) (o : Order)
    (Hk : JsMap.get k (orders s) = Some o)
    (Hp : gtb p (of_Z 0) = true) (Hlt : geb p (of_Z 100) = false) :
  let s' := run_op (OpPercentage k p now) s in
  exists o', JsMap.get k (orders s') = Some o' /\ status o' = PARTIALLY_FILLED /\
    o' ∈ getActiveOrders s'.
Proof.
  intros s'. subst s'. simpl. rewrite (updateOrderFilledPercentage_eq _ _ _ _ _ Hk).
  unfold status_after_percentage. rewrite Hp, Hlt. cbn [fst snd].
  set (o' := set_status PARTIALLY_FILLED _).
  assert (JsMap.get k (JsMap.set k o' (orders s)) = Some o') as Hk' by apply JsMap.get_set_eq.
  exists o'. split; [exact Hk'|]. split; [reflexivity|].
  unfold getActiveOrders. apply list_elem_of_In, filter_In. split; [|reflexivity].
  apply list_elem_of_In. apply JsMap.elem_values. exists k. apply JsMap.get_elem. exact Hk'.
Qed.

(** The expiry sweep is exact and idempotent: an order is EXPIRED
    afterwards with the sweep's time exactly when it was PENDING past its
    deadline, every other order is untouched, one event is emitted per
    expired order, and a second sweep at the same time changes nothing and
    emits nothing. *)
Theorem cleanup_exact (now : Z) (s : State) :
  let s1 := (cleanupExpiredOrders now s).2 in
  (forall k, JsMap.get k (orders s1) =
     (fun o => if expires now o then set_updatedAt now (set_status EXPIRED o) else o)
       <$> JsMap.get k (orders s)) /\
  JsMap.keys (orders s1) = JsMap.keys (orders s) /\
  length (events s1) =
    (length (events s) + length (List.filter (expires now) (JsMap.values (orders s))))%nat /\
  (cleanupExpiredOrders now s1).2 = s1.
Proof.
  intros s1. subst s1. cbn [snd cleanupExpiredOrders orders events]. split_and!.
  - intros k. apply get_map_values.
  - apply keys_map_values.
  - by rewrite length_app, length_fmap.
  - unfold cleanupExpiredOrders. cbn [snd orders ordersByMaker events].
    by rewrite expired_once, expire_idemp, app_nil_r.
Qed.
End Properties.

(** ** Witnesses *)

Definition sample_book : State :=
  @run_op tagged_ethers echo_signing (OpCreate sample_dto "o1" 5) initial.

Definition sample_order : Order := new_order sample_dto "o1" 5.

Lemma sample_step : @step tagged_ethers echo_signing initial sample_book.
Proof. apply step_op. reflexivity. Defined.

Lemma sample_reachable : @reachable tagged_ethers echo_signing sample_book.
Proof. eapply rtc_l; [exact sample_step|apply rtc_refl]. Defined.

Lemma sample_get : JsMap.get "o1" (orders sample_book) = Some sample_order.
Proof. vm_compute. reflexivity. Defined.

Definition cancelled_book : State :=
  @run_op tagged_ethers echo_signing (OpCancel "o1" "0xMaker" 6) sample_book.

Definition cancelled_order : Order := set_updatedAt 6 (set_status CANCELLED sample_order).

Lemma cancelled_get : JsMap.get "o1" (orders cancelled_book) = Some cancelled_order.
Proof. vm_compute. reflexivity. Defined.

Lemma order_book_invariant_witness : wf sample_book.
Proof. apply (@order_book_invariant tagged_ethers echo_signing). exact sample_reachable. Defined.

Lemma orders_by_maker_exact_witness : NoDup (id <$> getOrdersByMaker "0xMaker" sample_book).
Proof.
  apply (@orders_by_maker_exact tagged_ethers echo_signing sample_book "0xMaker").
  exact sample_reachable.
Defined.

Lemma signed_terms_immutable_witness :
  exists o', JsMap.get "o1" (orders cancelled_book) = Some o' /\
    order_dto o' = sample_dto /\ id o' = "o1" /\ createdAt o' = 5 /\
    [] `prefix_of` (fill_id <$> fills o').
Proof.
  apply (@signed_terms_immutable tagged_ethers echo_signing sample_book cancelled_book "o1"
           sample_order); [|exact sample_get].
  eapply rtc_l; [apply (@step_op _ _ sample_book (OpCancel "o1" "0xMaker" 6)); exact I
                |apply rtc_refl].
Defined.

Lemma final_status_stable_witness :
  exists o', JsMap.get "o1" (orders (@run_op tagged_ethers echo_signing (OpCleanup 9)
                                       cancelled_book)) = Some o' /\ status o' = CANCELLED.
Proof.
  apply (@final_status_stable tagged_ethers echo_signing (OpCleanup 9) cancelled_book "o1"
           cancelled_order); [exact I|discriminate|exact cancelled_get|right; reflexivity].
Defined.

Lemma percentage_update_revives_witness :
  exists o', JsMap.get "o1" (orders (@run_op tagged_ethers echo_signing
                 (OpPercentage "o1" (of_Z 25) 9) cancelled_book)) = Some o' /\
    status o' = PARTIALLY_FILLED /\
    o' ∈ getActiveOrders (@run_op tagged_ethers echo_signing
                 (OpPercentage "o1" (of_Z 25) 9) cancelled_book).
Proof.
  apply (@percentage_update_revives tagged_ethers echo_signing "o1" (of_Z 25) 9 cancelled_book
           cancelled_order); [exact cancelled_get|vm_compute; reflexivity|vm_compute; reflexivity].
Defined.
