(* ===== verification/OrderLedger.v ===== *)
(** * The order book as a ledger

    An abstract specification of the order engine's book: a finite map from
    identifiers to orders, with the effect of every call written out as a
    function on it, no maker index, no insertion order and no event log. The
    book of [OrderService] refines it: the same calls lead to the same map, and
    the queries answer from it. *)

From Stdlib Require Import ZArith Lia.
From stdpp Require Import base numbers list strings gmap.
From S2P Require Import Prelude.
From S2P Require Import JsNumber.
From S2P Require Import JsString.
From S2P Require Import JsMap.
From S2P Require Import PartialFill.
From S2P Require Import Signature.
From S2P Require Import OrderTypes.
From S2P Require Import OrderService.
From S2P Require Import OrderBook.

Local Open Scope string_scope.
Local Open Scope Z_scope.
Local Open Scope result_scope.

(** ** The specification *)

Abbreviation Ledger := (gmap string Order).

Definition closed (o : Order) : bool :=
  bool_decide (status o = FILLED) || bool_decide (status o = CANCELLED).

(** The amount that a percentage of an order stands for, and the percentage that
    an amount stands for. *)
Definition amount_of_percentage (o : Order) (p : number) : result string :=
  total <-? BigInt (fromAmount o);
  pct <-? BigInt_of_number (floor p);
  q <-? bigint_div (total * pct) 100;
  Ok (toString q).

Definition percentage_of_amount (o : Order) (amount : string) : result number :=
  t <-? BigInt amount;
  total <-? BigInt (fromAmount o);
  q <-? bigint_div (t * 100) total;
  Ok (of_Z q).

Definition settle (o : Order) : Order := set_status (status_after_fill o) o.

(** What is left of an order whose fills were extended: everything that could
    be computed before the first error. *)
Definition accounted (o : Order) : Order :=
  if uses_percentages o then
    let p := min (total_percent (fills o)) (of_Z 100) in
    let o1 := set_filledPercentage p o in
    match amount_of_percentage o p with
    | Ok a => settle (set_filledAmount a o1)
    | Throw _ => o1
    end
  else
    match sum_amounts (fills o) with
    | Ok total =>
        let o1 := set_filledAmount total o in
        match percentage_of_amount o total with
        | Ok p => settle (set_filledPercentage p o1)
        | Throw _ => o1
        end
    | Throw _ => o
    end.

Definition with_fill (f : Fill) (now : Z) (o : Order) : Order :=
  if closed o then o
  else accounted (set_updatedAt now (set_fills (fills o ++ [f])%list o)).

Definition with_fill_status (fillId : string) (st : FillStatus) (tx : option TxHashes) (now : Z)
    (o : Order) : Order :=
  match update_first fillId (update_fill st tx now) (fills o) with
  | Some (_, fs) => set_updatedAt now (set_fills fs o)
  | None => o
  end.

Definition with_cancellation (mk : string) (now : Z) (o : Order) : Order :=
  if String.eqb (maker o) mk && negb (bool_decide (status o = FILLED))
  then set_updatedAt now (set_status CANCELLED o) else o.

Definition with_percentage (p : number) (now : Z) (o : Order) : Order :=
  set_status (status_after_percentage p (status o)) (set_updatedAt now (set_filledPercentage p o)).

Section Ledger.
Context `{Ethers, Signing}.

Definition accepts (dto : CreateOrderDto) (now : Z) : bool :=
  validateOrderSignature dto && negb (gtb (of_Z now) (mul (deadline dto) (of_Z 1000))).

Definition apply_op (op : Op) (m : Ledger) : Ledger :=
  match op with
  | OpCreate dto uuid now => if accepts dto now then <[uuid := new_order dto uuid now]> m else m
  | OpFill k input uuid now => alter (with_fill (new_fill input k uuid now) now) k m
  | OpFillStatus k fillId st tx now => alter (with_fill_status fillId st tx now) k m
  | OpCancel k mk now => alter (with_cancellation mk now) k m
  | OpPercentage k p now => alter (with_percentage p now) k m
  | OpCleanup now => expire now <$> m
  end.

(** ** The simulation *)

Definition ledger (s : State) : Ledger := JsMap.to_gmap (orders s).

(** An operation that rewrites one order in place, or leaves the book as it is
    because the order is missing or already what it would become. *)
Lemma ledger_alter (k : string) (f : Order -> Order) (s s' : State) :
  (JsMap.get k (orders s) = None -> orders s' = orders s) ->
  (forall o, JsMap.get k (orders s) = Some o ->
     orders s' = JsMap.set k (f o) (orders s) \/ (orders s' = orders s /\ f o = o)) ->
  ledger s' = alter f k (ledger s).
Proof.
  intros Hn Hs. unfold ledger. apply map_eq. intros i. rewrite lookup_alter.
  rewrite !JsMap.lookup_to_gmap. destruct (JsMap.get k (orders s)) as [o|] eqn:Hk.
  - destruct (Hs o eq_refl) as [->|[-> Hfo]].
    + rewrite JsMap.get_set. by case_decide.
    + case_decide; subst; [|done]. rewrite Hk. simpl. by rewrite Hfo.
  - rewrite (Hn eq_refl). by case_decide; subst.
Qed.

Lemma createFill_orders k input uuid now s o :
  JsMap.get k (orders s) = Some o ->
  let s' := (createFill k input uuid now s).2 in
  orders s' = JsMap.set k (with_fill (new_fill input k uuid now) now o) (orders s) \/
  (orders s' = orders s /\ with_fill (new_fill input k uuid now) now o = o).
Proof.
  intros Hk. cbn zeta. unfold createFill, find_order, bind. rewrite Hk.
  unfold with_fill, closed. destruct (_ || _); [by right|]. left. unfold accounted.
  generalize (set_updatedAt now (set_fills (fills o ++ [new_fill input k uuid now])%list o)) as o1. intros o1.
  unfold account_fills. destruct (uses_percentages o1) eqn:Hu.
  - unfold amount_of_percentage, lift, bind, store, put_orders, ret, emit. cbn [filledPercentage set_filledPercentage].
    destruct (BigInt (fromAmount o1)) as [total|e]; cbn; [|by rewrite ?JsMap.set_set].
    destruct (BigInt_of_number _) as [pct|e]; cbn; by rewrite ?JsMap.set_set.
  - unfold percentage_of_amount, lift, bind, store, put_orders, ret, emit.
    destruct (sum_amounts (fills o1)) as [total|e]; cbn; [|done].
    destruct (BigInt total) as [t|e]; cbn; [|by rewrite ?JsMap.set_set].
    destruct (BigInt (fromAmount o1)) as [tot|e]; cbn; [|by rewrite ?JsMap.set_set].
    unfold bigint_div. destruct (tot =? 0); cbn; by rewrite ?JsMap.set_set.
Qed.

(** One call: the book after it is the specified one. *)
Lemma run_op_ledger (op : Op) (s : State) : ledger (run_op op s) = apply_op op (ledger s).
Proof.
  destruct op as [dto uuid now|k input uuid now|k fillId st tx now|k mk now|k p now|now];
    cbn [run_op apply_op].
  - unfold createOrder, accepts. destruct (validateOrderSignature dto); [|done].
    destruct (gtb _ _); [done|]. apply JsMap.to_gmap_set.
  - apply ledger_alter.
    + intros Hk. unfold createFill, find_order, bind. by rewrite Hk.
    + intros o Hk. by apply createFill_orders.
  - apply ledger_alter; intros; unfold updateFillStatus, find_order, bind;
      (match goal with H : JsMap.get _ _ = _ |- _ => rewrite H end); [done|].
    unfold with_fill_status. destruct (update_first _ _ _) as [[f fs]|]; [by left|by right].
  - apply ledger_alter; intros; unfold cancelOrder, find_order, bind;
      (match goal with H : JsMap.get _ _ = _ |- _ => rewrite H end); [done|].
    unfold with_cancellation. destruct (String.eqb _ _); [|by right].
    destruct (bool_decide _); [by right|by left].
  - apply ledger_alter; intros; unfold updateOrderFilledPercentage, find_order, bind;
      (match goal with H : JsMap.get _ _ = _ |- _ => rewrite H end); [done|by left].
  - unfold ledger. apply map_eq. intros i.
    by rewrite lookup_fmap, !JsMap.lookup_to_gmap, <- get_map_values.
Qed.

(** A sequence of calls in which no identifier is given twice. *)
Fixpoint fresh_run (ops : list Op) (s : State) : Prop :=
  match ops with
  | [] => True
  | op :: rest => fresh op s /\ fresh_run rest (run_op op s)
  end.

Definition run_ops (ops : list Op) (s : State) : State := fold_left (fun s op => run_op op s) ops s.
Definition apply_ops (ops : list Op) (m : Ledger) : Ledger := fold_left (fun m op => apply_op op m) ops m.

Lemma run_ops_wf (ops : list Op) (s : State) : fresh_run ops s -> wf s -> wf (run_ops ops s).
Proof.
  revert s. induction ops as [|op ops IH]; intros s; [done|]. intros [Hf Hr] W.
  apply IH; [done|]. by eapply wf_step; [constructor|].
Qed.

Lemma run_ops_ledger (ops : list Op) (s : State) :
  ledger (run_ops ops s) = apply_ops ops (ledger s).
Proof.
  revert s. induction ops as [|op ops IH]; intros s; [done|]. unfold run_ops, apply_ops in *.
  simpl. by rewrite IH, run_op_ledger.
Qed.

Lemma elem_ledger (s : State) (o : Order) :
  wf s -> o ∈ JsMap.values (orders s) <-> exists k, ledger s !! k = Some o.
Proof.
  intros W. rewrite JsMap.elem_values. unfold ledger. split; intros [k Hk]; exists k.
  - rewrite JsMap.lookup_to_gmap. by apply JsMap.elem_get; [apply (wf_orders _ W)|].
  - rewrite JsMap.lookup_to_gmap in Hk. by apply JsMap.get_elem.
Qed.

(** C2. The order book refines the ledger: after every sequence of calls, failing
    ones included, the orders it holds are those of the specification, and its
    queries answer from it: by identifier, by maker (every order of the maker
    once, and no other) and by activity. *)
Theorem book_refines_ledger (ops : list Op) (Hfresh : fresh_run ops initial) :
  let s := run_ops ops initial in
  let m := apply_ops ops ∅ in
  (forall k, getOrder k s = m !! k) /\
  (forall mk (o : Order), o ∈ getOrdersByMaker mk s <-> (exists k, m !! k = Some o) /\ maker o = mk) /\
  (forall mk, NoDup (id <$> getOrdersByMaker mk s)) /\
  (forall o : Order, o ∈ getActiveOrders s <-> (exists k, m !! k = Some o) /\ is_active o = true).
Proof.
  cbn zeta. pose proof (run_ops_wf ops initial Hfresh wf_initial) as W.
  pose proof (run_ops_ledger ops initial) as Hm. change (ledger initial) with (∅ : Ledger) in Hm.
  rewrite <- Hm. split_and!.
  - intros k. unfold ledger, getOrder. by rewrite JsMap.lookup_to_gmap.
  - intros mk o. by rewrite getOrdersByMaker_spec, elem_ledger.
  - intros mk. rewrite getOrdersByMaker_ids by done.
    destruct (JsMap.get mk _) as [ids|] eqn:Hk; [by eapply (wf_index _ W)|apply NoDup_nil_2].
  - intros o. unfold getActiveOrders. rewrite list_elem_of_In, filter_In, <- list_elem_of_In.
    by rewrite elem_ledger.
Qed.
(** ** Types of the stored values *)

(** The fill progress of an order: an integer in the form BigInt prints, and a
    double. *)
Definition typed (o : Order) : Prop :=
  canonical (filledAmount o) = true /\ wf_number (filledPercentage o) = true.

(** The percentages of the messages are doubles. *)
Definition op_typed (op : Op) : Prop :=
  match op with OpPercentage _ p _ => wf_number p = true | _ => True end.

Lemma wf_total_percent (fs : list Fill) : wf_number (total_percent fs) = true.
Proof.
  unfold total_percent. assert (wf_number (of_Z 0) = true) as H0' by apply wf_of_Z.
  revert H0'. generalize (of_Z 0). induction fs as [|f fs IH]; intros acc Ha; [done|].
  apply IH, wf_add.
Qed.

Lemma sum_amounts_canonical (fs : list Fill) (total : string) :
  sum_amounts fs = Ok total -> canonical total = true.
Proof.
  unfold sum_amounts. assert (forall x, Ok "0" = Ok x -> canonical x = true) as H0' by by intros ? [= <-].
  revert H0'. generalize (Ok "0" : result string). induction fs as [|f fs IH]; intros acc Ha Hs.
  - by apply Ha.
  - eapply IH; [|exact Hs]. intros x. destruct acc as [a|e]; [|done]. cbn.
    destruct (BigInt a); [|done]. cbn. destruct (BigInt (fill_amount f)); [|done]. cbn.
    intros [= <-]. apply canonical_toString.
Qed.

Lemma amount_canonical (o : Order) (p : number) (a : string) :
  amount_of_percentage o p = Ok a -> canonical a = true.
Proof.
  unfold amount_of_percentage. destruct (BigInt (fromAmount o)); [|done]. cbn [result_bind].
  destruct (BigInt_of_number (floor p)); [|done]. cbn. intros [= <-]. apply canonical_toString.
Qed.

Lemma percentage_wf (o : Order) (a : string) (p : number) :
  percentage_of_amount o a = Ok p -> wf_number p = true.
Proof.
  unfold percentage_of_amount. destruct (BigInt a); [|done]. cbn [result_bind].
  destruct (BigInt (fromAmount o)); [|done]. cbn [result_bind]. unfold bigint_div.
  destruct (_ =? 0); [done|]. cbn. intros [= <-]. apply wf_of_Z.
Qed.

Lemma accounted_typed (o : Order) : typed o -> typed (accounted o).
Proof.
  intros [Ha Hp]. unfold accounted. destruct (uses_percentages o).
  - set (p := min _ _).
    assert (wf_number p = true) as Hw.
    { subst p. apply wf_min; [apply wf_total_percent|apply wf_of_Z]. }
    destruct (amount_of_percentage o p) as [a|e] eqn:E; [|by split].
    split; [|done]. by apply (amount_canonical o p).
  - destruct (sum_amounts (fills o)) as [total|e] eqn:E; [|by split].
    pose proof (sum_amounts_canonical _ _ E).
    destruct (percentage_of_amount o total) as [p|e] eqn:E2; [|by split].
    split; [done|]. by apply (percentage_wf o total).
Qed.

Lemma apply_op_typed (op : Op) (m : Ledger) :
  op_typed op -> map_Forall (fun _ o => typed o) m -> map_Forall (fun _ o => typed o) (apply_op op m).
Proof.
  intros Hop Hm. assert (forall k f, (forall o, typed o -> typed (f o)) ->
    map_Forall (fun _ o => typed o) (alter f k m)) as Halter.
  { intros k f Hf i o. rewrite lookup_alter. case_decide; [|apply Hm].
    intros (o' & Ho' & ->)%fmap_Some. by apply Hf, (Hm k). }
  destruct op as [dto uuid now|k input uuid now|k fillId st tx now|k mk now|k p now|now];
    cbn [apply_op]; try apply Halter.
  - destruct (accepts dto now); [|done]. apply map_Forall_insert_2; [|done].
    split; [done|apply wf_of_Z].
  - intros o Ho. unfold with_fill. destruct (closed o); [done|]. by apply accounted_typed.
  - intros o Ho. unfold with_fill_status. by destruct (update_first _ _ _) as [[f fs]|].
  - intros o Ho. unfold with_cancellation. by destruct (_ && _).
  - intros o [Ha _]. by split.
  - intros i o. rewrite lookup_fmap. intros (o' & Ho' & ->)%fmap_Some.
    unfold expire. destruct (expires now o'); exact (Hm i o' Ho').
Qed.

(** C32. The types of the stored progress: after every sequence of calls, the
    filled amount of every order is an integer in decimal form and its filled
    percentage is a double, although both pass through texts and through calls
    that throw halfway. *)
Theorem stored_progress_typed (ops : list Op) (k : string) (o : Order)
    (Hops : Forall op_typed ops) (Ho : getOrder k (run_ops ops initial) = Some o) :
  canonical (filledAmount o) = true /\ wf_number (filledPercentage o) = true.
Proof.
  assert (map_Forall (fun _ o => typed o) (ledger (run_ops ops initial))) as Hm.
  { rewrite run_ops_ledger. change (ledger initial) with (∅ : Ledger). unfold apply_ops.
    assert (map_Forall (fun _ o => typed o) (∅ : Ledger)) as H0' by apply map_Forall_empty.
    revert H0'. generalize (∅ : Ledger). clear Ho.
    induction Hops as [|op ops Hop _ IH]; intros m Hm; [done|]. by apply IH, apply_op_typed. }
  apply (Hm k). unfold ledger. by rewrite JsMap.lookup_to_gmap.
Qed.
End Ledger.

(** ** Witnesses *)

Lemma stored_progress_typed_witness :
  canonical "0" = true /\ wf_number (of_Z 40) = true.
Proof.
  apply (@stored_progress_typed tagged_ethers echo_signing
           [OpCreate sample_dto "o1" 5; OpPercentage "o1" (of_Z 40) 6] "o1"
           (with_percentage (of_Z 40) 6 (new_order sample_dto "o1" 5))).
  - repeat constructor.
  - reflexivity.
Defined.


Lemma book_refines_ledger_witness :
  getOrder "o1" (@run_ops tagged_ethers echo_signing
                   [OpCreate sample_dto "o1" 5; OpCancel "o1" "0xMaker" 6] initial) =
  @apply_ops tagged_ethers echo_signing
    [OpCreate sample_dto "o1" 5; OpCancel "o1" "0xMaker" 6] ∅ !! "o1".
Proof.
  apply (@book_refines_ledger tagged_ethers echo_signing
           [OpCreate sample_dto "o1" 5; OpCancel "o1" "0xMaker" 6]).
  repeat split.
Defined.
