(* ===== verification/OrderFills.v ===== *)
(** * Fill accounting

    What [createFill] of [OrderService] records: the filled percentage and
    amount it computes on both of its branches, the status it derives from
    them, and what is left behind when the accounting throws. *)

From Stdlib Require Import ZArith Lia.
From stdpp Require Import base numbers list strings gmap.
From S2P Require Import Prelude.
From S2P Require Import JsNumber.
From S2P Require Import JsString.
From S2P Require Import JsMap.
From S2P Require Import PartialFill.
From S2P Require Import Signature.
From S2P Require Import OrderTypes.
From S2P Require Import OrderService.

Local Open Scope string_scope.
Local Open Scope Z_scope.

(** ** The result of a successful fill *)

(** The order with the fill pushed, before the accounting. *)
Definition pushed (o : Order) (f : Fill) (now : Z) : Order :=
  set_updatedAt now (set_fills (fills o ++ [f])%list o).

Definition with_orders (k : string) (o : Order) (s : State) : State :=
  {| orders := JsMap.set k o (orders s); ordersByMaker := ordersByMaker s; events := events s |}.

Definition fillable (o : Order) : bool :=
  negb (bool_decide (status o = FILLED) || bool_decide (status o = CANCELLED)).

Lemma createFill_unfold k input uuid now s o :
  JsMap.get k (orders s) = Some o -> fillable o = true ->
  let f := new_fill input k uuid now in
  createFill k input uuid now s =
    match account_fills k (pushed o f now) (with_orders k (pushed o f now) s) with
    | (Ok o2, s2) =>
        let o3 := set_status (status_after_fill o2) o2 in
        (Ok f, {| orders := JsMap.set k o3 (orders s2); ordersByMaker := ordersByMaker s2;
                  events := (events s2 ++ [orderFill o3 f])%list |})
    | (Throw e, s2) => (Throw e, s2)
    end.
Proof.
  intros Hk Hf f. unfold createFill, find_order, bind at 1. rewrite Hk.
  unfold fillable in Hf. apply negb_true_iff in Hf. rewrite Hf.
  unfold bind at 1, store at 1, put_orders at 1. fold f. fold (pushed o f now).
  fold (with_orders k (pushed o f now) s). unfold bind at 1.
  by destruct (account_fills k (pushed o f now) _) as [[o2|e] s2].
Qed.

Lemma createFill_success k input uuid now s o o2 :
  JsMap.get k (orders s) = Some o -> fillable o = true ->
  let f := new_fill input k uuid now in
  (account_fills k (pushed o f now) (with_orders k (pushed o f now) s)).1 = Ok o2 ->
  let o3 := set_status (status_after_fill o2) o2 in
  createFill k input uuid now s =
    (Ok f, {| orders := JsMap.set k o3 (orders s); ordersByMaker := ordersByMaker s;
              events := (events s ++ [orderFill o3 f])%list |}).
Proof.
  intros Hk Hf f Ha o3. rewrite (createFill_unfold _ _ _ _ _ o Hk Hf). fold f.
  destruct (account_fills_spec k (pushed o f now) (with_orders k (pushed o f now) s))
    as (r & o' & s' & Hr & Hm & He & Ho & _).
  rewrite Hr in *. cbn [fst] in Ha. subst r. fold o3.
  rewrite Hm, He. cbn [with_orders ordersByMaker events].
  destruct Ho as [-> | ->]; cbn [with_orders orders]; by rewrite ?JsMap.set_set.
Qed.


Lemma account_amounts k o s z t :
  uses_percentages o = false ->
  fromAmount o = toString z -> z <> 0 ->
  sum_amounts (fills o) = Ok (toString t) ->
  (account_fills k o s).1 =
    Ok (set_filledPercentage (of_Z (Z.quot (t * 100) z)) (set_filledAmount (toString t) o)).
Proof.
  intros Hu Hz Hz0 Ht. unfold account_fills. rewrite Hu, Ht, Hz.
  unfold bind, store, put_orders, lift. rewrite !BigInt_toString.
  cbn [result_bind]. unfold bigint_div. rewrite (proj2 (Z.eqb_neq z 0)) by done. done.
Qed.

(** ** Percentages *)






(** ** Amounts *)

Definition sum_Z (l : list Z) : Z := foldr Z.add 0 l.

Lemma sum_amounts_eq (fs : list Fill) (amounts : list Z) :
  Forall2 (fun (f : Fill) a => fill_amount f = toString a) fs amounts ->
  sum_amounts fs = Ok (toString (sum_Z amounts)).
Proof.
  intros HF. unfold sum_amounts. change (Ok "0") with (Ok (toString 0)).
  rewrite <- (Z.add_0_l (sum_Z amounts)). generalize 0 as acc.
  induction HF as [|f a fs amounts Hf _ IH]; intros acc; simpl; [by rewrite Z.add_0_r|].
  rewrite Hf, !BigInt_toString. simpl. rewrite IH. do 2 f_equal. unfold sum_Z. simpl. lia.
Qed.

(** An unreadable amount anywhere in the list makes the reduction throw. *)
Lemma sum_amounts_throws (fs : list Fill) (f : Fill) :
  f ∈ fs -> string_to_bigint (fill_amount f) = None -> exists e, sum_amounts fs = Throw e.
Proof.
  intros Hin Hbad. unfold sum_amounts.
  set (F := fun acc (f : Fill) => _).
  assert (forall l e, exists e', fold_left F l (Throw e) = Throw e') as Hthrow.
  { induction l as [|x l IH]; intros e; [by exists e|apply IH]. }
  generalize (Ok "0") as acc. induction fs as [|x fs IH]; intros acc; [by apply not_elem_of_nil in Hin|].
  apply elem_of_cons in Hin as [->|Hin]; simpl; [|by apply IH].
  destruct acc as [sum|e]; [|apply Hthrow].
  assert (exists e, F (Ok sum) x = Throw e) as [e ->]; [|apply Hthrow].
  unfold F, BigInt. simpl. rewrite Hbad. destruct (string_to_bigint sum); simpl; eauto.
Qed.

Lemma status_after_fill_filled (o : Order) (a z : Z) :
  status o <> FILLED -> filledAmount o = toString a -> fromAmount o = toString z ->
  status_after_fill o = FILLED <-> a = z.
Proof.
  intros Hst Ha Hz. unfold status_after_fill. rewrite Ha, Hz.
  destruct (String.eqb_spec (toString a) (toString z)) as [E|E].
  - split; [|done]. intros _. by apply toString_inj.
  - assert (a <> z) by (by intros ->). destruct (negb _); split; done.
Qed.

Lemma fillable_status o : fillable o = true -> status o <> FILLED /\ status o <> CANCELLED.
Proof.
  unfold fillable. rewrite negb_true_iff, orb_false_iff, !bool_decide_eq_false. done.
Qed.

(** ** Properties *)


(** Accounting of a same-chain (or legacy) fill: the filled amount is the
    exact sum of the fill amounts and the order becomes FILLED exactly when
    the sum equals the order's amount. There is no upper bound on this branch:
    a sum above the amount leaves the order PARTIALLY_FILLED, open for more
    fills. *)
Theorem same_chain_fill_accounting (k : string) (input : FillInput) (uuid : string) (now : Z)
    (s : State) (o : Order) (z : Z) (amounts : list Z)
    (Hk : JsMap.get k (orders s) = Some o)
    (Hf : fillable o = true)
    (Hchain : fromChain o = toChain o)
    (Hz : fromAmount o = toString z) (Hz0 : z <> 0)
    (Hfs : Forall2 (fun (f : Fill) a => fill_amount f = toString a)
             (fills o ++ [new_fill input k uuid now])%list amounts) :
  let f := new_fill input k uuid now in
  exists o',
    createFill k input uuid now s =
      (Ok f, {| orders := JsMap.set k o' (orders s); ordersByMaker := ordersByMaker s;
                events := (events s ++ [orderFill o' f])%list |}) /\
    filledAmount o' = toString (sum_Z amounts) /\
    filledPercentage o' = of_Z (Z.quot (sum_Z amounts * 100) z) /\
    (status o' = FILLED <-> sum_Z amounts = z) /\
    (sum_Z amounts <> z -> sum_Z amounts <> 0 -> status o' = PARTIALLY_FILLED).
Proof.
  intros f.
  assert (uses_percentages (pushed o f now) = false) as Hu.
  { unfold uses_percentages. cbn [pushed set_updatedAt set_fills order_dto].
    by rewrite bool_decide_eq_true_2. }
  pose proof (account_amounts k _ (with_orders k (pushed o f now) s) z _ Hu Hz Hz0
    (sum_amounts_eq _ _ Hfs)) as Ha.
  rewrite (createFill_success k input uuid now s o _ Hk Hf Ha).
  destruct (fillable_status _ Hf).
  eexists. split; [reflexivity|]. cbn [filledPercentage filledAmount status
    set_status set_filledAmount set_filledPercentage].
  split_and!; try done.
  - apply status_after_fill_filled; done.
  - intros Hne Hne0. unfold status_after_fill. cbn -[toString]. rewrite Hz.
    destruct (String.eqb_spec (toString (sum_Z amounts)) (toString z)) as [E%toString_inj|_];
      [done|].
    destruct (String.eqb_spec (toString (sum_Z amounts)) "0") as [E|_]; [|done].
    by apply (toString_inj _ 0) in E.
Qed.

(** A failed fill is not atomic: when a same-chain fill carries an amount
    that BigInt cannot read, [createFill] throws without an event but the fill
    stays recorded, and from then on every further fill of that order throws
    too. *)
Theorem unreadable_amount_poisons (k : string) (bad : FillInput) (uuid : string) (now : Z)
    (s : State) (o : Order)
    (Hk : JsMap.get k (orders s) = Some o)
    (Hf : fillable o = true)
    (Hchain : fromChain o = toChain o)
    (Hbad : string_to_bigint (fill_amount bad) = None) :
  exists e s',
    createFill k bad uuid now s = (Throw e, s') /\
    events s' = events s /\
    (exists o', JsMap.get k (orders s') = Some o' /\
       fills o' = (fills o ++ [new_fill bad k uuid now])%list) /\
    forall input uuid' now', exists e', (createFill k input uuid' now' s').1 = Throw e'.
Proof.
  assert (forall (o1 : Order) (s1 : State), fromChain o1 = toChain o1 ->
            (exists f : Fill, f ∈ fills o1 /\ string_to_bigint (fill_amount f) = None) ->
            exists e, account_fills k o1 s1 = (Throw e, s1)) as Hacc.
  { intros o1 s1 Hc (f & Hin & Hb). unfold account_fills, uses_percentages.
    rewrite bool_decide_eq_true_2 by done. simpl.
    destruct (sum_amounts_throws _ _ Hin Hb) as [e He]. unfold bind, lift. rewrite He. by exists e. }
  set (f := new_fill bad k uuid now).
  destruct (Hacc (pushed o f now) (with_orders k (pushed o f now) s)) as [e He]; [done| |].
  { exists f. split; [|done]. cbn. apply elem_of_app. right. by apply list_elem_of_singleton. }
  rewrite (createFill_unfold k bad uuid now s o Hk Hf). fold f. rewrite He.
  exists e, (with_orders k (pushed o f now) s). split_and!; try done.
  { exists (pushed o f now). split; [apply JsMap.get_set_eq|done]. }
  intros input uuid' now'.
  assert (JsMap.get k (orders (with_orders k (pushed o f now) s)) = Some (pushed o f now)) as Hk'
    by apply JsMap.get_set_eq.
  rewrite (createFill_unfold k input uuid' now' _ _ Hk' Hf).
  destruct (Hacc (pushed (pushed o f now) (new_fill input k uuid' now') now')
    (with_orders k (pushed (pushed o f now) (new_fill input k uuid' now') now')
      (with_orders k (pushed o f now) s))) as [e' ->]; [done| |by exists e'].
  exists f. split; [|done]. cbn. rewrite !elem_of_app, list_elem_of_singleton. auto.
Qed.

(** ** Witnesses *)


Definition amount_fill (amount : string) : FillInput := {|
  fill_resolver := "resolver-1"; fill_amount := amount; fill_fillPercentage := None;
  fill_cumulativePercentage := None; fill_secretHash := "0xhash"; fill_secretIndex := None;
  fill_merkleProof := None; fill_merkleIndex := None; fill_partialSecret := None;
  fill_actualEscrowId := None; fill_sourceChainTxHash := None; fill_destChainTxHash := None;
  fill_status := FillPending
|}.

Definition same_chain_dto : CreateOrderDto := {|
  fromChain := ETHEREUM; toChain := ETHEREUM; fromToken := "0xa"; toToken := "0xb";
  fromAmount := "1000"; minToAmount := "900"; maker := "0xMaker"; receiver := "0xr";
  signature := "0xmaker"; deadline := of_Z 2000000000; nonce := "1";
  partialFillAllowed := true; partialFillEnabled := false; secretHash := None;
  secretHashes := None; partialFillSecrets := None; maxParts := None;
  activeResolvers := None; dutchAuction := None; permit := None; permitSignature := None;
  gasless := None; gaslessData := None
|}.

(** A book with the single order [o]. *)
Definition book_of (o : Order) : State :=
  {| orders := [("o1", o)]; ordersByMaker := [("0xMaker", ["o1"])]; events := [] |}.

Definition same_order : Order := new_order same_chain_dto "o1" 5.


Lemma same_chain_fill_accounting_witness :
  exists o',
    createFill "o1" (amount_fill "1500") "f1" 7 (book_of same_order) =
      (Ok (new_fill (amount_fill "1500") "o1" "f1" 7),
       {| orders := JsMap.set "o1" o' [("o1", same_order)];
          ordersByMaker := [("0xMaker", ["o1"])];
          events := [orderFill o' (new_fill (amount_fill "1500") "o1" "f1" 7)] |}) /\
    status o' = PARTIALLY_FILLED.
Proof.
  destruct (same_chain_fill_accounting "o1" (amount_fill "1500") "f1" 7
              (book_of same_order) same_order 1000 [1500])
    as (o' & H1 & _ & _ & _ & H2);
    [reflexivity|reflexivity|reflexivity|reflexivity|lia
    |repeat constructor|].
  exists o'. split; [exact H1|]. apply H2; vm_compute; discriminate.
Defined.

Lemma unreadable_amount_poisons_witness :
  exists e s',
    createFill "o1" (amount_fill "1.5") "f1" 7 (book_of same_order) = (Throw e, s') /\
    events s' = [] /\
    (exists o', JsMap.get "o1" (orders s') = Some o' /\
       fills o' = [new_fill (amount_fill "1.5") "o1" "f1" 7]) /\
    forall input uuid' now', exists e', (createFill "o1" input uuid' now' s').1 = Throw e'.
Proof.
  apply (unreadable_amount_poisons "o1" (amount_fill "1.5") "f1" 7 (book_of same_order) same_order);
    reflexivity.
Defined.
