(* ===== verification/OrderApi.v ===== *)
(** * The order engine's interfaces

    The REST routes of [backend/order-engine/src/api/routes/orders.ts] and the
    socket.io hub of [backend/order-engine/src/websocket/orderSocket.ts], both
    over [OrderService]. A route maps a request to a status code and a body;
    the hub turns service events into broadcasts, relays the resolvers' and
    the frontends' messages and keeps room membership. The zod parser is a
    parameter of the route that calls it. *)

From Stdlib Require Import ZArith Lia.
From stdpp Require Import base numbers list strings gmap.
From S2P Require Import Prelude.
From S2P Require Import JsNumber.
From S2P Require Import JsString.
From S2P Require Import JsMap.
From S2P Require Import PartialFill.
From S2P Require Import Signature.
From S2P Require Import OrderTypes.
From S2P Require Import OrderService.

Local Open Scope string_scope.
Local Open Scope Z_scope.

(** ** REST routes *)

Inductive Body :=
  | DataOrder (o : Order)
  | DataOrders (os : list Order)
  | DataFill (f : Fill)
  | Success
  | Failure (error : string)
  | ValidationFailure.

Record Response := { code : Z; body : Body }.

(** [catch (error)] of a route: every value the service throws is an [Error]. *)
Definition bad_request (e : exn) : Response := {| code := 400; body := Failure (message e) |}.

(** What a route answers with the outcome of a service call. *)
Definition respond {A} (ok : A -> Body) (outcome : result A * State) : Response * State :=
  match outcome with
  | (Ok a, s') => ({| code := 200; body := ok a |}, s')
  | (Throw e, s') => (bad_request e, s')
  end.

Section Routes.
Context `{Ethers, Signing} {Json : Type} (parse : Json -> option CreateOrderDto).

(** [POST /orders]; [parse] is [CreateOrderSchema.parse], [None] a [ZodError]. *)
Definition post_orders (req_body : Json) (uuid : string) (now : Z) (s : State)
    : Response * State :=
  match parse req_body with
  | None => ({| code := 400; body := ValidationFailure |}, s)
  | Some dto => respond DataOrder (createOrder dto uuid now s)
  end.
End Routes.

(** [GET /orders/:orderId] *)
Definition get_order_route (orderId : string) (s : State) : Response :=
  match getOrder orderId s with
  | None => {| code := 404; body := Failure "Order not found" |}
  | Some order => {| code := 200; body := DataOrder order |}
  end.

(** [GET /orders/maker/:maker] *)
Definition get_maker_orders_route (mk : string) (s : State) : Response :=
  {| code := 200; body := DataOrders (getOrdersByMaker mk s) |}.

(** [GET /orders] *)
Definition get_active_orders_route (s : State) : Response :=
  {| code := 200; body := DataOrders (getActiveOrders s) |}.

(** [POST /orders/:orderId/cancel] *)
Definition cancel_route (orderId : string) (mk : option string) (now : Z) (s : State)
    : Response * State :=
  match mk with
  | Some m =>
      if str_truthy m then respond (fun _ => Success) (cancelOrder orderId m now s)
      else ({| code := 400; body := Failure "Maker address required" |}, s)
  | None => ({| code := 400; body := Failure "Maker address required" |}, s)
  end.

(** [POST /orders/:orderId/fills] *)
Definition create_fill_route (orderId : string) (input : FillInput) (uuid : string) (now : Z)
    (s : State) : Response * State :=
  respond DataFill (createFill orderId input uuid now s).

(** [PATCH /orders/:orderId/fills/:fillId] *)
Definition update_fill_route (orderId fillId : string) (st : FillStatus)
    (sourceChainTxHash destChainTxHash : option string) (now : Z) (s : State)
    : Response * State :=
  respond (fun _ => Success)
    (updateFillStatus orderId fillId st
       (Some {| tx_source := sourceChainTxHash; tx_dest := destChainTxHash |}) now s).

(** ** The socket hub *)

(** The payload of a relayed message: the fields the hub reads, and the rest. *)
Record Data := {
  data_orderId : option string;
  data_cumulativePercentage : option number;
  data_rest : string
}.

Inductive Msg :=
  | MOrder (o : Order)
  | MFill (o : Order) (f : Fill)
  | MData (d : Data)
  | MCreated (orderId : string)
  | MError (msg : string).

(** [io.emit], [io.to(room).emit] and [socket.emit]. *)
Inductive Out :=
  | Broadcast (event : string) (m : Msg)
  | ToRoom (room event : string) (m : Msg)
  | ToSocket (socket event : string) (m : Msg).

Definition out_event (o : Out) : string :=
  match o with Broadcast e _ | ToRoom _ e _ | ToSocket _ e _ => e end.

(** The listeners on the service: [orderUpdate] has none. *)
Definition on_service_event (e : Event) : list Out :=
  match e with
  | newOrder o => [Broadcast "order:new" (MOrder o)]
  | orderFill o f => [Broadcast "order:fill" (MFill o f)]
  | fillStatusUpdate o f => [Broadcast "fill:statusUpdate" (MFill o f)]
  | orderCancelled o => [Broadcast "order:cancelled" (MOrder o)]
  | orderExpired o => [Broadcast "order:expired" (MOrder o)]
  | orderUpdate _ => []
  end.

(** The messages relayed to everyone and to the order's room. *)
Inductive RelayEvent :=
  | escrow_destination_created | escrow_source_created | escrow_secretRevealed
  | escrow_source_withdrawn | swap_completed | order_failed | order_signed
  | order_signed_sponsored_v2 | order_signed_sponsored_v3 | order_signed_with_permit
  | secret_request | secret_reveal.

Definition relay_name (e : RelayEvent) : string :=
  match e with
  | escrow_destination_created => "escrow:destination:created"
  | escrow_source_created => "escrow:source:created"
  | escrow_secretRevealed => "escrow:secretRevealed"
  | escrow_source_withdrawn => "escrow:source:withdrawn"
  | swap_completed => "swap:completed"
  | order_failed => "order:failed"
  | order_signed => "order:signed"
  | order_signed_sponsored_v2 => "order:signed:sponsored:v2"
  | order_signed_sponsored_v3 => "order:signed:sponsored:v3"
  | order_signed_with_permit => "order:signed:with:permit"
  | secret_request => "secret:request"
  | secret_reveal => "secret:reveal"
  end.

Definition room_name (e : RelayEvent) : string :=
  match e with
  | escrow_destination_created => "order:escrowCreated"
  | escrow_source_created => "order:sourceEscrowCreated"
  | escrow_secretRevealed => "order:secretRevealed"
  | escrow_source_withdrawn => "order:sourceWithdrawn"
  | swap_completed => "order:completed"
  | order_failed => "order:failed"
  | order_signed => "order:signed"
  | order_signed_sponsored_v2 => "order:signed:sponsored:v2"
  | order_signed_sponsored_v3 => "order:signed:sponsored:v3"
  | order_signed_with_permit => "order:signed:with:permit"
  | secret_request => "secret:request"
  | secret_reveal => "secret:reveal"
  end.

Definition relay (e : RelayEvent) (data : Data) : list Out :=
  Broadcast (relay_name e) (MData data) ::
  match data_orderId data with
  | Some orderId =>
      if str_truthy orderId then [ToRoom ("order:" ++ orderId) (room_name e) (MData data)] else []
  | None => []
  end.

(** The hub: connected sockets, rooms, the service, and what was sent. *)
Record Hub := {
  service : State;
  clients : list string;
  rooms : list (string * string);  (* (room, socket) *)
  sent : list Out
}.

Inductive ClientMsg :=
  | subscribe_order (orderId : string)
  | unsubscribe_order (orderId : string)
  | subscribe_maker (mk : string)
  | unsubscribe_maker (mk : string)
  | subscribe_active
  | relay_msg (e : RelayEvent) (data : Data)
  | partial_fill_created (data : Data)
  | partial_fill_completed (data : Data)
  | order_update (data : Data)
  | order_new (dto : CreateOrderDto) (uuid : string)
  | disconnect.

Definition join (room socket : string) (h : Hub) : Hub :=
  {| service := service h; clients := clients h;
     rooms := if decide ((room, socket) ∈ rooms h) then rooms h else (room, socket) :: rooms h;
     sent := sent h |}.

Definition leave (room socket : string) (h : Hub) : Hub :=
  {| service := service h; clients := clients h;
     rooms := base.filter (fun p => p <> (room, socket)) (rooms h); sent := sent h |}.

Definition send (outs : list Out) (h : Hub) : Hub :=
  {| service := service h; clients := clients h; rooms := rooms h; sent := (sent h ++ outs)%list |}.

(** Running a service operation: its listeners fire for the events it emits,
    in order, before it returns. *)
Definition call_service {A} (m : M A) (h : Hub) : result A * Hub :=
  let '(r, s') := m (service h) in
  let fresh := drop (length (events (service h))) (events s') in
  (r, {| service := s'; clients := clients h; rooms := rooms h;
         sent := (sent h ++ (fresh ≫= on_service_event))%list |}).

Section HubHandlers.
Context `{Ethers, Signing}.

Definition on_partial_fill_created (data : Data) (now : Z) (h : Hub) : Hub :=
  let h1 :=
    match data_orderId data, data_cumulativePercentage data with
    | Some orderId, Some pct =>
        if str_truthy orderId
        then (call_service (updateOrderFilledPercentage orderId pct now) h).2
        else h
    | _, _ => h
    end in
  send [Broadcast "partial:fill:created" (MData data)] h1.

Definition on_order_new (socket : string) (dto : CreateOrderDto) (uuid : string) (now : Z)
    (h : Hub) : Hub :=
  let '(r, h1) := call_service (createOrder dto uuid now) h in
  match r with
  | Ok createdOrder => send [ToSocket socket "order:created" (MCreated (id createdOrder))] h1
  | Throw e => send [ToSocket socket "error" (MError (message e))] h1
  end.

Definition on_message (socket : string) (m : ClientMsg) (now : Z) (h : Hub) : Hub :=
  match m with
  | subscribe_order orderId => join ("order:" ++ orderId) socket h
  | unsubscribe_order orderId => leave ("order:" ++ orderId) socket h
  | subscribe_maker mk => join ("maker:" ++ mk) socket h
  | unsubscribe_maker mk => leave ("maker:" ++ mk) socket h
  | subscribe_active => join "active:orders" socket h
  | relay_msg e data => send (relay e data) h
  | partial_fill_created data => on_partial_fill_created data now h
  | partial_fill_completed data => send [Broadcast "partial:fill:completed" (MData data)] h
  | order_update data => send [Broadcast "order:update" (MData data)] h
  | order_new dto uuid => on_order_new socket dto uuid now h
  | disconnect =>
      {| service := service h;
         clients := base.filter (fun c => c <> socket) (clients h);
         rooms := base.filter (fun p => p.2 <> socket) (rooms h);
         sent := sent h |}
  end.
End HubHandlers.

(** Whether a message sent while the hub is [h] reaches [socket]. *)
Definition reaches (h : Hub) (socket : string) (o : Out) : bool :=
  match o with
  | Broadcast _ _ => bool_decide (socket ∈ clients h)
  | ToRoom room _ _ => bool_decide ((room, socket) ∈ rooms h)
  | ToSocket target _ _ => String.eqb target socket
  end.

(** How many copies of [event] the messages [outs] deliver to [socket]. *)
Definition deliveries (h : Hub) (socket event : string) (outs : list Out) : nat :=
  length (List.filter (fun o => String.eqb (out_event o) event && reaches h socket o) outs).

(** ** Properties *)

Section Properties.
Context `{Ethers, Signing}.

(** Order submission over REST: the route answers 200 with the stored
    order exactly when the body parses, its signature validates and its
    deadline is not past; it answers 400 in every other case and the book is
    then unchanged. *)
Theorem post_orders_outcome {Json} (parse : Json -> option CreateOrderDto)
    (req_body : Json) (uuid : string) (now : Z) (s : State) :
  let r := post_orders parse req_body uuid now s in
  (exists dto, parse req_body = Some dto /\ validateOrderSignature dto = true /\
     gtb (of_Z now) (mul (deadline dto) (of_Z 1000)) = false /\
     r.1 = {| code := 200; body := DataOrder (new_order dto uuid now) |} /\
     getOrder uuid r.2 = Some (new_order dto uuid now) /\
     events r.2 = (events s ++ [newOrder (new_order dto uuid now)])%list) \/
  (code r.1 = 400 /\ r.2 = s /\
   forall dto, parse req_body = Some dto ->
     validateOrderSignature dto = false \/
     gtb (of_Z now) (mul (deadline dto) (of_Z 1000)) = true).
Proof.
  cbn zeta. unfold post_orders. destruct (parse req_body) as [dto|]; [|by right].
  destruct (createOrder_cases dto uuid now s) as [[e He]|He].
  - right. rewrite He. split_and!; [done..|]. intros dto' [= <-]. unfold createOrder in He.
    destruct (validateOrderSignature dto); [|by left].
    destruct (gtb _ _); [by right|done].
  - left. exists dto. rewrite He. unfold createOrder in He.
    destruct (validateOrderSignature dto); [|done].
    destruct (gtb _ _); [done|]. split_and!; try done. apply JsMap.get_set_eq.
Qed.

(** Delivery of relayed messages: a client in the order's room that is
    connected receives a relayed event once under its own name when the room
    copy is renamed, and twice when the hub reuses the name for the room
    (order:failed, order:signed and its variants, secret:request and
    secret:reveal). *)
Theorem relay_deliveries (e : RelayEvent) (data : Data) (orderId socket : string) (h : Hub)
    (Hid : data_orderId data = Some orderId) (Hne : str_truthy orderId = true)
    (Hc : socket ∈ clients h) (Hroom : ("order:" ++ orderId, socket) ∈ rooms h) :
  deliveries h socket (relay_name e) (relay e data) =
    match e with
    | escrow_destination_created | escrow_source_created | escrow_secretRevealed
    | escrow_source_withdrawn | swap_completed => 1%nat
    | _ => 2%nat
    end.
Proof.
  unfold deliveries, relay. rewrite Hid, Hne. cbn [List.filter out_event reaches].
  rewrite !bool_decide_eq_true_2 by done. by destruct e.
Qed.

(** The partial-fill relay: whatever the message holds, exactly one
    broadcast goes out, and the only change to the book is the percentage
    update of the named order; an unknown order is ignored. *)
Theorem partial_fill_relay (data : Data) (now : Z) (h : Hub) (orderId : string) (pct : number)
    (Hid : data_orderId data = Some orderId) (Hne : str_truthy orderId = true)
    (Hpct : data_cumulativePercentage data = Some pct) :
  let h' := on_partial_fill_created data now h in
  sent h' = (sent h ++ [Broadcast "partial:fill:created" (MData data)])%list /\
  service h' =
    match getOrder orderId (service h) with
    | None => service h
    | Some o => (updateOrderFilledPercentage orderId pct now (service h)).2
    end.
Proof.
  intros h'. subst h'. unfold on_partial_fill_created. rewrite Hid, Hpct, Hne.
  unfold getOrder. destruct (JsMap.get orderId (orders (service h))) as [o|] eqn:Hk.
  - unfold call_service. rewrite (updateOrderFilledPercentage_eq _ _ _ _ _ Hk).
    cbn [snd send sent service events]. rewrite drop_app_length. cbn [mbind list_bind].
    simpl. by rewrite app_nil_r.
  - unfold call_service, updateOrderFilledPercentage, find_order, bind. rewrite Hk.
    cbn [snd send sent service]. rewrite drop_all. simpl. by rewrite app_nil_r.
Qed.
End Properties.

(** ** Witnesses *)

Definition sample_data : Data :=
  {| data_orderId := Some "o1"; data_cumulativePercentage := Some (of_Z 50); data_rest := "" |}.

Definition sample_hub : Hub :=
  {| service := initial; clients := ["c1"]; rooms := [("order:o1", "c1")]; sent := [] |}.

Lemma relay_deliveries_witness :
  deliveries sample_hub "c1" "secret:reveal" (relay secret_reveal sample_data) = 2%nat.
Proof.
  apply (relay_deliveries secret_reveal sample_data "o1" "c1" sample_hub);
    [reflexivity|reflexivity|by left|by left].
Defined.

Lemma partial_fill_relay_witness :
  sent (on_partial_fill_created sample_data 3 sample_hub) =
    [Broadcast "partial:fill:created" (MData sample_data)].
Proof.
  apply (partial_fill_relay sample_data 3 sample_hub "o1" (of_Z 50)); reflexivity.
Defined.
