(* ===== verification/Async.v ===== *)
(** * Asynchronous handlers

    The meaning of an [async] function: a tree of reads and writes
    of the object's fields, of awaited calls to the outside (each answered by a
    value or a thrown error) and of messages sent without waiting. Three
    readings of a tree are given: [run], against an oracle that answers the
    calls; [wp], for every answer; and a pool of handlers interleaved at their
    awaits, the way the event loop runs them. *)

From Stdlib Require Import ZArith Lia.
From stdpp Require Import base numbers list strings relations.
From S2P Require Import Prelude.
From S2P Require Import JsString.

(** What a component asks of the outside: requests with the type of their
    answers, and one-way messages. *)
Record Interface := {
  Req : Type;
  ans : Req -> Type;
  Out : Type
}.

Section Prog.
Context {I : Interface} {S : Type}.

Inductive prog (A : Type) : Type :=
  | Ret (a : A)
  | Fail (e : exn)
  | Get (k : S -> prog A)
  | Put (s : S) (k : prog A)
  | Tell (o : Out I) (k : prog A)
  | Now (k : Z -> prog A)
  | Call (r : Req I) (k : result (ans I r) -> prog A).

(** What happened, in order. *)
Inductive Ev :=
  | Told (o : Out I)
  | Called (r : Req I) (x : result (ans I r)).
End Prog.

Arguments prog : clear implicits.
Arguments Ev : clear implicits.
Arguments Ret {I S A} a.
Arguments Fail {I S A} e.
Arguments Get {I S A} k.
Arguments Put {I S A} s k.
Arguments Tell {I S A} o k.
Arguments Now {I S A} k.
Arguments Call {I S A} r k.
Arguments Told {I} o.
Arguments Called {I} r x.

Section Combinators.
Context {I : Interface} {S : Type}.

Fixpoint pbind {A B} (m : prog I S A) (k : A -> prog I S B) : prog I S B :=
  match m with
  | Ret a => k a
  | Fail e => Fail e
  | Get f => Get (fun s => pbind (f s) k)
  | Put s p => Put s (pbind p k)
  | Tell o p => Tell o (pbind p k)
  | Now f => Now (fun t => pbind (f t) k)
  | Call r f => Call r (fun x => pbind (f x) k)
  end.

(** [try { m } catch (e) { h e }] *)
Fixpoint try_catch {A} (m : prog I S A) (h : exn -> prog I S A) : prog I S A :=
  match m with
  | Ret a => Ret a
  | Fail e => h e
  | Get f => Get (fun s => try_catch (f s) h)
  | Put s p => Put s (try_catch p h)
  | Tell o p => Tell o (try_catch p h)
  | Now f => Now (fun t => try_catch (f t) h)
  | Call r f => Call r (fun x => try_catch (f x) h)
  end.

Definition of_result {A} (r : result A) : prog I S A :=
  match r with Ok a => Ret a | Throw e => Fail e end.

(** [await] of an outside call: a rejection is thrown at the call. *)
Definition await (r : Req I) : prog I S (ans I r) := Call r of_result.

(** [Date.now()], in milliseconds: read, not awaited. *)
Definition now : prog I S Z := Now Ret.

Definition tell (o : Out I) : prog I S unit := Tell o (Ret tt).
Definition get : prog I S S := Get Ret.
Definition put (s : S) : prog I S unit := Put s (Ret tt).
Definition modify (f : S -> S) : prog I S unit := Get (fun s => Put (f s) (Ret tt)).

(** [try { m } catch (e) { log; throw e }] *)
Definition rethrowing {A} (m : prog I S A) : prog I S A := try_catch m Fail.

(** A call of an async function that is not awaited, followed by [k]: the
    callee runs up to its first await, then [k] runs, then the rest of the
    callee when its answers arrive. *)
Fixpoint detached {A} (m : prog I S A) (k : prog I S unit) : prog I S A :=
  match m with
  | Get f => Get (fun s => detached (f s) k)
  | Put s p => Put s (detached p k)
  | Tell o p => Tell o (detached p k)
  | Now f => Now (fun t => detached (f t) k)
  | p => pbind k (fun _ => p)
  end.
End Combinators.

Declare Scope prog_scope.
Delimit Scope prog_scope with prog.
Notation "x <- m ; k" := (pbind m (fun x => k))
  (at level 100, m at next level, right associativity) : prog_scope.
Notation "m ;; k" := (pbind m (fun _ => k))
  (at level 100, right associativity) : prog_scope.

(** ** One handler against an oracle *)

Section Run.
Context {I : Interface} {S : Type}.

(** The answer to a call, and the clock, may depend on everything that
    happened before. *)
Record Oracle := {
  answer : list (Ev I) -> forall r : Req I, result (ans I r);
  clock : list (Ev I) -> Z
}.

Fixpoint run (O : Oracle) {A} (p : prog I S A) (s : S) (h : list (Ev I))
    : result A * S * list (Ev I) :=
  match p with
  | Ret a => (Ok a, s, h)
  | Fail e => (Throw e, s, h)
  | Get k => run O (k s) s h
  | Put s' k => run O k s' h
  | Tell o k => run O k s (h ++ [Told o])
  | Now k => run O (k (clock O h)) s h
  | Call r k => let x := answer O h r in run O (k x) s (h ++ [Called r x])
  end.

(** ** Every answer *)

(** [Q] holds at the end whatever the calls answer. *)
Fixpoint wp {A} (p : prog I S A) (Q : result A -> S -> list (Ev I) -> Prop)
    (s : S) (h : list (Ev I)) : Prop :=
  match p with
  | Ret a => Q (Ok a) s h
  | Fail e => Q (Throw e) s h
  | Get k => wp (k s) Q s h
  | Put s' k => wp k Q s' h
  | Tell o k => wp k Q s (h ++ [Told o])
  | Now k => forall t, wp (k t) Q s h
  | Call r k => forall x, wp (k x) Q s (h ++ [Called r x])
  end.

Lemma wp_run O {A} (p : prog I S A) Q s h :
  wp p Q s h -> Q (run O p s h).1.1 (run O p s h).1.2 (run O p s h).2.
Proof.
  revert s h. induction p as [a|e|k IH|s' p IH|o p IH|k IH|r k IH]; intros s h Hw; simpl in *; auto.
Qed.

Lemma wp_mono {A} (p : prog I S A) (Q Q' : result A -> S -> list (Ev I) -> Prop) s h :
  (forall r s' h', Q r s' h' -> Q' r s' h') -> wp p Q s h -> wp p Q' s h.
Proof.
  intros HQ. revert s h.
  induction p as [a|e|k IH|s' p IH|o p IH|k IH|r k IH]; intros s h; simpl; eauto.
Qed.

Lemma wp_and {A} (p : prog I S A) (Q1 Q2 : result A -> S -> list (Ev I) -> Prop) s h :
  wp p Q1 s h -> wp p Q2 s h -> wp p (fun r s' h' => Q1 r s' h' /\ Q2 r s' h') s h.
Proof.
  revert s h. induction p as [a|e|k IH|s' p IH|o p IH|k IH|r k IH]; intros s h; simpl; auto.
Qed.

Lemma wp_bind {A B} (m : prog I S A) (k : A -> prog I S B) Q s h :
  wp (pbind m k) Q s h <->
  wp m (fun r s' h' => match r with Ok a => wp (k a) Q s' h' | Throw e => Q (Throw e) s' h' end)
     s h.
Proof.
  revert s h. induction m as [a|e|f IH|s' p IH|o p IH|f IH|r f IH]; intros s h; simpl; auto.
  all: split; intros Hx x; apply IH, Hx.
Qed.

Lemma wp_try {A} (m : prog I S A) (c : exn -> prog I S A) Q s h :
  wp (try_catch m c) Q s h <->
  wp m (fun r s' h' => match r with Ok a => Q (Ok a) s' h' | Throw e => wp (c e) Q s' h' end)
     s h.
Proof.
  revert s h. induction m as [a|e|f IH|s' p IH|o p IH|f IH|r f IH]; intros s h; simpl; auto.
  all: split; intros Hx x; apply IH, Hx.
Qed.

Lemma wp_of_result {A} (r : result A) Q s h :
  wp (of_result r) Q s h <-> Q r s h.
Proof. by destruct r. Qed.

Lemma wp_await r Q s h :
  wp (await r) Q s h <-> forall x, Q x s (h ++ [Called r x]).
Proof. simpl. by setoid_rewrite wp_of_result. Qed.

(** Everything that holds of every end holds of the history it extends. *)
Lemma wp_extends {A} (p : prog I S A) s h :
  wp p (fun _ _ h' => exists l, h' = h ++ l) s h.
Proof.
  assert (forall s h0, (exists l, h0 = h ++ l) -> wp p (fun _ _ h' => exists l, h' = h ++ l) s h0)
    as Hg; [|apply Hg; exists []; by rewrite app_nil_r].
  clear s. induction p as [a|e|k IH|s' p IH|o p IH|k IH|r k IH]; intros s h0 [l ->]; simpl; eauto.
  - apply IH. exists (l ++ [Told o]). by rewrite app_assoc.
  - intros x. apply IH. exists (l ++ [Called r x]). by rewrite app_assoc.
Qed.

(** ** Invariants of a handler *)

(** [J], on fields and history, holds at the end whenever it held at the
    start, whatever the calls answer. *)
Definition holds (J : S -> list (Ev I) -> Prop) {A} (p : prog I S A) : Prop :=
  forall s h, J s h -> wp p (fun _ s' h' => J s' h') s h.

Section Holds.
Context (J : S -> list (Ev I) -> Prop).

Lemma holds_ret {A} (a : A) : holds J (Ret a).
Proof. by intros s h HJ. Qed.

Lemma holds_fail {A} e : holds J (Fail e : prog I S A).
Proof. by intros s h HJ. Qed.

Lemma holds_of_result {A} (r : result A) : holds J (of_result r).
Proof. destruct r; [apply holds_ret|apply holds_fail]. Qed.

Lemma holds_bind {A B} (m : prog I S A) (k : A -> prog I S B) :
  holds J m -> (forall a, holds J (k a)) -> holds J (pbind m k).
Proof.
  intros Hm Hk s h HJ. apply wp_bind. eapply wp_mono; [|by apply Hm].
  intros [a|e] s' h' HJ'; [by apply Hk|done].
Qed.

Lemma holds_try {A} (m : prog I S A) (c : exn -> prog I S A) :
  holds J m -> (forall e, holds J (c e)) -> holds J (try_catch m c).
Proof.
  intros Hm Hc s h HJ. apply wp_try. eapply wp_mono; [|by apply Hm].
  intros [a|e] s' h' HJ'; [done|by apply Hc].
Qed.

Lemma holds_rethrowing {A} (m : prog I S A) : holds J m -> holds J (rethrowing m).
Proof. intros Hm. apply holds_try; [done|]. intros e. apply holds_fail. Qed.

Lemma holds_call {A} r (k : result (ans I r) -> prog I S A) :
  (forall s h x, J s h -> J s (h ++ [Called r x])) -> (forall x, holds J (k x)) ->
  holds J (Call r k).
Proof. intros Hr Hk s h HJ x. apply Hk. by apply Hr. Qed.

Lemma holds_tell o : (forall s h, J s h -> J s (h ++ [Told o])) -> holds J (tell o).
Proof. intros Ho s h HJ. by apply Ho. Qed.

Lemma holds_get : holds J get.
Proof. by intros s h HJ. Qed.

Lemma holds_now : holds J now.
Proof. by intros s h HJ t. Qed.

Lemma holds_modify f : (forall s h, J s h -> J (f s) h) -> holds J (modify f).
Proof. intros Hf s h HJ. by apply Hf. Qed.

(** The same for programs already reduced to their first step. *)
Lemma holds_raw_get {A} (k : S -> prog I S A) : (forall s, holds J (k s)) -> holds J (Get k).
Proof. intros Hk s h HJ. by apply Hk. Qed.

Lemma holds_raw_put {A} s' (k : prog I S A) :
  (forall s h, J s h -> J s' h) -> holds J k -> holds J (Put s' k).
Proof. intros Hs Hk s h HJ. eapply Hk, Hs, HJ. Qed.

Lemma holds_raw_tell {A} o (k : prog I S A) :
  (forall s h, J s h -> J s (h ++ [Told o])) -> holds J k -> holds J (Tell o k).
Proof. intros Ho Hk s h HJ. by apply Hk, Ho. Qed.

Lemma holds_raw_now {A} (k : Z -> prog I S A) : (forall t, holds J (k t)) -> holds J (Now k).
Proof. intros Hk s h HJ t. by apply Hk. Qed.
End Holds.

(** [run] goes through the combinators. *)
Lemma run_bind O {A B} (m : prog I S A) (k : A -> prog I S B) s h :
  run O (pbind m k) s h =
    match run O m s h with
    | (Ok a, s', h') => run O (k a) s' h'
    | (Throw e, s', h') => (Throw e, s', h')
    end.
Proof.
  revert s h. induction m as [a|e|f IH|s' p IH|o p IH|f IH|r f IH]; intros s h; simpl; auto.
Qed.

Lemma run_try O {A} (m : prog I S A) (c : exn -> prog I S A) s h :
  run O (try_catch m c) s h =
    match run O m s h with
    | (Ok a, s', h') => (Ok a, s', h')
    | (Throw e, s', h') => run O (c e) s' h'
    end.
Proof.
  revert s h. induction m as [a|e|f IH|s' p IH|o p IH|f IH|r f IH]; intros s h; simpl; auto.
Qed.

Lemma run_of_result O {A} (x : result A) (s : S) h : run O (of_result x) s h = (x, s, h).
Proof. by destruct x. Qed.

Lemma run_await O r (s : S) h :
  run O (await r) s h = (answer O h r, s, h ++ [Called r (answer O h r)]).
Proof. simpl. by rewrite run_of_result. Qed.

(** ** The event loop *)

(** Runs up to the next await (or the end): the part of a handler that no
    other handler can interrupt. *)
Fixpoint advance {A} (t : Z) (p : prog I S A) (s : S) (h : list (Ev I))
    : prog I S A * S * list (Ev I) :=
  match p with
  | Get k => advance t (k s) s h
  | Put s' k => advance t k s' h
  | Tell o k => advance t k s (h ++ [Told o])
  | Now k => advance t (k t) s h
  | p => (p, s, h)
  end.

Record Pool (A : Type) := {
  handlers : list (prog I S A);
  fields : S;
  log : list (Ev I)
}.
Arguments handlers {A}.
Arguments fields {A}.
Arguments log {A}.

(** A handler starts, or the answer to the call a handler waits for arrives. *)
Inductive pool_step {A} (w : Pool A) : Pool A -> Prop :=
  | pool_start t p p' s' h' :
      advance t p (fields w) (log w) = (p', s', h') ->
      pool_step w {| handlers := handlers w ++ [p']; fields := s'; log := h' |}
  | pool_answer t i r k x p' s' h' :
      handlers w !! i = Some (Call r k) ->
      advance t (k x) (fields w) (log w ++ [Called r x]) = (p', s', h') ->
      pool_step w {| handlers := <[i := p']> (handlers w); fields := s'; log := h' |}.
(** ** Invariants under interleaving *)

(** Every write of the program keeps [J], whatever it reads. *)
Fixpoint stable (J : S -> Prop) {A} (p : prog I S A) : Prop :=
  match p with
  | Ret _ | Fail _ => True
  | Get k => forall s, J s -> stable J (k s)
  | Put s k => J s /\ stable J k
  | Tell _ k => stable J k
  | Now k => forall t, stable J (k t)
  | Call _ k => forall x, stable J (k x)
  end.

Lemma stable_bind J {A B} (m : prog I S A) (k : A -> prog I S B) :
  stable J m -> (forall a, stable J (k a)) -> stable J (pbind m k).
Proof.
  intros Hm Hk. induction m as [a|e|f IH|s p IH|o p IH|f IH|r f IH]; simpl in *; auto.
  destruct Hm. auto.
Qed.

Lemma stable_try J {A} (m : prog I S A) (c : exn -> prog I S A) :
  stable J m -> (forall e, stable J (c e)) -> stable J (try_catch m c).
Proof.
  intros Hm Hc. induction m as [a|e|f IH|s p IH|o p IH|f IH|r f IH]; simpl in *; auto.
  destruct Hm. auto.
Qed.

Lemma stable_detached J {A} (m : prog I S A) (k : prog I S unit) :
  stable J m -> stable J k -> stable J (detached m k).
Proof.
  intros Hm Hk. induction m as [a|e|f IH|s p IH|o p IH|f IH|r f IH]; simpl in *; auto;
    try (apply stable_bind; [done|]; intros _; done). destruct Hm. auto.
Qed.

Lemma stable_of_result J {A} (r : result A) : stable J (of_result r).
Proof. by destruct r. Qed.

Lemma stable_await J r : stable J (await r).
Proof. intros x. apply stable_of_result. Qed.

Lemma stable_modify (J : S -> Prop) f : (forall s, J s -> J (f s)) -> stable J (modify f).
Proof. intros Hf s HJ. simpl. auto. Qed.

Lemma advance_stable (J : S -> Prop) {A} t (p : prog I S A) s h :
  stable J p -> J s ->
  stable J (advance t p s h).1.1 /\ J (advance t p s h).1.2.
Proof.
  revert s h. induction p as [a|e|k IH|s' p IH|o p IH|k IH|r k IH]; intros s h Hp HJ;
    simpl in *; auto. destruct Hp. auto.
Qed.

(** Rely and guarantee: at every await of [p] the fields satisfy [J], whatever
    other handlers write in between as long as they keep [J]; at the end the
    outcome satisfies [Q]. *)
Fixpoint guards (J : S -> Prop) {A} (p : prog I S A) (Q : result A -> S -> Prop) (s : S) : Prop :=
  match p with
  | Ret a => Q (Ok a) s
  | Fail e => Q (Throw e) s
  | Get k => guards J (k s) Q s
  | Put s' k => guards J k Q s'
  | Tell _ k => guards J k Q s
  | Now k => forall t, guards J (k t) Q s
  | Call _ k => J s /\ forall x s', J s' -> guards J (k x) Q s'
  end.

Lemma guards_mono J {A} (p : prog I S A) (Q Q' : result A -> S -> Prop) s :
  (forall r s', Q r s' -> Q' r s') -> guards J p Q s -> guards J p Q' s.
Proof.
  intros HQ. revert s. induction p as [a|e|k IH|s' p IH|o p IH|k IH|r k IH]; intros s; simpl; auto.
  intros [HJ Hk]. split; [done|]. intros x s' Hs'. by apply IH, Hk.
Qed.

Lemma guards_bind J {A B} (m : prog I S A) (k : A -> prog I S B) Q s :
  guards J m (fun r s' => match r with Ok a => guards J (k a) Q s' | Throw e => Q (Throw e) s' end) s ->
  guards J (pbind m k) Q s.
Proof.
  revert s. induction m as [a|e|f IH|s' p IH|o p IH|f IH|r f IH]; intros s; simpl; auto.
  intros [HJ Hk]. split; [done|]. intros x s' Hs'. by apply IH, Hk.
Qed.

Lemma guards_stable J {A} (p : prog I S A) s :
  stable J p -> J s -> guards J p (fun _ s' => J s') s.
Proof.
  revert s. induction p as [a|e|k IH|s' p IH|o p IH|k IH|r k IH]; intros s Hp HJ; simpl in *; auto.
  - destruct Hp. auto.
Qed.

(** No error escapes. *)
Fixpoint no_throw {A} (p : prog I S A) : Prop :=
  match p with
  | Ret _ => True
  | Fail _ => False
  | Get k => forall s, no_throw (k s)
  | Put _ k | Tell _ k => no_throw k
  | Now k => forall t, no_throw (k t)
  | Call _ k => forall x, no_throw (k x)
  end.

Lemma no_throw_try {A} (m : prog I S A) (c : exn -> prog I S A) :
  (forall e, no_throw (c e)) -> no_throw (try_catch m c).
Proof.
  intros Hc. induction m as [a|e|f IH|s p IH|o p IH|f IH|r f IH]; simpl; auto.
Qed.

Lemma no_throw_bind {A B} (m : prog I S A) (k : A -> prog I S B) :
  no_throw m -> (forall a, no_throw (k a)) -> no_throw (pbind m k).
Proof.
  intros Hm Hk. induction m as [a|e|f IH|s p IH|o p IH|f IH|r f IH]; simpl in *; auto.
Qed.

Lemma guards_no_throw J {A} (p : prog I S A) s :
  stable J p -> no_throw p -> J s -> guards J p (fun r s' => (exists a, r = Ok a) /\ J s') s.
Proof.
  revert s. induction p as [a|e|k IH|s' p IH|o p IH|k IH|r k IH]; intros s Hp Ht HJ;
    simpl in *; eauto; try done. destruct Hp. auto.
Qed.

(** Steps of the loop in which only programs of the class [P] start. *)
Inductive step_of {A} (P : prog I S A -> Prop) (w : Pool A) : Pool A -> Prop :=
  | step_start t p p' s' h' :
      P p -> advance t p (fields w) (log w) = (p', s', h') ->
      step_of P w {| handlers := handlers w ++ [p']; fields := s'; log := h' |}
  | step_answer t i r k x p' s' h' :
      handlers w !! i = Some (Call r k) ->
      advance t (k x) (fields w) (log w ++ [Called r x]) = (p', s', h') ->
      step_of P w {| handlers := <[i := p']> (handlers w); fields := s'; log := h' |}.

(** An invariant of the fields that every handler keeps holds whatever the
    interleaving. *)
Lemma pool_invariant (J : S -> Prop) {A} (P : prog I S A -> Prop) (w w' : Pool A) :
  (forall p, P p -> stable J p) ->
  rtc (step_of P) w w' -> J (fields w) -> Forall (stable J) (handlers w) ->
  J (fields w').
Proof.
  intros HP Hsteps. induction Hsteps as [w|w1 w2 w3 Hs _ IH]; intros HJ HF; [done|].
  apply IH; destruct Hs as [t p p' s' h' Hp Ha|t i r k x p' s' h' Hi Ha]; simpl in *.
  - pose proof (advance_stable J t p (fields w1) (log w1) (HP _ Hp) HJ) as [_ Hj].
    by rewrite Ha in Hj.
  - pose proof (proj1 (Forall_lookup _ _) HF _ _ Hi x) as Hk.
    pose proof (advance_stable J t (k x) (fields w1) (log w1 ++ [Called r x]) Hk HJ) as [_ Hj].
    by rewrite Ha in Hj.
  - pose proof (advance_stable J t p (fields w1) (log w1) (HP _ Hp) HJ) as [Hst _].
    rewrite Ha in Hst. apply Forall_app. split; [done|]. by apply Forall_singleton.
  - pose proof (proj1 (Forall_lookup _ _) HF _ _ Hi x) as Hk.
    pose proof (advance_stable J t (k x) (fields w1) (log w1 ++ [Called r x]) Hk HJ) as [Hst _].
    rewrite Ha in Hst. by apply Forall_insert.
Qed.

(** ** Invariants of the fields and of the history under interleaving *)

(** At every await and at the end of [p] the fields and the history satisfy
    [J], whatever other handlers did in between as long as they kept [J]. *)
Fixpoint keeps (J : S -> list (Ev I) -> Prop) {A} (p : prog I S A) (s : S) (h : list (Ev I))
    : Prop :=
  match p with
  | Ret _ | Fail _ => J s h
  | Get k => keeps J (k s) s h
  | Put s' k => keeps J k s' h
  | Tell o k => keeps J k s (h ++ [Told o])
  | Now k => forall t, keeps J (k t) s h
  | Call r k => J s h /\ forall x s' h', J s' h' -> keeps J (k x) s' (h' ++ [Called r x])
  end.

(** What is left of a handler that waits. *)
Definition waits (J : S -> list (Ev I) -> Prop) {A} (p : prog I S A) : Prop :=
  match p with
  | Call r k => forall x s h, J s h -> keeps J (k x) s (h ++ [Called r x])
  | _ => True
  end.

Lemma keeps_bind J {A B} (m : prog I S A) (k : A -> prog I S B) s h :
  keeps J m s h -> (forall a s' h', J s' h' -> keeps J (k a) s' h') -> keeps J (pbind m k) s h.
Proof.
  revert s h. induction m as [a|e|f IH|s' p IH|o p IH|f IH|r f IH]; intros s h Hm Hk;
    simpl in *; auto.
  destruct Hm as [HJ Hx]. split; [done|]. intros x s' h' HJ'. apply IH; auto.
Qed.

Lemma keeps_try J {A} (m : prog I S A) (c : exn -> prog I S A) s h :
  keeps J m s h -> (forall e s' h', J s' h' -> keeps J (c e) s' h') -> keeps J (try_catch m c) s h.
Proof.
  revert s h. induction m as [a|e|f IH|s' p IH|o p IH|f IH|r f IH]; intros s h Hm Hc;
    simpl in *; auto.
  destruct Hm as [HJ Hx]. split; [done|]. intros x s' h' HJ'. apply IH; auto.
Qed.

Lemma keeps_of_result (J : S -> list (Ev I) -> Prop) {A} (r : result A) s h :
  J s h -> keeps J (of_result r) s h.
Proof. by destruct r. Qed.

(** A call whose event does not matter to [J]. *)
Lemma keeps_await (J : S -> list (Ev I) -> Prop) r s h :
  (forall s' h' x, J s' h' -> J s' (h' ++ [Called r x])) -> J s h -> keeps J (await r) s h.
Proof. intros HC HJ. simpl. split; [done|]. intros x s' h' HJ'. by apply keeps_of_result, HC. Qed.

Lemma advance_keeps J {A} t (p : prog I S A) s h :
  keeps J p s h ->
  waits J (advance t p s h).1.1 /\ J (advance t p s h).1.2 (advance t p s h).2.
Proof.
  revert s h. induction p as [a|e|k IH|s' p IH|o p IH|k IH|r k IH]; intros s h Hp; simpl in *; auto.
  destruct Hp. auto.
Qed.

Lemma pool_history_invariant (J : S -> list (Ev I) -> Prop) {A} (P : prog I S A -> Prop)
    (w w' : Pool A) :
  (forall p s h, P p -> J s h -> keeps J p s h) ->
  rtc (step_of P) w w' -> J (fields w) (log w) -> Forall (waits J) (handlers w) ->
  J (fields w') (log w').
Proof.
  intros HP Hsteps. induction Hsteps as [w|w1 w2 w3 Hs _ IH]; intros HJ HF; [done|].
  assert (exists p' t q s h, keeps J q s h /\ advance t q s h = (p', fields w2, log w2) /\
            (handlers w2 = handlers w1 ++ [p'] \/ exists i, handlers w2 = <[i := p']> (handlers w1)))
    as (p' & t & q & s & h & Hk & Ha & Hh).
  { destruct Hs as [t p p' s' h' Hp Ha|t i r k x p' s' h' Hi Ha]; simpl.
    - exists p', t, p, (fields w1), (log w1). auto.
    - exists p', t, (k x), (fields w1), (log w1 ++ [Called r x]).
      split_and!; [|done|eauto]. by apply (proj1 (Forall_lookup _ _) HF _ _ Hi). }
  pose proof (advance_keeps J t q s h Hk) as [Hw Hj]. rewrite Ha in Hw, Hj. simpl in *.
  apply IH; [done|]. destruct Hh as [->|[i ->]].
  - apply Forall_app. split; [done|by apply Forall_singleton].
  - by apply Forall_insert.
Qed.
End Run.

(** Decompose a stability goal along the program. *)
Ltac stable_step :=
  match goal with
  | |- stable _ (Ret _) => exact Logic.I
  | |- stable _ (Fail _) => exact Logic.I
  | |- stable _ (of_result _) => apply stable_of_result
  | |- stable _ (await _) => unfold await; cbn [stable]; intros ?; apply stable_of_result
  | |- stable _ (pbind _ _) => apply stable_bind; [|intros ?]
  | |- stable _ (try_catch _ _) => apply stable_try; [|intros ?]
  | |- stable _ (detached _ _) => apply stable_detached
  | |- stable _ (rethrowing _) => unfold rethrowing; apply stable_try; [|intros ?]
  | |- stable _ (modify _) => apply stable_modify
  | |- stable _ (tell _) => exact Logic.I
  | |- stable _ get => intros ? _; exact Logic.I
  | |- stable _ now => intros ?; exact Logic.I
  | |- stable _ (Call _ _) => cbn [stable]; intros ?
  | |- stable _ (match ?x with _ => _ end) => destruct x
  end.

(** Decompose a goal [keeps J p s h]. *)
Ltac keeps_step :=
  match goal with
  | |- keeps _ (Ret _) _ _ => assumption
  | |- keeps _ (Fail _) _ _ => assumption
  | |- keeps _ (of_result _) _ _ => apply keeps_of_result; assumption
  | |- keeps ?J (await ?r) ?s ?h => refine (keeps_await J r s h _ _); [|assumption]
  | |- keeps _ (pbind _ _) _ _ => apply keeps_bind; [|intros ? ? ? ?]
  | |- keeps _ (try_catch _ _) _ _ => apply keeps_try; [|intros ? ? ? ?]
  | |- keeps _ (rethrowing _) _ _ => unfold rethrowing; apply keeps_try; [|intros ? ? ? ?]
  | |- keeps _ get _ _ => assumption
  | |- keeps _ now _ _ => intros ?; assumption
  | |- keeps _ (match ?x with _ => _ end) _ _ => destruct x
  end.

Arguments Pool : clear implicits.
Arguments handlers {I S A}.
Arguments fields {I S A}.
Arguments log {I S A}.
Arguments Oracle : clear implicits.
Arguments answer {I}.
Arguments clock {I}.

#[export] Hint Resolve holds_ret holds_fail holds_of_result holds_get holds_now : fusion.

(** Decompose an invariant goal along the program. *)
Ltac holds_step :=
  match goal with
  | |- holds _ (Ret _) => apply holds_ret
  | |- holds _ (Fail _) => apply holds_fail
  | |- holds _ (of_result _) => apply holds_of_result
  | |- holds _ get => apply holds_get
  | |- holds _ now => apply holds_now
  | |- holds _ (pbind _ _) => apply holds_bind; [|intros ?]
  | |- holds _ (try_catch _ _) => apply holds_try; [|intros ?]
  | |- holds _ (rethrowing _) => apply holds_rethrowing
  | |- holds _ (modify _) => apply holds_modify
  | |- holds _ (tell _) => apply holds_tell
  | |- holds _ (await _) => unfold await; apply holds_call; [|intros ?]
  | |- holds _ (Call _ _) => apply holds_call; [|intros ?]
  | |- holds _ (Get _) => apply holds_raw_get; intros ?
  | |- holds _ (Put _ _) => apply holds_raw_put
  | |- holds _ (Tell _ _) => apply holds_raw_tell
  | |- holds _ (Now _) => apply holds_raw_now; intros ?
  | |- holds _ (match ?x with _ => _ end) => destruct x
  end.

(** Symbolic execution of a [wp] goal: compute to the next call and split on
    its answer. *)
Ltac wp_norm := cbn [wp pbind try_catch await of_result tell get put modify now rethrowing].
Ltac wp_call x e := wp_norm; intros [x|e]; wp_norm.
