(* ===== verification/Lockstep.v ===== *)
(** * Two runs side by side

    When nothing that a program does outside depends on a part of its state:
    two programs run in lockstep up to a relation on their states if they make
    the same calls and send the same messages, in the same order, as long as the
    outside answers them alike. It is the relation behind the secrecy of the
    swap page. *)

From stdpp Require Import base numbers list strings.
From S2P Require Import Prelude.
From S2P Require Import JsString.
From S2P Require Import Async.

Section Lockstep.
Context {I : Interface} {S : Type} (R : S -> S -> Prop).

Inductive lockstep {A : Type} : prog I S A -> prog I S A -> Prop :=
  | ls_ret a : lockstep (Ret a) (Ret a)
  | ls_fail e : lockstep (Fail e) (Fail e)
  | ls_get f g : (forall s t, R s t -> lockstep (f s) (g t)) -> lockstep (Get f) (Get g)
  | ls_put s t p q : R s t -> lockstep p q -> lockstep (Put s p) (Put t q)
  | ls_tell o p q : lockstep p q -> lockstep (Tell o p) (Tell o q)
  | ls_now f g : (forall t, lockstep (f t) (g t)) -> lockstep (Now f) (Now g)
  | ls_call r f g : (forall x, lockstep (f x) (g x)) -> lockstep (Call r f) (Call r g).

Lemma lockstep_bind {A B} (m n : prog I S A) (k l : A -> prog I S B) :
  lockstep m n -> (forall a, lockstep (k a) (l a)) -> lockstep (pbind m k) (pbind n l).
Proof. intros Hm Hk. induction Hm; simpl; auto using @lockstep. Qed.

Lemma lockstep_try {A} (m n : prog I S A) (c d : exn -> prog I S A) :
  lockstep m n -> (forall e, lockstep (c e) (d e)) -> lockstep (try_catch m c) (try_catch n d).
Proof. intros Hm Hc. induction Hm; simpl; auto using @lockstep. Qed.

Lemma lockstep_of_result {A} (x : result A) : lockstep (of_result x) (of_result x).
Proof. destruct x; constructor. Qed.

Lemma lockstep_tell (o : Out I) : lockstep (tell o) (tell o).
Proof. repeat constructor. Qed.

Lemma lockstep_now : lockstep now now.
Proof. repeat constructor. Qed.

Lemma lockstep_modify (f g : S -> S) :
  (forall s t, R s t -> R (f s) (g t)) -> lockstep (modify f) (modify g).
Proof. intros Hf. constructor. intros s t Hst. constructor; [by apply Hf|constructor]. Qed.

(** A read of the state: what follows may use two related states. *)
Lemma lockstep_get {B} (k l : S -> prog I S B) :
  (forall s t, R s t -> lockstep (k s) (l t)) -> lockstep (pbind get k) (pbind get l).
Proof. intros Hk. by constructor. Qed.

(** What an observer of two runs sees is the same: the result, and every call
    and message with its content. *)
Lemma lockstep_run (O : Oracle I) {A} (m n : prog I S A) s t h :
  lockstep m n -> R s t ->
  (run O m s h).1.1 = (run O n t h).1.1 /\ (run O m s h).2 = (run O n t h).2 /\
  R (run O m s h).1.2 (run O n t h).1.2.
Proof.
  intros Hm. revert s t h. induction Hm; intros s0 t0 h Hst; simpl; auto.
Qed.
End Lockstep.

(** One step of a proof that a program runs in lockstep with itself; reads of
    the state and changes of it are left. *)
Ltac lockstep_step :=
  lazymatch goal with
  | |- lockstep _ (pbind get _) (pbind get _) => fail "read"
  | |- lockstep _ (pbind _ _) (pbind _ _) => apply lockstep_bind; [|intros ?]
  | |- lockstep _ (try_catch _ _) (try_catch _ _) => apply lockstep_try; [|intros ?]
  | |- lockstep _ (rethrowing _) (rethrowing _) => unfold rethrowing; apply lockstep_try; [|intros ?]
  | |- lockstep _ (of_result _) (of_result _) => apply lockstep_of_result
  | |- lockstep _ (await _) (await _) => unfold await; apply ls_call; intros ?; apply lockstep_of_result
  | |- lockstep _ (tell _) (tell _) => apply lockstep_tell
  | |- lockstep _ now now => apply lockstep_now
  | |- lockstep _ (Ret ?a) (Ret ?a) => apply ls_ret
  | |- lockstep _ (Fail ?e) (Fail ?e) => apply ls_fail
  | |- lockstep _ (match ?x with _ => _ end) (match ?x with _ => _ end) => destruct x
  end.
