(* ===== verification/Relayer.v ===== *)
(** * The gas relayer

    [RelayerServiceSimple] of
    [backend/relayer/src/services/RelayerServiceSimple.ts]: the [POST /relay]
    handler with its nonce set, and the two transactions it can send. The
    escrow contract behind the wallet is the outside. *)

From Stdlib Require Import ZArith Lia.
From stdpp Require Import base numbers list strings relations.
From S2P Require Import Prelude.
From S2P Require Import JsString.
From S2P Require Import JsMap.
From S2P Require Import PartialFill.
From S2P Require Import Async.

Local Open Scope string_scope.
Local Open Scope Z_scope.
Local Open Scope prog_scope.

Definition ZeroAddress : string := "0x0000000000000000000000000000000000000000".

(** ** Requests *)

(** The fields of [params] the relayer reads; a missing one is [undefined]. *)
Record RelayParams := {
  p_escrowId : option string;
  p_beneficiary : option string;
  p_token : option string;
  p_amount : string;
  p_safetyDeposit : option string;
  p_hashlock : option string;
  p_timelock : option string;
  p_secret : option string
}.

Record RelayRequest := {
  r_chain : option string;
  r_type : option string;
  r_params : option RelayParams;
  r_signature : option string;
  r_nonce : option string
}.

(** A call of the escrow contract with its arguments and the ether sent along,
    and the wait for a sent transaction. *)
Inductive RelayerReq :=
  | EscrowCall (fn : string) (args : list (option string)) (value : Z)
  | WaitTx (hash : string).

(** Contract calls answer with the hash of the sent transaction. *)
Definition RelayerI : Interface := {|
  Req := RelayerReq;
  ans := fun r => match r with WaitTx _ => unit | _ => string end;
  Out := Empty_set
|}.

Inductive RelayReply :=
  | Relayed (txHash : string)
  | RelayError (status : Z) (error : string).

(** ** The handler *)

Definition truthy_field (x : option string) : bool :=
  match x with Some s => str_truthy s | None => false end.

Definition validateRequest (request : RelayRequest) : bool :=
  truthy_field (r_chain request) && truthy_field (r_type request)
  && match r_params request with Some _ => true | None => false end
  && truthy_field (r_signature request) && truthy_field (r_nonce request).

Section Handler.
Context `{Ethers}.

(** The state is [usedNonces]. *)
Local Abbreviation relay_prog := (prog RelayerI JsSet.t).

Definition escrow_value (params : RelayParams) : result Z :=
  if bool_decide (p_token params = Some ZeroAddress) then
    result_bind (getBigInt (p_amount params)) (fun a =>
    let deposit := match p_safetyDeposit params with
                   | Some d => if str_truthy d then d else "0"
                   | None => "0"
                   end in
    result_bind (getBigInt deposit) (fun d => Ok (a + d)))
  else Ok 0.

Definition relayCreateEscrow (params : RelayParams) : relay_prog string :=
  value <- of_result (escrow_value params);
  hash <- (await (I := RelayerI)
             (EscrowCall "createEscrow"
                [p_escrowId params; p_beneficiary params; p_token params; Some (p_amount params);
                 p_hashlock params; p_timelock params] value) : relay_prog string);
  await (I := RelayerI) (WaitTx hash);;
  Ret hash.

Definition relayWithdrawEscrow (params : RelayParams) : relay_prog string :=
  hash <- (await (I := RelayerI) (EscrowCall "withdraw" [p_escrowId params; p_secret params] 0)
             : relay_prog string);
  await (I := RelayerI) (WaitTx hash);;
  Ret hash.

Definition executeRelay (type : string) (params : RelayParams) : relay_prog string :=
  if String.eqb type "CREATE_ESCROW" then relayCreateEscrow params
  else if String.eqb type "WITHDRAW_ESCROW" then relayWithdrawEscrow params
  else Fail (Error ("Unsupported relay type: " ++ type)).

(** The checks before the first await. *)
Definition reject (request : RelayRequest) (usedNonces : JsSet.t) : option string :=
  if negb (validateRequest request) then Some "Invalid request"
  else if JsSet.has (default "" (r_nonce request)) usedNonces then Some "Nonce already used"
  else if negb (bool_decide (r_chain request = Some "ETHEREUM"))
  then Some "Only Ethereum supported in simple mode"
  else None.

Definition relay_route (request : RelayRequest) : relay_prog RelayReply :=
  try_catch
    (usedNonces <- get;
     match reject request usedNonces, r_params request with
     | Some error, _ => Ret (RelayError 400 error)
     | None, Some params =>
         txHash <- executeRelay (default "" (r_type request)) params;
         modify (JsSet.add (default "" (r_nonce request)));;
         Ret (Relayed txHash)
     | None, None => Ret (RelayError 400 "Invalid request")
     end)
    (fun error => Ret (RelayError 500 (message error))).

End Handler.

(** ** What a request asks for *)

(** Every field is there and none is empty. *)
Definition complete_request (request : RelayRequest) (chain type : string) (params : RelayParams)
    (nonce : string) : Prop :=
  r_chain request = Some chain /\ chain <> "" /\ r_type request = Some type /\ type <> "" /\
  r_params request = Some params /\ r_nonce request = Some nonce /\ nonce <> "" /\
  exists sig, r_signature request = Some sig /\ sig <> "".

(** The requests that must not reach the chain, with the answer they get. *)
Inductive refused (request : RelayRequest) (used : JsSet.t) : string -> Prop :=
  | refused_malformed :
      (forall chain type params nonce, ~ complete_request request chain type params nonce) ->
      refused request used "Invalid request"
  | refused_nonce chain type params nonce :
      complete_request request chain type params nonce -> nonce ∈ used ->
      refused request used "Nonce already used"
  | refused_chain chain type params nonce :
      complete_request request chain type params nonce -> nonce ∉ used -> chain <> "ETHEREUM" ->
      refused request used "Only Ethereum supported in simple mode".

(** The text of the safety deposit; a missing or empty one is 0. *)
Definition deposit_text (params : RelayParams) (text : string) : Prop :=
  p_safetyDeposit params = Some text /\ text <> "" \/
  (p_safetyDeposit params = None \/ p_safetyDeposit params = Some "") /\ text = "0".

(** The contract call that a request of a type stands for: the function, its
    arguments and the ether. Ether is sent for the native token only, the
    amount and the safety deposit. *)
Inductive asked `{Ethers} (params : RelayParams)
    : string -> string -> list (option string) -> Z -> Prop :=
  | asked_native text amount deposit :
      p_token params = Some ZeroAddress -> getBigInt (p_amount params) = Ok amount ->
      deposit_text params text -> getBigInt text = Ok deposit ->
      asked params "CREATE_ESCROW" "createEscrow"
        [p_escrowId params; p_beneficiary params; Some ZeroAddress; Some (p_amount params);
         p_hashlock params; p_timelock params] (amount + deposit)
  | asked_token :
      p_token params <> Some ZeroAddress ->
      asked params "CREATE_ESCROW" "createEscrow"
        [p_escrowId params; p_beneficiary params; p_token params; Some (p_amount params);
         p_hashlock params; p_timelock params] 0
  | asked_withdraw :
      asked params "WITHDRAW_ESCROW" "withdraw" [p_escrowId params; p_secret params] 0.

(** A submission and the wait for its confirmation. *)
Definition submitted (fn : string) (args : list (option string)) (value : Z) (x : result string)
    : Ev RelayerI := Called (I := RelayerI) (EscrowCall fn args value) x.

Definition confirmed (hash : string) (x : result unit) : Ev RelayerI :=
  Called (I := RelayerI) (WaitTx hash) x.

(** ** Facts *)

Section Facts.
Context `{Ethers}.

Definition is_submission (e : Ev RelayerI) : bool :=
  match e with Called (EscrowCall _ _ _) (Ok _) => true | _ => false end.

(** The submissions among [l]. *)
Definition submissions (l : list (Ev RelayerI)) : nat := length (List.filter is_submission l).

Lemma truthy_field_spec x : truthy_field x = true <-> exists s, x = Some s /\ s <> "".
Proof. destruct x as [[|c s]|]; simpl; naive_solver. Qed.

Lemma validateRequest_spec request :
  validateRequest request = true <->
  exists chain type params nonce, complete_request request chain type params nonce.
Proof.
  unfold validateRequest, complete_request. rewrite !andb_true_iff, !truthy_field_spec.
  destruct (r_params request) as [params|]; naive_solver.
Qed.

(** The guards of the route refuse exactly what must be refused. *)
Lemma reject_spec request used :
  match reject request used with
  | Some error => refused request used error
  | None => exists type params nonce,
      complete_request request "ETHEREUM" type params nonce /\ nonce ∉ used
  end.
Proof.
  unfold reject. destruct (validateRequest request) eqn:Hv; simpl.
  - apply validateRequest_spec in Hv as (chain & type & params & nonce & Hc).
    pose proof Hc as (Hch & _ & _ & _ & _ & Hn & _). rewrite Hn, Hch. simpl.
    destruct (JsSet.has nonce used) eqn:Hu.
    { apply JsSet.set_has_spec in Hu. by eapply refused_nonce. }
    apply JsSet.set_has_false in Hu. case_bool_decide as Hce; simpl.
    + injection Hce as ->. eauto.
    + eapply refused_chain; [done|done|congruence].
  - apply refused_malformed. intros chain type params nonce Hc.
    assert (validateRequest request = true) by (apply validateRequest_spec; eauto). congruence.
Qed.

(** How the execution of a request can end. *)
Definition executed (type : string) (params : RelayParams) (r : result string) (l : list (Ev RelayerI)) : Prop :=
  match r with
  | Ok hash => exists fn args v, asked params type fn args v /\
      l = [submitted fn args v (Ok hash); confirmed hash (Ok tt)]
  | Throw e =>
      (l = [] /\ forall fn args v, ~ asked params type fn args v) \/
      exists fn args v, asked params type fn args v /\
        (l = [submitted fn args v (Throw e)] \/
         exists hash, l = [submitted fn args v (Ok hash); confirmed hash (Throw e)])
  end.

Lemma escrow_value_asked params v :
  escrow_value params = Ok v ->
  asked params "CREATE_ESCROW" "createEscrow"
    [p_escrowId params; p_beneficiary params; p_token params; Some (p_amount params);
     p_hashlock params; p_timelock params] v.
Proof.
  unfold escrow_value. case_bool_decide as Ht; [|intros [= <-]; by apply asked_token].
  destruct (getBigInt (p_amount params)) as [a|] eqn:Ha; [|done]. cbn [result_bind].
  match goal with |- context [result_bind (getBigInt ?t) _] => destruct (getBigInt t) as [d|] eqn:Hd end;
    [|done]. intros [= <-]. rewrite Ht.
  eapply asked_native; [done|done| |exact Hd]. unfold deposit_text.
  destruct (p_safetyDeposit params) as [[|c t]|]; simpl; naive_solver.
Qed.

Lemma escrow_value_refused params e :
  escrow_value params = Throw e -> forall fn args v, ~ asked params "CREATE_ESCROW" fn args v.
Proof.
  unfold escrow_value. case_bool_decide as Ht; [|done]. intros Hv fn args v Ha.
  inversion Ha as [text amount deposit _ Hamount Htext Hdeposit|Hn|]; subst; [|done].
  rewrite Hamount in Hv. simpl in Hv.
  assert (text = match p_safetyDeposit params with
                 | Some d => if str_truthy d then d else "0" | None => "0" end) as E.
  { destruct Htext as [[-> Hne]|[[-> | ->] ->]]; [|done..]. by destruct text. }
  rewrite <- E, Hdeposit in Hv. done.
Qed.

Lemma executeRelay_wp type params s h :
  wp (executeRelay type params)
     (fun r s' h' => s' = s /\ exists l, h' = (h ++ l)%list /\ executed type params r l) s h.
Proof.
  assert (forall fn args v, asked params type fn args v ->
    wp (hash <- (await (I := RelayerI) (EscrowCall fn args v) : prog RelayerI JsSet.t string);
        await (I := RelayerI) (WaitTx hash);; Ret hash)
      (fun r s' h' => s' = s /\ exists l, h' = (h ++ l)%list /\ executed type params r l) s h) as Hcall.
  { intros fn args v Ha. wp_call hash e; [wp_call u e|]; (split; [done|]); rewrite <- ?app_assoc;
      (eexists; split; [reflexivity|]); simpl; [destruct u|..]; eauto 10. }
  unfold executeRelay. destruct (String.eqb_spec type "CREATE_ESCROW") as [->|Hc].
  - unfold relayCreateEscrow. rewrite wp_bind, wp_of_result.
    destruct (escrow_value params) as [v|e] eqn:Hv; [by apply Hcall, escrow_value_asked|].
    split; [done|]. exists []. rewrite app_nil_r. split; [done|]. left.
    split; [done|]. by eapply escrow_value_refused.
  - destruct (String.eqb_spec type "WITHDRAW_ESCROW") as [->|Hw].
    + apply Hcall. constructor.
    + split; [done|]. exists []. rewrite app_nil_r. split; [done|]. left. split; [done|].
      intros fn args v Ha. by destruct Ha.
Qed.
End Facts.

(** ** Properties *)

Section Properties.
Context `{Ethers}.

(** C21. Outcome of one relay request, whatever the chain answers. A request that
    lacks a field, whose nonce is used, or that is not for Ethereum gets a 400
    with the reason and sends nothing. Any other request is answered as relayed
    only after the contract call it asks for, with its arguments and its ether,
    was submitted once and confirmed, and exactly its nonce is recorded then; or
    it gets a 500, the nonces are as they were, and it sent nothing (only when
    it asks for no call), a call that was refused, or one that was not
    confirmed. *)
Theorem relay_outcome (request : RelayRequest) (used : JsSet.t) (h : list (Ev RelayerI)) :
  wp (relay_route request)
    (fun r used' h' =>
       (exists error, refused request used error /\
          r = Ok (RelayError 400 error) /\ used' = used /\ h' = h) \/
       (exists type params nonce,
          complete_request request "ETHEREUM" type params nonce /\ (nonce ∉ used) /\
          ((exists hash fn args v, asked params type fn args v /\ r = Ok (Relayed hash) /\
              h' = (h ++ [submitted fn args v (Ok hash); confirmed hash (Ok tt)])%list /\
              forall n, n ∈ used' <-> n = nonce \/ n ∈ used) \/
           (exists e l, r = Ok (RelayError 500 (message e)) /\ used' = used /\ h' = (h ++ l)%list /\
              (l = [] /\ (forall fn args v, ~ asked params type fn args v) \/
               exists fn args v, asked params type fn args v /\
                 (l = [submitted fn args v (Throw e)] \/
                  exists hash, l = [submitted fn args v (Ok hash); confirmed hash (Throw e)])))))) used h.
Proof.
  unfold relay_route. rewrite wp_try. unfold get. cbn [pbind wp].
  pose proof (reject_spec request used) as Hr.
  destruct (reject request used) as [error|]; [left; eauto|].
  destruct Hr as (type & params & nonce & Hc & Hn). pose proof Hc as (_ & _ & Ht & _ & Hp & Ho & _).
  rewrite Hp, Ht, Ho. cbn [default]. rewrite wp_bind. eapply wp_mono; [|apply executeRelay_wp].
  intros [hash|e] s' h' (-> & l & -> & Hl); cbn; right; exists type, params, nonce; (split; [done|]);
    (split; [done|]).
  - left. destruct Hl as (fn & args & v & Ha & ->). exists hash, fn, args, v. split_and!; try done.
    intros n. apply JsSet.elem_add.
  - right. exists e, l. by split_and!.
Qed.

(** Replay protection of completed requests: once a nonce is recorded,
    a later request with it never reaches the chain, whatever else it holds,
    and the record is never withdrawn. *)
Theorem recorded_nonce_never_replays (request : RelayRequest) (used : JsSet.t)
    (h : list (Ev RelayerI)) (nonce : string)
    (Hn : r_nonce request = Some nonce) (Hu : nonce ∈ used) :
  wp (relay_route request)
    (fun r used' h' => exists error, r = Ok (RelayError 400 error) /\ used' = used /\ h' = h)
    used h.
Proof.
  unfold relay_route. rewrite wp_try. unfold get. cbn [pbind wp].
  assert (exists error, reject request used = Some error) as [error ->]; [|by exists error].
  unfold reject. destruct (negb (validateRequest request)); [eauto|].
  rewrite Hn. cbn. rewrite (proj2 (JsSet.set_has_spec _ _) Hu). eauto.
Qed.
End Properties.

(** ** The race between the check and the record *)

Definition withdraw_request : RelayRequest := {|
  r_chain := Some "ETHEREUM"; r_type := Some "WITHDRAW_ESCROW";
  r_params := Some {| p_escrowId := Some "0xe"; p_beneficiary := None; p_token := None;
                      p_amount := ""; p_safetyDeposit := None; p_hashlock := None;
                      p_timelock := None; p_secret := Some "0xs" |};
  r_signature := Some "0xsig"; r_nonce := Some "7"
|}.

Section Race.
Context `{Ethers}.

(** The nonce is recorded only after the transaction is confirmed, so two
    requests with the same nonce that arrive before the first is confirmed
    are both accepted: the event loop can reach a state in which both
    handlers answered success and two transactions were submitted. *)
Theorem concurrent_replay :
  exists w : Pool RelayerI JsSet.t RelayReply,
    rtc pool_step {| handlers := []; fields := []; log := [] |} w /\
    handlers w = [Ret (Relayed "0x1"); Ret (Relayed "0x2")] /\
    submissions (log w) = 2%nat.
Proof.
  eexists. split; [|split].
  - eapply rtc_l; [apply (pool_start _ 0 (relay_route withdraw_request)); reflexivity|].
    eapply rtc_l; [apply (pool_start _ 0 (relay_route withdraw_request)); reflexivity|].
    eapply rtc_l; [eapply (pool_answer _ 0 0 (EscrowCall "withdraw" [Some "0xe"; Some "0xs"] 0 : Req RelayerI) _ (Ok "0x1")); reflexivity|].
    eapply rtc_l; [eapply (pool_answer _ 0 1 (EscrowCall "withdraw" [Some "0xe"; Some "0xs"] 0 : Req RelayerI) _ (Ok "0x2")); reflexivity|].
    eapply rtc_l; [eapply (pool_answer _ 0 0 (WaitTx "0x1" : Req RelayerI) _ (Ok tt)); reflexivity|].
    eapply rtc_l; [eapply (pool_answer _ 0 1 (WaitTx "0x2" : Req RelayerI) _ (Ok tt)); reflexivity|].
    apply rtc_refl.
  - reflexivity.
  - reflexivity.
Qed.
End Race.

(** ** Witness *)

Lemma recorded_nonce_never_replays_witness :
  wp (@relay_route tagged_ethers withdraw_request)
    (fun r used' h' => exists error, r = Ok (RelayError 400 error) /\ used' = ["7"] /\ h' = [])
    ["7"] [].
Proof.
  apply (@recorded_nonce_never_replays tagged_ethers withdraw_request ["7"] [] "7");
    [reflexivity|by left].
Defined.
