(* ===== verification/Chain.v ===== *)
(** * The outside of the resolver

    The requests the resolver's services send to Ethereum (through ethers), to
    Aptos (through its SDK) and to the order engine (through axios), with the
    type of their answers, and the socket messages it emits. What ethers and
    the SDK compute locally are the classes [EthersBytes] and [AptosSdk]. *)

From Stdlib Require Import ZArith Lia.
From stdpp Require Import base numbers list strings.
From S2P Require Import Prelude.
From S2P Require Import JsNumber.
From S2P Require Import JsString.
From S2P Require Import Async.

Local Open Scope Z_scope.

(** A [Uint8Array], by the hex string that [ethers.hexlify] prints for it. *)
Definition bytes := string.

(** An argument of a contract call. *)
Inductive Arg :=
  | AString (s : string)
  | ABytes (b : bytes)
  | AInt (z : Z)
  | ANumber (n : number)
  | AList (l : list bytes)
  | AInts (l : list Z).

(** An Aptos transaction built by the SDK: entry function, arguments and the
    sequence number when the caller fixes it. *)
Record AptosTx := {
  tx_function : string;
  tx_arguments : list Arg;
  tx_sequence : option Z
}.

Record Executed := { success : bool; vm_status : string; executed_hash : string }.

(** What [aptos.view] returns for a boolean view. *)
Inductive ViewAnswer :=
  | ViewArray (l : list bool)
  | ViewBool (b : bool).

(** A fill record as the resolver posts it to the order engine, always with
    [status: 'PENDING']. *)
Record FillData := {
  fd_resolver : string;
  fd_amount : string;
  fd_secretHash : option string;
  fd_secretIndex : number;
  fd_fillPercentage : option number;
  fd_cumulativePercentage : option number;
  fd_destinationEscrowId : option string;
  fd_baseOrderId : option string;
  fd_fillIndex : option number;
  fd_merkleIndex : option number
}.

(** A fill: as the engine returns it, and as the resolver keeps it. *)
Record RFill := {
  f_id : string;
  f_orderId : string;
  f_resolver : string;
  f_amount : string;
  f_secretHash : option string;
  f_secretIndex : number;
  f_status : string;
  f_fillPercentage : option number;
  f_cumulativePercentage : option number;
  f_cumulativeFillPercentage : option number;
  f_merkleIndex : option number;
  f_actualEscrowId : option string;
  f_baseOrderId : option string;
  f_fillIndex : option number;
  f_destinationEscrowId : option string;
  f_sourceEscrowId : option string
}.

(** An [EscrowCreated] log entry. *)
Record EscrowLog := {
  log_hasArgs : bool;  (* ['args' in event]: ethers could decode it *)
  log_escrowId : string;
  log_hashlock : string;
  log_blockNumber : Z;
  log_transactionIndex : Z
}.

Inductive ChainReq :=
  | EthSend (contract fn : string) (args : list Arg) (value : Z) (gasPrice : option Z)
  | EthWait (hash : string)
  | EthView (contract fn : string) (args : list Arg)
  | EthBalance (address : string)
  | EthFeeData
  | EthBlockNumber
  | EthQueryEscrows (contract beneficiary : string) (fromBlock toBlock : Z)
  | AptosView (fn : string) (args : list Arg)
  | AptosAccountInfo (address : string)
  | AptosBuild (fn : string) (args : list Arg) (sequence : option Z)
  | AptosSubmit (tx : AptosTx)
  | AptosWait (hash : string) (checkSuccess : bool)
  | AptosCoinAmount (address : string)
  | AptosSubmitMultiAgent (tx : bytes) (sender : string) (additional : list string)
      (feePayer : string)
  | AptosSubmitFeePayer (tx : bytes) (sender feePayer : string)
  | AptosTxByHash (hash : option string)
  | FetchAptBalance (address : string)
  | FetchAptBalanceJson (address : string)
  | Sleep (ms : Z)
  | HttpGetFilled (orderId : string)
  | HttpPostFill (orderId : string) (data : FillData)
  | HttpPatchFill (orderId fillId status : string) (additionalData : list (string * string))
  | HttpGetPrices (ids : string) (apiKey : option string)
  | FetchPrices (ids : string) (apiKey : option string)
  | FetchPricesJson (ids : string).

(** [EthSend] answers with the hash of the sent transaction, [EthWait] with the
    hash in the receipt; [HttpGetFilled] with [filledPercentage] when the order
    exists; [HttpPostFill] with the created fill; [HttpGetPrices] with the USD
    price of the tokens it knows; [AptosTxByHash] with the [success] field of a
    transaction that has one; [FetchAptBalance] is a [fetch] of a coin balance,
    answered by [response.ok], and [FetchAptBalanceJson] its body, answered by
    the first element of the array; [FetchPrices] and [FetchPricesJson] are the
    same for the frontend's price request. *)
Definition chain_ans (r : ChainReq) : Type :=
  match r with
  | EthSend _ _ _ _ _ => string
  | EthWait _ => string
  | EthView _ _ _ => Z
  | EthBalance _ => Z
  | EthFeeData => option Z
  | EthBlockNumber => Z
  | EthQueryEscrows _ _ _ _ => list EscrowLog
  | AptosView _ _ => ViewAnswer
  | AptosAccountInfo _ => string
  | AptosBuild _ _ _ => AptosTx
  | AptosSubmit _ => string
  | AptosWait _ _ => Executed
  | AptosCoinAmount _ => Z
  | Sleep _ => unit
  | HttpGetFilled _ => option number
  | HttpPostFill _ _ => option RFill
  | HttpPatchFill _ _ _ _ => unit
  | AptosSubmitMultiAgent _ _ _ _ => string
  | AptosSubmitFeePayer _ _ _ => string
  | AptosTxByHash _ => option bool
  | FetchAptBalance _ => bool
  | FetchAptBalanceJson _ => option string
  | HttpGetPrices _ _ => list (string * number)
  | FetchPrices _ _ => bool
  | FetchPricesJson _ => list (string * number)
  end.

(** A field of a message. *)
Inductive Json := JStr (s : string) | JNum (n : number) | JBool (b : bool) | JUndefined.

Definition JOpt (x : option string) : Json := match x with Some s => JStr s | None => JUndefined end.

(** [socket.emit(event, data)], [data] by its fields in the order of the
    source. A text that prints a percentage for the reader is left out. *)
Record Message := msg { event : string; data : list (string * Json) }.

(** [socket.emit], and the timers: [setTimeout] of [handlePartialFillOrder] and
    of [handleNewOrder] of an order. *)
Inductive ChainOut :=
  | Emit (m : Message)
  | Later (ms : Z) (retryOrder : string)
  | LaterNew (ms : Z) (newOrder : string).

Definition ChainI : Interface := {| Req := ChainReq; ans := chain_ans; Out := ChainOut |}.

(** Programs of the services, over the fields [S] of the calling object. *)
Abbreviation cprog S := (prog ChainI S).

(** Requests with their answer types computed. *)
Section Requests.
Context {S : Type}.

Definition ethSend (contract fn : string) (args : list Arg) (value : Z) (gasPrice : option Z)
    : cprog S string := await (I := ChainI) (EthSend contract fn args value gasPrice).
Definition ethWait (hash : string) : cprog S string := await (I := ChainI) (EthWait hash).
Definition ethView (contract fn : string) (args : list Arg) : cprog S Z :=
  await (I := ChainI) (EthView contract fn args).
Definition ethBalance (address : string) : cprog S Z := await (I := ChainI) (EthBalance address).
Definition ethFeeData : cprog S (option Z) := await (I := ChainI) EthFeeData.
Definition ethBlockNumber : cprog S Z := await (I := ChainI) EthBlockNumber.
Definition ethQueryEscrows (contract beneficiary : string) (fromBlock toBlock : Z)
    : cprog S (list EscrowLog) :=
  await (I := ChainI) (EthQueryEscrows contract beneficiary fromBlock toBlock).
Definition aptosView (fn : string) (args : list Arg) : cprog S ViewAnswer :=
  await (I := ChainI) (AptosView fn args).
Definition aptosAccountInfo (address : string) : cprog S string :=
  await (I := ChainI) (AptosAccountInfo address).
Definition aptosBuild (fn : string) (args : list Arg) (sequence : option Z) : cprog S AptosTx :=
  await (I := ChainI) (AptosBuild fn args sequence).
Definition aptosSubmit (tx : AptosTx) : cprog S string := await (I := ChainI) (AptosSubmit tx).
Definition aptosWait (hash : string) (checkSuccess : bool) : cprog S Executed :=
  await (I := ChainI) (AptosWait hash checkSuccess).
Definition aptosCoinAmount (address : string) : cprog S Z :=
  await (I := ChainI) (AptosCoinAmount address).
Definition sleep (ms : Z) : cprog S unit := await (I := ChainI) (Sleep ms).
Definition httpGetFilled (order : string) : cprog S (option number) :=
  await (I := ChainI) (HttpGetFilled order).
Definition httpPostFill (order : string) (data : FillData) : cprog S (option RFill) :=
  await (I := ChainI) (HttpPostFill order data).
Definition httpPatchFill (order fill status : string) (additionalData : list (string * string))
    : cprog S unit := await (I := ChainI) (HttpPatchFill order fill status additionalData).
Definition aptosSubmitMultiAgent (tx : bytes) (sender : string) (additional : list string)
    (feePayer : string) : cprog S string :=
  await (I := ChainI) (AptosSubmitMultiAgent tx sender additional feePayer).
Definition aptosSubmitFeePayer (tx : bytes) (sender feePayer : string) : cprog S string :=
  await (I := ChainI) (AptosSubmitFeePayer tx sender feePayer).
Definition aptosTxByHash (hash : option string) : cprog S (option bool) :=
  await (I := ChainI) (AptosTxByHash hash).
Definition fetchAptBalance (address : string) : cprog S bool :=
  await (I := ChainI) (FetchAptBalance address).
Definition fetchAptBalanceJson (address : string) : cprog S (option string) :=
  await (I := ChainI) (FetchAptBalanceJson address).
Definition httpGetPrices (ids : string) (apiKey : option string) : cprog S (list (string * number)) :=
  await (I := ChainI) (HttpGetPrices ids apiKey).
Definition fetchPrices (ids : string) (apiKey : option string) : cprog S bool :=
  await (I := ChainI) (FetchPrices ids apiKey).
Definition fetchPricesJson (ids : string) : cprog S (list (string * number)) :=
  await (I := ChainI) (FetchPricesJson ids).
Definition socketEmit (event : string) (data : list (string * Json)) : cprog S unit :=
  tell (I := ChainI) (Emit (msg event data)).
Definition retryLater (ms : Z) (order : string) : cprog S unit :=
  tell (I := ChainI) (Later ms order).
Definition newOrderLater (ms : Z) (order : string) : cprog S unit :=
  tell (I := ChainI) (LaterNew ms order).
End Requests.

(** Symbolic execution of a goal [wp p Q s h] over this interface. *)
Ltac chain_norm :=
  unfold ethSend, ethWait, ethView, ethBalance, ethFeeData, ethBlockNumber, ethQueryEscrows,
    aptosView, aptosAccountInfo, aptosBuild, aptosSubmit, aptosWait, aptosCoinAmount, sleep,
    aptosSubmitMultiAgent, aptosSubmitFeePayer, aptosTxByHash, fetchAptBalance,
    fetchAptBalanceJson, httpGetPrices, fetchPrices, fetchPricesJson,
    httpGetFilled, httpPostFill, httpPatchFill, socketEmit, retryLater, newOrderLater in *; wp_norm.
Ltac chain_call x e := chain_norm; intros [x|e]; chain_norm.

(** ** Local computations of the libraries *)

Class EthersBytes := {
  getBytes : string -> result bytes;
  hexlify : bytes -> string;
  solidityPacked : list string -> list Arg -> result string
}.

(** [AccountAddress.fromString] and [new U64(value)]; both may throw. *)
Class AptosSdk := {
  fromString : string -> result string;
  u64 : Z -> result Z
}.

(** [U64] accepts exactly the unsigned 64-bit integers. *)
Class AptosSdkLaws `{AptosSdk} := {
  u64_spec : forall z, u64 z = Ok z <-> 0 <= z < 2 ^ 64;
  u64_throws : forall z, (exists e, u64 z = Throw e) <-> ~ (0 <= z < 2 ^ 64)
}.

(** A plain implementation, for concrete runs. *)
Definition hex_bytes : EthersBytes := {|
  getBytes := fun s => if startsWith s "0x" then Ok s else Throw (TypeError "invalid BytesLike value");
  hexlify := fun b => b;
  solidityPacked := fun _ args => Ok (
    foldr (fun a acc => match a with
                        | AString s | ABytes s => s +:+ acc
                        | AInt z => toString z +:+ acc
                        | _ => acc
                        end) "" args)
|}.

Definition range_sdk : AptosSdk := {|
  fromString := fun s => Ok s;
  u64 := fun z => if (0 <=? z) && (z <? 2 ^ 64) then Ok z else Throw (Error "Value is out of range")
|}.

Lemma range_sdk_laws : @AptosSdkLaws range_sdk.
Proof.
  split; intros z; simpl; destruct ((0 <=? z) && (z <? 2 ^ 64)) eqn:E;
    rewrite ?andb_true_iff, ?andb_false_iff in E; split.
  - intros _. destruct E. zbool. lia.
  - done.
  - done.
  - intros Hr. destruct E; zbool; lia.
  - intros [e He]. done.
  - intros Hr. destruct E. zbool. lia.
  - intros _ Hr. destruct E; zbool; lia.
  - intros _. by eexists.
Qed.
