(* ===== verification/AptosChain.v ===== *)
(** * The Aptos chain service

    [AptosChainServiceV2] of
    [backend/resolver/src/services/AptosChainServiceV2.ts]: the escrow entry
    functions it submits, the existence check and the withdrawal with its two
    nested retry loops. Signing is local and is not a separate step. *)

From Stdlib Require Import ZArith Lia.
From stdpp Require Import base numbers list strings.
From S2P Require Import Prelude.
From S2P Require Import JsNumber.
From S2P Require Import JsString.
From S2P Require Import PartialFill.
From S2P Require Import Async.
From S2P Require Import Chain.

Local Open Scope string_scope.
Local Open Scope Z_scope.
Local Open Scope prog_scope.

(** ** The account key *)

(** [s.replace(p, '')]: the first occurrence. *)
Fixpoint remove_first (p s : string) : string :=
  if startsWith s p then String.substring (String.length p) (String.length s - String.length p) s
  else match s with
       | EmptyString => EmptyString
       | String c s' => String c (remove_first p s')
       end.

Definition private_key_hex (rawPrivateKey : string) : result string :=
  let cleanKey := remove_first "0x" (remove_first "ed25519-priv-" rawPrivateKey) in
  if (String.length cleanKey =? 128)%nat then Ok (String.substring 0 64 cleanKey)
  else if (String.length cleanKey =? 64)%nat then Ok cleanKey
  else Throw (Error ("Invalid private key length: " ++ toString (Z.of_nat (String.length cleanKey)))).

Section Service.
Context `{AptosSdk, EthersBytes} {S : Type}.
(** [this.escrowAddress] and [this.account.accountAddress]. *)
Context (escrowAddress accountAddress : string).

(** [new U64(BigInt(x))] of a string and of a number. *)
Definition u64_string (x : string) : cprog S Arg :=
  z <- of_result (BigInt x); n <- of_result (u64 z); Ret (AInt n).

Definition u64_number (x : number) : cprog S Arg :=
  z <- of_result (BigInt_of_number x); n <- of_result (u64 z); Ret (AInt n).

(** Build, sign, submit, wait, and throw unless the transaction succeeded. *)
Definition submit_entry (fn : string) (args : list Arg) : cprog S string :=
  transaction <- aptosBuild fn args None;
  hash <- aptosSubmit transaction;
  executedTransaction <- aptosWait hash true;
  if negb (success executedTransaction)
  then Fail (Error ("Transaction failed: " ++ vm_status executedTransaction))
  else Ret hash.

Definition createEscrowDelegated (escrowId : bytes) (depositor beneficiary amount : string)
    (hashlock : bytes) (timelock : number) (safetyDeposit : string) : cprog S string :=
  rethrowing (
    d <- of_result (fromString depositor);
    b <- of_result (fromString beneficiary);
    a <- u64_string amount;
    tl <- u64_number timelock;
    nonce <- u64_number (of_Z 0);
    t <- now;
    expiry <- u64_number (add (floor (div (of_Z t) (of_Z 1000))) (of_Z 300));
    dep <- u64_string safetyDeposit;
    submit_entry (escrowAddress ++ "::escrow_v3::create_escrow_delegated")
      [ABytes escrowId; AString d; AString b; a; ABytes hashlock; tl; nonce; expiry; dep;
       ABytes "0x0000000000000000000000000000000000000000000000000000000000000000";
       ABytes ("0x0000000000000000000000000000000000000000000000000000000000000000" ++
               "0000000000000000000000000000000000000000000000000000000000000000")]).

Definition createPartialFillOrder (baseOrderId : bytes)
    (depositor beneficiary totalAmount : string) (merkleRoot : bytes)
    (numFills timelock nonce expiry : number) (depositorPubkey sig : bytes) : cprog S string :=
  rethrowing (
    d <- of_result (fromString depositor);
    b <- of_result (fromString beneficiary);
    a <- u64_string totalAmount;
    nf <- u64_number numFills;
    tl <- u64_number timelock;
    n <- u64_number nonce;
    ex <- u64_number expiry;
    submit_entry (escrowAddress ++ "::fusion_plus_partial_fill::create_partial_fill_order")
      [ABytes baseOrderId; AString d; AString b; a; ABytes merkleRoot; nf; tl; n; ex;
       ABytes depositorPubkey; ABytes sig]).

Definition createPartialFillEscrow (baseOrderId : bytes) (fillIndex : number) (amount : string)
    (hashlock : bytes) (merkleProof : list bytes) (safetyDeposit : string) : cprog S string :=
  rethrowing (
    i <- u64_number fillIndex;
    a <- u64_string amount;
    dep <- u64_string safetyDeposit;
    submit_entry (escrowAddress ++ "::fusion_plus_partial_fill::create_partial_fill_escrow")
      [ABytes baseOrderId; i; a; ABytes hashlock; AList merkleProof; dep]).

Definition createEscrow (escrowId : bytes) (depositor beneficiary amount : string)
    (hashlock : bytes) (timelock : number) (safetyDeposit : string) : cprog S string :=
  rethrowing (
    a <- u64_string amount;
    tl <- u64_number timelock;
    dep <- u64_string safetyDeposit;
    submit_entry (escrowAddress ++ "::escrow_v3::create_escrow_user_funded")
      [ABytes escrowId; AString beneficiary; a; ABytes hashlock; tl; dep;
       AString accountAddress]).

Definition view_exists (escrowId : bytes) : cprog S ViewAnswer :=
  aptosView (escrowAddress ++ "::escrow_v3::escrow_exists") [ABytes escrowId].

Definition checkAptosEscrowExists (escrowId : bytes) : cprog S bool :=
  try_catch
    (escrowExists <- view_exists escrowId;
     Ret (match escrowExists with
          | ViewArray l => match l with b :: _ => b | [] => false end
          | ViewBool b => b
          end))
    (fun _ => Ret false).

(** [!escrowExists || (Array.isArray(escrowExists) && !escrowExists[0])] *)
Definition denies (v : ViewAnswer) : bool :=
  match v with
  | ViewBool b => negb b
  | ViewArray l => match l with b :: _ => negb b | [] => true end
  end.

(** The confirmation loop; [n] is [maxRetries - retries]. *)
Fixpoint wait_loop (n : nat) (hash : string) : cprog S (option Executed) :=
  match n with
  | O => Ret None
  | Datatypes.S n' =>
      Call (I := ChainI) (AptosWait hash false) (fun x =>
        match x with
        | Ok executed => Ret (Some executed)
        | Throw error =>
            if includes (message error) "transaction_not_found" && (0 <? n')%nat
            then sleep 2000;; wait_loop n' hash
            else Fail error
        end)
  end.

(** One attempt: the body of the [try] of the outer loop. *)
Definition withdraw_attempt (escrowId secret : bytes) : cprog S string :=
  sequence_number <- aptosAccountInfo accountAddress;
  seq <- of_result (BigInt sequence_number);
  transaction <- aptosBuild (escrowAddress ++ "::escrow_v3::withdraw")
    [ABytes escrowId; ABytes secret] (Some seq);
  hash <- aptosSubmit transaction;
  executedTransaction <- wait_loop 10 hash;
  match executedTransaction with
  | None => Fail (Error "Transaction confirmation timeout")
  | Some executed =>
      if negb (success executed)
      then Fail (Error ("Transaction failed: " ++ vm_status executed))
      else Ret hash
  end.

(** The retry loop on sequence-number conflicts; [n] is [maxAttempts - attempts]. *)
Fixpoint attempt_loop (n : nat) (escrowId secret : bytes) : cprog S string :=
  match n with
  | O => Fail (Error "Failed to submit transaction after all attempts")
  | Datatypes.S n' =>
      try_catch (withdraw_attempt escrowId secret)
        (fun error =>
           if includes (message error) "Transaction already in mempool" && (0 <? n')%nat
           then sleep 5000;; attempt_loop n' escrowId secret
           else Fail error)
  end.

Definition withdrawEscrow (escrowId secret : bytes) : cprog S string :=
  rethrowing (
    escrowExists <- rethrowing (view_exists escrowId);
    if denies escrowExists
    then Fail (Error ("Escrow " ++ hexlify escrowId ++ " does not exist on Aptos chain"))
    else attempt_loop 3 escrowId secret).

Definition getBalance (address : string) : cprog S string :=
  try_catch (balance <- aptosCoinAmount address; Ret (toString balance)) (fun _ => Ret "0").
End Service.

(** ** Facts about the withdrawal *)

Section Facts.
Context `{AptosSdk, EthersBytes} {S : Type} (escrowAddress accountAddress : string).

Definition is_submit (e : Ev ChainI) : bool :=
  match e with Called (AptosSubmit _) _ => true | _ => false end.

Definition submits (l : list (Ev ChainI)) : nat := length (List.filter is_submit l).

Lemma submits_app l1 l2 : submits (l1 ++ l2)%list = (submits l1 + submits l2)%nat.
Proof. unfold submits. by rewrite List.filter_app, length_app. Qed.

(** The history shows the entry function [fn] built with the arguments [args],
    submitted under [hash], and seen executed with success. *)
Definition executed_entry (fn : string) (args : list Arg) (hash : string) (h : list (Ev ChainI))
    : Prop :=
  exists seq tx checkSuccess executed,
    Called (I := ChainI) (AptosBuild fn args seq) (Ok tx) ∈ h /\
    Called (I := ChainI) (AptosSubmit tx) (Ok hash) ∈ h /\
    Called (I := ChainI) (AptosWait hash checkSuccess) (Ok executed) ∈ h /\
    success executed = true.

Lemma executed_entry_grows fn args hash h l :
  executed_entry fn args hash h -> executed_entry fn args hash (h ++ l).
Proof.
  intros (seq & tx & c & ex & H1 & H2 & H3 & H4). exists seq, tx, c, ex.
  rewrite !elem_of_app. auto.
Qed.

(** The existence check failed or denied the escrow. *)
Definition denied (h : list (Ev ChainI)) : bool :=
  match h with
  | Called (AptosView _ _) (Ok v) :: _ => denies v
  | Called (AptosView _ _) (Throw _) :: _ => true
  | _ => false
  end.

Lemma denied_app h l : h <> [] -> denied (h ++ l) = denied h.
Proof. by destruct h. Qed.

Lemma wait_loop_wp n hash (s : S) h :
  wp (wait_loop n hash) (fun r s' h' =>
    s' = s /\ submits h' = submits h /\
    (forall executed, r = Ok (Some executed) ->
       Called (I := ChainI) (AptosWait hash false) (Ok executed) ∈ h')) s h.
Proof.
  revert h. induction n as [|n IH]; intros h; simpl; [done|].
  intros [executed|error]; simpl.
  - rewrite submits_app. unfold submits at 2. simpl. split_and!; [done|lia|].
    intros ex [= <-]. rewrite elem_of_app. right. by left.
  - destruct (includes _ _ && _); simpl.
    + intros [u|e2]; simpl.
      * eapply wp_mono; [|apply IH]. simpl. intros r s' h' (-> & Hsub & Hc).
        rewrite Hsub, !submits_app. unfold submits at 2 3. simpl. split_and!; [done|lia|done].
      * rewrite !submits_app. unfold submits at 2 3. simpl. split_and!; [done|lia|done].
    + rewrite submits_app. unfold submits at 2. simpl. split_and!; [done|lia|done].
Qed.

(** One attempt submits at most once, and returns the hash of a withdrawal that
    was executed. *)
Lemma withdraw_attempt_wp escrowId secret (s : S) h :
  wp (withdraw_attempt escrowAddress accountAddress escrowId secret) (fun r s' h' =>
    s' = s /\ (submits h' <= Datatypes.S (submits h))%nat /\
    (forall hash, r = Ok hash ->
       executed_entry (escrowAddress ++ "::escrow_v3::withdraw") [ABytes escrowId; ABytes secret]
         hash h')) s h.
Proof.
  assert (forall l l', (submits (l ++ [l']) <= Datatypes.S (submits l))%nat) as Hs1.
  { intros l l'. rewrite submits_app. unfold submits at 2. simpl. destruct (is_submit l'); simpl; lia. }
  unfold withdraw_attempt.
  chain_call sn e; [|split_and!; [done|apply Hs1|done]].
  rewrite wp_bind, wp_of_result. destruct (BigInt sn) as [z|e];
    [|split_and!; [done|apply Hs1|done]].
  chain_call tx e; [|rewrite !submits_app; unfold submits at 2 3; simpl; split_and!; [done|lia|done]].
  chain_call hash e; [|rewrite !submits_app; unfold submits at 2 3 4; simpl; split_and!; [done|lia|done]].
  rewrite wp_bind. eapply wp_mono; [|apply wp_and; [apply wait_loop_wp|apply wp_extends]].
  intros r s' h' [(-> & Hsub & Hc) [l Hl]].
  assert (submits h' <= Datatypes.S (submits h))%nat as Hle.
  { rewrite Hsub, !submits_app. unfold submits at 2 3 4. simpl. lia. }
  destruct r as [[executed|]|e]; simpl; [|split_and!; try done..].
  destruct (success executed) eqn:Hsx; simpl; split_and!; try done.
  intros hash' [= <-]. exists (Some z), tx, false, executed. specialize (Hc executed eq_refl).
  rewrite Hl in *. split_and!; [| |done|done]; rewrite !elem_of_app; auto using list_elem_of_here.
Qed.

Lemma attempt_loop_wp n escrowId secret (s : S) h :
  wp (attempt_loop escrowAddress accountAddress n escrowId secret) (fun r s' h' =>
    s' = s /\ (submits h' <= n + submits h)%nat /\
    (forall hash, r = Ok hash ->
       executed_entry (escrowAddress ++ "::escrow_v3::withdraw") [ABytes escrowId; ABytes secret]
         hash h')) s h.
Proof.
  revert h. induction n as [|n IH]; intros h; cbn [attempt_loop]; [by simpl|].
  rewrite wp_try. eapply wp_mono; [|apply withdraw_attempt_wp].
  intros [hash|error] s' h' (-> & Hle & Hc); [split_and!; [done|lia|done]|].
  destruct (includes _ _ && _); [|simpl; split_and!; [done|lia|done]].
  chain_call u e.
  - eapply wp_mono; [|apply IH]. intros r s' h'' (-> & Hle' & Hc').
    rewrite submits_app in Hle'. unfold submits at 3 in Hle'. simpl in Hle'.
    split_and!; [done|lia|done].
  - rewrite submits_app. unfold submits at 2. simpl. split_and!; [done|lia|done].
Qed.
End Facts.

Section SubmitFacts.
Context `{AptosSdk} {S : Type}.

(** A submitted entry function: one submission at most, the hash of its execution. *)
Lemma submit_entry_wp fn args (s : S) h :
  wp (submit_entry fn args) (fun r s' h' =>
    s' = s /\ (submits h' <= Datatypes.S (submits h))%nat /\
    (forall hash, r = Ok hash -> executed_entry fn args hash h')) s h.
Proof.
  unfold submit_entry. chain_call tx e; [chain_call hash e; [chain_call done_tx e|]|].
  - destruct (success done_tx) eqn:Hs; cbn [negb wp]; rewrite !submits_app; unfold submits at 2 3 4;
      simpl; (split_and!; [done|lia|]); [|done].
    intros hash' [= <-]. exists None, tx, true, done_tx.
    rewrite !elem_of_app. split_and!; auto using list_elem_of_here.
  - rewrite !submits_app; unfold submits at 2 3 4; simpl. split_and!; [done|lia|done].
  - rewrite !submits_app; unfold submits at 2 3; simpl. split_and!; [done|lia|done].
  - rewrite !submits_app; unfold submits at 2; simpl. split_and!; [done|lia|done].
Qed.

(** Arguments that cannot be converted stop the call before anything is sent. *)
Lemma wp_u64_string x (k : Arg -> cprog S string) Q (s : S) h :
  (forall e, Q (Throw e) s h) ->
  (forall z n, BigInt x = Ok z -> u64 z = Ok n -> wp (k (AInt n)) Q s h) ->
  wp (pbind (u64_string x) k) Q s h.
Proof.
  intros He Hk. unfold u64_string. rewrite wp_bind, wp_bind, wp_of_result.
  destruct (BigInt x) as [z|e] eqn:E; [|done].
  rewrite wp_bind, wp_of_result. destruct (u64 z) as [n|e] eqn:E'; [|done]. by apply (Hk z n).
Qed.

Lemma wp_u64_number x (k : Arg -> cprog S string) Q (s : S) h :
  (forall e, Q (Throw e) s h) ->
  (forall n, wp (k (AInt n)) Q s h) ->
  wp (pbind (u64_number x) k) Q s h.
Proof.
  intros He Hk. unfold u64_number. rewrite wp_bind, wp_bind, wp_of_result.
  destruct (BigInt_of_number x) as [z|e]; [|done].
  rewrite wp_bind, wp_of_result. destruct (u64 z) as [n|e]; [apply Hk|apply He].
Qed.
End SubmitFacts.

Lemma length_substring (n m : nat) (c : string) :
  (n + m <= String.length c)%nat -> String.length (String.substring n m c) = m.
Proof.
  revert n m. induction c as [|a c IH]; intros [|n] [|m] Hl; simpl in *; try lia.
  - f_equal. apply IH. simpl. lia.
  - apply IH. lia.
  - apply IH. lia.
Qed.

(** ** Properties *)

Section Properties.
Context `{AptosSdk, EthersBytes} {S : Type} (escrowAddress accountAddress : string).

(** C20. Withdrawal from an Aptos escrow, whatever the node answers: it ends,
    after at most three submissions; it returns a hash only if a withdrawal of
    this escrow with this secret was submitted under that hash and seen
    executed with success; and when the existence
    check fails or denies the escrow it throws with nothing submitted, so the
    secret does not leave the resolver. *)
Theorem aptos_withdraw_safe (escrowId secret : bytes) (s : S) :
  wp (withdrawEscrow escrowAddress accountAddress escrowId secret) (fun r s' h' =>
    s' = s /\ (submits h' <= 3)%nat /\
    (forall hash, r = Ok hash ->
       executed_entry (escrowAddress ++ "::escrow_v3::withdraw") [ABytes escrowId; ABytes secret]
         hash h') /\
    (denied h' = true -> submits h' = 0%nat /\ exists e, r = Throw e)) s [].
Proof.
  unfold withdrawEscrow, rethrowing. rewrite wp_try, wp_bind, wp_try. unfold view_exists.
  chain_call v e; [|split_and!; [done|apply Nat.le_0_l|done|eauto]].
  destruct (denies v) eqn:Hv; [cbn [wp]; split_and!; [done|apply Nat.le_0_l|done|eauto]|].
  set (h1 := [Called _ _]).
  assert (wp (attempt_loop escrowAddress accountAddress 3 escrowId secret)
            (fun _ _ h' => denied h' = false) s h1) as Hd.
  { eapply wp_mono; [|apply wp_extends]. intros r s' h' [l ->]. by rewrite denied_app. }
  pose proof (wp_and _ _ _ _ _ Hd (attempt_loop_wp escrowAddress accountAddress 3 escrowId secret
    s h1)) as Hboth.
  eapply wp_mono; [|exact Hboth]. intros [hash|e] s' h' (Hnd & -> & Hle & Hc); cbn [wp];
    split_and!; try done; congruence.
Qed.

(** Creating an Aptos escrow: at most one transaction is submitted, a
    hash is returned only for an escrow creation with exactly these terms that
    was seen executed with success, and an amount that does not fit an unsigned 64-bit integer is refused before
    the node is contacted at all. *)
Theorem aptos_create_bounded `{!AptosSdkLaws} (escrowId : bytes)
    (depositor beneficiary amount : string) (hashlock : bytes) (timelock : number)
    (safetyDeposit : string) (s : S) :
  wp (createEscrow escrowAddress accountAddress escrowId depositor beneficiary amount hashlock
        timelock safetyDeposit) (fun r s' h' =>
    s' = s /\ (submits h' <= 1)%nat /\
    (forall hash, r = Ok hash -> exists z tl dep,
       BigInt amount = Ok z /\
       executed_entry (escrowAddress ++ "::escrow_v3::create_escrow_user_funded")
         [ABytes escrowId; AString beneficiary; AInt z; ABytes hashlock; AInt tl; AInt dep;
          AString accountAddress] hash h') /\
    (forall z, BigInt amount = Ok z -> ~ (0 <= z < 2 ^ 64) ->
       h' = [] /\ exists e, r = Throw e)) s [].
Proof.
  unfold createEscrow, rethrowing. rewrite wp_try.
  apply wp_u64_string; [intros e; cbn [wp]; split_and!; [done|apply Nat.le_0_l|done|eauto]|]. intros z n Hz Hn.
  assert (0 <= z < 2 ^ 64) as Hr.
  { destruct (decide (0 <= z < 2 ^ 64)) as [|Hnr]; [done|].
    apply u64_throws in Hnr as [e He]. congruence. }
  assert (n = z) as -> by (apply u64_spec in Hr; congruence).
  assert (forall z', BigInt amount = Ok z' -> ~ (0 <= z' < 2 ^ 64) -> False) as Hno.
  { intros z' Hz' Hn'. rewrite Hz in Hz'. by injection Hz' as <-. }
  apply wp_u64_number; [intros e; cbn [wp]; split_and!; [done|apply Nat.le_0_l|done|by intros ? ? ?%Hno]|]. intros tl.
  apply wp_u64_string; [intros e; cbn [wp]; split_and!; [done|apply Nat.le_0_l|done|by intros ? ? ?%Hno]|]. intros _ dep _ _.
  eapply wp_mono; [|apply submit_entry_wp].
  intros [hash|e] s' h' (-> & Hle & Hc); cbn [wp];
    (split_and!; [done|done| |by intros ? ? ?%Hno]); [|done].
  intros hash' Hh. exists z, tl, dep. by eauto.
Qed.

(** The private key the service signs with is always 64 hexadecimal
    digits long: of a 128-digit key only the first half is kept, and any
    other length is refused. *)
Theorem private_key_length (raw key : string) (Hk : private_key_hex raw = Ok key) :
  String.length key = 64%nat.
Proof.
  unfold private_key_hex in Hk. set (c := remove_first _ _) in Hk.
  destruct (Nat.eqb_spec (String.length c) 128) as [E|E].
  - injection Hk as <-. apply length_substring; lia.
  - destruct (Nat.eqb_spec (String.length c) 64) as [E'|E']; [|done]. by injection Hk as <-.
Qed.
End Properties.

(** ** Witness *)

Lemma aptos_create_bounded_witness :
  wp (@createEscrow range_sdk unit "0xe" "0xa" "0x1" "0xr" "0xu" "18446744073709551616" "0xh"
        (of_Z 9) "0") (fun r s' h' =>
    s' = tt /\ (submits h' <= 1)%nat /\
    (forall hash, r = Ok hash -> exists z tl dep,
       BigInt "18446744073709551616" = Ok z /\
       executed_entry ("0xe" ++ "::escrow_v3::create_escrow_user_funded")
         [ABytes "0x1"; AString "0xu"; AInt z; ABytes "0xh"; AInt tl; AInt dep;
          AString "0xa"] hash h') /\
    (forall z, BigInt "18446744073709551616" = Ok z -> ~ (0 <= z < 2 ^ 64) ->
       h' = [] /\ exists e, r = Throw e)) tt [].
Proof.
  apply (@aptos_create_bounded range_sdk unit "0xe" "0xa" range_sdk_laws).
Defined.

Lemma private_key_length_witness :
  String.length "0123456789abcdef0123456789abcdef0123456789abcdef0123456789abcdef" = 64%nat.
Proof.
  apply (private_key_length
    "ed25519-priv-0x0123456789abcdef0123456789abcdef0123456789abcdef0123456789abcdef").
  reflexivity.
Defined.
