(* ===== verification/TokenServices.v ===== *)
(** * Token services of the resolver

    [WETHService] and [PermitService] of [backend/resolver/src/services/]:
    transfers with a permit, allowances and balances, wrapping, and the check
    of a permit's signature. ethers is version 6: [receipt.hash] is the hash in
    a receipt and [receipt.transactionHash] is not defined. *)

From Stdlib Require Import ZArith Lia.
From stdpp Require Import base numbers list strings.
From S2P Require Import Prelude.
From S2P Require Import JsNumber.
From S2P Require Import JsString.
From S2P Require Import PartialFill.
From S2P Require Import OrderTypes.
From S2P Require Import Signature.
From S2P Require Import Async.
From S2P Require Import Chain.

Local Open Scope string_scope.
Local Open Scope Z_scope.
Local Open Scope prog_scope.

(** [ethers.Signature.from]: the parts [v], [r], [s], or an error. *)
Class SignatureParts := {
  signature_from : string -> result (Z * string * string)
}.

Definition permit_call (p : Permit) (sig : Z * string * string) : list Arg :=
  [AString (permit_owner p); AString (permit_spender p); AString (permit_value p);
   ANumber (permit_deadline p); AInt sig.1.1; AString sig.1.2; AString sig.2].

Module WETHService.
Section WETH.
Context `{Ethers, SignatureParts} {S : Type} (wethAddress : string).

Definition executePermitTransfer (p : Permit) (sigText to : string) : cprog S string :=
  rethrowing (
    sig <- of_result (signature_from sigText);
    permitTx <- ethSend wethAddress "permit" (permit_call p sig) 0 None;
    ethWait permitTx;;
    transferTx <- ethSend wethAddress "transferFrom"
      [AString (permit_owner p); AString to; AString (permit_value p)] 0 None;
    ethWait transferTx).

Definition getBalance (address : string) : cprog S Z :=
  ethView wethAddress "balanceOf" [AString address].

Definition getAllowance (owner spender : string) : cprog S Z :=
  ethView wethAddress "allowance" [AString owner; AString spender].

(** [deposit({ value: amount })]: ethers reads the amount as a BigInt. *)
Definition wrapETH (amount : string) : cprog S string :=
  value <- of_result (getBigInt amount);
  tx <- ethSend wethAddress "deposit" [] value None;
  ethWait tx.

Definition unwrapWETH (amount : string) : cprog S string :=
  tx <- ethSend wethAddress "withdraw" [AString amount] 0 None;
  ethWait tx.
End WETH.
End WETHService.

Module PermitService.
Section Permits.
Context `{Ethers, Signing, SignatureParts} {S : Type} (permitAddress : string).

(** Returns [receipt.transactionHash]. *)
Definition executePermitTransfer (p : Permit) (sigText token to : string)
    : cprog S (option string) :=
  rethrowing (
    sig <- of_result (signature_from sigText);
    tx <- ethSend permitAddress "transferWithPermit"
      (permit_call p sig ++ [AString token; AString to])%list 0 None;
    ethWait tx;;
    Ret None).

Definition getNonce (address : string) : cprog S Z :=
  ethView permitAddress "getNonce" [AString address].

Definition permit_domain (chainId : Z) : Domain :=
  {| domain_name := "Fusion+ Cross-Chain Swap"; domain_version := "1";
     domain_chainId := chainId; domain_contract := Some permitAddress |}.

Definition PERMIT_TYPE : FieldTypes :=
  ("Permit",
   [("owner", "address"); ("spender", "address"); ("value", "uint256");
    ("nonce", "uint256"); ("deadline", "uint256")]).

Definition permit_message (p : Permit) : Signature.Message :=
  [("owner", VString (permit_owner p)); ("spender", VString (permit_spender p));
   ("value", VString (permit_value p)); ("nonce", VString (permit_nonce p));
   ("deadline", VNumber (permit_deadline p))].

Definition verifyPermit (p : Permit) (sigText : string) (chainId : Z) : bool :=
  match verifyTypedData (permit_domain chainId) PERMIT_TYPE (permit_message p) sigText with
  | Ok recoveredAddress =>
      String.eqb (toLowerCase recoveredAddress) (toLowerCase (permit_owner p))
  | Throw _ => false
  end.
End Permits.
End PermitService.

(** ** Properties *)

Section Properties.
Context `{Ethers, SignatureParts} {S : Type} (wethAddress : string).

Definition permit_request (p : Permit) (sig : Z * string * string) : ChainReq :=
  EthSend wethAddress "permit" (permit_call p sig) 0 None.

Definition transfer_request (p : Permit) (to : string) : ChainReq :=
  EthSend wethAddress "transferFrom"
    [AString (permit_owner p); AString to; AString (permit_value p)] 0 None.

(** The events of a permit that was sent and confirmed. *)
Definition permit_confirmed (p : Permit) (sig : Z * string * string) (tx c : string)
    : list (Ev ChainI) :=
  [Called (I := ChainI) (permit_request p sig) (Ok tx); Called (I := ChainI) (EthWait tx) (Ok c)].

(** A transfer by permit: whatever the node answers, the tokens are moved
    only after a permit of the same owner for the same value, with the parts of
    the given signature, was sent and confirmed; and a hash is returned only
    when the transfer was confirmed too, and it is that transfer's. *)
Theorem permit_then_transfer (p : Permit) (sigText to : string) (s : S) (h : list (Ev ChainI)) :
  wp (WETHService.executePermitTransfer wethAddress p sigText to)
     (fun r s' h' => s' = s /\
        exists l, h' = (h ++ l)%list /\
          (forall l1 x l2, l = (l1 ++ Called (I := ChainI) (transfer_request p to) x :: l2)%list ->
             exists sig tx c, signature_from sigText = Ok sig /\ l1 = permit_confirmed p sig tx c) /\
          (forall hash, r = Ok hash ->
             exists sig tx c tx2, signature_from sigText = Ok sig /\
               l = (permit_confirmed p sig tx c ++
                    [Called (I := ChainI) (transfer_request p to) (Ok tx2);
                     Called (I := ChainI) (EthWait tx2) (Ok hash)])%list))
     s h.
Proof.
  unfold WETHService.executePermitTransfer.
  destruct (signature_from sigText) as [sig|e] eqn:Hs; chain_norm.
  2: { split; [done|]. exists []. rewrite app_nil_r. split_and!; try done. by intros []. }
  fold (permit_request p sig). fold (transfer_request p to).
  intros [tx|e]; chain_norm.
  2: { split; [done|]. eexists. split_and!; [reflexivity| |done].
       intros [|? [|]]; intros; simplify_eq. }
  intros [c|e]; chain_norm.
  2: { split; [done|]. rewrite <- !app_assoc. eexists. split_and!; [reflexivity| |done].
       intros [|? [|? [|]]]; intros; simplify_eq. }
  intros [tx2|e]; chain_norm.
  2: { split; [done|]. rewrite <- !app_assoc. eexists. split_and!; [reflexivity| |done].
       intros [|? [|? [|? [|]]]]; intros; simplify_eq. by exists sig, tx, c. }
  intros [hash|e]; chain_norm; (split; [done|]); rewrite <- !app_assoc; eexists;
    (split_and!; [reflexivity| |]); try done.
  - intros [|? [|? [|? [|? [|]]]]]; intros; simplify_eq. by exists sig, tx, c.
  - intros ? [= <-]. by exists sig, tx, c, tx2.
  - intros [|? [|? [|? [|? [|]]]]]; intros; simplify_eq. by exists sig, tx, c.
Qed.
End Properties.
