(* ===== verification/ChainService.v ===== *)
(** * The chain service

    [ChainServiceSimple] of
    [backend/resolver/src/services/ChainServiceSimple.ts]: the Ethereum escrow
    transactions of the resolver with their balance guards, the delegation to
    the Aptos service and the cross-chain secret reveal. The periodic receipt
    polling only logs and is left out. *)

From Stdlib Require Import ZArith Lia.
From stdpp Require Import base numbers list strings.
From S2P Require Import Prelude.
From S2P Require Import JsNumber.
From S2P Require Import JsString.
From S2P Require Import JsFormat.
From S2P Require Import PartialFill.
From S2P Require Import Async.
From S2P Require Import Chain.
From S2P Require Import AptosChain.

Local Open Scope string_scope.
Local Open Scope Z_scope.
Local Open Scope prog_scope.

Definition ZeroAddress : string := "0x0000000000000000000000000000000000000000".

(** [parseEther('0.002')] and [parseEther('0.0001')] *)
Definition ether_0_002 : Z := 2000000000000000.
Definition ether_0_0001 : Z := 100000000000000.

(** What the constructor reads from the environment and the wallets. *)
Record ChainConfig := {
  signerAddress : string;
  ethEscrowAddress : string;
  gaslessEscrowAddress : string;
  gaslessEscrowEnv : option string;
  layerZeroAdapter : option string;
  aptosEscrowAddress : string;
  aptosAccountAddress : string
}.

Definition present (x : option string) : option string :=
  match x with Some s => if str_truthy s then Some s else None | None => None end.

Section Service.
Context `{Ethers, AptosSdk, EthersBytes} {S : Type} (cfg : ChainConfig).

(** [ethers.formatEther(x)] in a log line throws when [x] cannot be read. *)
Definition formatEther (x : string) : cprog S unit := z <- of_result (getBigInt x); Ret tt.

Definition createPartialFillOrderEth (baseOrderId depositor beneficiary token totalAmount
    merkleRoot : string) (numFills timelock deadline : number) (v : number) (r s : string)
    : cprog S string :=
  formatEther totalAmount;;
  nonce <- ethView (gaslessEscrowAddress cfg) "getNonce" [AString depositor];
  tx <- ethSend (gaslessEscrowAddress cfg) "createPartialFillOrderWithSignature"
    [AString baseOrderId; AString depositor; AString beneficiary; AString token;
     AString totalAmount; AString merkleRoot; ANumber numFills; ANumber timelock;
     AString (toString nonce); ANumber deadline; ANumber v; AString r; AString s] 0 None;
  ethWait tx;;
  Ret tx.

Definition createPartialFillEscrowEth (baseOrderId : string) (fillIndex : number)
    (amount hashlock : string) (merkleProof : list string) (safetyDeposit : string)
    : cprog S string :=
  formatEther amount;;
  value <- of_result (getBigInt safetyDeposit);
  tx <- ethSend (gaslessEscrowAddress cfg) "createPartialFillEscrow"
    [AString baseOrderId; ANumber fillIndex; AString amount; AString hashlock;
     AList merkleProof] value None;
  ethWait tx;;
  Ret tx.

(** ** createEthereumEscrow *)

Definition escrow_args (escrowId : string) (depositor : option string)
    (beneficiary token amount hashlock : string) (timelock : number) : list Arg :=
  ([AString escrowId] ++ match depositor with Some d => [AString d] | None => [] end ++
   [AString beneficiary; AString token; AString amount; AString hashlock; ANumber timelock])%list.

(** [getBigInt(amount) + getBigInt(safetyDeposit)] *)
Definition eth_value (amount safetyDeposit : string) : result Z :=
  result_bind (getBigInt amount) (fun a =>
  result_bind (getBigInt safetyDeposit) (fun d => Ok (a + d))).

(** The branch for a token without a depositor: gas price with 20% buffer,
    balance checks, then the transaction. *)
Definition send_guarded_erc20 (escrowId beneficiary token amount hashlock : string)
    (timelock : number) (safetyDeposit : string) : cprog S string :=
  rethrowing (
    feeData <- ethFeeData;
    let gasPrice := match feeData with
                    | Some p => if p =? 0 then None else Some (Z.quot (p * 120) 100)
                    | None => None
                    end in
    resolverBalance <- ethBalance (signerAddress cfg);
    deposit <- of_result (getBigInt safetyDeposit);
    let totalNeeded := deposit + ether_0_002 in
    if resolverBalance <? totalNeeded then Fail (Error "Insufficient ETH balance")
    else
      tokenBalance <- ethView token "balanceOf" [AString (signerAddress cfg)];
      needed <- of_result (getBigInt amount);
      if tokenBalance <? needed then Fail (Error "Insufficient token balance")
      else
        ethSend (ethEscrowAddress cfg) "createEscrow"
          (escrow_args escrowId None beneficiary token amount hashlock timelock)
          deposit gasPrice).

Definition createEthereumEscrow (escrowId beneficiary token amount hashlock : string)
    (timelock : number) (safetyDeposit : string) (depositor : option string) : cprog S string :=
  formatEther amount;;
  signerBalance <- ethBalance (signerAddress cfg);
  formatEther safetyDeposit;;
  tx <- match present depositor with
        | Some d =>
            if String.eqb token ZeroAddress then
              value <- of_result (eth_value amount safetyDeposit);
              ethSend (ethEscrowAddress cfg) "createEscrowFor"
                (escrow_args escrowId (Some d) beneficiary token amount hashlock timelock)
                value None
            else
              rethrowing (
                value <- of_result (getBigInt safetyDeposit);
                ethSend (ethEscrowAddress cfg) "createEscrowFor"
                  (escrow_args escrowId (Some d) beneficiary token amount hashlock timelock)
                  value None)
        | None =>
            if String.eqb token ZeroAddress then
              value <- of_result (eth_value amount safetyDeposit);
              ethSend (ethEscrowAddress cfg) "createEscrow"
                (escrow_args escrowId None beneficiary token amount hashlock timelock) value None
            else send_guarded_erc20 escrowId beneficiary token amount hashlock timelock
                   safetyDeposit
        end;
  rethrowing (ethWait tx).

(** ** Withdrawals and delegated escrows *)

Definition withdrawEthereumEscrow (escrowId secret : string) : cprog S string :=
  tx <- ethSend (ethEscrowAddress cfg) "withdraw" [AString escrowId; AString secret] 0 None;
  ethWait tx.

Definition withdrawGaslessEscrow (escrowId secret : string) : cprog S string :=
  match present (gaslessEscrowEnv cfg) with
  | None => Fail (Error "Gasless escrow contract address not configured")
  | Some contract =>
      tx <- ethSend contract "withdraw" [AString escrowId; AString secret] 0 None;
      ethWait tx
  end.

Definition createEthereumEscrowFor (escrowId depositor beneficiary token amount hashlock : string)
    (timelock : number) : cprog S string :=
  tx <- ethSend (ethEscrowAddress cfg) "createEscrowFor"
    (escrow_args escrowId (Some depositor) beneficiary token amount hashlock timelock) 0 None;
  ethWait tx.

Definition createAptosEscrow : bytes -> string -> string -> string -> bytes -> number -> string ->
    cprog S string :=
  createEscrow (aptosEscrowAddress cfg) (aptosAccountAddress cfg).

Definition createAptosEscrowDelegated : bytes -> string -> string -> string -> bytes -> number ->
    string -> cprog S string :=
  createEscrowDelegated (aptosEscrowAddress cfg).

Definition checkAptosEscrow (escrowId : bytes) : cprog S bool :=
  checkAptosEscrowExists (aptosEscrowAddress cfg) escrowId.

Definition withdrawAptosEscrow (escrowId secret : bytes) : cprog S string :=
  withdrawEscrow (aptosEscrowAddress cfg) (aptosAccountAddress cfg) escrowId secret.

Definition getEthereumBalance (address : string) (token : option string) : cprog S Z :=
  match present token with
  | None => ethBalance address
  | Some t =>
      if String.eqb t ZeroAddress then ethBalance address
      else ethView t "balanceOf" [AString address]
  end.

Definition getAptosBalance (address : string) : cprog S number :=
  balance <- AptosChain.getBalance address;
  Ret (parseInt balance).

(** The endpoint table is keyed by chain names, so a numeric id is used as it is. *)
Definition sendCrossChainSecretReveal (destinationChainId : Z) (escrowId : string) (secret : bytes)
    : cprog S (option string) :=
  match present (layerZeroAdapter cfg) with
  | None => Ret None
  | Some adapter =>
      try_catch
        (e <- of_result (getBytes escrowId);
         tx <- ethSend adapter "sendSecretReveal"
           [AInt destinationChainId; AString (hexlify e); AString (hexlify secret)]
           ether_0_0001 None;
         ethWait tx;;
         Ret (Some tx))
        (fun _ => Ret None)
  end.
End Service.

(** ** Facts *)

Definition is_send (e : Ev ChainI) : bool :=
  match e with Called (EthSend _ _ _ _ _) _ => true | _ => false end.

(** The value attached to a transaction, if the event is one. *)
Definition sent_value (e : Ev ChainI) : option Z :=
  match e with Called (EthSend _ _ _ value _) _ => Some value | _ => None end.

Definition sent_values (h : list (Ev ChainI)) : list Z := omap sent_value h.

Lemma sent_values_app h1 h2 : sent_values (h1 ++ h2)%list = (sent_values h1 ++ sent_values h2)%list.
Proof. unfold sent_values. apply omap_app. Qed.

(** The history shows an ETH balance of at least [eth] and a token balance of
    at least [tok]. *)
Definition funded (eth tok : Z) (h : list (Ev ChainI)) : bool :=
  existsb (fun e : Ev ChainI => match e with
                    | Called (EthBalance _) (Ok b) => eth <=? b
                    | _ => false
                    end) h &&
  existsb (fun e : Ev ChainI => match e with
                    | Called (EthView _ _ _) (Ok b) => tok <=? b
                    | _ => false
                    end) h.

(** ** Properties *)

Section Properties.
Context `{Ethers, AptosSdk, EthersBytes} {S : Type} (cfg : ChainConfig).

(** Guards of a token escrow the resolver funds itself: whatever the node
    answers, at most one transaction is sent, its value is the safety
    deposit, and it is sent only after the node reported an ETH balance that
    covers the deposit and the gas estimate and a token balance that covers
    the amount. *)
Theorem erc20_escrow_funded (escrowId beneficiary token amount hashlock : string)
    (timelock : number) (safetyDeposit : string) (deposit needed : Z) (s : S)
    (Htoken : String.eqb token ZeroAddress = false)
    (Hd : getBigInt safetyDeposit = Ok deposit) (Ha : getBigInt amount = Ok needed) :
  wp (createEthereumEscrow cfg escrowId beneficiary token amount hashlock timelock safetyDeposit
        None) (fun r s' h' =>
    s' = s /\
    (sent_values h' = [] \/
     sent_values h' = [deposit] /\ funded (deposit + ether_0_002) needed (drop 1 h') = true) /\
    (forall tx, r = Ok tx -> sent_values h' = [deposit])) s [].
Proof.
  unfold createEthereumEscrow, formatEther. rewrite Ha. chain_norm.
  chain_call sb e; [|split_and!; [done|by left|done]]. rewrite Hd. chain_norm.
  cbn [present]. rewrite Htoken. unfold send_guarded_erc20.
  chain_call fee e; [|split_and!; [done|by left|done]].
  chain_call rb e; [|split_and!; [done|by left|done]]. rewrite Hd. chain_norm.
  destruct (Z.ltb_spec rb (deposit + ether_0_002)) as [Hlt|Hge];
    [chain_norm; split_and!; [done|by left|done]|].
  chain_call tb e; [|split_and!; [done|by left|done]]. rewrite Ha. chain_norm.
  destruct (Z.ltb_spec tb needed) as [Hlt|Hge'];
    [chain_norm; split_and!; [done|by left|done]|].
  assert ((deposit + ether_0_002 <=? rb) = true) as E1 by (by apply Z.leb_le).
  assert ((needed <=? tb) = true) as E2 by (by apply Z.leb_le).
  chain_call tx e; [chain_call hash e|]; (split_and!; [done| |done]); right;
    (split; [reflexivity|]); unfold funded; simpl; by rewrite E1, E2.
Qed.

(** Value of a native-currency escrow: with or without a depositor, at
    most one transaction is sent and it carries exactly the escrowed amount
    plus the safety deposit; amounts that cannot be read send nothing. *)
Theorem eth_escrow_value (escrowId beneficiary amount hashlock : string)
    (timelock : number) (safetyDeposit : string) (depositor : option string) (s : S) :
  wp (createEthereumEscrow cfg escrowId beneficiary ZeroAddress amount hashlock timelock
        safetyDeposit depositor) (fun r s' h' =>
    s' = s /\
    match eth_value amount safetyDeposit with
    | Ok value => sent_values h' = [] \/ sent_values h' = [value]
    | Throw e => sent_values h' = [] /\ exists e', r = Throw e'
    end) s [].
Proof.
  unfold createEthereumEscrow, formatEther, eth_value.
  destruct (getBigInt amount) as [a|e]; chain_norm; cbn [result_bind]; [|by eauto].
  chain_call sb e.
  - destruct (getBigInt safetyDeposit) as [d|e]; chain_norm; cbn [result_bind]; [|by eauto].
    rewrite String.eqb_refl. destruct (present depositor) as [d'|].
    all: chain_norm.
    all: chain_call tx e; [chain_call hash e|]; (split; [done|by right]).
  - split; [done|]. destruct (getBigInt safetyDeposit); cbn [result_bind]; eauto.
Qed.
End Properties.

(** ** Witness *)

Definition sample_config : ChainConfig := {|
  signerAddress := "0xres"; ethEscrowAddress := "0xesc"; gaslessEscrowAddress := "0xg";
  gaslessEscrowEnv := Some "0xg"; layerZeroAdapter := None;
  aptosEscrowAddress := "0xape"; aptosAccountAddress := "0xapa"
|}.

Lemma erc20_escrow_funded_witness :
  wp (@createEthereumEscrow tagged_ethers unit sample_config "0xe" "0xu" "0xweth" "50" "0xh"
        (of_Z 9) "10" None) (fun r s' h' =>
    s' = tt /\
    (sent_values h' = [] \/
     sent_values h' = [10] /\ funded (10 + ether_0_002) 50 (drop 1 h') = true) /\
    (forall tx, r = Ok tx -> sent_values h' = [10])) tt [].
Proof.
  apply (@erc20_escrow_funded tagged_ethers unit sample_config "0xe" "0xu" "0xweth" "50" "0xh"
           (of_Z 9) "10" 10 50 tt); reflexivity.
Defined.
