(* ===== verification/FillStrategy.v ===== *)
(** * The resolver's fill decision

    [calculateOptimalFillPercentage] of
    [backend/resolver/src/services/ResolverServiceV2.ts] as a pure function of
    what it reads (balance, required amount, current fill, clock), with the
    resolver's identity. The running program, which fetches these, is in the
    resolver's file.

    An order lists its active resolvers as strings (the schema says so), so the
    source's look-ups by number never match and are left out. *)

From Stdlib Require Import ZArith Lia.
From stdpp Require Import base numbers list strings.
From S2P Require Import Prelude.
From S2P Require Import JsNumber.
From S2P Require Import JsString.
From S2P Require Import DutchAuction.
From S2P Require Import OrderTypes.

Local Open Scope string_scope.
Local Open Scope Z_scope.
Local Open Scope result_scope.

(** ** Identity *)

Record Identity := { resolverName : string; resolverPort : Z }.

Inductive Strategy := aggressive | patient | opportunistic.

Definition getResolverStrategy (me : Identity) : Strategy :=
  if String.eqb (resolverName me) "Resolver-1" || (resolverPort me =? 8081) then aggressive
  else if String.eqb (resolverName me) "Resolver-2" || (resolverPort me =? 8082) then patient
  else opportunistic.

Definition getResolverIndex (me : Identity) : nat :=
  if String.eqb (resolverName me) "Resolver-1" || (resolverPort me =? 8081) then 0%nat
  else if String.eqb (resolverName me) "Resolver-2" || (resolverPort me =? 8082) then 1%nat
  else 2%nat.

Definition resolverNumber (me : Identity) : nat := S (getResolverIndex me).

Definition number_string (me : Identity) : string := toString (Z.of_nat (resolverNumber me)).
Definition resolverIdString (me : Identity) : string := "resolver-" ++ number_string me.

(** ** The pieces of the decision *)

(** [(order as any).activeResolvers || []] *)
Definition active_list (order : Order) : list string := default [] (activeResolvers order).

Definition isActiveResolver (me : Identity) (active : list string) : bool :=
  bool_decide (number_string me ∈ active) || bool_decide (resolverIdString me ∈ active).

(** [activeResolvers.length || 3] *)
Definition activeResolverCount (active : list string) : nat :=
  match length active with O => 3%nat | n => n end.

Definition partial_enabled (order : Order) : bool :=
  partialFillAllowed order || partialFillEnabled order.

(** The base share; [None] is an early [return 0]. *)
Definition baseFill (me : Identity) (partialEnabled : bool) (current : number) (count : nat)
    : option number :=
  if negb partialEnabled then
    if negb (resolverNumber me =? 1)%nat then None
    else if eqb current (of_Z 0) then Some (of_Z 100)
    else None
  else if (count =? 1)%nat then Some (of_Z 50)
  else if (count =? 2)%nat then Some (of_Z 50)
  else Some (div (of_Z 100) (of_Z (Z.of_nat count))).

Definition shouldFillNow (strategy : Strategy) (auctionStatus : AuctionStatus)
    (isPartiallyFilled : bool) : bool :=
  let done := percentComplete auctionStatus in
  match strategy with
  | aggressive => ltb done (of_Z 40)
  | patient => if isPartiallyFilled then geb done (of_Z 5) else gtb done (of_Z 60)
  | opportunistic =>
      ltb (nextRateDropIn auctionStatus) (of_Z 5) ||
      (if isPartiallyFilled then geb done (of_Z 3)
       else gtb done (of_Z 30) && ltb done (of_Z 80))
  end.

(** [list.indexOf(x)] *)
Fixpoint indexOf (x : string) (l : list string) : option nat :=
  match l with
  | [] => None
  | y :: rest => if String.eqb y x then Some 0%nat else S <$> indexOf x rest
  end.

Definition activeResolverIndex (me : Identity) (active : list string) : option nat :=
  match active with
  | [] => Some (getResolverIndex me)
  | _ => match indexOf (number_string me) active with
         | Some i => Some i
         | None => indexOf (resolverIdString me) active
         end
  end.

(** [(myStartFill, myEndFill)] *)
Definition fillRange (partialEnabled : bool) (base : number) (index count : nat)
    : number * number :=
  if negb partialEnabled && eqb base (of_Z 100) then (of_Z 0, of_Z 100)
  else
    let myStartFill := mul base (of_Z (Z.of_nat index)) in
    let myEndFill :=
      if (index =? count - 1)%nat then of_Z 100 else mul base (of_Z (Z.of_nat index + 1)) in
    (myStartFill, myEndFill).

(** The fallback of a Dutch auction whose earlier resolvers are late. *)
Definition fallbackFill (auctionStatus : AuctionStatus) (current myEndFill base : number)
    : option number :=
  let done := percentComplete auctionStatus in
  let auctionProgressedEnough := gtb done (of_Z 15) in
  let partialFillStalled := gtb current (of_Z 0) && gtb done (of_Z 8) in
  if auctionProgressedEnough || partialFillStalled then
    let availableFillPercentage := min (sub myEndFill current) base in
    if gtb availableFillPercentage (of_Z 0) then Some availableFillPercentage else None
  else None.

Definition enabled_auction (order : Order) : option DutchAuction :=
  match dutchAuction order with
  | Some a => if enabled a then Some a else None
  | None => None
  end.

Definition targetAmount (requiredAmount : Z) (base : number) : result Z :=
  bp <-? BigInt_of_number (floor (mul base (of_Z 100)));
  bigint_div (requiredAmount * bp) 10000.

(** ** The decision *)

(** [t1] and [t2] are the two readings of the clock, in seconds. *)
Definition decide_fill (me : Identity) (order : Order) (balance requiredAmount : Z)
    (current t1 t2 : number) : result number :=
  let active := active_list order in
  let count := activeResolverCount active in
  if negb (length active =? 0)%nat && negb (isActiveResolver me active) then Ok (of_Z 0)
  else
    match baseFill me (partial_enabled order) current count with
    | None => Ok (of_Z 0)
    | Some base =>
        let waits :=
          match enabled_auction order with
          | Some a =>
              let isPartiallyFilled := gtb (or_else (filledPercentage order) (of_Z 0)) (of_Z 0) in
              negb (shouldFillNow (getResolverStrategy me) (getAuctionStatus a t1)
                      isPartiallyFilled)
          | None => false
          end in
        if waits then Ok (of_Z 0)
        else
          match activeResolverIndex me active with
          | None => Ok (of_Z 0)
          | Some index =>
              let '(myStartFill, myEndFill) :=
                fillRange (partial_enabled order) base index count in
              if ltb current myStartFill then
                match enabled_auction order with
                | Some a =>
                    Ok (default (of_Z 0)
                          (fallbackFill (getAuctionStatus a t2) current myEndFill base))
                | None => Ok (of_Z 0)
                end
              else if geb current myEndFill then Ok (of_Z 0)
              else
                target <-? targetAmount requiredAmount base;
                if balance <? target then Ok (of_Z 0) else Ok base
          end
    end.

(** ** Facts *)

Lemma div_100_le (n : Z) : 1 <= n -> small n ->
  leb (Finite 0) (div (of_Z 100) (of_Z n)) = true /\
  leb (div (of_Z 100) (of_Z n)) (of_Z 100) = true /\
  is_finite (div (of_Z 100) (of_Z n)) = true.
Proof.
  intros Hn Hs. pose proof scale_pos as Hsc.
  assert (small 100) as H100 by (unfold small; lia).
  rewrite (of_Z_small 100 H100), (of_Z_small n Hs).
  assert (round (100 * scale) 1 = Finite (100 * scale)) as E100
    by (apply round_double, small_double, H100).
  assert (round 0 1 = Finite 0) as E0 by (apply round_double; reflexivity).
  assert (leb (Finite 0) (div (Finite (100 * scale)) (Finite (n * scale))) = true) as Hlo.
  { cbn [div]. destruct (Z.eqb_spec (n * scale) 0); [nia|].
    rewrite Z.sgn_pos, Z.abs_eq by nia. rewrite <- E0. apply round_mono; nia. }
  assert (leb (div (Finite (100 * scale)) (Finite (n * scale))) (Finite (100 * scale)) = true) as Hhi.
  { cbn [div]. destruct (Z.eqb_spec (n * scale) 0); [nia|].
    rewrite Z.sgn_pos, Z.abs_eq by nia. rewrite <- E100. apply round_mono; nia. }
  split_and!; [exact Hlo|exact Hhi|].
  eapply leb_finite_between; [exact Hlo|exact Hhi|reflexivity|reflexivity].
Qed.

Lemma leb_0_of_Z (n : Z) : 0 <= n -> small n -> leb (Finite 0) (of_Z n) = true.
Proof.
  intros Hn Hs. rewrite <- of_Z_0, leb_of_Z; [by apply Z.leb_le|unfold small; lia|exact Hs].
Qed.

(** The base share is a percentage. *)
Lemma baseFill_bounds me enabled current count base :
  (1 <= count)%nat -> Z.of_nat count <= 2 ^ 53 ->
  baseFill me enabled current count = Some base ->
  leb (Finite 0) base = true /\ leb base (of_Z 100) = true /\ is_finite base = true.
Proof.
  intros Hc Hs Hb.
  assert (forall n, 0 <= n <= 100 -> leb (Finite 0) (of_Z n) = true /\
            leb (of_Z n) (of_Z 100) = true /\ is_finite (of_Z n) = true) as Hn.
  { intros n Hn. split_and!; [apply leb_0_of_Z; unfold small; lia| |apply of_Z_finite; unfold small; lia].
    rewrite leb_of_Z by (unfold small; lia). apply Z.leb_le. lia. }
  unfold baseFill in Hb. destruct (negb enabled).
  - destruct (negb (_ =? _)%nat); [discriminate Hb|].
    destruct (eqb current (of_Z 0)); [|discriminate Hb]. apply (inj Some) in Hb; subst base. exact (Hn 100 ltac:(lia)).
  - destruct (count =? 1)%nat; [apply (inj Some) in Hb; subst base; exact (Hn 50 ltac:(lia))|].
    destruct (count =? 2)%nat; [apply (inj Some) in Hb; subst base; exact (Hn 50 ltac:(lia))|].
    apply (inj Some) in Hb; subst base. apply div_100_le; [lia|unfold small; lia].
Qed.

Lemma activeResolverCount_pos active : (1 <= activeResolverCount active)%nat.
Proof. unfold activeResolverCount. destruct (length active); lia. Qed.

Lemma activeResolverCount_le active :
  Z.of_nat (length active) <= 2 ^ 53 -> Z.of_nat (activeResolverCount active) <= 2 ^ 53.
Proof. unfold activeResolverCount. destruct (length active); lia. Qed.

(** The fallback stays between nothing and the base share. *)
Lemma fallbackFill_bounds st current e base r :
  fallbackFill st current e base = Some r -> leb (of_Z 0) r = true /\ leb r base = true.
Proof.
  unfold fallbackFill. destruct (_ || _); [|discriminate].
  set (m := min _ base). destruct (gtb m (of_Z 0)) eqn:Hg; [|discriminate]. intros [= <-].
  unfold gtb, ltb in Hg. apply andb_true_iff in Hg as [Hle _]. split; [exact Hle|].
  destruct (leb_is_number _ _ Hle) as [_ Hm]. subst m.
  apply min_r; destruct (sub e current), base; try reflexivity; exact Hm.
Qed.

Lemma indexOf_lt x l i : indexOf x l = Some i -> (i < length l)%nat.
Proof.
  revert i. induction l as [|y l IH]; intros i Hi; simpl in *; [discriminate|].
  destruct (String.eqb y x); [injection Hi as <-; lia|].
  destruct (indexOf x l) as [j|]; [|discriminate]. injection Hi as <-.
  specialize (IH j eq_refl). lia.
Qed.

Lemma getResolverIndex_lt me : (getResolverIndex me < 3)%nat.
Proof. unfold getResolverIndex. repeat case_match; lia. Qed.

Lemma activeResolverIndex_lt me active i :
  activeResolverIndex me active = Some i -> (i < activeResolverCount active)%nat.
Proof.
  unfold activeResolverIndex, activeResolverCount. destruct active as [|a l].
  - intros [= <-]. apply getResolverIndex_lt.
  - destruct (indexOf (number_string me) (a :: l)) as [j|] eqn:E.
    + intros [= <-]. by apply indexOf_lt in E.
    + intros E'. by apply indexOf_lt in E'.
Qed.

(** A positive decision without an auction is made inside one's own range. *)
Lemma decide_fill_turn me order balance required current t1 t2 r :
  partial_enabled order = true -> enabled_auction order = None ->
  decide_fill me order balance required current t1 t2 = Ok r -> r <> of_Z 0 ->
  exists base i,
    baseFill me true current (activeResolverCount (active_list order)) = Some base /\
    activeResolverIndex me (active_list order) = Some i /\ r = base /\
    let '(a, b) := fillRange true base i (activeResolverCount (active_list order)) in
    ltb current a = false /\ geb current b = false.
Proof.
  intros Hp Ha Hd Hr. unfold decide_fill in Hd. rewrite Hp, Ha in Hd.
  destruct (negb _ && _); [congruence|].
  destruct (baseFill _ _ _ _) as [base|]; [|congruence].
  destruct (activeResolverIndex _ _) as [i|]; [|congruence].
  exists base, i. destruct (fillRange _ _ _ _) as [a b].
  destruct (ltb current a); [congruence|]. destruct (geb current b); [congruence|].
  destruct (targetAmount required base) as [t|e]; simpl in Hd; [|discriminate].
  destruct (balance <? t); [congruence|]. by injection Hd as ->.
Qed.

(** The range of an earlier position ends where a later one has begun. *)
Lemma ranges_ordered base i j count :
  (i < j)%nat -> (j < count)%nat -> Z.of_nat count <= 2 ^ 53 ->
  leb (Finite 0) base = true -> is_finite base = true ->
  leb (snd (fillRange true base i count)) (fst (fillRange true base j count)) = true.
Proof.
  intros Hij Hj Hc H0 Hf. unfold fillRange. cbn [negb andb fst snd].
  destruct (Nat.eqb_spec i (count - 1)); [lia|]. rewrite !(mul_comm base).
  assert (small (Z.of_nat i + 1) /\ small (Z.of_nat j)) as [S1 S2] by (unfold small; lia).
  apply mul_mono_nonneg; [|exact H0|exact Hf|by apply of_Z_finite|by apply of_Z_finite].
  rewrite leb_of_Z by done. apply Z.leb_le. lia.
Qed.

(** A resolver whose turn it is and that can pay takes its base share. *)
Lemma decide_fill_due me order balance required current t1 t2 base i t :
  partial_enabled order = true -> enabled_auction order = None -> active_list order = [] ->
  baseFill me true current 3 = Some base ->
  getResolverIndex me = i ->
  ltb current (fst (fillRange true base i 3)) = false ->
  geb current (snd (fillRange true base i 3)) = false ->
  targetAmount required base = Ok t -> t <= balance ->
  decide_fill me order balance required current t1 t2 = Ok base.
Proof.
  intros Hp Ha Hact Hb Hi Hlo Hhi Ht Hle. unfold decide_fill. rewrite Hp, Ha, Hact.
  cbn [length Nat.eqb negb andb activeResolverCount activeResolverIndex]. rewrite Hb, Hi.
  destruct (fillRange true base i 3) as [a b]. cbn [fst snd] in *. rewrite Hlo, Hhi, Ht.
  cbn [result_bind]. by rewrite (proj2 (Z.ltb_ge balance t)).
Qed.

Definition third : number := div (of_Z 100) (of_Z 3).

(** A third of a non-negative amount costs at most the amount. *)
Lemma target_third required :
  0 <= required -> exists t, targetAmount required third = Ok t /\ t <= required.
Proof.
  intros Hr. unfold targetAmount.
  assert (BigInt_of_number (floor (mul third (of_Z 100))) = Ok 3333) as -> by (vm_compute; reflexivity).
  cbn [result_bind]. unfold bigint_div. cbn [Z.eqb]. eexists. split; [reflexivity|].
  rewrite Z.quot_div_nonneg by lia. apply Z.div_le_upper_bound; lia.
Qed.

Definition resolver_1 : Identity := {| resolverName := "Resolver-1"; resolverPort := 8081 |}.
Definition resolver_2 : Identity := {| resolverName := "Resolver-2"; resolverPort := 8082 |}.
Definition resolver_3 : Identity := {| resolverName := "Resolver-3"; resolverPort := 8083 |}.

(** ** Properties *)

(** A resolver never decides on more than the whole order: the returned
    percentage is between 0 and 100, on every branch of the decision and
    whatever balances, fill level and clock it reads. *)
Theorem fill_decision_bounded (me : Identity) (order : Order) (balance required : Z)
    (current t1 t2 r : number)
    (Hlen : Z.of_nat (length (active_list order)) <= 2 ^ 53)
    (Hd : decide_fill me order balance required current t1 t2 = Ok r) :
  leb (of_Z 0) r = true /\ leb r (of_Z 100) = true.
Proof.
  assert (leb (of_Z 0) (of_Z 0) = true /\ leb (of_Z 0) (of_Z 100) = true) as Hzero.
  { split; rewrite leb_of_Z by (unfold small; lia); reflexivity. }
  pose proof (activeResolverCount_pos (active_list order)) as Hc.
  pose proof (activeResolverCount_le _ Hlen) as Hc'.
  unfold decide_fill in Hd.
  destruct (negb _ && _); [apply (inj Ok) in Hd; subst r; exact Hzero|].
  destruct (baseFill _ _ _ _) as [base|] eqn:Hb; [|apply (inj Ok) in Hd; subst r; exact Hzero].
  destruct (baseFill_bounds _ _ _ _ _ Hc Hc' Hb) as (Hlo & Hhi & _). rewrite <- of_Z_0 in Hlo.
  destruct (match enabled_auction order with Some _ => _ | None => _ end);
    [apply (inj Ok) in Hd; subst r; exact Hzero|].
  destruct (activeResolverIndex _ _) as [i|]; [|apply (inj Ok) in Hd; subst r; exact Hzero].
  destruct (fillRange _ _ _ _) as [a b]. destruct (ltb current a).
  - destruct (enabled_auction order) as [au|]; [|apply (inj Ok) in Hd; subst r; exact Hzero].
    apply (inj Ok) in Hd. destruct (fallbackFill _ _ _ _) as [f|] eqn:Hf; cbn [default] in Hd; subst r;
      [|exact Hzero].
    apply fallbackFill_bounds in Hf as [H1 H2]. split; [exact H1|]. exact (leb_trans _ _ _ H2 Hhi).
  - destruct (geb current b); [apply (inj Ok) in Hd; subst r; exact Hzero|].
    destruct (targetAmount required base) as [t|e]; cbn [result_bind] in Hd; [|discriminate Hd].
    destruct (balance <? t); apply (inj Ok) in Hd; subst r; [exact Hzero|]. split; [exact Hlo|exact Hhi].
Qed.

(** C24. Turns are exclusive: on a partially fillable order without an auction,
    two resolvers that read the same fill level and both decide to fill hold
    the same position in the order's list. At any level at most one position
    is due. *)
Theorem turns_exclusive (me1 me2 : Identity) (order : Order) (b1 b2 q1 q2 : Z)
    (current t1 t2 t3 t4 r1 r2 : number)
    (Hlen : Z.of_nat (length (active_list order)) <= 2 ^ 53)
    (Hp : partial_enabled order = true) (Ha : enabled_auction order = None)
    (Hcur : is_number current = true)
    (Hd1 : decide_fill me1 order b1 q1 current t1 t2 = Ok r1) (Hr1 : r1 <> of_Z 0)
    (Hd2 : decide_fill me2 order b2 q2 current t3 t4 = Ok r2) (Hr2 : r2 <> of_Z 0) :
  activeResolverIndex me1 (active_list order) = activeResolverIndex me2 (active_list order).
Proof.
  destruct (decide_fill_turn _ _ _ _ _ _ _ _ Hp Ha Hd1 Hr1) as (base & i & Hb1 & Hi & _ & Hrange1).
  destruct (decide_fill_turn _ _ _ _ _ _ _ _ Hp Ha Hd2 Hr2) as (base' & j & Hb2 & Hj & _ & Hrange2).
  assert (base' = base) as ->.
  { unfold baseFill in Hb1, Hb2. cbn [negb] in Hb1, Hb2. rewrite Hb1 in Hb2.
    by apply (inj Some) in Hb2. }
  pose proof (activeResolverCount_le _ Hlen) as Hc.
  pose proof (activeResolverCount_pos (active_list order)) as Hc1.
  destruct (baseFill_bounds _ _ _ _ _ Hc1 Hc Hb1) as (H0 & _ & Hf).
  pose proof (activeResolverIndex_lt _ _ _ Hi) as Hil.
  pose proof (activeResolverIndex_lt _ _ _ Hj) as Hjl.
  assert (forall x y, (x < y)%nat -> (y < activeResolverCount (active_list order))%nat ->
    geb current (snd (fillRange true base x (activeResolverCount (active_list order)))) = false ->
    ltb current (fst (fillRange true base y (activeResolverCount (active_list order)))) = false ->
    False) as Hno.
  { intros x y Hxy Hy Hge Hlt. pose proof (ranges_ordered base x y _ Hxy Hy Hc H0 Hf) as Hle.
    destruct (leb_is_number _ _ Hle) as [_ Hn].
    rewrite ltb_not_leb in Hlt by assumption. apply negb_false_iff in Hlt.
    pose proof (leb_trans _ _ _ Hle Hlt) as Hge'. unfold geb in Hge.
    rewrite Hge' in Hge. discriminate Hge. }
  rewrite Hi, Hj. f_equal.
  destruct (fillRange true base i _) as [a1 e1] eqn:E1, (fillRange true base j _) as [a2 e2] eqn:E2.
  destruct Hrange1, Hrange2. destruct (Nat.lt_trichotomy i j) as [Hlt|[Heq|Hlt]]; [|exact Heq|];
    exfalso; eapply Hno; try exact Hlt; rewrite ?E1, ?E2; assumption.
Qed.

(** C25. Liveness of the three-resolver rotation: on an order that lists no
    resolvers, without an auction and with enough funds, the three resolvers
    asked in turn each take a third, in binary64 arithmetic, and the fill level
    they reach is exactly 100. *)
Theorem three_turns_fill_order (order : Order) (balance required : Z) (t1 t2 : number)
    (Hp : partial_enabled order = true) (Ha : enabled_auction order = None)
    (Hact : active_list order = []) (Hreq : 0 <= required <= balance) :
  let c1 := add (of_Z 0) third in
  let c2 := add c1 third in
  decide_fill resolver_1 order balance required (of_Z 0) t1 t2 = Ok third /\
  decide_fill resolver_2 order balance required c1 t1 t2 = Ok third /\
  decide_fill resolver_3 order balance required c2 t1 t2 = Ok third /\
  add c2 third = of_Z 100.
Proof.
  intros c1 c2. subst c2 c1. destruct (target_third required) as (t & Ht & Hle); [lia|].
  split_and!.
  - apply (decide_fill_due _ _ _ _ _ _ _ _ 0%nat t Hp Ha Hact); [reflexivity|reflexivity
      |vm_compute; reflexivity|vm_compute; reflexivity|exact Ht|lia].
  - apply (decide_fill_due _ _ _ _ _ _ _ _ 1%nat t Hp Ha Hact); [reflexivity|reflexivity
      |vm_compute; reflexivity|vm_compute; reflexivity|exact Ht|lia].
  - apply (decide_fill_due _ _ _ _ _ _ _ _ 2%nat t Hp Ha Hact); [reflexivity|reflexivity
      |vm_compute; reflexivity|vm_compute; reflexivity|exact Ht|lia].
  - vm_compute. reflexivity.
Qed.

(** The share is not cut to what is left: when the fill level is 90 (an
    earlier fill was larger than its share), the third resolver still decides
    on a third of the order, and the cumulative fill exceeds 100. *)
Theorem late_turn_overfills (order : Order) (balance required : Z) (t1 t2 : number)
    (Hp : partial_enabled order = true) (Ha : enabled_auction order = None)
    (Hact : active_list order = []) (Hreq : 0 <= required <= balance) :
  decide_fill resolver_3 order balance required (of_Z 90) t1 t2 = Ok third /\
  gtb (add (of_Z 90) third) (of_Z 100) = true.
Proof.
  destruct (target_third required) as (t & Ht & Hle); [lia|]. split.
  - apply (decide_fill_due _ _ _ _ _ _ _ _ 2%nat t Hp Ha Hact); [reflexivity|reflexivity
      |vm_compute; reflexivity|vm_compute; reflexivity|exact Ht|lia].
  - vm_compute. reflexivity.
Qed.

(** ** Witnesses *)

Definition open_order : Order := {|
  order_dto := {|
    fromChain := ETHEREUM; toChain := APTOS; fromToken := "0xweth"; toToken := "apt";
    fromAmount := "1000"; minToAmount := "900"; maker := "0xm"; receiver := "0xr";
    signature := "0x00"; deadline := of_Z 2000000000; nonce := "1";
    partialFillAllowed := true; partialFillEnabled := true; secretHash := None;
    secretHashes := None; partialFillSecrets := None; maxParts := None;
    activeResolvers := None; dutchAuction := None; permit := None; permitSignature := None;
    gasless := None; gaslessData := None |};
  id := "o1"; status := PENDING; filledAmount := "0"; filledPercentage := of_Z 0;
  createdAt := 0; updatedAt := 0; fills := []
|}.

Lemma due_third : decide_fill resolver_1 open_order 900 900 (of_Z 0) (of_Z 0) (of_Z 0) = Ok third.
Proof.
  destruct (target_third 900) as (t & Ht & Hle); [lia|].
  apply (decide_fill_due _ _ _ _ _ _ _ _ 0%nat t); [reflexivity|reflexivity|reflexivity|reflexivity
    |reflexivity|vm_compute; reflexivity|vm_compute; reflexivity|exact Ht|exact Hle].
Qed.

Lemma third_not_zero : third <> of_Z 0.
Proof.
  intros H. assert (leb third (of_Z 0) = false) as E by (vm_compute; reflexivity).
  rewrite H, leb_of_Z in E by (unfold small; lia). discriminate E.
Qed.

Lemma fill_decision_bounded_witness :
  leb (of_Z 0) third = true /\ leb third (of_Z 100) = true.
Proof.
  apply (fill_decision_bounded resolver_1 open_order 900 900 (of_Z 0) (of_Z 0) (of_Z 0) third);
    [simpl; lia|exact due_third].
Defined.

Lemma turns_exclusive_witness :
  activeResolverIndex resolver_1 [] = activeResolverIndex resolver_1 [].
Proof.
  apply (turns_exclusive resolver_1 resolver_1 open_order 900 900 900 900 (of_Z 0)
           (of_Z 0) (of_Z 0) (of_Z 0) (of_Z 0) third third);
    [simpl; lia|reflexivity|reflexivity|rewrite of_Z_0; reflexivity
    |exact due_third|exact third_not_zero|exact due_third|exact third_not_zero].
Defined.

Lemma three_turns_fill_order_witness : add (add (add (of_Z 0) third) third) third = of_Z 100.
Proof.
  apply (three_turns_fill_order open_order 900 900 (of_Z 0) (of_Z 0));
    [reflexivity|reflexivity|reflexivity|lia].
Defined.

Lemma late_turn_overfills_witness : gtb (add (of_Z 90) third) (of_Z 100) = true.
Proof.
  apply (late_turn_overfills open_order 900 900 (of_Z 0) (of_Z 0));
    [reflexivity|reflexivity|reflexivity|lia].
Defined.
