(* ===== verification/PriceService.v ===== *)
(** * Exchange rates

    [PriceService] of [backend/resolver/src/services/PriceService.ts], and its
    copy for the browser, [frontend/src/services/PriceService.ts]: rates from
    CoinGecko with a cache of thirty seconds and fallback rates, the resolver's
    margin and the output amount of a swap. The service's cache is reached
    through [PriceFields], so that its programs run on the fields of the object
    that owns it. *)

From Stdlib Require Import ZArith Lia.
From stdpp Require Import base numbers list strings.
From S2P Require Import Prelude.
From S2P Require Import JsNumber.
From S2P Require Import JsString.
From S2P Require Import JsFormat.
From S2P Require Import JsMap.
From S2P Require Import Async.
From S2P Require Import Chain.

Local Open Scope string_scope.
Local Open Scope Z_scope.
Local Open Scope prog_scope.

Record PriceCache := { rate : number; timestamp : Z }.

(** The price service among the fields of its owner. *)
Class PriceFields (S : Type) := {
  cache : S -> JsMap.t PriceCache;
  set_cache : JsMap.t PriceCache -> S -> S
}.

Class PriceFieldsLaws (S : Type) `{PriceFields S} := {
  cache_set : forall c s, cache (set_cache c s) = c
}.

(** The service on its own. *)
#[export] Instance own_cache : PriceFields (JsMap.t PriceCache) := {
  cache := fun c => c;
  set_cache := fun c _ => c
}.

#[export] Instance own_cache_laws : PriceFieldsLaws (JsMap.t PriceCache).
Proof. by split. Qed.

Definition CACHE_DURATION : Z := 30000.

Definition FALLBACK_RATES : list (string * number) :=
  [("ETH/APT", of_Z 500); ("APT/ETH", lit 2 1000)].

(** [this.FALLBACK_RATES[pair] || 1] *)
Definition fallback (pair : string) : number :=
  match JsMap.get pair FALLBACK_RATES with
  | Some r => or_else r (of_Z 1)
  | None => of_Z 1
  end.

Definition tokenIds : list (string * string) := [("ETH", "ethereum"); ("APT", "aptos")].

Definition token_id (token : string) : option string := JsMap.get (toUpperCase token) tokenIds.

(** A template prints a missing value as [undefined]. *)
Definition printed (x : option string) : string := default "undefined" x.

Definition pair_of (fromToken toToken : string) : string :=
  toUpperCase fromToken ++ "/" ++ toUpperCase toToken.

(** [(from === 'ETH' && to === 'APT') || (from === 'APT' && to === 'ETH')] *)
Definition cross_chain (fromToken toToken : string) : bool :=
  String.eqb fromToken "ETH" && String.eqb toToken "APT" ||
  String.eqb fromToken "APT" && String.eqb toToken "ETH".

(** [data[id]?.usd], and the rate of two such prices unless one is falsy. *)
Definition usd (data : list (string * number)) (tid : option string) : option number :=
  JsMap.get (printed tid) data.

Definition price_ratio (fromPrice toPrice : option number) : result number :=
  match fromPrice, toPrice with
  | Some f, Some t =>
      if truthy f && truthy t then Ok (div f t) else Throw (Error "Invalid price data")
  | _, _ => Throw (Error "Invalid price data")
  end.

Section Prices.
Context {S : Type} `{PriceFields S} (API_KEY : option string).

(** The rate in the cache when it is younger than [CACHE_DURATION]; the clock
    is read only when there is an entry. *)
Definition cached_rate (pair : string) : cprog S (option number) :=
  s <- get;
  match JsMap.get pair (cache s) with
  | Some c =>
      t <- now;
      Ret (if t - timestamp c <? CACHE_DURATION then Some (rate c) else None)
  | None => Ret None
  end.

Definition remember (pair : string) (r : number) : cprog S unit :=
  t <- now;
  modify (fun s => set_cache (JsMap.set pair {| rate := r; timestamp := t |} (cache s)) s).

(** The resolver's: every failure is answered with the fallback rate. *)
Definition fetchCrossChainRate (fromToken toToken : string) : cprog S number :=
  let fromId := token_id fromToken in
  let toId := token_id toToken in
  try_catch
    (data <- httpGetPrices (printed fromId ++ "," ++ printed toId) API_KEY;
     of_result (price_ratio (usd data fromId) (usd data toId)))
    (fun _ => Ret (fallback (fromToken ++ "/" ++ toToken))).

(** The browser's: a failure is thrown. *)
Definition fetchCrossChainRate_web (fromToken toToken : string) : cprog S number :=
  let fromId := token_id fromToken in
  let toId := token_id toToken in
  ok <- fetchPrices (printed fromId ++ "," ++ printed toId) API_KEY;
  if negb ok then Fail (Error "Failed to fetch prices from CoinGecko")
  else
    data <- fetchPricesJson (printed fromId ++ "," ++ printed toId);
    of_result (price_ratio (usd data fromId) (usd data toId)).

(** Both services have the same text around their own [fetchCrossChainRate]. *)
Definition rate_with (fetchRate : string -> string -> cprog S number)
    (fromToken toToken : string) : cprog S number :=
  let pair := pair_of fromToken toToken in
  cached <- cached_rate pair;
  match cached with
  | Some r => Ret r
  | None =>
      try_catch
        (if cross_chain fromToken toToken then
           r <- fetchRate fromToken toToken;
           remember pair r;;
           Ret r
         else Ret (fallback pair))
        (fun _ => Ret (fallback pair))
  end.

Definition getExchangeRate : string -> string -> cprog S number := rate_with fetchCrossChainRate.
Definition getExchangeRate_web : string -> string -> cprog S number :=
  rate_with fetchCrossChainRate_web.

(** [data[tokenId]?.usd || 0] *)
Definition usd_or_0 (data : list (string * number)) (tid : string) : number :=
  match usd data (Some tid) with Some p => or_else p (of_Z 0) | None => of_Z 0 end.

Definition usd_with (fetchUsd : string -> cprog S (list (string * number))) (token : string)
    : cprog S number :=
  match token_id token with
  | None => Ret (of_Z 0)
  | Some tid =>
      let cacheKey := toUpperCase token ++ "/USD" in
      cached <- cached_rate cacheKey;
      match cached with
      | Some r => Ret r
      | None =>
          try_catch
            (data <- fetchUsd tid;
             let price := usd_or_0 data tid in
             remember cacheKey price;;
             Ret price)
            (fun _ => Ret (of_Z 0))
      end
  end.

Definition getUSDPrice : string -> cprog S number :=
  usd_with (fun tid => httpGetPrices tid API_KEY).

Definition getUSDPrice_web : string -> cprog S number :=
  usd_with (fun tid =>
    ok <- fetchPrices tid API_KEY;
    if negb ok then Fail (Error "Failed to fetch USD price") else fetchPricesJson tid).
End Prices.

(** ** The amount the resolver offers *)

Definition applyResolverMargin (r marginPercent : number) : number :=
  mul r (sub (of_Z 1) (div marginPercent (of_Z 100))).

Definition calculateOutputAmount (inputAmount : string) (r : number) (applyMargin : bool) : string :=
  let input := parseFloat inputAmount in
  let effectiveRate := if applyMargin then applyResolverMargin r (of_Z 1) else r in
  number_toString (mul input effectiveRate).

(** ** What the service answers *)

(** The rate an answer of the price server gives: the ratio of the two prices,
    or the fallback when the request failed or a price is missing. *)
Definition quoted_rate (fromToken toToken : string) (x : result (list (string * number))) : number :=
  match result_bind x (fun data =>
          price_ratio (usd data (token_id fromToken)) (usd data (token_id toToken))) with
  | Ok r => r
  | Throw _ => fallback (fromToken ++ "/" ++ toToken)
  end.

Definition price_ids (fromToken toToken : string) : string :=
  printed (token_id fromToken) ++ "," ++ printed (token_id toToken).

(** The entry of the cache that is still fresh at time [t]. *)
Definition fresh (t : Z) (pair : string) (c : JsMap.t PriceCache) : option number :=
  match JsMap.get pair c with
  | Some e => if t - timestamp e <? CACHE_DURATION then Some (rate e) else None
  | None => None
  end.

Section Answers.
Context {S : Type} `{PriceFields S} (API_KEY : option string).

Lemma run_cached_rate O pair (s : S) h :
  run O (cached_rate pair) s h = (Ok (fresh (clock O h) pair (cache s)), s, h).
Proof.
  unfold cached_rate, fresh. cbn. destruct (JsMap.get pair (cache s)) as [c|]; [|done].
  cbn. by destruct (_ <? _).
Qed.

Lemma run_remember O pair r (s : S) h :
  run O (remember pair r) s h =
    (Ok tt, set_cache (JsMap.set pair {| rate := r; timestamp := clock O h |} (cache s)) s, h).
Proof. done. Qed.

Lemma run_fetchCrossChainRate (O : Oracle ChainI) fromToken toToken (s : S) h :
  let q := HttpGetPrices (price_ids fromToken toToken) API_KEY in
  run O (fetchCrossChainRate API_KEY fromToken toToken) s h =
    (Ok (quoted_rate fromToken toToken (answer O h q)), s,
     (h ++ [Called (I := ChainI) q (answer O h q)])%list).
Proof.
  intros q. unfold fetchCrossChainRate, httpGetPrices, quoted_rate.
  fold (price_ids fromToken toToken). fold q.
  rewrite run_try, run_bind. unfold await. cbn [run].
  destruct (answer O h q) as [data|e]; cbn [result_bind of_result run]; [|done].
  rewrite run_of_result. by destruct (price_ratio _ _).
Qed.

Lemma run_getExchangeRate (O : Oracle ChainI) fromToken toToken (s : S) h :
  let pair := pair_of fromToken toToken in
  let q := HttpGetPrices (price_ids fromToken toToken) API_KEY in
  let x := answer O h q in
  let h' := (h ++ [Called (I := ChainI) q x])%list in
  let r := quoted_rate fromToken toToken x in
  run O (getExchangeRate API_KEY fromToken toToken) s h =
    match fresh (clock O h) pair (cache s) with
    | Some r => (Ok r, s, h)
    | None =>
        if cross_chain fromToken toToken
        then (Ok r, set_cache (JsMap.set pair {| rate := r; timestamp := clock O h' |} (cache s)) s, h')
        else (Ok (fallback pair), s, h)
    end.
Proof.
  intros pair q x h' r. unfold getExchangeRate, rate_with. fold pair.
  rewrite run_bind, run_cached_rate. destruct (fresh _ _ _) as [c|]; [done|].
  rewrite run_try. destruct (cross_chain fromToken toToken); [|done].
  rewrite run_bind, run_fetchCrossChainRate. fold q x h' r.
  rewrite run_bind, run_remember. done.
Qed.

(** What [fetch] and [response.json()] deliver together. *)
Definition fetched (O : Oracle ChainI) (h : list (Ev ChainI)) (ids : string)
    : result (list (string * number)) :=
  let q := FetchPrices ids API_KEY in
  match answer O h q with
  | Ok true => answer O (h ++ [Called (I := ChainI) q (Ok true)])%list (FetchPricesJson ids)
  | Ok false => Throw (Error "Failed to fetch prices from CoinGecko")
  | Throw e => Throw e
  end.

Lemma run_fetchCrossChainRate_web (O : Oracle ChainI) fromToken toToken (s : S) h :
  (run O (fetchCrossChainRate_web API_KEY fromToken toToken) s h).1 =
    (result_bind (fetched O h (price_ids fromToken toToken)) (fun data =>
       price_ratio (usd data (token_id fromToken)) (usd data (token_id toToken))), s).
Proof.
  unfold fetchCrossChainRate_web, fetchPrices, fetchPricesJson, fetched.
  fold (price_ids fromToken toToken). set (ids := price_ids fromToken toToken).
  rewrite run_bind. unfold await. cbn [run].
  destruct (answer O h (FetchPrices ids API_KEY)) as [[]|e]; cbn [of_result run negb]; try done.
  rewrite run_bind. cbn [run].
  destruct (answer O _ (FetchPricesJson ids)) as [data|e]; cbn [result_bind of_result run];
    [|done].
  by rewrite run_of_result.
Qed.

Lemma cross_chain_pair fromToken toToken :
  cross_chain fromToken toToken = true ->
  pair_of fromToken toToken = fromToken ++ "/" ++ toToken.
Proof.
  unfold cross_chain. rewrite orb_true_iff, !andb_true_iff, !String.eqb_eq.
  by intros [[-> ->]|[-> ->]].
Qed.

(** The resolver's exchange rate: a cached rate is returned, without a
    request, exactly while it is younger than thirty seconds; otherwise a
    cross-chain rate is the quotient of the two prices in the server's answer,
    or the fallback rate when the request fails or a price is missing or zero,
    and is remembered with the time at which it was stored; any other pair has
    its fallback rate. No case throws. *)
Theorem exchange_rate_exact (O : Oracle ChainI) (fromToken toToken : string) (s : S)
    (h : list (Ev ChainI)) :
  let pair := pair_of fromToken toToken in
  let q := HttpGetPrices (price_ids fromToken toToken) API_KEY in
  let x := answer O h q in
  let h' := (h ++ [Called (I := ChainI) q x])%list in
  let r := quoted_rate fromToken toToken x in
  run O (getExchangeRate API_KEY fromToken toToken) s h =
    match fresh (clock O h) pair (cache s) with
    | Some r => (Ok r, s, h)
    | None =>
        if cross_chain fromToken toToken
        then (Ok r, set_cache (JsMap.set pair {| rate := r; timestamp := clock O h' |} (cache s)) s, h')
        else (Ok (fallback pair), s, h)
    end.
Proof. apply run_getExchangeRate. Qed.

(** The browser's copy of the service returns the same exchange rate as
    the resolver's for the same cache, the same clock and the same answers of
    the price server, failures included. The caches then agree too, except
    after a failure: the resolver remembers the fallback rate for thirty
    seconds, the browser remembers nothing. *)
Theorem web_rate_equivalent (O : Oracle ChainI) (t : Z) (fromToken toToken : string) (s : S)
    (h : list (Ev ChainI)) :
  let ids := price_ids fromToken toToken in
  let pair := pair_of fromToken toToken in
  (forall h', clock O h' = t) ->
  answer O h (HttpGetPrices ids API_KEY) = fetched O h ids ->
  let backend := run O (getExchangeRate API_KEY fromToken toToken) s h in
  let web := run O (getExchangeRate_web API_KEY fromToken toToken) s h in
  backend.1.1 = web.1.1 /\
  (backend.1.2 = web.1.2 \/
   web.1.2 = s /\
   backend.1.2 = set_cache (JsMap.set pair {| rate := fallback pair; timestamp := t |} (cache s)) s).
Proof.
  intros ids pair Ht Hx. cbn zeta. rewrite run_getExchangeRate. cbn zeta. fold ids pair.
  unfold getExchangeRate_web, rate_with. fold pair.
  rewrite run_bind, run_cached_rate, !Ht. destruct (fresh _ _ _) as [c|]; [by auto|].
  destruct (cross_chain fromToken toToken) eqn:Hc; rewrite run_try; [|by auto].
  rewrite run_bind. pose proof (run_fetchCrossChainRate_web O fromToken toToken s h) as Hw.
  fold ids in Hw. rewrite <- Hx in Hw. unfold quoted_rate.
  destruct (run O (fetchCrossChainRate_web _ _ _) s h) as [[x s'] h'].
  cbn [fst] in Hw. injection Hw as -> ->.
  destruct (result_bind _ _) as [r|e].
  - rewrite run_bind, run_remember, Ht. by auto.
  - rewrite <- (cross_chain_pair _ _ Hc). fold pair. by auto.
Qed.
End Answers.

(** ** The resolver's margin *)

Lemma margin_factor :
  leb (Finite 0) (sub (of_Z 1) (div (of_Z 1) (of_Z 100))) = true /\
  leb (sub (of_Z 1) (div (of_Z 1) (of_Z 100))) (of_Z 1) = true /\
  is_finite (sub (of_Z 1) (div (of_Z 1) (of_Z 100))) = true /\
  is_finite (of_Z 1) = true.
Proof. vm_compute. auto. Qed.

Lemma margin_bounds (r : number) :
  wf_number r = true -> is_finite r = true -> leb (Finite 0) r = true ->
  leb (Finite 0) (applyResolverMargin r (of_Z 1)) = true /\
  leb (applyResolverMargin r (of_Z 1)) r = true.
Proof.
  intros Hw Hf H0. destruct margin_factor as (F0 & F1 & Ff & F1f). unfold applyResolverMargin.
  split; [by apply mul_nonneg|].
  rewrite <- (mul_1_r r Hw Hf) at 2. rewrite !(mul_comm r). by apply mul_mono_nonneg.
Qed.

(** The text of an output amount carries the amount: reading it back gives
    exactly the product the service computed, and with the margin that product
    is never negative and never more than without it. *)
Theorem output_amount_margin (inputAmount : string) (r : number) :
  wf_number r = true -> is_finite r = true -> leb (Finite 0) r = true ->
  is_finite (parseFloat inputAmount) = true -> leb (Finite 0) (parseFloat inputAmount) = true ->
  let offered := parseFloat (calculateOutputAmount inputAmount r true) in
  let quoted := parseFloat (calculateOutputAmount inputAmount r false) in
  offered = mul (parseFloat inputAmount) (applyResolverMargin r (of_Z 1)) /\
  quoted = mul (parseFloat inputAmount) r /\
  leb (Finite 0) offered = true /\ leb offered quoted = true.
Proof.
  intros Hw Hf H0 Hif Hi0. destruct (margin_bounds r Hw Hf H0) as [M0 M1].
  assert (is_finite (applyResolverMargin r (of_Z 1)) = true) as Mf
    by (by eapply leb_finite_between).
  unfold calculateOutputAmount. cbn zeta. rewrite !parseFloat_toString by apply wf_mul.
  split_and!; try done; [by apply mul_nonneg|].
  rewrite !(mul_comm (parseFloat inputAmount)). by apply mul_mono_nonneg.
Qed.

(** ** Witnesses *)

(** Prices of 4000 and 8 dollars, through axios and through fetch. *)
Definition sample_prices : list (string * number) :=
  [("ethereum", of_Z 4000); ("aptos", of_Z 8)].

Definition price_oracle : Oracle ChainI := {|
  answer := fun h (r : Req ChainI) => match r return result (chain_ans r) with
                       | HttpGetPrices _ _ => Ok sample_prices
                       | FetchPrices _ _ => Ok true
                       | FetchPricesJson _ => Ok sample_prices
                       | _ => Throw (Error "down")
                       end;
  clock := fun _ => 1000
|}.

Lemma web_rate_equivalent_witness :
  let s := [] : JsMap.t PriceCache in
  let backend := run price_oracle (getExchangeRate None "ETH" "APT") s [] in
  let web := run price_oracle (getExchangeRate_web None "ETH" "APT") s [] in
  backend.1.1 = web.1.1 /\
  (backend.1.2 = web.1.2 \/
   web.1.2 = s /\
   backend.1.2 = set_cache (JsMap.set (pair_of "ETH" "APT")
                    {| rate := fallback (pair_of "ETH" "APT"); timestamp := 1000 |} (cache s)) s).
Proof.
  intros s.
  apply (web_rate_equivalent None price_oracle 1000 "ETH" "APT" s []); reflexivity.
Defined.

Lemma output_amount_margin_witness :
  let offered := parseFloat (calculateOutputAmount "0.25" (of_Z 500) true) in
  let quoted := parseFloat (calculateOutputAmount "0.25" (of_Z 500) false) in
  offered = mul (parseFloat "0.25") (applyResolverMargin (of_Z 500) (of_Z 1)) /\
  quoted = mul (parseFloat "0.25") (of_Z 500) /\
  leb (Finite 0) offered = true /\ leb offered quoted = true.
Proof.
  apply (output_amount_margin "0.25" (of_Z 500)); vm_compute; reflexivity.
Defined.
