(* ===== verification/Resolver.v ===== *)
(** * The resolver: state and partial fills

    [ResolverServiceV2] of [backend/resolver/src/services/ResolverServiceV2.ts]:
    the maps it keeps, and the path of a partial fill from the decision to the
    destination escrow and its announcement. Orders arrive as the order engine
    sends them. [await import(...)] of a local module is not a step. *)

From Stdlib Require Import ZArith Lia Ascii.
From stdpp Require Import base numbers list strings.
From S2P Require Import Prelude.
From S2P Require Import JsNumber.
From S2P Require Import JsString.
From S2P Require Import JsMap.
From S2P Require Import PartialFill.
From S2P Require Import DutchAuction.
From S2P Require Import OrderTypes.
From S2P Require Import Async.
From S2P Require Import Chain.
From S2P Require Import AptosChain.
From S2P Require Import ChainService.
From S2P Require Import FillStrategy.
From S2P Require Import PriceService.

Local Open Scope string_scope.
Local Open Scope Z_scope.
Local Open Scope prog_scope.

(** ** State *)

(** An entry of [pendingSecretReveals]. *)
Record Pending := {
  pending_order : Order;
  pending_fill : RFill;
  pending_source : string;
  pending_destination : string
}.

(** The mutable fields; [priceCache] is the price service's, the last two are
    the balance tracker's. *)
Record RState := {
  isProcessing : JsSet.t;
  activeOrders : JsMap.t Order;
  monitoringFills : JsMap.t RFill;
  fillSecrets : JsMap.t bytes;
  processedEvents : JsSet.t;
  pendingSecretReveals : JsMap.t Pending;
  priceCache : JsMap.t PriceCache;
  lastEth : option Z;
  lastWeth : option Z
}.

(** The constant fields. *)
Record RConfig := {
  identity : Identity;
  ethereumAddress : string;
  aptosAddress : string;
  wethAddress : string;
  portEnv : option string;  (* [process.env.PORT] *)
  apiKey : option string;  (* [process.env.COINGECKO_API_KEY] *)
  permitContract : string;  (* [process.env.ETHEREUM_PERMIT_CONTRACT] *)
  escrowModule : string;  (* [process.env.APTOS_ESCROW_MODULE || process.env.APTOS_ESCROW_ADDRESS] *)
  chainConfig : ChainConfig
}.

Definition set_monitoringFills (f : JsMap.t RFill -> JsMap.t RFill) (s : RState) : RState :=
  {| isProcessing := isProcessing s; activeOrders := activeOrders s;
     monitoringFills := f (monitoringFills s); fillSecrets := fillSecrets s;
     processedEvents := processedEvents s; pendingSecretReveals := pendingSecretReveals s;
     priceCache := priceCache s; lastEth := lastEth s; lastWeth := lastWeth s |}.

Definition set_isProcessing (f : JsSet.t -> JsSet.t) (s : RState) : RState :=
  {| isProcessing := f (isProcessing s); activeOrders := activeOrders s;
     monitoringFills := monitoringFills s; fillSecrets := fillSecrets s;
     processedEvents := processedEvents s; pendingSecretReveals := pendingSecretReveals s;
     priceCache := priceCache s; lastEth := lastEth s; lastWeth := lastWeth s |}.

Definition set_activeOrders (f : JsMap.t Order -> JsMap.t Order) (s : RState) : RState :=
  {| isProcessing := isProcessing s; activeOrders := f (activeOrders s);
     monitoringFills := monitoringFills s; fillSecrets := fillSecrets s;
     processedEvents := processedEvents s; pendingSecretReveals := pendingSecretReveals s;
     priceCache := priceCache s; lastEth := lastEth s; lastWeth := lastWeth s |}.

Definition set_fillSecrets (f : JsMap.t bytes -> JsMap.t bytes) (s : RState) : RState :=
  {| isProcessing := isProcessing s; activeOrders := activeOrders s;
     monitoringFills := monitoringFills s; fillSecrets := f (fillSecrets s);
     processedEvents := processedEvents s; pendingSecretReveals := pendingSecretReveals s;
     priceCache := priceCache s; lastEth := lastEth s; lastWeth := lastWeth s |}.

Definition set_processedEvents (f : JsSet.t -> JsSet.t) (s : RState) : RState :=
  {| isProcessing := isProcessing s; activeOrders := activeOrders s;
     monitoringFills := monitoringFills s; fillSecrets := fillSecrets s;
     processedEvents := f (processedEvents s); pendingSecretReveals := pendingSecretReveals s;
     priceCache := priceCache s; lastEth := lastEth s; lastWeth := lastWeth s |}.

Definition set_pending (f : JsMap.t Pending -> JsMap.t Pending) (s : RState) : RState :=
  {| isProcessing := isProcessing s; activeOrders := activeOrders s;
     monitoringFills := monitoringFills s; fillSecrets := fillSecrets s;
     processedEvents := processedEvents s; pendingSecretReveals := f (pendingSecretReveals s);
     priceCache := priceCache s; lastEth := lastEth s; lastWeth := lastWeth s |}.

#[export] Instance resolver_prices : PriceFields RState := {
  cache := priceCache;
  set_cache c s :=
    {| isProcessing := isProcessing s; activeOrders := activeOrders s;
       monitoringFills := monitoringFills s; fillSecrets := fillSecrets s;
       processedEvents := processedEvents s; pendingSecretReveals := pendingSecretReveals s;
       priceCache := c; lastEth := lastEth s; lastWeth := lastWeth s |}
}.

Definition set_balances (eth weth : Z) (s : RState) : RState :=
  {| isProcessing := isProcessing s; activeOrders := activeOrders s;
     monitoringFills := monitoringFills s; fillSecrets := fillSecrets s;
     processedEvents := processedEvents s; pendingSecretReveals := pendingSecretReveals s;
     priceCache := priceCache s; lastEth := Some eth; lastWeth := Some weth |}.

Definition initial_state : RState :=
  {| isProcessing := []; activeOrders := []; monitoringFills := []; fillSecrets := [];
     processedEvents := []; pendingSecretReveals := []; priceCache := []; lastEth := None;
     lastWeth := None |}.

(** [x!] where the source asserts an optional field to be there. *)
Definition asserted (x : option string) : result string :=
  match x with
  | Some s => Ok s
  | None => Throw (TypeError "invalid BytesLike value")
  end.

(** [`${baseOrderId}-partial-${fillIndex}`] for a number that may not be an integer. *)
Definition partial_escrow_id `{Ethers} (baseOrderId : string) (fillIndex : number) : string :=
  match to_bigint fillIndex with
  | Some i => generatePartialEscrowId baseOrderId i
  | None =>
      PartialFill.id (baseOrderId ++ "-partial-" ++
        match fillIndex with Infinity true => "-Infinity" | Infinity false => "Infinity" | _ => "NaN" end)
  end.

Section Resolver.
Context `{Ethers, AptosSdk, EthersBytes} (cfg : RConfig).
Local Abbreviation rprog := (prog ChainI RState).

(** ** Calls to the order engine, and balances *)

Definition updateFillStatus (order fill status : string) (additionalData : list (string * string))
    : rprog unit := httpPatchFill order fill status additionalData.

Definition getCurrentFillPercentage (order : string) : rprog number :=
  try_catch
    (filled <- httpGetFilled order;
     Ret (match filled with Some p => or_else p (of_Z 0) | None => of_Z 0 end))
    (fun _ => Ret (of_Z 0)).

Definition getDestinationBalance (order : Order) : rprog Z :=
  match toChain order with
  | ETHEREUM => getEthereumBalance (ethereumAddress cfg) (Some (toToken order))
  | APTOS =>
      balance <- getAptosBalance (aptosAddress cfg);
      of_result (BigInt_of_number balance)
  end.

(** [BalanceTracker.trackBalanceChange]: reads both balances and remembers them. *)
Definition trackBalanceChange : rprog unit :=
  ethBal <- ethBalance (ethereumAddress cfg);
  wethBal <- ethView (wethAddress cfg) "balanceOf" [AString (ethereumAddress cfg)];
  modify (set_balances ethBal wethBal).

(** [Math.floor(Date.now() / 1000)] *)
Definition seconds (t : Z) : number := floor (div (of_Z t) (of_Z 1000)).

(** The two clock readings are those of the auction timing and of the
    auction fallback; [decide_fill] uses them only when the order has an
    enabled auction, as the code reads them only there. *)
Definition calculateOptimalFillPercentage (order : Order) : rprog number :=
  try_catch
    (balance <- getDestinationBalance order;
     requiredAmount <- of_result (BigInt (minToAmount order));
     current <- getCurrentFillPercentage (id order);
     t1 <- now;
     t2 <- now;
     of_result (decide_fill (identity cfg) order balance requiredAmount current
                  (seconds t1) (seconds t2)))
    (fun _ => Ret (of_Z 0)).

(** ** Destination escrows of a partial fill *)

(** [parseEther('0.000001')] *)
Definition ether_0_000001 : Z := 1000000000000.

Definition createPartialEthereumEscrow (order : Order) (escrow amount : string) : rprog unit :=
  if default false (gasless order) then Ret tt
  else
    secretHash <- of_result (asserted (OrderTypes.secretHash order));
    hashlock <- of_result (getBytes secretHash);
    t <- now;
    createEthereumEscrow (chainConfig cfg) escrow (receiver order) (toToken order) amount
      secretHash (add (seconds t) (of_Z 3600)) (toString ether_0_000001) None;;
    Ret tt.

(** A UUID has its hyphens removed and is read as hex. *)
Fixpoint remove_hyphens (s : string) : string :=
  match s with
  | EmptyString => EmptyString
  | String c s' =>
      if Ascii.eqb c "-"%char then remove_hyphens s' else String c (remove_hyphens s')
  end.

Definition escrow_id_bytes (escrow : string) : result bytes :=
  if includes escrow "-" then getBytes ("0x" ++ remove_hyphens escrow)
  else getBytes (if startsWith escrow "0x" then escrow else "0x" ++ escrow).

(** The branch for the Merkle contract is disabled ([&& false]). *)
Definition createPartialAptosEscrow (order : Order) (escrow amount : string) : rprog unit :=
  escrowIdBytes <- of_result (escrow_id_bytes escrow);
  secretHash <- of_result (asserted (OrderTypes.secretHash order));
  hashlock <- of_result (getBytes secretHash);
  t <- now;
  createAptosEscrow (chainConfig cfg) escrowIdBytes (aptosAddress cfg) (receiver order) amount
    hashlock (add (seconds t) (of_Z 3600)) (toString 0);;
  Ret tt.

(** The fill record: the engine's ids replace the local ones when it answers. *)
Definition partial_fill (order : Order) (partialEscrowId fillId fillOrderId partialToAmount : string)
    (fillPercentage cumulativePercentage secretIndex fillIndex : number) : RFill :=
  {| f_id := fillId; f_orderId := fillOrderId; f_resolver := ethereumAddress cfg;
     f_amount := partialToAmount; f_secretHash := OrderTypes.secretHash order;
     f_secretIndex := secretIndex; f_status := "PENDING";
     f_fillPercentage := Some fillPercentage;
     f_cumulativePercentage := Some cumulativePercentage;
     f_cumulativeFillPercentage := None; f_merkleIndex := None; f_actualEscrowId := None;
     f_baseOrderId := Some (id order); f_fillIndex := Some fillIndex;
     f_destinationEscrowId := None; f_sourceEscrowId := None |}.

Definition post_fill (order : Order) (partialEscrowId partialToAmount : string)
    (fillPercentage cumulativePercentage secretIndex fillIndex : number)
    : rprog (string * string) :=
  try_catch
    (created <- httpPostFill (id order)
       {| fd_resolver := ethereumAddress cfg; fd_amount := partialToAmount;
          fd_secretHash := OrderTypes.secretHash order; fd_secretIndex := secretIndex;
          fd_fillPercentage := Some fillPercentage;
          fd_cumulativePercentage := Some cumulativePercentage;
          fd_destinationEscrowId := Some partialEscrowId;
          fd_baseOrderId := Some (id order); fd_fillIndex := Some fillIndex;
          fd_merkleIndex := None |};
     Ret (match created with
          | Some fill => (f_id fill, f_orderId fill)
          | None => (partialEscrowId, id order)
          end))
    (fun _ => Ret (partialEscrowId, id order)).

Definition announce_partial_fill (order : Order) (partialEscrowId partialToAmount : string)
    (fillPercentage cumulativePercentage secretIndex : number) : rprog unit :=
  socketEmit "partial:fill:created"
    [("orderId", JStr (id order)); ("fillPercentage", JNum fillPercentage);
     ("cumulativePercentage", JNum cumulativePercentage); ("secretIndex", JNum secretIndex);
     ("partialEscrowId", JStr partialEscrowId); ("resolver", JStr (ethereumAddress cfg))];;
  t <- now;
  socketEmit "escrow:destination:created"
    [("orderId", JStr (id order)); ("chain", JStr (chain_string (toChain order)));
     ("escrowId", JStr partialEscrowId); ("amount", JStr partialToAmount);
     ("secretHash", JOpt (OrderTypes.secretHash order));
     ("timelock", JNum (add (seconds t) (of_Z 3600))); ("isPartialFill", JBool true);
     ("fillPercentage", JNum fillPercentage); ("secretIndex", JNum secretIndex);
     ("resolverPort", match present (portEnv cfg) with
                      | Some port => JStr port
                      | None => JNum (of_Z 8081)
                      end)];;
  socketEmit "order:update"
    [("orderId", JStr (id order)); ("status", JStr "PARTIALLY_FILLED");
     ("filledPercentage", JNum cumulativePercentage)].

Definition createPartialEscrows (order : Order) (fillPercentage : number) (secretIndex : nat)
    (partialFromAmount partialToAmount : string) : rprog unit :=
  current <- getCurrentFillPercentage (id order);
  let cumulativePercentage := add current fillPercentage in
  let fillIndex := floor (div current fillPercentage) in
  let partialEscrowId := partial_escrow_id (id order) fillIndex in
  let index := of_Z (Z.of_nat secretIndex) in
  match toChain order with
  | ETHEREUM => createPartialEthereumEscrow order partialEscrowId partialToAmount
  | APTOS => createPartialAptosEscrow order partialEscrowId partialToAmount
  end;;
  ids <- post_fill order partialEscrowId partialToAmount fillPercentage cumulativePercentage
           index fillIndex;
  modify (set_monitoringFills (JsMap.set partialEscrowId
    (partial_fill order partialEscrowId ids.1 ids.2 partialToAmount fillPercentage
       cumulativePercentage index fillIndex)));;
  announce_partial_fill order partialEscrowId partialToAmount fillPercentage
    cumulativePercentage index.

(** [Array.from({length: maxParts}, (_, i) => ((i + 1) * 100) / maxParts)] *)
Definition thresholds_of (parts : number) : list number :=
  let n := match to_bigint (floor parts) with Some z => Z.to_nat z | None => 0%nat end in
  (fun i => div (mul (of_Z (Z.of_nat i + 1)) (of_Z 100)) parts) <$> seq 0 n.

Definition handlePartialFillOrder (order : Order) : rprog unit :=
  rethrowing (
    fillPercentage <- calculateOptimalFillPercentage order;
    if eqb fillPercentage (of_Z 0) then Ret tt
    else
      partialFromAmount <- of_result (calculatePartialAmount (fromAmount order) fillPercentage);
      partialToAmount <- of_result (calculatePartialAmount (minToAmount order) fillPercentage);
      current <- getCurrentFillPercentage (id order);
      let newCumulativePercentage := add current fillPercentage in
      let parts := match maxParts order with
                   | Some p => or_else p (of_Z 4)
                   | None => of_Z 4
                   end in
      let secretIndex := getSecretIndex newCumulativePercentage (thresholds_of parts) in
      createPartialEscrows order fillPercentage secretIndex partialFromAmount partialToAmount;;
      if ltb newCumulativePercentage (of_Z 100) then retryLater 5000 (id order) else Ret tt).
End Resolver.
