(* ===== verification/Swap.v ===== *)
(** * The resolver: completing a swap

    From the revealed secret to the two withdrawals: [completeSwap] and the
    [secret:reveal] listener of
    [backend/resolver/src/services/ResolverServiceV2.ts]. *)

From Stdlib Require Import ZArith Lia Ascii.
From stdpp Require Import base numbers list strings.
From S2P Require Import Prelude.
From S2P Require Import JsNumber.
From S2P Require Import JsString.
From S2P Require Import JsMap.
From S2P Require Import PartialFill.
From S2P Require Import DutchAuction.
From S2P Require Import OrderTypes.
From S2P Require Import Async.
From S2P Require Import Chain.
From S2P Require Import AptosChain.
From S2P Require Import ChainService.
From S2P Require Import FillStrategy.
From S2P Require Import Resolver.

Local Open Scope string_scope.
Local Open Scope Z_scope.
Local Open Scope prog_scope.

(** [JSON.stringify] of a string without characters that it escapes. *)
Definition quoted (s : string) : string :=
  String "034"%char (s ++ String "034"%char EmptyString).

Section Swap.
Context `{Ethers, AptosSdk, EthersBytes} (cfg : RConfig).
Local Abbreviation rprog := (prog ChainI RState).

(** ** completeSwap *)

Definition is_gasless (order : Order) : bool :=
  default false (gasless order) &&
  match gaslessData order with Some _ => true | None => false end.

(** The escrow id is a string, as its type says: what the listeners store in
    [pendingSecretReveals] always is one, so the branches for arrays and for
    objects with a [data] field are left out. *)
Definition withdraw_source (order : Order) (sourceEscrowId : string) (secret : bytes)
    : rprog string :=
  match fromChain order with
  | APTOS =>
      escrowIdBytes <-
        (if startsWith sourceEscrowId "0x" then of_result (getBytes sourceEscrowId)
         else Fail (Error ("Invalid escrow ID format: string - " ++ quoted sourceEscrowId)));
      escrowExists <- checkAptosEscrow (chainConfig cfg) escrowIdBytes;
      if negb escrowExists then
        Fail (Error ("APT escrow " ++ hexlify escrowIdBytes ++ " does not exist on Aptos chain." ++
                     " User's escrow creation may have failed."))
      else withdrawAptosEscrow (chainConfig cfg) escrowIdBytes secret
  | ETHEREUM =>
      if is_gasless order
      then withdrawGaslessEscrow (chainConfig cfg) sourceEscrowId (hexlify secret)
      else withdrawEthereumEscrow (chainConfig cfg) sourceEscrowId (hexlify secret)
  end.

Definition manual_withdrawal (reason orderId destEscrowId : string) (fill : RFill)
    (secret : bytes) : rprog unit :=
  socketEmit "swap:manual_withdrawal_required"
    [("orderId", JStr orderId); ("reason", JStr reason); ("secret", JStr (hexlify secret));
     ("escrowId", JStr destEscrowId); ("amount", JStr (f_amount fill))].

(** A failed destination withdrawal is reported at most, never thrown. *)
Definition withdraw_destination (order : Order) (fill : RFill) (secret : bytes)
    (sourceEscrowId destEscrowId : string) : rprog unit :=
  match toChain order with
  | APTOS =>
      try_catch
        (destEscrowIdBytes <- of_result (getBytes destEscrowId);
         withdrawAptosEscrow (chainConfig cfg) destEscrowIdBytes secret;;
         sendCrossChainSecretReveal (chainConfig cfg) 10108 sourceEscrowId secret;;
         Ret tt)
        (fun error =>
           if includes (message error) "INSUFFICIENT_BALANCE_FOR_TRANSACTION_FEE"
           then manual_withdrawal "Resolver out of APT gas" (id order) destEscrowId fill secret
           else Ret tt)
  | ETHEREUM =>
      try_catch
        ((if default false (gasless order)
          then withdrawGaslessEscrow (chainConfig cfg) destEscrowId (hexlify secret)
          else withdrawEthereumEscrow (chainConfig cfg) destEscrowId (hexlify secret));;
         trackBalanceChange cfg)
        (fun error =>
           if includes (message error) "insufficient funds for gas"
           then manual_withdrawal "Resolver out of ETH gas" (id order) destEscrowId fill secret
           else Ret tt)
  end.

(** [(latestOrder as any)?.filledPercentage || 0] *)
Definition latest_filled (order : Order) (s : RState) : number :=
  match JsMap.get (id order) (activeOrders s) with
  | Some o => or_else (filledPercentage o) (of_Z 0)
  | None => of_Z 0
  end.

Definition isPartialFillOrder (order : Order) : bool :=
  partialFillEnabled order || partialFillAllowed order.

Definition completed_fields (order : Order) (fill : RFill) (toAmount message : string)
    : list (string * Json) :=
  [("orderId", JStr (id order)); ("fromChain", JStr (chain_string (fromChain order)));
   ("toChain", JStr (chain_string (toChain order))); ("fromAmount", JStr (fromAmount order));
   ("toAmount", JStr toAmount); ("secretHash", JOpt (f_secretHash fill));
   ("message", JStr message)].

Definition announce_completion (order : Order) (fill : RFill) : rprog unit :=
  if isPartialFillOrder order then
    s <- get;
    let total := latest_filled order s in
    if geb total (of_Z 100)
    then socketEmit "swap:completed"
           (completed_fields order fill (minToAmount order)
              "All partial fills completed successfully!")
    else socketEmit "fill:completed"
           [("orderId", JStr (id order)); ("fillId", JStr (f_id fill));
            ("fillPercentage", JNum (match f_fillPercentage fill with
                                     | Some p => or_else p (of_Z 0)
                                     | None => of_Z 0
                                     end));
            ("cumulativePercentage", JNum total)]
  else
    socketEmit "swap:completed"
      (completed_fields order fill (f_amount fill) "Swap completed successfully!").

Definition clean_up (order : Order) (fill : RFill) (destEscrowId : string) : rprog unit :=
  s <- get;
  let current := if isPartialFillOrder order then latest_filled order s else of_Z 100 in
  (if negb (isPartialFillOrder order) || geb current (of_Z 100)
   then modify (set_monitoringFills (JsMap.remove destEscrowId)) else Ret tt);;
  modify (set_fillSecrets (JsMap.remove (f_id fill))).

Definition announce_withdrawal (fill : RFill) (sourceEscrowId : string) (secret : bytes)
    (withdrawTx : string) : rprog unit :=
  socketEmit "escrow:source:withdrawn"
    [("orderId", JStr (f_orderId fill)); ("escrowId", JStr sourceEscrowId);
     ("secret", JStr (hexlify secret)); ("txHash", JStr withdrawTx)].

(** Everything after the source withdrawal. *)
Definition after_source (order : Order) (fill : RFill) (secret : bytes)
    (sourceEscrowId destEscrowId withdrawTx : string) : rprog unit :=
  trackBalanceChange cfg;;
  updateFillStatus (f_orderId fill) (f_id fill) "SOURCE_WITHDRAWN" [];;
  announce_withdrawal fill sourceEscrowId secret withdrawTx;;
  withdraw_destination order fill secret sourceEscrowId destEscrowId;;
  updateFillStatus (f_orderId fill) (f_id fill) "COMPLETED" [];;
  announce_completion order fill;;
  clean_up order fill destEscrowId.

Definition already_done (fill : RFill) : bool :=
  String.eqb (f_status fill) "COMPLETED" || String.eqb (f_status fill) "SOURCE_WITHDRAWN".

Definition completeSwap (order : Order) (fill : RFill) (secret : bytes)
    (sourceEscrowId destEscrowId : string) : rprog unit :=
  try_catch
    (if already_done fill then Ret tt
     else
       updateFillStatus (f_orderId fill) (f_id fill) "SOURCE_CREATED"
         [("sourceEscrowId", sourceEscrowId)];;
       withdrawTx <- withdraw_source order sourceEscrowId secret;
       after_source order fill secret sourceEscrowId destEscrowId withdrawTx)
    (fun error =>
       updateFillStatus (f_orderId fill) (f_id fill) "FAILED" [];;
       Fail error).

(** ** The [secret:reveal] listener *)

Record Reveal := {
  rv_orderId : string;
  rv_secret : string;
  rv_secretHash : option string;
  rv_isPartialFill : bool;
  rv_secretIndex : option number;
  rv_fillPercentage : option number
}.

(** [secrets[i]] with a number as index. *)
Definition secret_at (secrets : list string) (i : number) : option string :=
  match to_bigint i with
  | Some z => if z <? 0 then None else secrets !! Z.to_nat z
  | None => None
  end.

Definition expected_secret (order : Order) (i : number) : option string :=
  secrets ← pfs_secrets <$> partialFillSecrets order; secret_at secrets i.

Definition reveal_partial (data : Reveal) (i : number) : rprog unit :=
  s <- get;
  match JsMap.get (rv_orderId data) (activeOrders s) with
  | None => Ret tt
  | Some order =>
      if negb (bool_decide (expected_secret order i = Some (rv_secret data))) then Ret tt
      else
        match JsMap.find (fun _ f => String.eqb (f_orderId f) (rv_orderId data)
                                     && eqb (f_secretIndex f) i) (monitoringFills s) with
        | None => Ret tt
        | Some (escrow, fill) =>
            match JsMap.get (rv_orderId data) (pendingSecretReveals s) with
            | Some pendingSwap =>
                secret <- of_result (getBytes (rv_secret data));
                completeSwap (pending_order pendingSwap) fill secret
                  (pending_source pendingSwap) escrow;;
                modify (set_pending (JsMap.remove (rv_orderId data)))
            | None =>
                socketEmit "swap:completed"
                  [("orderId", JStr (rv_orderId data));
                   ("fillPercentage", match rv_fillPercentage data with
                                      | Some p => JNum p
                                      | None => JUndefined
                                      end);
                   ("isPartialFill", JBool true)]
            end
        end
  end.

Definition reveal_full (data : Reveal) : rprog unit :=
  s <- get;
  match JsMap.get (rv_orderId data) (pendingSecretReveals s) with
  | None => Ret tt
  | Some pendingSwap =>
      secret <- of_result (getBytes (rv_secret data));
      if negb (bool_decide (Some (keccak256 secret) = rv_secretHash data)) then Ret tt
      else
        completeSwap (pending_order pendingSwap) (pending_fill pendingSwap) secret
          (pending_source pendingSwap) (pending_destination pendingSwap);;
        modify (set_pending (JsMap.remove (rv_orderId data)))
  end.

Definition on_secret_reveal (data : Reveal) : rprog unit :=
  match rv_isPartialFill data, rv_secretIndex data with
  | true, Some i => reveal_partial data i
  | _, _ => reveal_full data
  end.
End Swap.
