(* ===== verification/EscrowEvents.v ===== *)
(** * The resolver: escrow events

    How the resolver learns that the source escrow exists, in
    [backend/resolver/src/services/ResolverServiceV2.ts]: it creates it itself
    from the user's meta-transaction ([executeGaslessWETHEscrow]), the frontend
    reports it ([handleAPTEscrowCreated]), or the poll of the escrow contract
    finds it ([startEscrowMonitoring], [handleSourceEscrowCreated]). *)

From Stdlib Require Import ZArith Lia Ascii.
From stdpp Require Import base numbers list strings.
From S2P Require Import Prelude.
From S2P Require Import JsNumber.
From S2P Require Import JsString.
From S2P Require Import JsMap.
From S2P Require Import PartialFill.
From S2P Require Import DutchAuction.
From S2P Require Import OrderTypes.
From S2P Require Import Async.
From S2P Require Import Chain.
From S2P Require Import AptosChain.
From S2P Require Import ChainService.
From S2P Require Import FillStrategy.
From S2P Require Import Resolver.
From S2P Require Import Swap.

Local Open Scope string_scope.
Local Open Scope Z_scope.
Local Open Scope prog_scope.

(** ** Fill index *)

(** [gaslessData.fillThresholds || [25, 50, 75, 100]] *)
Definition thresholds_or_default (ts : option (list number)) : list number :=
  default [of_Z 25; of_Z 50; of_Z 75; of_Z 100] ts.

(** [a || b || c || 0] on optional numbers. *)
Definition first_truthy (l : list (option number)) : number :=
  foldr (fun x rest => match x with Some n => or_else n rest | None => rest end) (of_Z 0) l.

Definition determineFillIndex (fill : RFill) (fillThresholds : option (list number)) : number :=
  match f_merkleIndex fill with
  | Some i => i
  | None =>
      let ts := thresholds_or_default fillThresholds in
      let cumulative := first_truthy
        [f_cumulativeFillPercentage fill; f_cumulativePercentage fill; f_fillPercentage fill] in
      let i := getSecretIndex cumulative ts in
      if (i =? length ts)%nat then of_Z (Z.of_nat (length ts) - 1) else of_Z (Z.of_nat i)
  end.

(** ** Byte arrays *)

Definition hex_digit (n : Z) : ascii :=
  ascii_of_N (Z.to_N (if n <? 10 then 48 + n else 87 + n)).

(** [b.toString(16).padStart(2, '0')] for a byte. *)
Definition hex_byte (b : Z) : string :=
  String (hex_digit (b / 16)) (String (hex_digit (b mod 16)) EmptyString).

(** The escrow id of an [escrow:source:created] message: hex or an array. *)
Inductive EscrowRef := RefHex (s : string) | RefBytes (l : list Z).

Definition ref_hex (r : EscrowRef) : string :=
  match r with
  | RefHex s => s
  | RefBytes l => "0x" ++ foldr (fun b rest => hex_byte b ++ rest) "" l
  end.

Section Events.
Context `{Ethers, AptosSdk, EthersBytes} (cfg : RConfig).
Local Abbreviation rprog := (prog ChainI RState).

Definition request_secret (order : Order) : rprog unit :=
  socketEmit "secret:request"
    [("orderId", JStr (id order));
     ("message", JStr ("Both escrows confirmed on-chain." ++
                       " Please reveal your secret to complete the swap."))].

(** ** executeGaslessWETHEscrow *)

Definition meta_tx_args (g : GaslessData) : list Arg :=
  [AString (gd_escrowId g); AString (gd_depositor g); AString (gd_beneficiary g);
   AString (gd_token g); AString (gd_amount g); AString (gd_hashlock g);
   AString (gd_timelock g); AString (gd_deadline g);
   ANumber (gd_metaTxV g); AString (gd_metaTxR g); AString (gd_metaTxS g)].

(** The fill and the destination escrow that the pending swap refers to. *)
Definition find_destination (order : Order) (fill : RFill) (s : RState) : RFill * string :=
  match f_fillPercentage fill with
  | Some _ =>
      match JsMap.find (fun _ f => String.eqb (f_orderId f) (id order)
                                   && eqb (f_secretIndex f) (f_secretIndex fill))
              (monitoringFills s) with
      | Some (escrow, monitored) =>
          (monitored, if str_truthy escrow then escrow else id order)
      | None => (fill, id order)
      end
  | None =>
      let dest := PartialFill.id (id order ++ "-dest-" ++
                    default "undefined" (OrderTypes.secretHash order)) in
      let dest' := if str_truthy dest then dest else id order in
      match JsMap.get dest (monitoringFills s) with
      | Some monitored => (monitored, dest')
      | None => (fill, dest')
      end
  end.

Definition executeGaslessWETHEscrow (order : Order) (fill : RFill) : rprog unit :=
  match gaslessData order, present (gaslessEscrowEnv (chainConfig cfg)) with
  | None, _ => Fail (Error "No gasless data provided")
  | _, None => Fail (Error "Gasless escrow contract not configured")
  | Some g, Some contract =>
      formatEther (f_amount fill);;
      rethrowing (
        tx <- ethSend contract "createEscrowWithMetaTx" (meta_tx_args g) 0 None;
        hash <- ethWait tx;
        let emitEscrowId := default (gd_escrowId g) (present (f_actualEscrowId fill)) in
        socketEmit "escrow:source:created"
          [("orderId", JStr (id order)); ("escrowId", JStr emitEscrowId);
           ("chain", JStr "ETHEREUM"); ("amount", JStr (f_amount fill));
           ("txHash", JStr hash); ("gasless", JBool true)];;
        modify (set_processedEvents (JsSet.add ("auto-" ++ gd_escrowId g)));;
        request_secret order;;
        s <- get;
        let '(updatedFill, destEscrowId) := find_destination order fill s in
        modify (set_pending (JsMap.set (id order)
          {| pending_order := order; pending_fill := updatedFill;
             pending_source := gd_escrowId g; pending_destination := destEscrowId |})))
  end.

(** ** handleAPTEscrowCreated *)

(** A fill of the order, unless the message names another secret hash. *)
Definition matches_escrow (order : string) (hash : option string) (f : RFill) : bool :=
  String.eqb (f_orderId f) order &&
  match present hash with
  | Some h => bool_decide (f_secretHash f = Some h)
  | None => true
  end.

Definition handleAPTEscrowCreated (order : string) (ref : EscrowRef) (hash : option string)
    : rprog unit :=
  s <- get;
  match JsMap.find (fun _ f => matches_escrow order hash f) (monitoringFills s),
        JsMap.get order (activeOrders s) with
  | Some (destinationEscrowId, matchingFill), Some matchingOrder =>
      if str_truthy destinationEscrowId then
        request_secret matchingOrder;;
        modify (set_pending (JsMap.set (id matchingOrder)
          {| pending_order := matchingOrder; pending_fill := matchingFill;
             pending_source := ref_hex ref; pending_destination := destinationEscrowId |}))
      else Ret tt
  | _, _ => Ret tt
  end.

(** ** handleSourceEscrowCreated *)

Definition getSecretForFill (fill : RFill) (s : RState) : option bytes :=
  JsMap.get (f_id fill) (fillSecrets s).

(** The escrow to withdraw: of a gasless partial fill the contract's own id. *)
Definition gasless_escrow_id (order : Order) (fill : RFill) (sourceEscrowId : string)
    : result string :=
  match partialFillSecrets order, f_merkleIndex fill with
  | Some _, Some fillIndex =>
      let baseOrderId := default (id order) (present (gaslessData order ≫= gd_baseOrderId)) in
      result_bind
        (solidityPacked ["bytes32"; "uint256"]
           [AString (PartialFill.id baseOrderId); ANumber fillIndex])
        (fun packed => Ok (keccak256 packed))
  | _, _ => Ok sourceEscrowId
  end.

Definition withdraw_detected (order : option Order) (fill : RFill) (sourceEscrowId : string)
    (secret : bytes) : rprog string :=
  match order with
  | Some o =>
      if is_gasless o
      then
        actualEscrowId <- of_result (gasless_escrow_id o fill sourceEscrowId);
        withdrawGaslessEscrow (chainConfig cfg) actualEscrowId (hexlify secret)
      else withdrawEthereumEscrow (chainConfig cfg) sourceEscrowId (hexlify secret)
  | None => withdrawEthereumEscrow (chainConfig cfg) sourceEscrowId (hexlify secret)
  end.

Definition pay_detected (order : option Order) (fill : RFill) (sourceEscrowId : string)
    (secret : bytes) : rprog unit :=
  match order, present (f_destinationEscrowId fill) with
  | Some o, Some dest =>
      if bool_decide (toChain o = APTOS) then
        try_catch
          (destBytes <- of_result (getBytes dest);
           withdrawAptosEscrow (chainConfig cfg) destBytes secret;;
           sendCrossChainSecretReveal (chainConfig cfg) 10108 sourceEscrowId secret;;
           Ret tt)
          (fun error =>
             if includes (message error) "INSUFFICIENT_BALANCE_FOR_TRANSACTION_FEE"
             then manual_withdrawal "Resolver out of APT gas" (f_orderId fill) dest fill secret
             else Ret tt)
      else Ret tt
  | _, _ => Ret tt
  end.

(** The fields of [swap:completed], with what stands in for an unknown order. *)
Definition detected_fields (orderData : option Order) (fill : RFill) (withdrawTx : string)
    : list (string * Json) :=
  [("orderId", JStr (f_orderId fill)); ("fillId", JStr (f_id fill));
   ("sourceChain",
     JStr (default "ETHEREUM" ((fun o : Order => chain_string (fromChain o)) <$> orderData)));
   ("destinationChain",
     JStr (default "APTOS" ((fun o : Order => chain_string (toChain o)) <$> orderData)));
   ("fromAmount",
     JStr (default (f_amount fill) (present ((fun o : Order => fromAmount o) <$> orderData))));
   ("toAmount", JStr (match orderData with
                      | Some o => if bool_decide (toChain o = APTOS) then minToAmount o
                                  else f_amount fill
                      | None => f_amount fill
                      end));
   ("txHash", JStr withdrawTx)].

Definition handleSourceEscrowCreated (fill : RFill) (sourceEscrowId : string) : rprog unit :=
  try_catch
    (if already_done fill then Ret tt
     else
       updateFillStatus (f_orderId fill) (f_id fill) "SOURCE_CREATED"
         [("sourceEscrowId", sourceEscrowId)];;
       sleep 15000;;
       s <- get;
       match getSecretForFill fill s with
       | None => Fail (Error "Secret not found for fill")
       | Some secret =>
           let fillOrder := JsMap.get (f_orderId fill) (activeOrders s) in
           withdrawTx <- withdraw_detected fillOrder fill sourceEscrowId secret;
           trackBalanceChange cfg;;
           updateFillStatus (f_orderId fill) (f_id fill) "SOURCE_WITHDRAWN" [];;
           announce_withdrawal fill sourceEscrowId secret withdrawTx;;
           s' <- get;
           let orderData := JsMap.get (f_orderId fill) (activeOrders s') in
           pay_detected orderData fill sourceEscrowId secret;;
           socketEmit "swap:completed" (detected_fields orderData fill withdrawTx);;
           updateFillStatus (f_orderId fill) (f_id fill) "COMPLETED" [];;
           modify (set_monitoringFills
             (JsMap.remove (default "undefined" (f_destinationEscrowId fill))))
       end)
    (fun _ => updateFillStatus (f_orderId fill) (f_id fill) "FAILED" []).

(** ** The poll *)

Definition event_key (log : EscrowLog) : string :=
  toString (log_blockNumber log) ++ "-" ++ toString (log_transactionIndex log).

Definition process_log (log : EscrowLog) : rprog unit :=
  s <- get;
  if negb (log_hasArgs log) then Ret tt
  else if JsSet.has (event_key log) (processedEvents s) then Ret tt
  else
    modify (set_processedEvents (JsSet.add (event_key log)));;
    s' <- get;
    if JsSet.has ("auto-" ++ log_escrowId log) (processedEvents s') then Ret tt
    else
      match JsMap.find (fun _ f => bool_decide (f_secretHash f = Some (log_hashlock log)))
              (monitoringFills s') with
      | Some (_, fill) => handleSourceEscrowCreated fill (log_escrowId log)
      | None => Ret tt
      end.

Fixpoint process_logs (logs : list EscrowLog) : rprog unit :=
  match logs with
  | [] => Ret tt
  | log :: rest => process_log log;; process_logs rest
  end.

(** One tick of the interval timer. *)
Definition poll_escrows : rprog unit :=
  try_catch
    (currentBlock <- ethBlockNumber;
     let fromBlock := Z.max 0 (currentBlock - 10) in
     logs <- ethQueryEscrows (ethEscrowAddress (chainConfig cfg)) (ethereumAddress cfg)
               fromBlock currentBlock;
     process_logs logs)
    (fun _ => Ret tt).
End Events.
