(* ===== verification/OrderIntake.v ===== *)
(** * The resolver: new orders

    From the [order:new], [order:update] and [order:fill] messages to the
    destination escrow of an order that is filled in one piece:
    [handleNewOrder], [checkProfitability], [checkBalance] and
    [createDestinationEscrow] of
    [backend/resolver/src/services/ResolverServiceV2.ts]. *)

From Stdlib Require Import ZArith Lia.
From stdpp Require Import base numbers list strings.
From S2P Require Import Prelude.
From S2P Require Import JsNumber.
From S2P Require Import JsString.
From S2P Require Import JsFormat.
From S2P Require Import JsMap.
From S2P Require Import PartialFill.
From S2P Require Import OrderTypes.
From S2P Require Import Async.
From S2P Require Import Chain.
From S2P Require Import AptosChain.
From S2P Require Import TokenServices.
From S2P Require Import ChainService.
From S2P Require Import PriceService.
From S2P Require Import Resolver.
From S2P Require Import Swap.
From S2P Require Import EscrowEvents.

Local Open Scope string_scope.
Local Open Scope Z_scope.
Local Open Scope prog_scope.

(** [ethers.formatEther] of a wei amount, [ethers.parseEther], and
    [ethers.randomBytes(32)] as a function of the moment of the call. *)
Class EthersUnits := {
  formatEther18 : Z -> string;
  parseEther : string -> result Z;
  randomBytes : Z -> bytes
}.

(** A decimal text with eighteen decimals is read as that many wei. *)
Class EthersUnitsLaws `{EthersUnits} := {
  parseEther_fixed : forall z, 0 <= z -> parseEther (fixed_digits z 18) = Ok z
}.

(** [parseEther('0.01')] and [parseEther('100')] *)
Definition ether_0_01 : Z := 10000000000000000.
Definition ether_100 : Z := 100000000000000000000.

Definition APTOS_COIN : string := "0x1::aptos_coin::AptosCoin".

(** [error.message || error] in a template. *)
Definition error_text (e : exn) : string :=
  if str_truthy (message e) then message e
  else match e with
       | SyntaxError _ => "SyntaxError"
       | RangeError _ => "RangeError"
       | TypeError _ => "TypeError"
       | _ => "Error"
       end.

(** The outcome of a call, kept as a value. *)
Definition attempt {I S A} (m : prog I S A) : prog I S (result A) :=
  try_catch (a <- m; Ret (Ok a)) (fun e => Ret (Throw e)).

Section Intake.
Context `{Ethers, AptosSdk, EthersBytes, SignatureParts, EthersUnits} (cfg : RConfig).
Local Abbreviation rprog := (prog ChainI RState).

(** ** Prices *)

(** The name under which the price service knows a token. *)
Definition price_token (token : string) : string :=
  if String.eqb token ZeroAddress then "ETH"
  else if String.eqb (toLowerCase token) (toLowerCase (wethAddress cfg)) then "ETH"
  else if String.eqb token APTOS_COIN then "APT"
  else token.

(** An amount as text: 18 decimals on Ethereum, 8 on Aptos. *)
Definition amount_text (chain : Chain) (amount : string) : result string :=
  match chain with
  | ETHEREUM => result_bind (getBigInt amount) (fun z => Ok (formatEther18 z))
  | APTOS => Ok (number_toString (div (parseInt amount) (of_Z 100000000)))
  end.

(** [1 - tolerance] *)
Definition required_ratio : number := sub (of_Z 1) (lit 2 100).

Definition checkProfitability (order : Order) : rprog bool :=
  try_catch
    (exchangeRate <- getExchangeRate (apiKey cfg) (price_token (fromToken order))
                       (price_token (toToken order));
     fromAmountFormatted <- of_result (amount_text (fromChain order) (fromAmount order));
     let expectedOutput := calculateOutputAmount fromAmountFormatted exchangeRate true in
     minRequired <- of_result (amount_text (toChain order) (minToAmount order));
     Ret (geb (div (parseFloat expectedOutput) (parseFloat minRequired)) required_ratio))
    (fun _ => Ret true).

(** ** Balances *)

Definition checkBalance (order : Order) : rprog bool :=
  try_catch
    (match toChain order with
     | ETHEREUM =>
         if String.eqb (toToken order) ZeroAddress then
           balance <- ethBalance (ethereumAddress cfg);
           amount <- of_result (BigInt (minToAmount order));
           Ret (amount + ether_0_01 <=? balance)
         else
           balance <- ethView (toToken order) "balanceOf" [AString (ethereumAddress cfg)];
           amount <- of_result (BigInt (minToAmount order));
           Ret (amount <=? balance)
     | APTOS =>
         ok <- fetchAptBalance (aptosAddress cfg);
         if (ok : bool) then
           first <- fetchAptBalanceJson (aptosAddress cfg);
           balance <- of_result (BigInt (default "0" (present first)));
           amount <- of_result (BigInt (minToAmount order));
           Ret (amount <=? balance)
         else Ret false
     end)
    (fun _ => Ret false).

(** ** The destination escrow of a whole order *)

(** The approval of the escrow contract; every failure is only logged. *)
Definition ensure_allowance (order : Order) : rprog unit :=
  if bool_decide (toChain order = ETHEREUM) && negb (String.eqb (toToken order) ZeroAddress) then
    try_catch
      (currentAllowance <- WETHService.getAllowance (wethAddress cfg) (ethereumAddress cfg)
                             (ethEscrowAddress (chainConfig cfg));
       if currentAllowance <? ether_100 then
         approveTx <- ethSend (wethAddress cfg) "approve"
           [AString (ethEscrowAddress (chainConfig cfg)); AInt ether_100] 0 None;
         ethWait approveTx;;
         sleep 5000
       else Ret tt)
      (fun _ => Ret tt)
  else Ret tt.

(** The output amount in the units of the destination chain. *)
Definition output_units (chain : Chain) (outputAmount : string) : result string :=
  match chain with
  | ETHEREUM =>
      result_bind (parseEther (toFixed (parseFloat outputAmount) 18)) (fun z => Ok (toString z))
  | APTOS => Ok (number_toString (floor (mul (parseFloat outputAmount) (of_Z 100000000))))
  end.

(** [order.secretHash || keccak256(randomBytes(32))] *)
Definition secret_hash_of (order : Order) : rprog string :=
  match present (OrderTypes.secretHash order) with
  | Some secretHash => Ret secretHash
  | None => t <- now; Ret (keccak256 (randomBytes t))
  end.

Definition createFill (order : Order) (amount secretHash : string) : rprog (option RFill) :=
  httpPostFill (id order)
    {| fd_resolver := match toChain order with
                      | ETHEREUM => ethereumAddress cfg
                      | APTOS => aptosAddress cfg
                      end;
       fd_amount := amount; fd_secretHash := Some secretHash; fd_secretIndex := of_Z 0;
       fd_fillPercentage := None; fd_cumulativePercentage := None;
       fd_destinationEscrowId := None; fd_baseOrderId := None; fd_fillIndex := None;
       fd_merkleIndex := Some (of_Z 0) |}.

Definition dest_escrow_id (order : Order) (secretHash : string) : string :=
  PartialFill.id (id order ++ "-dest-" ++ secretHash).

Definition lock_destination (order : Order) (fillAmount secretHash : string) (timelock : number)
    : rprog string :=
  let escrowId := dest_escrow_id order secretHash in
  let safetyDeposit := toString ether_0_000001 in
  match toChain order with
  | ETHEREUM =>
      currentBalance <- getEthereumBalance (ethereumAddress cfg) (Some (toToken order));
      formatEther fillAmount;;
      needed <- of_result (BigInt fillAmount);
      if currentBalance <? needed then
        Fail (Error ("Insufficient " ++
                     (if String.eqb (toToken order) ZeroAddress then "ETH" else "token") ++
                     " balance for escrow"))
      else
        createEthereumEscrow (chainConfig cfg) escrowId (receiver order) (toToken order)
          fillAmount secretHash timelock safetyDeposit None
  | APTOS =>
      escrowIdBytes <- of_result (getBytes escrowId);
      hashlock <- of_result (getBytes secretHash);
      createAptosEscrow (chainConfig cfg) escrowIdBytes (aptosAddress cfg) (receiver order)
        fillAmount hashlock timelock safetyDeposit
  end.

Definition set_destination (escrowId : string) (f : RFill) : RFill :=
  {| f_id := f_id f; f_orderId := f_orderId f; f_resolver := f_resolver f;
     f_amount := f_amount f; f_secretHash := f_secretHash f; f_secretIndex := f_secretIndex f;
     f_status := f_status f; f_fillPercentage := f_fillPercentage f;
     f_cumulativePercentage := f_cumulativePercentage f;
     f_cumulativeFillPercentage := f_cumulativeFillPercentage f;
     f_merkleIndex := f_merkleIndex f; f_actualEscrowId := f_actualEscrowId f;
     f_baseOrderId := f_baseOrderId f; f_fillIndex := f_fillIndex f;
     f_destinationEscrowId := Some escrowId; f_sourceEscrowId := f_sourceEscrowId f |}.

Definition destination_fields (order : Order) (fillAmount secretHash destTxHash : string)
    (timelock : number) : list (string * Json) :=
  [("orderId", JStr (id order)); ("escrowId", JStr (dest_escrow_id order secretHash));
   ("chain", JStr (chain_string (toChain order))); ("txHash", JStr destTxHash);
   ("secretHash", JStr secretHash); ("timelock", JNum timelock); ("amount", JStr fillAmount);
   ("isPartialFill", JBool false); ("fillRatio", JNum (of_Z 1))].

Definition announce_destination (order : Order) (fillAmount secretHash destTxHash : string)
    (timelock : number) : rprog unit :=
  socketEmit "escrow:destination:created"
    (destination_fields order fillAmount secretHash destTxHash timelock).

(** ** The source side *)

Definition isWETHOrder (order : Order) : bool :=
  bool_decide (fromChain order = ETHEREUM) &&
  String.eqb (toLowerCase (fromToken order)) (toLowerCase (wethAddress cfg)).

Definition isAPTOrder (order : Order) : bool :=
  bool_decide (fromChain order = APTOS) && String.eqb (fromToken order) APTOS_COIN.

(** [order.permit && order.permitSignature] *)
Definition order_permit (order : Order) : option (Permit * string) :=
  match permit order, present (permitSignature order) with
  | Some p, Some signature => Some (p, signature)
  | _, _ => None
  end.

(** [createSourceEscrowForAPT] only logs. *)
Definition createSourceEscrowForAPT (order : Order) (fill : RFill) : rprog unit := Ret tt.

(** Whether the handler goes on to the source escrow ([true]) or returns. *)
Definition source_transfer (order : Order) (fill : RFill) : rprog bool :=
  if isAPTOrder order then
    try_catch (createSourceEscrowForAPT order fill) (fun _ => Ret tt);;
    Ret true
  else if isWETHOrder order then
    if is_gasless order then
      try_catch
        (executeGaslessWETHEscrow cfg order fill;; Ret false)
        (fun error => Fail (Error ("Gasless WETH escrow failed: " ++ error_text error)))
    else
      Fail (Error ("WETH swaps require gasless flow." ++
                   " Non-gasless WETH orders are not supported."))
  else
    match order_permit order with
    | Some (p, signature) =>
        if bool_decide (fromChain order = ETHEREUM) then
          try_catch
            (PermitService.executePermitTransfer (permitContract cfg) p signature
               (fromToken order) (ethEscrowAddress (chainConfig cfg));;
             Ret true)
            (fun _ => Ret false)
        else Ret true
    | None => Ret true
    end.

(** The source escrow the resolver creates from the maker's tokens. *)
Definition create_source (order : Order) (fill : RFill) (secretHash : string) (timelock : number)
    : rprog unit :=
  try_catch
    (let sourceEscrowId := PartialFill.id (id order ++ "-source-" ++ secretHash) in
     sourceTxHash <- createEthereumEscrowFor (chainConfig cfg) sourceEscrowId (maker order)
       (ethereumAddress cfg) (fromToken order) (fromAmount order) secretHash timelock;
     socketEmit "escrow:source:created"
       [("orderId", JStr (id order)); ("escrowId", JStr sourceEscrowId);
        ("chain", JStr "ETHEREUM"); ("txHash", JStr sourceTxHash);
        ("amount", JStr (fromAmount order))];;
     modify (set_processedEvents (JsSet.add ("auto-" ++ sourceEscrowId)));;
     request_secret order;;
     modify (set_pending (JsMap.set (id order)
       {| pending_order := order; pending_fill := fill; pending_source := sourceEscrowId;
          pending_destination := dest_escrow_id order secretHash |})))
    (fun _ => Ret tt).

(** The [try] block of [createDestinationEscrow] once the fill is posted. *)
Definition destination_steps (order : Order) (created : option RFill)
    (fillAmount secretHash : string) : rprog unit :=
  t <- now;
  let timelock := add (seconds t) (of_Z 3600) in
  let escrowId := dest_escrow_id order secretHash in
  destTxHash <- lock_destination order fillAmount secretHash timelock;
  fill <- of_result (match created with
                     | Some fill => Ok fill
                     | None => Throw (TypeError "Cannot read properties of undefined (reading 'id')")
                     end);
  updateFillStatus (id order) (f_id fill) "DESTINATION_CREATED"
    [("destTxHash", destTxHash); ("destinationEscrowId", escrowId)];;
  modify (set_monitoringFills (JsMap.set escrowId (set_destination escrowId fill)));;
  announce_destination order fillAmount secretHash destTxHash timelock;;
  continue <- source_transfer order fill;
  if (continue : bool) && (isWETHOrder order || bool_decide (is_Some (order_permit order)))
  then create_source order fill secretHash timelock
  else Ret tt.

(** The [catch] block: reported, recorded when there is a fill, rethrown. *)
Definition destination_failed (order : Order) (created : option RFill) (error : exn)
    : rprog unit :=
  socketEmit "order:error"
    [("orderId", JStr (id order)); ("error", JStr "Failed to create destination escrow");
     ("details", JStr (message error));
     ("reason", JStr (if includes (message error) "insufficient"
                      then "Resolver has insufficient WETH balance"
                      else "Escrow creation failed"))];;
  match created with
  | Some fill => updateFillStatus (id order) (f_id fill) "FAILED" []
  | None => Ret tt
  end;;
  Fail error.

Definition createDestinationEscrow (order : Order) : rprog unit :=
  ensure_allowance order;;
  exchangeRate <- getExchangeRate (apiKey cfg) (price_token (fromToken order))
                    (price_token (toToken order));
  fromAmountFormatted <- of_result (amount_text (fromChain order) (fromAmount order));
  let outputAmount := calculateOutputAmount fromAmountFormatted exchangeRate true in
  fillAmount <- of_result (output_units (toChain order) outputAmount);
  secretHash <- secret_hash_of order;
  posted <- attempt (createFill order fillAmount secretHash);
  match posted with
  | Throw error => destination_failed order None error
  | Ok created =>
      try_catch (destination_steps order created fillAmount secretHash)
        (destination_failed order created)
  end.

(** ** handleNewOrder *)

Definition release (order : Order) : rprog unit :=
  modify (set_isProcessing (JsSet.remove (id order))).

(** The [catch] block reads balances to explain a balance problem. *)
Definition explain_error (order : Order) (error : exn) : rprog unit :=
  if includes (message error) "Insufficient" || includes (message error) "balance" then
    try_catch
      (getEthereumBalance (ethereumAddress cfg) (Some (toToken order));;
       ethBalance (ethereumAddress cfg);;
       let required := match toChain order with
                       | ETHEREUM => minToAmount order
                       | APTOS => "0"
                       end in
       formatEther required;;
       of_result (BigInt required);;
       Ret tt)
      (fun _ => Ret tt)
  else Ret tt.

Definition whole_order (order : Order) : rprog unit :=
  isProfitable <- checkProfitability order;
  if negb isProfitable then Ret tt
  else
    hasSufficientBalance <- checkBalance order;
    if negb hasSufficientBalance then Ret tt
    else
      trackBalanceChange cfg;;
      createDestinationEscrow order;;
      trackBalanceChange cfg.

Definition takes_partial_path (order : Order) : bool :=
  partialFillAllowed order || partialFillEnabled order ||
  (bool_decide (fromChain order = APTOS) && bool_decide (toChain order = ETHEREUM)).

(** [return this.handlePartialFillOrder(order)] does not await: [finally] runs
    while the partial fill waits for its first answer, and its errors reach the
    caller, not this [catch]. *)
Definition handleNewOrder (order : Order) : rprog unit :=
  s <- get;
  if JsSet.has (id order) (isProcessing s) then Ret tt
  else
    modify (set_isProcessing (JsSet.add (id order)));;
    modify (set_activeOrders (JsMap.set (id order) order));;
    if takes_partial_path order then
      detached (handlePartialFillOrder cfg order) (release order)
    else
      try_catch (whole_order order) (explain_error order);;
      release order.

(** ** The listeners *)

Definition on_order_new (order : Order) : rprog unit := handleNewOrder order.

(** [(order.filledPercentage || 0) < 100] *)
Definition not_filled (order : Order) : bool :=
  ltb (or_else (filledPercentage order) (of_Z 0)) (of_Z 100).

Definition on_order_update (order : Order) : rprog unit :=
  modify (set_activeOrders (JsMap.set (id order) order));;
  if (partialFillAllowed order || partialFillEnabled order) && not_filled order
  then handleNewOrder order
  else Ret tt.

Definition on_order_fill (order : Order) : rprog unit :=
  modify (set_activeOrders (JsMap.set (id order) order));;
  if (partialFillAllowed order || partialFillEnabled order) && not_filled order &&
     negb (bool_decide (status order = FILLED))
  then newOrderLater 2000 (id order)
  else Ret tt.

(** [escrow:source:created] of another party, with its [chain] field. *)
Definition on_source_created (chain : option string) (order : string) (ref : EscrowRef)
    (hash : option string) : rprog unit :=
  if bool_decide (chain = Some "APTOS") then handleAPTEscrowCreated order ref hash
  else Ret tt.
End Intake.
