(* ===== verification/SignedOrders.v ===== *)
(** * The resolver: signed orders

    The handlers of the messages by which a maker authorises the source escrow:
    [order:signed], its sponsored variants, [order:signed:with:permit] and
    [order:signed:multiagent] of
    [backend/resolver/src/services/ResolverServiceV2.ts]. A byte array of a
    message is the list of its bytes. BCS decoding and signing are the class
    [AptosCodec]. *)

From Stdlib Require Import ZArith Lia Ascii.
From stdpp Require Import base numbers list strings.
From S2P Require Import Prelude.
From S2P Require Import JsNumber.
From S2P Require Import JsString.
From S2P Require Import JsFormat.
From S2P Require Import JsMap.
From S2P Require Import PartialFill.
From S2P Require Import OrderTypes.
From S2P Require Import Async.
From S2P Require Import Chain.
From S2P Require Import AptosChain.
From S2P Require Import TokenServices.
From S2P Require Import ChainService.
From S2P Require Import Resolver.
From S2P Require Import Swap.
From S2P Require Import EscrowEvents.
From S2P Require Import OrderIntake.

Local Open Scope string_scope.
Local Open Scope Z_scope.
Local Open Scope prog_scope.

(** ** Messages *)

Record OrderMessage := {
  om_escrow_id : list Z;
  om_depositor : string;
  om_beneficiary : string;
  om_amount : string;
  om_hashlock : list Z;
  om_timelock : number;
  om_nonce : number;
  om_expiry : number
}.

(** A transaction the maker signed, serialized to hex. *)
Record SignedBytes := { transactionBytes : string; authenticatorBytes : string }.

Record SignedOrder := {
  so_orderId : string;
  so_fromChain : Chain;
  so_toChain : Chain;
  so_fromAmount : string;
  so_toAmount : string;
  so_secretHash : option string;
  so_orderMessage : OrderMessage;
  so_publicKey : string;
  so_signature : string;
  so_userFundedTx : option string;
  so_isPartialFill : bool;
  so_escrowAmount : option string;
  so_fillPercentage : option number;
  so_gaslessData : option GaslessData;
  so_hasPermit : bool;
  so_sponsoredTransaction : option SignedBytes;
  so_multiAgentTransaction : option SignedBytes
}.

(** Decoding of serialized transactions and authenticators from hex, and the
    signatures of the resolver's account: as signer, as fee payer through the
    transaction API, and as fee payer on the account. All may throw. *)
Class AptosCodec := {
  deserializeSimple : string -> result bytes;
  deserializeRaw : string -> result bytes;
  deserializeAuthenticator : string -> result string;
  signTransaction : bytes -> result string;
  signAsFeePayer : bytes -> result string;
  accountSignAsFeePayer : bytes -> result string
}.

(** ** Bytes *)

(** [new Uint8Array(l)] keeps the low byte of each element. *)
Definition uint8 (l : list Z) : list Z := (fun b => b mod 256) <$> l.

(** [ethers.hexlify(new Uint8Array(l))] and ['0x' + Buffer.from(l).toString('hex')] *)
Definition hex_of_bytes (l : list Z) : string := ref_hex (RefBytes (uint8 l)).

(** [s.match(/.{1,2}/g)]: the text in pairs of characters. *)
Fixpoint pairs_of (s : string) : list string :=
  match s with
  | EmptyString => []
  | String a EmptyString => [String a EmptyString]
  | String a (String b t) => String a (String b EmptyString) :: pairs_of t
  end.

(** An element of a [Uint8Array] from a number: [NaN] is 0. *)
Definition uint8_of_number (x : number) : Z :=
  match to_bigint x with Some z => z mod 256 | None => 0 end.

(** [new Uint8Array(hex.match(/.{1,2}/g)!.map(b => parseInt(b, 16)))]; there is
    no match in the empty string. *)
Definition bytes_of_hex (s : string) : result (list Z) :=
  let hex := if startsWith s "0x" then String.substring 2 (String.length s - 2) s else s in
  match pairs_of hex with
  | [] => Throw (TypeError "Cannot read properties of null (reading 'map')")
  | l => Ok ((fun b => uint8_of_number (parseInt_base 16 b)) <$> l)
  end.

(** [key.split('-')] *)
Fixpoint split_hyphen (s : string) : list string :=
  match s with
  | EmptyString => [""]
  | String c t =>
      match split_hyphen t with
      | w :: rest =>
          if Ascii.eqb c "-"%char then "" :: w :: rest else String c w :: rest
      | [] => [String c ""]
      end
  end.

(** [error.lastSubmittedTransaction?.hash] *)
Definition last_submitted (e : exn) : option string :=
  match e with TransactionError _ hash => hash | _ => None end.

(** Copies of an order with other fields. *)
Definition update_dto (f : CreateOrderDto -> CreateOrderDto) (o : Order) : Order :=
  {| order_dto := f (order_dto o); id := id o; status := status o;
     filledAmount := filledAmount o; filledPercentage := filledPercentage o;
     createdAt := createdAt o; updatedAt := updatedAt o; fills := fills o |}.

Definition with_source (amount : string) (g : option GaslessData) (hash : option string)
    (d : CreateOrderDto) : CreateOrderDto :=
  {| fromChain := fromChain d; toChain := toChain d; fromToken := fromToken d;
     toToken := toToken d; fromAmount := amount; minToAmount := minToAmount d;
     maker := maker d; receiver := receiver d; signature := signature d;
     deadline := deadline d; nonce := nonce d; partialFillAllowed := partialFillAllowed d;
     partialFillEnabled := partialFillEnabled d; secretHash := hash;
     secretHashes := secretHashes d; partialFillSecrets := partialFillSecrets d;
     maxParts := maxParts d; activeResolvers := activeResolvers d;
     dutchAuction := dutchAuction d; permit := permit d; permitSignature := permitSignature d;
     gasless := gasless d; gaslessData := g |}.

Definition with_amount (amount : string) (f : RFill) : RFill :=
  {| f_id := f_id f; f_orderId := f_orderId f; f_resolver := f_resolver f; f_amount := amount;
     f_secretHash := f_secretHash f; f_secretIndex := f_secretIndex f; f_status := f_status f;
     f_fillPercentage := f_fillPercentage f; f_cumulativePercentage := f_cumulativePercentage f;
     f_cumulativeFillPercentage := f_cumulativeFillPercentage f;
     f_merkleIndex := f_merkleIndex f; f_actualEscrowId := f_actualEscrowId f;
     f_baseOrderId := f_baseOrderId f; f_fillIndex := f_fillIndex f;
     f_destinationEscrowId := f_destinationEscrowId f; f_sourceEscrowId := f_sourceEscrowId f |}.

(** The fill record of a whole order that the maker funds. *)
Definition own_fill (order : Order) (resolver : string) (source : option string) : RFill :=
  {| f_id := id order ++ "-resolver"; f_orderId := id order; f_resolver := resolver;
     f_amount := fromAmount order;
     f_secretHash := Some (default "" (present (OrderTypes.secretHash order)));
     f_secretIndex := of_Z 0; f_status := "PENDING"; f_fillPercentage := None;
     f_cumulativePercentage := None; f_cumulativeFillPercentage := None;
     f_merkleIndex := Some (of_Z 0); f_actualEscrowId := None; f_baseOrderId := None;
     f_fillIndex := None; f_destinationEscrowId := None; f_sourceEscrowId := source |}.

Section Signed.
Context `{Ethers, AptosSdk, EthersBytes, SignatureParts, EthersUnits, AptosCodec} (cfg : RConfig).
Local Abbreviation rprog := (prog ChainI RState).

(** The first monitored fill of an order. *)
Definition first_fill (orderId : string) (s : RState) : option RFill :=
  snd <$> JsMap.find (fun _ f => String.eqb (f_orderId f) orderId) (monitoringFills s).

(** ** [order:signed] from Aptos: the resolver pays *)

Definition delegated_args (m : OrderMessage) (publicKey signature : list Z) : list Arg :=
  [AInts (om_escrow_id m); AString (om_depositor m); AString (om_beneficiary m);
   AString (om_amount m); AInts (om_hashlock m); AString (number_toString (om_timelock m));
   AString (number_toString (om_nonce m)); AString (number_toString (om_expiry m));
   AString "100000"; AInts publicKey; AInts signature].

(** The inner [try]: submit, wait, announce on success. *)
Definition submit_delegated (data : SignedOrder) (order : Order) (args : list Arg) : rprog unit :=
  rethrowing (
    sequence_number <- aptosAccountInfo (aptosAccountAddress (chainConfig cfg));
    sequence <- of_result (BigInt sequence_number);
    transaction <- aptosBuild (escrowModule cfg ++ "::escrow::create_escrow_delegated") args
                     (Some sequence);
    pendingTx <- aptosSubmit transaction;
    executedTx <- aptosWait pendingTx true;
    if success executedTx then
      socketEmit "escrow:source:created"
        [("orderId", JStr (id order));
         ("escrowId", JStr (hex_of_bytes (om_escrow_id (so_orderMessage data))));
         ("chain", JStr "APTOS"); ("txHash", JStr (executed_hash executedTx));
         ("amount", JStr (fromAmount order));
         ("secretHash", JStr (default (hex_of_bytes (om_hashlock (so_orderMessage data)))
                                (present (so_secretHash data))))]
    else Fail (Error ("Failed to create escrow: " ++ vm_status executedTx))).

Definition handleSignedAptosOrder (data : SignedOrder) : rprog unit :=
  try_catch
    (s <- get;
     match JsMap.get (so_orderId data) (activeOrders s) with
     | None => Ret tt
     | Some order =>
         match present (so_userFundedTx data) with
         | Some _ => Ret tt
         | None =>
             match first_fill (id order) s with
             | None => Ret tt
             | Some _ =>
                 resolverBalance <- AptosChain.getBalance (aptosAccountAddress (chainConfig cfg));
                 let totalRequired :=
                   add (parseFloat (om_amount (so_orderMessage data))) (of_Z 100000) in
                 if ltb (parseFloat resolverBalance) totalRequired then
                   Fail (Error ("Insufficient resolver balance: need " ++
                                toFixed (div totalRequired (of_Z 100000000)) 8 ++ " APT"))
                 else
                   publicKeyBytes <- of_result (bytes_of_hex (so_publicKey data));
                   signatureBytes <- of_result (bytes_of_hex (so_signature data));
                   submit_delegated data order
                     (delegated_args (so_orderMessage data) publicKeyBytes signatureBytes)
             end
         end
     end)
    (fun _ => socketEmit "order:failed"
       [("orderId", JStr (so_orderId data)); ("reason", JStr "Failed to create APT escrow");
        ("stage", JStr "source_escrow_creation")]).

(** ** [order:signed:sponsored]: the order is rebuilt from a key of
    [monitoringFills] and nothing is submitted *)

Definition part (n : nat) (key : string) : string := default "" (split_hyphen key !! n).

Definition rebuilt_order (data : SignedOrder) (key : string) (t : Z) : Order :=
  {| order_dto :=
       {| fromChain := so_fromChain data; toChain := so_toChain data;
          fromToken := part 1 key; toToken := part 2 key; fromAmount := so_fromAmount data;
          minToAmount := so_toAmount data; maker := om_depositor (so_orderMessage data);
          receiver := "0x17061146a55f31BB85c7e211143581B44f2a03d0"; signature := "";
          deadline := of_Z (t + 3600000); nonce := ""; partialFillAllowed := false;
          partialFillEnabled := false; secretHash := so_secretHash data; secretHashes := None;
          partialFillSecrets := None; maxParts := None; activeResolvers := None;
          dutchAuction := None; permit := None; permitSignature := None; gasless := None;
          gaslessData := None |};
     id := so_orderId data; status := PENDING; filledAmount := ""; filledPercentage := NaN;
     createdAt := t; updatedAt := t; fills := [] |}.

(** ['0x' + 'a'.repeat(64)] *)
Definition simulated_hash : string :=
  "0x" ++ "aaaaaaaaaaaaaaaaaaaaaaaaaaaaaaaaaaaaaaaaaaaaaaaaaaaaaaaaaaaaaaaa".

Definition secret_request (orderId : string) (message : string) : rprog unit :=
  socketEmit "secret:request" [("orderId", JStr orderId); ("message", JStr message)].

Definition handleSponsoredAptosOrder (data : SignedOrder) : rprog unit :=
  let orderId := so_orderId data in
  try_catch
    (s <- get;
     match JsMap.find (fun key _ => includes key orderId) (monitoringFills s) with
     | None => Ret tt
     | Some (key, _) =>
         t <- now;
         let order := rebuilt_order data key t in
         let escrowId := ref_hex (RefBytes (om_escrow_id (so_orderMessage data))) in
         socketEmit "escrow:source:created"
           [("orderId", JStr orderId); ("escrowId", JStr escrowId); ("chain", JStr "APTOS");
            ("txHash", JStr simulated_hash); ("amount", JStr (fromAmount order));
            ("secretHash", JOpt (so_secretHash data))];;
         match JsMap.get (orderId ++ "-" ++ fromToken order ++ "-" ++ toToken order)
                 (monitoringFills s) with
         | Some fill =>
             match present (f_destinationEscrowId fill) with
             | Some dest =>
                 modify (set_pending (JsMap.set orderId
                   {| pending_order := order; pending_fill := fill;
                      pending_source := escrowId; pending_destination := dest |}));;
                 secret_request orderId ("Both escrows confirmed on-chain." ++
                   " Please reveal your secret to complete the swap.")
             | None => Ret tt
             end
         | None => Ret tt
         end
     end)
    (fun error => socketEmit "order:error"
       [("orderId", JStr orderId);
        ("error", JStr "Failed to create APT escrow with sponsored transaction");
        ("details", JStr (message error))]).

(** ** [order:signed:sponsored:v2] *)

(** [aptos.waitForTransaction] with a thrown error when it was not a success. *)
Definition confirm (hash : string) : rprog unit :=
  executedTx <- aptosWait hash true;
  if success executedTx then Ret tt
  else Fail (Error ("Transaction failed: " ++ vm_status executedTx)).

(** [error.message || 'Unknown error'] *)
Definition details_of (e : exn) : Json :=
  JStr (if str_truthy (message e) then message e else "Unknown error").

Definition source_fields (data : SignedOrder) (escrowId : string) (txHash : Json)
    : list (string * Json) :=
  [("orderId", JStr (so_orderId data)); ("escrowId", JStr escrowId); ("chain", JStr "APTOS");
   ("txHash", txHash); ("amount", JStr (so_fromAmount data));
   ("secretHash", JOpt (so_secretHash data)); ("userFunded", JBool true)].

Definition handleSponsoredAptosOrderV2 (data : SignedOrder) (signed : SignedBytes) : rprog unit :=
  let orderId := so_orderId data in
  try_catch
    (transaction <- of_result (deserializeSimple (transactionBytes signed));
     userAuthenticator <- of_result (deserializeAuthenticator (authenticatorBytes signed));
     resolverAuthenticator <- of_result (signTransaction transaction);
     feePayerAuthenticator <- of_result (signAsFeePayer transaction);
     pendingTx <- aptosSubmitMultiAgent transaction userAuthenticator [resolverAuthenticator]
                    feePayerAuthenticator;
     confirm pendingTx;;
     let escrowId := hex_of_bytes (om_escrow_id (so_orderMessage data)) in
     socketEmit "escrow:source:created" (source_fields data escrowId (JStr pendingTx));;
     s <- get;
     match JsMap.get orderId (activeOrders s), first_fill orderId s with
     | Some order, Some fill =>
         match present (f_destinationEscrowId fill) with
         | Some dest =>
             modify (set_pending (JsMap.set orderId
               {| pending_order := order; pending_fill := fill; pending_source := escrowId;
                  pending_destination := dest |}));;
             secret_request orderId ("Both escrows confirmed." ++
               " Please reveal your secret to complete the swap.")
         | None => Ret tt
         end
     | _, _ => Ret tt
     end)
    (fun error => socketEmit "order:error"
       [("orderId", JStr orderId); ("error", JStr "Failed to submit sponsored transaction");
        ("details", details_of error)]).

(** ** [order:signed:with:permit] *)

Definition handlePermitBasedAptosOrder (data : SignedOrder) : rprog unit :=
  try_catch
    (s <- get;
     match JsMap.get (so_orderId data) (activeOrders s) with
     | None => Ret tt
     | Some _ => handleSignedAptosOrder data
     end)
    (fun error => socketEmit "order:error"
       [("orderId", JStr (so_orderId data));
        ("error", JStr "Failed to create APT escrow with permit");
        ("details", JStr (message error))]).

(** ** [order:signed:multiagent] *)

(** [ChainServiceSimple.submitMultiAgentTransaction] *)
Definition submitMultiAgentTransaction (rawTxn : bytes) (userSignature feePayerSignature : string)
    : rprog string := aptosSubmitMultiAgent rawTxn userSignature [] feePayerSignature.

Definition handleMultiAgentAptosOrder (data : SignedOrder) (signed : SignedBytes) : rprog unit :=
  try_catch
    (s <- get;
     match JsMap.get (so_orderId data) (activeOrders s) with
     | None => Ret tt
     | Some order =>
         rawTxn <- of_result (deserializeRaw (transactionBytes signed));
         userSignature <- of_result (deserializeAuthenticator (authenticatorBytes signed));
         feePayerSignature <- of_result (accountSignAsFeePayer rawTxn);
         pendingTx <- submitMultiAgentTransaction rawTxn userSignature feePayerSignature;
         confirm pendingTx;;
         let escrowIdHex := ref_hex (RefBytes (om_escrow_id (so_orderMessage data))) in
         socketEmit "escrow:source:created"
           [("orderId", JStr (id order)); ("escrowId", JStr escrowIdHex);
            ("transactionHash", JStr pendingTx); ("userFunded", JBool true);
            ("gaslessForUser", JBool true)];;
         modify (set_pending (JsMap.set (id order)
           {| pending_order := order;
              pending_fill := own_fill order (aptosAddress cfg) (Some escrowIdHex);
              pending_source := escrowIdHex; pending_destination := "" |}));;
         createDestinationEscrow cfg order
     end)
    (fun error => socketEmit "order:error"
       [("orderId", JStr (so_orderId data));
        ("error", JStr "Failed to create multi-agent APT escrow");
        ("details", JStr (message error))]).

(** ** [order:signed:sponsored:v3] *)

(** A transaction that timed out is looked up: [true] when it had succeeded
    and was announced. *)
Definition recover_timeout (data : SignedOrder) (error : exn) : rprog bool :=
  if includes (message error) "timed out" then
    try_catch
      (txStatus <- aptosTxByHash (last_submitted error);
       if bool_decide (txStatus = Some true) then
         socketEmit "escrow:source:created"
           (source_fields data (hex_of_bytes (om_escrow_id (so_orderMessage data)))
              (JOpt (last_submitted error)));;
         Ret true
       else Ret false)
      (fun _ => Ret false)
  else Ret false.

Definition handleSponsoredAptosOrderV3 (data : SignedOrder) (signed : SignedBytes) : rprog unit :=
  let orderId := so_orderId data in
  try_catch
    (transaction <- of_result (deserializeSimple (transactionBytes signed));
     userAuthenticator <- of_result (deserializeAuthenticator (authenticatorBytes signed));
     feePayerAuthenticator <- of_result (signAsFeePayer transaction);
     pendingTx <- aptosSubmitFeePayer transaction userAuthenticator feePayerAuthenticator;
     confirm pendingTx;;
     let escrowId := hex_of_bytes (om_escrow_id (so_orderMessage data)) in
     s <- get;
     let order := JsMap.get orderId (activeOrders s) in
     let isPartial := match order with Some o => isPartialFillOrder o | None => false end in
     (if isPartial then Ret tt
      else socketEmit "escrow:source:created" (source_fields data escrowId (JStr pendingTx)));;
     match order, first_fill orderId s with
     | Some _, Some fill =>
         updateFillStatus orderId (f_id fill) "SOURCE_CREATED" [("sourceEscrowId", escrowId)]
     | _, _ => Ret tt
     end)
    (fun error =>
       recovered <- recover_timeout data error;
       if (recovered : bool) then Ret tt
       else
         socketEmit "order:error"
           [("orderId", JStr orderId); ("error", JStr "Failed to sponsor transaction");
            ("details", details_of error); ("txHash", JOpt (last_submitted error))]).

(** ** Signed Ethereum orders *)

(** [handleSignedEthereumOrder]; no listener calls it. *)
Definition handleSignedEthereumOrder (data : SignedOrder) : rprog unit :=
  s <- get;
  match JsMap.get (so_orderId data) (activeOrders s) with
  | None => Ret tt
  | Some order =>
      let pct := match so_fillPercentage data with
                 | Some p => if truthy p then Some p else None
                 | None => None
                 end in
      chosen <- match so_isPartialFill data, pct with
                | true, Some p =>
                    match JsMap.find (fun _ f => String.eqb (f_orderId f) (so_orderId data) &&
                            match f_fillPercentage f with Some q => eqb q p | None => false end)
                            (monitoringFills s) with
                    | Some (_, fill) =>
                        let amount := default (f_amount fill) (present (so_escrowAmount data)) in
                        formatEther amount;;
                        Ret (Some (fill, amount))
                    | None => Ret None
                    end
                | _, _ => Ret (Some (own_fill order (ethereumAddress cfg) None, fromAmount order))
                end;
      match chosen with
      | None => Ret tt
      | Some (fill, escrowAmount) =>
          let escrowId (g : GaslessData) :=
            if so_isPartialFill data then
              PartialFill.id (id order ++ "-source-" ++
                match so_fillPercentage data with
                | Some p => number_toString p
                | None => "undefined"
                end)
            else gd_escrowId g in
          let modifiedOrder := update_dto (fun d => with_source escrowAmount
                ((fun g => {| gd_escrowId := escrowId g; gd_depositor := gd_depositor g;
                              gd_beneficiary := gd_beneficiary g; gd_token := gd_token g;
                              gd_amount := escrowAmount; gd_hashlock := gd_hashlock g;
                              gd_timelock := gd_timelock g; gd_deadline := gd_deadline g;
                              gd_metaTxV := gd_metaTxV g; gd_metaTxR := gd_metaTxR g;
                              gd_metaTxS := gd_metaTxS g; gd_baseOrderId := gd_baseOrderId g;
                              gd_totalAmount := gd_totalAmount g;
                              gd_merkleRoot := gd_merkleRoot g; gd_numFills := gd_numFills g;
                              gd_secrets := gd_secrets g;
                              gd_merkleProofs := gd_merkleProofs g;
                              gd_fillThresholds := gd_fillThresholds g |}) <$> gaslessData d)
                (secretHash d) d) order in
          try_catch (executeGaslessWETHEscrow cfg modifiedOrder fill)
            (fun error => socketEmit "order:failed"
               [("orderId", JStr (id order)); ("error", JStr "Failed to create WETH escrow");
                ("details", JStr (message error))])
      end
  end.

(** ** The listeners *)

(** The Ethereum branch of [order:signed]. The order of a monitored fill is
    active, which the source asserts with [!]. *)
Definition on_signed_ethereum (data : SignedOrder) : rprog unit :=
  s <- get;
  match so_isPartialFill data, present (so_escrowAmount data) with
  | true, Some escrowAmount =>
      match first_fill (so_orderId data) s with
      | Some matchingFill =>
          order <- of_result (match JsMap.get (so_orderId data) (activeOrders s) with
                              | Some o => Ok o
                              | None => Throw (TypeError "order is not active")
                              end);
          executeGaslessWETHEscrow cfg
            (update_dto (fun d => with_source (fromAmount d) (so_gaslessData data)
                                    (so_secretHash data) d) order)
            (with_amount escrowAmount matchingFill)
      | None => Ret tt
      end
  | _, _ =>
      match JsMap.get (so_orderId data) (activeOrders s), first_fill (so_orderId data) s with
      | Some order, Some fill => executeGaslessWETHEscrow cfg order fill
      | _, _ => Ret tt
      end
  end.

Definition on_order_signed (data : SignedOrder) : rprog unit :=
  match so_fromChain data with
  | APTOS => handleSignedAptosOrder data
  | ETHEREUM => on_signed_ethereum data
  end.

Definition on_signed_sponsored (data : SignedOrder) : rprog unit :=
  match so_fromChain data, so_sponsoredTransaction data with
  | APTOS, Some _ => handleSponsoredAptosOrder data
  | _, _ => Ret tt
  end.

Definition on_signed_sponsored_v2 (data : SignedOrder) : rprog unit :=
  match so_fromChain data, so_sponsoredTransaction data with
  | APTOS, Some signed => handleSponsoredAptosOrderV2 data signed
  | _, _ => Ret tt
  end.

Definition on_signed_sponsored_v3 (data : SignedOrder) : rprog unit :=
  match so_fromChain data, so_sponsoredTransaction data with
  | APTOS, Some signed => handleSponsoredAptosOrderV3 data signed
  | _, _ => Ret tt
  end.

Definition on_signed_with_permit (data : SignedOrder) : rprog unit :=
  if bool_decide (so_fromChain data = APTOS) && so_hasPermit data
  then handlePermitBasedAptosOrder data
  else handleSignedAptosOrder data.

Definition on_signed_multiagent (data : SignedOrder) : rprog unit :=
  match so_fromChain data, so_multiAgentTransaction data with
  | APTOS, Some signed => handleMultiAgentAptosOrder data signed
  | _, _ => handleSignedAptosOrder data
  end.
End Signed.
