(* ===== verification/Web.v ===== *)
(** * The outside of the frontend and of the client SDK

    The requests the browser code sends to the wallets, to the two nodes and to
    the backend services, with the type of their answers; and what it sends
    without waiting: socket messages, dialogs and timers. *)

From Stdlib Require Import ZArith Lia.
From stdpp Require Import base numbers list strings.
From S2P Require Import Prelude.
From S2P Require Import JsNumber.
From S2P Require Import JsString.
From S2P Require Import OrderTypes.
From S2P Require Import Signature.
From S2P Require Import Async.
From S2P Require Import Relayer.
From S2P Require Import Chain.
From S2P Require Import Swap.
From S2P Require Import SignedOrders.

Local Open Scope Z_scope.

(** An escrow of the Ethereum contract, by the fields the frontend reads. *)
Record EscrowView := {
  ev_beneficiary : string;
  ev_amount : Z;
  ev_withdrawn : bool;
  ev_refunded : bool
}.

(** The wallet's answer to a message to sign. *)
Record SignedMessage := {
  sm_signature : string;
  sm_publicKey : string;
  sm_fullMessage : option string
}.

(** An account authenticator, or the pair of texts some wallets return. *)
Inductive WalletSignature :=
  | Authenticator (a : string)
  | SignatureAndKey (publicKey signature : option string).

Inductive WebReq :=
  | SignTypedData (domain : Domain) (types : FieldTypes) (m : Signature.Message)
  | SignerAddress
  | NetworkChainId
  | WalletSend (contract fn : string) (args : list Arg) (value : Z)
  | WalletWait (hash : string)
  | ContractRead (contract fn : string) (args : list Arg)
  | ContractReadText (contract fn : string)
  | ReadEscrow (contract escrowId : string)
  | NodeBalance (address : string)
  | AptosFlag (fn : string) (args : list Arg)
  | AptosAmount (fn : string) (args : list Arg)
  | BuildSponsored (sender fn : string) (args : list Arg) (expireTimestamp : Z)
  | WalletSignMessage (wallet : string) (message nonce : string)
  | WalletSignTransaction (wallet : string) (transaction : bytes)
  | PontemSign (fn : string) (args : list Arg)
  | ConfirmApproval (spender : string)
  | Timeout (ms : Z)
  | FetchResolverAddress (port : number)
  | PostOrder (order : CreateOrderDto)
  | PostRelay (request : RelayRequest)
  | HttpGet (url : string).

(** [AptosFlag] and [AptosAmount] answer with the first element of a view's
    answer when there is one, [PostOrder] with the identifier in the answer,
    [PostRelay] with its transaction hash, [HttpGet] with the body.
    [ConfirmApproval] is the blocking dialog that asks to approve a spender; [PontemSign] is the direct call of that wallet, whose answer
    is never used. *)
Definition web_ans (r : WebReq) : Type :=
  match r with
  | SignTypedData _ _ _ => string
  | SignerAddress => string
  | NetworkChainId => Z
  | WalletSend _ _ _ _ => string
  | WalletWait _ => string
  | ContractRead _ _ _ => Z
  | ContractReadText _ _ => string
  | ReadEscrow _ _ => EscrowView
  | NodeBalance _ => Z
  | AptosFlag _ _ => option bool
  | AptosAmount _ _ => option string
  | BuildSponsored _ _ _ _ => bytes
  | WalletSignMessage _ _ _ => SignedMessage
  | WalletSignTransaction _ _ => option WalletSignature
  | PontemSign _ _ => unit
  | ConfirmApproval _ => bool
  | Timeout _ => unit
  | FetchResolverAddress _ => string
  | PostOrder _ => option string
  | PostRelay _ => option string
  | HttpGet _ => string
  end.

(** ** Messages the page receives and sends *)

(** [escrow:destination:created], by the fields the page reads. *)
Record DestinationCreated := {
  dc_orderId : string;
  dc_chain : string;
  dc_escrowId : string;
  dc_amount : option string;
  dc_secretHash : option string;
  dc_timelock : number;
  dc_isPartialFill : bool;
  dc_fillPercentage : option number;
  dc_resolverPort : option number
}.

(** [escrow:source:created] as the page sends it. *)
Record SourceCreated := {
  sc_orderId : string;
  sc_escrowId : list Z;
  sc_amount : string;
  sc_secretHash : option string
}.

(** [order:signed] of an Ethereum order as the page sends it. *)
Record EthereumSigned := {
  es_orderId : string;
  es_signature : string;
  es_signedOrder : CreateOrderDto;
  es_gaslessData : option GaslessData;
  es_secretHash : option string;
  es_isPartialFill : bool;
  es_fillPercentage : option number;
  es_escrowAmount : string
}.

(** The callbacks given to [setTimeout]. A reference to a signed intent is its
    place among the intents the page created. *)
Inductive TimerBody :=
  | SignAptEscrow (data : DestinationCreated) (intent : nat)
  | SendWethEscrow (data : DestinationCreated) (escrowAmount : string)
  | RevealSecret
  | ResetForm.

Inductive WebOut :=
  | SendSubscribe (orderId : string)
  | SendUnsubscribe (orderId : string)
  | SendSignedEthereum (m : EthereumSigned)
  | SendSponsoredV3 (m : SignedOrder)
  | SendSourceCreated (m : SourceCreated)
  | SendReveal (m : Reveal)
  | Alert (text : string)
  | After (ms : Z) (body : TimerBody).

Definition WebI : Interface := {| Req := WebReq; ans := web_ans; Out := WebOut |}.

Abbreviation wprog S := (prog WebI S).

Section Requests.
Context {S : Type}.

Definition signTypedData (domain : Domain) (types : FieldTypes) (m : Signature.Message)
    : wprog S string := await (I := WebI) (SignTypedData domain types m).
Definition signerAddress : wprog S string := await (I := WebI) SignerAddress.
Definition networkChainId : wprog S Z := await (I := WebI) NetworkChainId.
Definition walletSend (contract fn : string) (args : list Arg) (value : Z) : wprog S string :=
  await (I := WebI) (WalletSend contract fn args value).
Definition walletWait (hash : string) : wprog S string := await (I := WebI) (WalletWait hash).
Definition contractRead (contract fn : string) (args : list Arg) : wprog S Z :=
  await (I := WebI) (ContractRead contract fn args).
Definition contractReadText (contract fn : string) : wprog S string :=
  await (I := WebI) (ContractReadText contract fn).
Definition readEscrow (contract escrowId : string) : wprog S EscrowView :=
  await (I := WebI) (ReadEscrow contract escrowId).
Definition nodeBalance (address : string) : wprog S Z := await (I := WebI) (NodeBalance address).
Definition aptosFlag (fn : string) (args : list Arg) : wprog S (option bool) :=
  await (I := WebI) (AptosFlag fn args).
Definition aptosAmount (fn : string) (args : list Arg) : wprog S (option string) :=
  await (I := WebI) (AptosAmount fn args).
Definition buildSponsored (sender fn : string) (args : list Arg) (expire : Z) : wprog S bytes :=
  await (I := WebI) (BuildSponsored sender fn args expire).
Definition walletSignMessage (wallet message nonce : string) : wprog S SignedMessage :=
  await (I := WebI) (WalletSignMessage wallet message nonce).
Definition walletSignTransaction (wallet : string) (tx : bytes)
    : wprog S (option WalletSignature) :=
  await (I := WebI) (WalletSignTransaction wallet tx).
Definition pontemSign (fn : string) (args : list Arg) : wprog S unit :=
  await (I := WebI) (PontemSign fn args).
Definition confirmApproval (spender : string) : wprog S bool :=
  await (I := WebI) (ConfirmApproval spender).
Definition timeout (ms : Z) : wprog S unit := await (I := WebI) (Timeout ms).
Definition fetchResolverAddress (port : number) : wprog S string :=
  await (I := WebI) (FetchResolverAddress port).
Definition postOrder (order : CreateOrderDto) : wprog S (option string) :=
  await (I := WebI) (PostOrder order).
Definition postRelay (request : RelayRequest) : wprog S (option string) :=
  await (I := WebI) (PostRelay request).
Definition httpGet (url : string) : wprog S string := await (I := WebI) (HttpGet url).
Definition webTell (o : WebOut) : wprog S unit := tell (I := WebI) o.
End Requests.

(** Symbolic execution of a goal [wp p Q s h] over this interface. *)
Ltac web_unfold :=
  unfold signTypedData, signerAddress, networkChainId, walletSend, walletWait, contractRead,
    contractReadText, readEscrow, nodeBalance, aptosFlag, aptosAmount, buildSponsored,
    walletSignMessage, walletSignTransaction, pontemSign, confirmApproval, timeout, fetchResolverAddress,
    postOrder, postRelay, httpGet, webTell in *.
Ltac web_norm := web_unfold; wp_norm.
Ltac web_call x e := web_norm; intros [x|e]; web_norm.
