(* ===== verification/WebServices.v ===== *)
(** * Frontend services

    The service classes of [frontend/src/services/] and
    [frontend/src/utils/] that the swap page is built from: balances, tokens,
    approvals, escrows, order submission, permits, gasless meta-transactions and
    sponsored transactions. A signer always has its provider. Reads sent
    together with [Promise.all] are sent in order. *)

From Stdlib Require Import ZArith Lia.
From stdpp Require Import base numbers list strings.
From S2P Require Import Prelude.
From S2P Require Import JsNumber.
From S2P Require Import JsString.
From S2P Require Import JsFormat.
From S2P Require Import PartialFill.
From S2P Require Import OrderTypes.
From S2P Require Import Signature.
From S2P Require Import Async.
From S2P Require Import Chain.
From S2P Require Import TokenServices.
From S2P Require Import ChainService.
From S2P Require Import OrderIntake.
From S2P Require Import SignedOrders.
From S2P Require Import Web.

Local Open Scope string_scope.
Local Open Scope Z_scope.
Local Open Scope prog_scope.

(** [ethers.formatUnits] and [ethers.parseUnits]. *)
Class EthersDecimals := {
  formatUnits : string -> Z -> result string;
  parseUnits : string -> Z -> result Z
}.

(** Whether an error of the Aptos client carries the status 429. *)
Class AptosErrors := {
  rate_limited : exn -> bool
}.

Definition MaxUint256 : Z := 2 ^ 256 - 1.
Definition ether_1 : Z := 1000000000000000000.

(** [CONTRACTS] of the configuration. *)
Record Contracts := {
  ETHEREUM_ESCROW : string;
  ETHEREUM_WETH : string;
  GASLESS_ESCROW : string;
  APTOS_ESCROW : string;
  RESOLVER_ETHEREUM : string;
  RESOLVER_APTOS : string
}.

(** [Math.floor(Date.now() / 1000)] at the clock value [t]. *)
Definition seconds (t : Z) : number := floor (div (of_Z t) (of_Z 1000)).

(** [Array.from] of a byte array: its bytes. *)
Definition array_from (b : bytes) : list Z :=
  (fun p => uint8_of_number (parseInt_base 16 p)) <$>
    pairs_of (if startsWith b "0x" then String.substring 2 (String.length b - 2) b else b).

Module AptosClient.
Section Client.
Context `{AptosErrors} {S : Type}.

Definition getAptBalance (address : string) : wprog S string :=
  try_catch
    (response <- aptosAmount "0x1::coin::balance" [AString address];
     match present response with
     | Some amount => Ret (toFixed (div (parseInt amount) (of_Z 100000000)) 6)
     | None => Ret "0"
     end)
    (fun error => if rate_limited error then Fail (Error "Rate limited") else Fail error).
End Client.
End AptosClient.

Module BalanceService.
Section Balances.
Context `{AptosErrors, EthersUnits} {S : Type}.

Definition getEthereumBalance (address : string) : wprog S string :=
  try_catch (balance <- nodeBalance address; Ret (formatEther18 balance)) (fun _ => Ret "0").

Definition getAptosBalance (address : string) : wprog S string :=
  try_catch (AptosClient.getAptBalance address) (fun _ => Ret "0").
End Balances.
End BalanceService.

Module AptosService.
Section Aptos.
Context {S : Type} (escrowModule : string).

(** The payload of an escrow creation, for the wallet to sign. *)
Definition createAPTEscrow (escrowId : bytes) (beneficiary amount : string) (secretHash : bytes)
    (timelock : number) (safetyDeposit : string) : string * list Arg :=
  (escrowModule ++ "::htlc::create_htlc",
   [AInts (array_from escrowId); AString beneficiary; AString amount;
    AInts (array_from secretHash); AString (number_toString timelock); AString safetyDeposit]).

Definition checkEscrowExists (escrowId : bytes) : wprog S (option bool) :=
  try_catch (aptosFlag (escrowModule ++ "::htlc::escrow_exists") [AInts (array_from escrowId)])
    (fun _ => Ret (Some false)).

(** The [while] loop of [waitForEscrowCreation]; no result when [fuel] runs out. *)
Fixpoint wait_loop (fuel : nat) (escrowId : bytes) (startTime limit : Z)
    : wprog S (option bool) :=
  match fuel with
  | O => Ret None
  | Datatypes.S fuel' =>
      t <- now;
      if t - startTime <? limit then
        exists_ <- checkEscrowExists escrowId;
        match exists_ with
        | Some true => Ret (Some true)
        | _ => timeout 2000;; wait_loop fuel' escrowId startTime limit
        end
      else Ret (Some false)
  end.

Definition waitForEscrowCreation (fuel : nat) (escrowId : bytes) (limit : Z)
    : wprog S (option bool) :=
  startTime <- now;
  wait_loop fuel escrowId startTime limit.
End Aptos.
End AptosService.

Module EscrowService.
Section Escrow.
Context {S : Type} (escrowAddress : string).

Definition withdraw (escrowId secret : string) : wprog S string :=
  rethrowing (
    escrow <- readEscrow escrowAddress escrowId;
    if ev_withdrawn escrow then Fail (Error "Escrow already withdrawn")
    else if ev_refunded escrow then Fail (Error "Escrow already refunded")
    else
      tx <- walletSend escrowAddress "withdraw" [AString escrowId; AString secret] 0;
      walletWait tx).

Definition canWithdraw (escrowId userAddress : string) : wprog S bool :=
  try_catch
    (escrow <- readEscrow escrowAddress escrowId;
     Ret (String.eqb (toLowerCase (ev_beneficiary escrow)) (toLowerCase userAddress)
          && negb (ev_withdrawn escrow) && negb (ev_refunded escrow)
          && (0 <? ev_amount escrow)))
    (fun _ => Ret false).
End Escrow.
End EscrowService.

(** [{ hasEnoughBalance, hasApproval, balance, allowance }] *)
Record Readiness := {
  hasEnoughBalance : bool;
  hasApproval : bool;
  ready_balance : string;
  ready_allowance : string
}.

(** [checkTokenReadiness] and [checkWETHReadiness]. *)
Definition check_readiness {S} (token userAddress spender requiredAmount : string)
    : wprog S Readiness :=
  balance <- contractRead token "balanceOf" [AString userAddress];
  allowance <- contractRead token "allowance" [AString userAddress; AString spender];
  required <- of_result (BigInt requiredAmount);
  Ret {| hasEnoughBalance := required <=? balance; hasApproval := required <=? allowance;
         ready_balance := toString balance; ready_allowance := toString allowance |}.

Module ERC20Service.
Section ERC20.
Context `{EthersDecimals} {S : Type} (tokenAddress tokenSymbol : string).

Definition decimals : Z :=
  if String.eqb tokenSymbol "ETH" || String.eqb tokenSymbol "WETH" then 18
  else if String.eqb tokenSymbol "APT" then 8 else 18.

Definition token_getBalance (address : string) : wprog S string :=
  balance <- contractRead tokenAddress "balanceOf" [AString address];
  Ret (toString balance).

Definition getFormattedBalance (address : string) : wprog S string :=
  balance <- token_getBalance address;
  of_result (formatUnits balance decimals).

Definition token_getAllowance (owner spender : string) : wprog S Z :=
  contractRead tokenAddress "allowance" [AString owner; AString spender].

Definition token_approve (spender amount : string) : wprog S string :=
  rethrowing (
    tx <- walletSend tokenAddress "approve" [AString spender; AString amount] 0;
    walletWait tx).

Definition checkTokenReadiness (userAddress spender requiredAmount : string)
    : wprog S Readiness := check_readiness tokenAddress userAddress spender requiredAmount.

Definition parseAmount (amount : string) : result string :=
  result_bind (parseUnits amount decimals) (fun z => Ok (toString z)).

Definition formatAmount (amount : string) : result string := formatUnits amount decimals.
End ERC20.
End ERC20Service.

Module WETHWeb.
Section WETH.
Context `{Ethers, SignatureParts} {S : Type} (contracts : Contracts) (contractAddress : string).

Definition wrapETH_web (amount : string) : wprog S string :=
  rethrowing (
    value <- of_result (getBigInt amount);
    tx <- walletSend contractAddress "deposit" [] value;
    walletWait tx).

Definition unwrapWETH_web (amount : string) : wprog S string :=
  rethrowing (
    tx <- walletSend contractAddress "withdraw" [AString amount] 0;
    walletWait tx).

Definition weth_getBalance (address : string) : wprog S Z :=
  contractRead contractAddress "balanceOf" [AString address].

Definition checkWETHReadiness (userAddress spender requiredAmount : string)
    : wprog S Readiness := check_readiness contractAddress userAddress spender requiredAmount.

Definition weth_getAllowance (owner spender : string) : wprog S Z :=
  contractRead contractAddress "allowance" [AString owner; AString spender].

Definition weth_approve (spender amount : string) : wprog S string :=
  rethrowing (
    tx <- walletSend contractAddress "approve" [AString spender; AString amount] 0;
    walletWait tx).

Definition weth_getPermitNonce (owner : string) : wprog S string :=
  n <- contractRead contractAddress "nonces" [AString owner];
  Ret (toString n).

Definition getDomainSeparator : wprog S string :=
  contractReadText contractAddress "DOMAIN_SEPARATOR".

(** The domain names the WETH of the configuration, whatever the address of
    this service. *)
Definition createPermitSignature (owner spender value : string) (permitDeadline : number)
    : wprog S (Z * string * string) :=
  n <- weth_getPermitNonce owner;
  chainId <- networkChainId;
  sig <- signTypedData
    {| domain_name := "Wrapped Ether"; domain_version := "1"; domain_chainId := chainId;
       domain_contract := Some (ETHEREUM_WETH contracts) |}
    PermitService.PERMIT_TYPE
    (PermitService.permit_message
       {| permit_owner := owner; permit_spender := spender; permit_value := value;
          permit_nonce := n; permit_deadline := permitDeadline |});
  of_result (signature_from sig).
End WETH.
End WETHWeb.

Module WETHApprovalService.
Section Approval.
Context `{EthersUnits} {S : Type} (wethAddress escrowAddress : string).

(** [hasApproval] and [currentAllowance]; [needsApproval] is the negation of
    the first. *)
Definition checkApproval (userAddress : string) : wprog S (bool * Z) :=
  try_catch
    (allowance <- contractRead wethAddress "allowance" [AString userAddress; AString escrowAddress];
     Ret (ether_1 <=? allowance, allowance))
    (fun _ => Ret (false, 0)).

(** The hash of the confirmed approval, or the error's text. *)
Definition requestApproval : wprog S (string + string) :=
  try_catch
    (tx <- walletSend wethAddress "approve" [AString escrowAddress; AInt MaxUint256] 0;
     hash <- walletWait tx;
     Ret (inl hash))
    (fun error => Ret (inr (if str_truthy (message error) then message error
                            else "Approval failed"))).

Definition formatAllowance (allowance : Z) : string :=
  if allowance =? MaxUint256 then "Unlimited" else formatEther18 allowance ++ " WETH".
End Approval.
End WETHApprovalService.

Module AssetFlowLogger.
Section Logger.
Context `{EthersUnits, AptosErrors} {S : Type} (contracts : Contracts).

(** [balances.eth] and [balances.weth] of an address, as far as they could be
    read: a failed read leaves the rest at ['0'] and skips what follows. *)
Definition ethereum_balances (address : string) : wprog S (string * string * bool) :=
  eth <- attempt (nodeBalance address);
  match eth with
  | Throw _ => Ret ("0", "0", false)
  | Ok b =>
      let eth := if b =? 0 then "0" else formatEther18 b in
      weth <- attempt (WETHWeb.weth_getBalance (ETHEREUM_WETH contracts) address);
      match weth with
      | Throw _ => Ret (eth, "0", false)
      | Ok w => Ret (eth, formatEther18 w, true)
      end
  end.

Definition apt_balance (address : string) : wprog S string :=
  try_catch (AptosClient.getAptBalance address) (fun _ => Ret "0").

Definition getUserBalances (ethAddress aptosAddress : string) : wprog S (string * string * string) :=
  e <- ethereum_balances ethAddress;
  let '(eth, weth, complete) := e in
  if complete then apt <- apt_balance aptosAddress; Ret (eth, weth, apt)
  else Ret (eth, weth, "0").

Definition getResolverBalances : wprog S (string * string * string) :=
  getUserBalances (RESOLVER_ETHEREUM contracts) (RESOLVER_APTOS contracts).

(** What is printed is left out; the balances are read for the key steps. *)
Definition logSwapStep (ethAddress aptosAddress step : string) : wprog S unit :=
  if includes step "escrow created" || includes step "withdrawn" || includes step "completed"
  then getUserBalances ethAddress aptosAddress;; getResolverBalances;; Ret tt
  else Ret tt.

Definition logPreSwapState (ethAddress aptosAddress : string) : wprog S unit :=
  getUserBalances ethAddress aptosAddress;; getResolverBalances;; Ret tt.

Definition logPostSwapState (ethAddress aptosAddress : string) : wprog S unit :=
  getUserBalances ethAddress aptosAddress;; getResolverBalances;; Ret tt.

Definition getResolverStatus : wprog S (string * string * string) := getResolverBalances.
End Logger.
End AssetFlowLogger.

(** ** Orders *)

(** Copies of an order with its signature, and with a permit. *)
Definition with_signature (sig : string) (d : CreateOrderDto) : CreateOrderDto :=
  {| fromChain := fromChain d; toChain := toChain d; fromToken := fromToken d;
     toToken := toToken d; fromAmount := fromAmount d; minToAmount := minToAmount d;
     maker := maker d; receiver := receiver d; signature := sig;
     deadline := deadline d; nonce := nonce d; partialFillAllowed := partialFillAllowed d;
     partialFillEnabled := partialFillEnabled d; secretHash := secretHash d;
     secretHashes := secretHashes d; partialFillSecrets := partialFillSecrets d;
     maxParts := maxParts d; activeResolvers := activeResolvers d;
     dutchAuction := dutchAuction d; permit := permit d; permitSignature := permitSignature d;
     gasless := gasless d; gaslessData := gaslessData d |}.

Definition with_permit (p : Permit) (sig : string) (d : CreateOrderDto) : CreateOrderDto :=
  {| fromChain := fromChain d; toChain := toChain d; fromToken := fromToken d;
     toToken := toToken d; fromAmount := fromAmount d; minToAmount := minToAmount d;
     maker := maker d; receiver := receiver d; signature := signature d;
     deadline := deadline d; nonce := nonce d; partialFillAllowed := partialFillAllowed d;
     partialFillEnabled := partialFillEnabled d; secretHash := secretHash d;
     secretHashes := secretHashes d; partialFillSecrets := partialFillSecrets d;
     maxParts := maxParts d; activeResolvers := activeResolvers d;
     dutchAuction := dutchAuction d; permit := Some p; permitSignature := Some sig;
     gasless := gasless d; gaslessData := gaslessData d |}.

Module WebOrders.
Section Orders.
Context {S : Type} (apiUrl : string).

Definition WEB_DOMAIN : Domain :=
  {| domain_name := "FusionPlusAptos"; domain_version := "1"; domain_chainId := 11155111;
     domain_contract := None |}.

Definition WEB_ORDER_TYPE : FieldTypes :=
  ("Order",
   [("fromChain", "string"); ("toChain", "string"); ("fromToken", "string");
    ("toToken", "string"); ("fromAmount", "uint256"); ("minToAmount", "uint256");
    ("maker", "string"); ("receiver", "string"); ("deadline", "uint256");
    ("nonce", "uint256"); ("partialFillAllowed", "bool")]).

Definition web_order_message (orderData : CreateOrderDto) : Signature.Message :=
  [("fromChain", VString (chain_string (fromChain orderData)));
   ("toChain", VString (chain_string (toChain orderData)));
   ("fromToken", VString (fromToken orderData));
   ("toToken", VString (toToken orderData));
   ("fromAmount", VString (fromAmount orderData));
   ("minToAmount", VString (minToAmount orderData));
   ("maker", VString (maker orderData));
   ("receiver", VString (receiver orderData));
   ("deadline", VNumber (deadline orderData));
   ("nonce", VString (nonce orderData));
   ("partialFillAllowed", VBool (partialFillAllowed orderData))].

Definition signOrder (orderData : CreateOrderDto) : wprog S string :=
  match fromChain orderData with
  | APTOS => Ret "0x00"
  | ETHEREUM => signTypedData WEB_DOMAIN WEB_ORDER_TYPE (web_order_message orderData)
  end.

Definition createOrder (orderData : CreateOrderDto) : wprog S (option string) :=
  rethrowing (postOrder orderData).

Definition getOrder (orderId : string) : wprog S string :=
  httpGet (apiUrl ++ "/api/orders/" ++ orderId).

Definition getOrdersByMaker (mk : string) : wprog S string :=
  httpGet (apiUrl ++ "/api/orders/maker/" ++ mk).

Definition getActiveOrders : wprog S string := httpGet (apiUrl ++ "/api/orders").

Definition subscribeToOrderUpdates (orderId : string) : wprog S unit :=
  webTell (SendSubscribe orderId).

Definition unsubscribeFromOrderUpdates (orderId : string) : wprog S unit :=
  webTell (SendUnsubscribe orderId).
End Orders.
End WebOrders.

Module WebPermits.
Section Permits.
Context `{Ethers, Signing} {S : Type}.

Definition createPermitTypedData (chainId : Z) (verifyingContract : string) (p : Permit)
    : Domain * FieldTypes * Signature.Message :=
  ({| domain_name := "Fusion+ Cross-Chain Swap"; domain_version := "1"; domain_chainId := chainId;
      domain_contract := Some verifyingContract |},
   ("Permit",
    [("owner", "address"); ("spender", "address"); ("value", "uint256");
     ("nonce", "uint256"); ("deadline", "uint256")]),
   [("owner", VString (permit_owner p)); ("spender", VString (permit_spender p));
    ("value", VString (permit_value p)); ("nonce", VString (permit_nonce p));
    ("deadline", VNumber (permit_deadline p))]).

Definition signPermit (chainId : Z) (verifyingContract : string) (p : Permit) : wprog S string :=
  let typedData := createPermitTypedData chainId verifyingContract p in
  signTypedData typedData.1.1 typedData.1.2 typedData.2.

Definition getPermitNonce (permitContract owner : string) : wprog S string :=
  try_catch
    (n <- contractRead permitContract "nonces" [AString owner]; Ret (toString n))
    (fun _ => try_catch
       (n <- contractRead permitContract "getNonce" [AString owner]; Ret (toString n))
       (fun _ => Fail (Error "Failed to get nonce from permit contract"))).

(** The [permitHash] that the page puts into the signed order. *)
Definition web_permit_hash (p : Permit) : result string :=
  result_bind
    (abi_encode ["address"; "address"; "uint256"; "uint256"; "uint256"]
       [VString (permit_owner p); VString (permit_spender p); VString (permit_value p);
        VString (permit_nonce p); VNumber (permit_deadline p)])
    (fun encoded => Ok (keccak256 encoded)).

(** [orderData.permit] is there: [createOrderWithPermit] is the only caller. *)
Definition signOrderWithPermit (orderData : CreateOrderDto) (p : Permit) : wprog S string :=
  chainId <- networkChainId;
  permitHash <- of_result (web_permit_hash p);
  signTypedData
    {| domain_name := "FusionPlusAptos"; domain_version := "1"; domain_chainId := chainId;
       domain_contract := None |}
    ("Order",
     [("fromChain", "string"); ("toChain", "string"); ("fromToken", "string");
      ("toToken", "string"); ("fromAmount", "uint256"); ("minToAmount", "uint256");
      ("maker", "string"); ("receiver", "string"); ("deadline", "uint256");
      ("nonce", "uint256"); ("partialFillAllowed", "bool"); ("permitHash", "bytes32")])
    (WebOrders.web_order_message orderData ++ [("permitHash", VString permitHash)])%list.

Definition createOrderWithPermit (orderData : CreateOrderDto)
    (permitContract resolverAddress : string) : wprog S CreateOrderDto :=
  chainId <- networkChainId;
  owner <- signerAddress;
  permitNonce <- getPermitNonce permitContract owner;
  let p := {| permit_owner := owner; permit_spender := resolverAddress;
              permit_value := fromAmount orderData; permit_nonce := permitNonce;
              permit_deadline := deadline orderData |} in
  permitSig <- signPermit chainId permitContract p;
  let orderWithPermit := with_permit p permitSig orderData in
  orderSignature <- signOrderWithPermit orderWithPermit p;
  Ret (with_signature orderSignature orderWithPermit).
End Permits.
End WebPermits.

(** ** Gasless and sponsored transactions *)

Record GaslessEscrowParams := {
  ge_escrowId : bytes;
  ge_depositor : string;
  ge_beneficiary : string;
  ge_token : string;
  ge_amount : string;
  ge_hashlock : bytes;
  ge_timelock : number
}.

Module GaslessWETHTransaction.
Section Gasless.
Context `{EthersBytes, SignatureParts} {S : Type} (gaslessEscrowAddress : string) (chainId : Z).

Definition meta_domain : Domain :=
  {| domain_name := "FusionPlusGaslessEscrowV2"; domain_version := "1";
     domain_chainId := chainId; domain_contract := Some gaslessEscrowAddress |}.

Definition CREATE_ESCROW_TYPE : FieldTypes :=
  ("CreateEscrow",
   [("escrowId", "bytes32"); ("depositor", "address"); ("beneficiary", "address");
    ("token", "address"); ("amount", "uint256"); ("hashlock", "bytes32");
    ("timelock", "uint256"); ("nonce", "uint256"); ("deadline", "uint256")]).

(** [Number(nonce)] *)
Definition getNonce_web (userAddress : string) : wprog S number :=
  n <- contractRead gaslessEscrowAddress "getNonce" [AString userAddress];
  Ret (of_Z n).

Definition meta_message (params : GaslessEscrowParams) (n metaDeadline : number)
    : Signature.Message :=
  [("escrowId", VString (hexlify (ge_escrowId params)));
   ("depositor", VString (ge_depositor params));
   ("beneficiary", VString (ge_beneficiary params));
   ("token", VString (ge_token params));
   ("amount", VString (ge_amount params));
   ("hashlock", VString (hexlify (ge_hashlock params)));
   ("timelock", VNumber (ge_timelock params));
   ("nonce", VNumber n);
   ("deadline", VNumber metaDeadline)].

Definition buildMetaTxMessage (params : GaslessEscrowParams)
    : wprog S (Signature.Message * number) :=
  n <- getNonce_web (ge_depositor params);
  t <- now;
  let metaDeadline := add (seconds t) (of_Z 3600) in
  Ret (meta_message params n metaDeadline, metaDeadline).

(** Whichever of its methods the wallet offers, the same typed data are
    signed. *)
Definition signMetaTx (params : GaslessEscrowParams)
    : wprog S ((Z * string * string) * number) :=
  built <- buildMetaTxMessage params;
  sigText <- try_catch (signTypedData meta_domain CREATE_ESCROW_TYPE built.1)
    (fun error => Fail (Error ("Failed to sign gasless transaction: " ++ message error)));
  sig <- of_result (signature_from sigText);
  Ret (sig, built.2).

Definition checkWETHApproval (userAddress wethAddress : string) : wprog S (bool * Z) :=
  allowance <- contractRead wethAddress "allowance"
                 [AString userAddress; AString gaslessEscrowAddress];
  Ret (ether_1 <? allowance, allowance).

Definition prepareGaslessEscrowData (params : GaslessEscrowParams) (sig : Z * string * string)
    (metaDeadline : number) : GaslessData :=
  {| gd_escrowId := hexlify (ge_escrowId params); gd_depositor := ge_depositor params;
     gd_beneficiary := ge_beneficiary params; gd_token := ge_token params;
     gd_amount := ge_amount params; gd_hashlock := hexlify (ge_hashlock params);
     gd_timelock := number_toString (ge_timelock params);
     gd_deadline := number_toString metaDeadline;
     gd_metaTxV := of_Z sig.1.1; gd_metaTxR := sig.1.2; gd_metaTxS := sig.2;
     gd_baseOrderId := None; gd_totalAmount := None; gd_merkleRoot := None;
     gd_numFills := None; gd_secrets := None; gd_merkleProofs := None;
     gd_fillThresholds := None |}.
End Gasless.
End GaslessWETHTransaction.

Record SponsoredEscrowParams := {
  sp_escrowId : list Z;
  sp_beneficiary : string;
  sp_amount : string;
  sp_hashlock : list Z;
  sp_timelock : number;
  sp_safetyDeposit : string;
  sp_resolverAddress : string
}.

Module SponsoredTransactionV3.
Section Sponsored.
Context `{EthersBytes} {S : Type}.

Definition create_escrow_user_funded : string :=
  "0x3f2f1a3d325df4561b8216251aec6dc6c1a6bb3ee8d0ed9004a51c73a857d9a8" ++
  "::escrow_v3::create_escrow_user_funded".

Definition buildSponsoredEscrowTransaction (userAddress : string)
    (params : SponsoredEscrowParams) : wprog S bytes :=
  t <- now;
  buildSponsored userAddress create_escrow_user_funded
    [AInts (sp_escrowId params); AString (sp_beneficiary params); AString (sp_amount params);
     AInts (sp_hashlock params); AString (number_toString (sp_timelock params));
     AString (sp_safetyDeposit params); AString (sp_resolverAddress params)]
    (t / 1000 + 30).

(** [toHex] of the serialized transaction and authenticator: hex without the
    prefix. *)
Definition to_hex (b : bytes) : string :=
  if startsWith b "0x" then String.substring 2 (String.length b - 2) b else b.

Definition serializeTransactionForResolver (transaction : bytes) (userAuthenticator : bytes)
    : SignedBytes :=
  {| transactionBytes := to_hex transaction; authenticatorBytes := to_hex userAuthenticator |}.
End Sponsored.
End SponsoredTransactionV3.
