(* ===== verification/FusionPlusClient.v ===== *)
(** * The client SDK

    [FusionPlusClient] of [backend/client-sdk/src/FusionPlusClient.ts]: swap
    intents posted to the order engine, and escrow requests posted to the
    relayer. The state is whether a signer is set. *)

From Stdlib Require Import ZArith Lia.
From stdpp Require Import base numbers list strings.
From S2P Require Import Prelude.
From S2P Require Import JsNumber.
From S2P Require Import JsString.
From S2P Require Import JsFormat.
From S2P Require Import JsMap.
From S2P Require Import PartialFill.
From S2P Require Import OrderTypes.
From S2P Require Import Signature.
From S2P Require Import Async.
From S2P Require Import Relayer.
From S2P Require Import Chain.
From S2P Require Import OrderIntake.
From S2P Require Import Web.
From S2P Require Import WebServices.

Local Open Scope string_scope.
Local Open Scope Z_scope.
Local Open Scope prog_scope.

(** ** Intents *)

Record SwapParams := {
  si_fromChain : Chain;
  si_toChain : Chain;
  si_fromAmount : string;
  si_minToAmount : string;
  si_receiver : option string
}.

Record EscrowInfo := {
  ei_escrowId : string;
  ei_secretHash : string;
  ei_timelock : number
}.

Definition native_token (c : Chain) : string :=
  match c with ETHEREUM => ZeroAddress | APTOS => APTOS_COIN end.

(** The posted body [{ ...intent, signature, partialFillAllowed: false }]; what
    it does not have is absent, [partialFillEnabled] has the schema's default. *)
Definition intent_order (params : SwapParams) (mk : string) (deadline_ : number) (nonce_ sig : string)
    : CreateOrderDto :=
  {| fromChain := si_fromChain params; toChain := si_toChain params;
     fromToken := native_token (si_fromChain params); toToken := native_token (si_toChain params);
     fromAmount := si_fromAmount params; minToAmount := si_minToAmount params; maker := mk;
     receiver := default mk (ChainService.present (si_receiver params)); signature := sig;
     deadline := deadline_; nonce := nonce_; partialFillAllowed := false;
     partialFillEnabled := false; secretHash := None; secretHashes := None;
     partialFillSecrets := None; maxParts := None; activeResolvers := None;
     dutchAuction := None; permit := None; permitSignature := None; gasless := None;
     gaslessData := None |}.

Definition intent_domain (from : Chain) : Domain :=
  {| domain_name := "Fusion+ Extension"; domain_version := "1";
     domain_chainId := match from with ETHEREUM => 11155111 | APTOS => 1 end;
     domain_contract := Some ZeroAddress |}.

Definition SWAP_INTENT_TYPE : FieldTypes :=
  ("SwapIntent",
   [("fromChain", "string"); ("toChain", "string"); ("fromToken", "address");
    ("toToken", "address"); ("fromAmount", "uint256"); ("minToAmount", "uint256");
    ("maker", "address"); ("receiver", "address"); ("deadline", "uint256");
    ("nonce", "string")]).

Definition intent_message (o : CreateOrderDto) : Signature.Message :=
  [("fromChain", VString (chain_string (fromChain o)));
   ("toChain", VString (chain_string (toChain o)));
   ("fromToken", VString (fromToken o)); ("toToken", VString (toToken o));
   ("fromAmount", VString (fromAmount o)); ("minToAmount", VString (minToAmount o));
   ("maker", VString (maker o)); ("receiver", VString (receiver o));
   ("deadline", VNumber (deadline o)); ("nonce", VString (nonce o))].

Section Client.
Context `{Ethers} (development : bool) (orderEngineUrl relayerUrl : string)
  (resolverAddress : option string).
Local Abbreviation sprog := (prog WebI bool).

Definition setSigner : sprog unit := put true.

Definition require_signer : sprog unit :=
  signer <- get;
  if (signer : bool) then Ret tt else Fail (Error "Signer not set").

Definition signIntent (intent : CreateOrderDto) : sprog string :=
  require_signer;;
  if development then Ret "0x00"
  else signTypedData (intent_domain (fromChain intent)) SWAP_INTENT_TYPE (intent_message intent).

Definition createSwapIntent (params : SwapParams) : sprog string :=
  require_signer;;
  mk <- signerAddress;
  t1 <- now;
  t2 <- now;
  let intent := intent_order params mk (add (seconds t1) (of_Z 3600)) (toString t2) in
  sig <- signIntent (intent "");
  orderId <- postOrder (intent sig);
  of_result (match orderId with
             | Some i => Ok i
             | None => Throw (TypeError "Cannot read properties of undefined (reading 'id')")
             end).

(** ** Escrows through the relayer *)

(** A number in the request is written as its text. *)
Definition source_request (info : EscrowInfo) (amount : string) (t : Z) : RelayRequest :=
  {| r_chain := Some "ETHEREUM"; r_type := Some "CREATE_ESCROW";
     r_params := Some
       {| p_escrowId := Some (PartialFill.id (ei_escrowId info ++ "-source"));
          p_beneficiary := resolverAddress; p_token := Some ZeroAddress; p_amount := amount;
          p_safetyDeposit := Some "1000000000000000"; p_hashlock := Some (ei_secretHash info);
          p_timelock := Some (number_toString (add (ei_timelock info) (of_Z 3600)));
          p_secret := None |};
     r_signature := Some "0x00"; r_nonce := Some (toString t) |}.

Definition createSourceEscrow (info : EscrowInfo) (amount : string) : sprog (option string) :=
  require_signer;;
  t <- now;
  postRelay (source_request info amount t).

Definition withdraw_request_of (escrowId secret : string) (chain : Chain) (t : Z) : RelayRequest :=
  {| r_chain := Some (chain_string chain); r_type := Some "WITHDRAW_ESCROW";
     r_params := Some
       {| p_escrowId := Some escrowId; p_beneficiary := None; p_token := None; p_amount := "";
          p_safetyDeposit := None; p_hashlock := None; p_timelock := None;
          p_secret := Some secret |};
     r_signature := Some "0x00"; r_nonce := Some (toString t) |}.

Definition withdrawFromEscrow (escrowId secret : string) (chain : Chain) : sprog (option string) :=
  t <- now;
  postRelay (withdraw_request_of escrowId secret chain t).

Definition client_getOrder (orderId : string) : sprog string :=
  httpGet (orderEngineUrl ++ "/api/orders/" ++ orderId).

Definition getRelayerInfo : sprog string := httpGet (relayerUrl ++ "/info").
End Client.

(** ** Properties *)

(** A signature that binds its signer to one typed message: recovering the
    signer's address from it succeeds for that message only. *)
Definition binds `{Signing} (signed : Domain * FieldTypes * Signature.Message)
    (signer sig : string) : Prop :=
  forall d t m a, verifyTypedData d t m sig = Ok a -> toLowerCase a = toLowerCase signer ->
    (d, t, m) = signed.

(** What the engine makes of an order the client posts. *)
Definition judged `{Ethers, Signing} (development : bool) (e : Ev WebI) : Prop :=
  match e with
  | Called (PostOrder o) _ =>
      if development
      then fromChain o = APTOS \/ toChain o = APTOS -> validateOrderSignature o = true
      else signature o <> "0x00" ->
           binds (intent_domain (fromChain o), SWAP_INTENT_TYPE, intent_message o)
                 (maker o) (signature o) ->
           validateOrderSignature o = false
  | _ => True
  end.

Section Properties.
Context `{Ethers, Signing}.

Lemma intent_rejected (o : CreateOrderDto) :
  signature o <> "0x00" -> permit o = None ->
  binds (intent_domain (fromChain o), SWAP_INTENT_TYPE, intent_message o) (maker o) (signature o) ->
  validateOrderSignature o = false.
Proof.
  intros Hs Hp Hb. destruct (validateOrderSignature o) eqn:Hv; [|done]. exfalso.
  apply validateOrderSignature_spec in Hv as [[? _]|(_ & signer & Hr & Hl)]; [done|].
  unfold recover_signer in Hr. rewrite Hp in Hr.
  by specialize (Hb _ _ _ _ Hr Hl).
Qed.

(** The client SDK against the order engine: a swap intent that it signs in
    production (whatever the wallet answers) never passes the engine's
    signature check, since it signs another domain and another message than
    the engine verifies; in development mode, where it sends the placeholder,
    every swap that touches Aptos passes. *)
Theorem sdk_intents_judged (development : bool) (params : SwapParams) (s : bool)
    (h : list (Ev WebI)) :
  wp (createSwapIntent development params)
     (fun _ _ h' => exists l, h' = (h ++ l)%list /\ Forall (judged development) l) s h.
Proof.
  unfold createSwapIntent, signIntent, require_signer. web_norm.
  destruct s; web_norm; [|exists []; by rewrite app_nil_r].
  intros [mk|e]; web_norm; [|by eexists; split; [reflexivity|repeat constructor]].
  intros t1 t2. destruct development; web_norm.
  - intros [[i|]|e]; web_norm; rewrite <- app_assoc; (eexists; split; [reflexivity|]);
      repeat (constructor; [simpl|]); try done; intros Ha; by apply validateOrderSignature_spec; left.
  - intros [sig|e]; web_norm; [|rewrite <- app_assoc; by eexists; split; [reflexivity|repeat constructor]].
    intros [[i|]|e]; web_norm; rewrite <- !app_assoc; (eexists; split; [reflexivity|]);
      repeat (constructor; [simpl|]); try done; intros Hs Hb; by apply intent_rejected.
Qed.

(** The number of milliseconds is a nonce the relayer accepts. *)
Lemma clock_nonce (t : Z) : 0 <= t -> truthy_field (Some (toString t)) = true.
Proof.
  intros Ht. unfold truthy_field, str_truthy. pose proof (toString_nonempty t Ht).
  by destruct (toString t).
Qed.

(** The client SDK against the relayer. A withdrawal it requests on Aptos is
    refused (400) in every state of the relayer, and nothing is sent. A source
    escrow it requests with a nonce that was not used before is relayed to the
    contract with the amount and the safety deposit of 0.001 ether as its
    value, for every amount. *)
Theorem sdk_relay_requests `{!EthersLaws} (resolverAddress : option string) (escrowId secret : string)
    (info : EscrowInfo) (a t : Z) (used : JsSet.t) (h : list (Ev RelayerI))
    (Ha : 0 <= a) (Ht : 0 <= t) (Hfresh : toString t ∉ used) :
  wp (relay_route (withdraw_request_of escrowId secret APTOS t))
     (fun r used' h' => exists error, r = Ok (RelayError 400 error) /\ used' = used /\ h' = h)
     used h /\
  let request := source_request resolverAddress info (toString a) t in
  wp (relay_route request)
     (fun _ _ h' => exists params hash l,
        r_params request = Some params /\
        h' = (h ++ submitted "createEscrow"
                    [p_escrowId params; p_beneficiary params; p_token params; Some (toString a);
                     p_hashlock params; p_timelock params] (a + 10 ^ 15) hash :: l)%list)
     used h.
Proof.
  pose proof (clock_nonce t Ht) as Hn.
  pose proof (proj2 (JsSet.set_has_false _ _) Hfresh) as Hu. cbn zeta.
  unfold relay_route. rewrite !wp_try. unfold get. cbn [pbind wp]. split.
  - unfold reject, validateRequest.
    cbn [withdraw_request_of r_chain r_type r_params r_signature r_nonce].
    rewrite Hn. cbn. rewrite Hu. simpl. by eexists.
  - assert (reject (source_request resolverAddress info (toString a) t) used = None) as ->.
    { unfold reject, validateRequest.
      cbn [source_request r_chain r_type r_params r_signature r_nonce].
      rewrite Hn. cbn. rewrite Hu. reflexivity. }
    cbn [source_request r_params r_type r_nonce default].
    unfold executeRelay. cbn [String.eqb Ascii.eqb Bool.eqb].
    unfold relayCreateEscrow, escrow_value. cbn [p_token p_amount p_safetyDeposit].
    rewrite bool_decide_eq_true_2 by done. rewrite (getBigInt_decimal a Ha).
    change "1000000000000000" with (toString (10 ^ 15)).
    replace (str_truthy (toString (10 ^ 15))) with true by reflexivity.
    rewrite (getBigInt_decimal (10 ^ 15)) by lia. wp_norm. cbn [result_bind]. wp_norm.
    intros [hash|e]; wp_norm.
    + intros [[]|e]; wp_norm; rewrite <- app_assoc; by do 3 eexists.
    + by do 3 eexists.
Qed.
End Properties.

(** ** Witness *)

Lemma sdk_relay_requests_witness :
  wp (@relay_route tagged_ethers (withdraw_request_of "0xe" "0xs" APTOS 1700000000000))
     (fun r used' h' => exists error, r = Ok (RelayError 400 error) /\ used' = ["7"] /\ h' = [])
     ["7"] [].
Proof.
  refine (proj1 (@sdk_relay_requests tagged_ethers tagged_ethers_laws (Some "0xr") "0xe" "0xs"
           {| ei_escrowId := "0xd"; ei_secretHash := "0xh"; ei_timelock := of_Z 1700003600 |}
           100 1700000000000 ["7"] [] _ _ _)); [lia|lia|].
  intros [Heq|Hnil]%elem_of_cons; [vm_compute in Heq; discriminate|by inversion Hnil].
Defined.
