(* ===== verification/SwapPage.v ===== *)
(** * The swap page

    [SwapInterface] of [frontend/src/components/SwapInterface.tsx]: the order a
    swap posts, the listeners it registers on the socket, and their timers; and
    the rate shown by [DutchAuctionProgress.tsx]. The page keeps objects on
    [window], which every listener shares, and React state, which a listener
    sees as it was in the render that registered it ([Render]). Texts shown to
    the user are left out of [swapStatus]. *)

From Stdlib Require Import ZArith Lia Ascii.
From stdpp Require Import base numbers list strings.
From S2P Require Import Prelude.
From S2P Require Import JsNumber.
From S2P Require Import JsString.
From S2P Require Import JsFormat.
From S2P Require Import JsMap.
From S2P Require Import DutchAuction.
From S2P Require Import PartialFill.
From S2P Require Import OrderTypes.
From S2P Require Import Signature.
From S2P Require Import Async.
From S2P Require Import Chain.
From S2P Require Import TokenServices.
From S2P Require Import ChainService.
From S2P Require Import Swap.
From S2P Require Import OrderIntake.
From S2P Require Import SignedOrders.
From S2P Require Import Web.
From S2P Require Import WebServices.

Local Open Scope string_scope.
Local Open Scope Z_scope.
Local Open Scope prog_scope.

(** ** State *)

(** [window.__fusionPlusSecret] *)
Record SecretBox := {
  sb_secret : string;
  sb_secretHash : string;
  sb_orderId : option string;
  sb_revealed : bool
}.

(** An object stored as [window.__fusionPlusIntent]; listeners keep references
    to it. *)
Record Intent := {
  in_message : OrderMessage;
  in_signature : string;
  in_publicKey : string
}.

(** A row of [partialFills]. *)
Record FillRow := {
  row_resolver : string;
  row_fillPercentage : number;
  row_cumulativePercentage : number;
  row_secretIndex : option number;
  row_completed : bool;
  row_timestamp : Z
}.

Inductive Stage :=
  | idle | signing_intent | submitting | waiting | escrow_created | signing_tx | processing
  | claiming | completed | stage_error | checking_approval | approving.

Record Page := {
  window_secret : option SecretBox;
  intents : list Intent;
  window_intent : option nat;  (* place in [intents] *)
  window_aptEscrows : option JsSet.t;
  currentOrder : option (CreateOrderDto * string);
  partialFills : list FillRow;
  isLoading : bool;
  swapStatus : Stage * option string;
  formAmount : string;
  formEstimate : string
}.

(** What a listener sees of the component: its properties and its state at the
    render in which the swap was started. *)
Record Render := {
  ethAccount : option string;
  aptosAccount : option string;
  hasSigner : bool;
  page_fromChain : Chain;
  page_toChain : Chain;
  page_fromAmount : string;
  estimatedOutput : string;
  exchangeRate : option number;
  partialFillOn : bool;
  dutchAuctionEnabled : bool;
  resolvers : list string;
  resolverAddress : option string;
  seenFills : list FillRow;
  adapterSigns : bool;  (* the wallet adapter has signMessage and signTransaction *)
  windowWallets : list string  (* names of the wallets on [window] *)
}.

(** What the listeners of a swap close over. *)
Record ActiveSwap := {
  sw_orderId : string;
  sw_order : CreateOrderDto;
  sw_ethAccount : string;
  sw_aptosAccount : string;
  sw_render : Render
}.

Definition initial_page : Page :=
  {| window_secret := None; intents := []; window_intent := None; window_aptEscrows := None;
     currentOrder := None; partialFills := []; isLoading := false; swapStatus := (idle, None);
     formAmount := ""; formEstimate := "" |}.

(** Field assignments. *)
Definition set_secret (b : option SecretBox) (p : Page) : Page :=
  {| window_secret := b; intents := intents p; window_intent := window_intent p;
     window_aptEscrows := window_aptEscrows p; currentOrder := currentOrder p;
     partialFills := partialFills p; isLoading := isLoading p; swapStatus := swapStatus p;
     formAmount := formAmount p; formEstimate := formEstimate p |}.
Definition set_intents (l : list Intent) (i : option nat) (p : Page) : Page :=
  {| window_secret := window_secret p; intents := l; window_intent := i;
     window_aptEscrows := window_aptEscrows p; currentOrder := currentOrder p;
     partialFills := partialFills p; isLoading := isLoading p; swapStatus := swapStatus p;
     formAmount := formAmount p; formEstimate := formEstimate p |}.
Definition set_aptEscrows (s : JsSet.t) (p : Page) : Page :=
  {| window_secret := window_secret p; intents := intents p; window_intent := window_intent p;
     window_aptEscrows := Some s; currentOrder := currentOrder p;
     partialFills := partialFills p; isLoading := isLoading p; swapStatus := swapStatus p;
     formAmount := formAmount p; formEstimate := formEstimate p |}.
Definition set_currentOrder (o : CreateOrderDto * string) (p : Page) : Page :=
  {| window_secret := window_secret p; intents := intents p; window_intent := window_intent p;
     window_aptEscrows := window_aptEscrows p; currentOrder := Some o;
     partialFills := partialFills p; isLoading := isLoading p; swapStatus := swapStatus p;
     formAmount := formAmount p; formEstimate := formEstimate p |}.
Definition set_partialFills (f : list FillRow -> list FillRow) (p : Page) : Page :=
  {| window_secret := window_secret p; intents := intents p; window_intent := window_intent p;
     window_aptEscrows := window_aptEscrows p; currentOrder := currentOrder p;
     partialFills := f (partialFills p); isLoading := isLoading p; swapStatus := swapStatus p;
     formAmount := formAmount p; formEstimate := formEstimate p |}.
Definition set_loading (b : bool) (p : Page) : Page :=
  {| window_secret := window_secret p; intents := intents p; window_intent := window_intent p;
     window_aptEscrows := window_aptEscrows p; currentOrder := currentOrder p;
     partialFills := partialFills p; isLoading := b; swapStatus := swapStatus p;
     formAmount := formAmount p; formEstimate := formEstimate p |}.
Definition set_stage (st : Stage) (orderId : option string) (p : Page) : Page :=
  {| window_secret := window_secret p; intents := intents p; window_intent := window_intent p;
     window_aptEscrows := window_aptEscrows p; currentOrder := currentOrder p;
     partialFills := partialFills p; isLoading := isLoading p; swapStatus := (st, orderId);
     formAmount := formAmount p; formEstimate := formEstimate p |}.
Definition set_form (amount estimate : string) (p : Page) : Page :=
  {| window_secret := window_secret p; intents := intents p; window_intent := window_intent p;
     window_aptEscrows := window_aptEscrows p; currentOrder := currentOrder p;
     partialFills := partialFills p; isLoading := isLoading p; swapStatus := swapStatus p;
     formAmount := amount; formEstimate := estimate |}.

(** ** The form *)

(** The rate the page quotes, from the USD prices. *)
Definition page_rate (from : Chain) (wethRate aptRate : number) : number :=
  match from with ETHEREUM => div wethRate aptRate | APTOS => div aptRate wethRate end.

(** The estimate shown for an amount; a text that is no number leaves the old
    estimate. *)
Definition estimate (amount : string) (rate : option number) (old : string) : string :=
  match rate with
  | Some r =>
      if str_truthy amount && truthy r then
        match parseFloat amount with
        | NaN => old
        | x => toFixed (mul x r) 6
        end
      else ""
  | None => ""
  end.

Definition page_token (contracts : Contracts) (c : Chain) : string :=
  match c with ETHEREUM => ETHEREUM_WETH contracts | APTOS => APTOS_COIN end.

(** The auction of an order, from the quoted rate. *)
Definition page_auction (rate start : number) : DutchAuction :=
  {| enabled := true; startTimestamp := start; duration := of_Z 120;
     startRate := mul rate (lit 103 100); endRate := mul rate (lit 97 100);
     decrementInterval := of_Z 15;
     decrementAmount := div (mul rate (lit 6 100)) (of_Z 8) |}.

(** Amounts of the order in base units. *)
Definition swap_amount `{EthersUnits} (from : Chain) (amount : string) : result string :=
  match from with
  | ETHEREUM => result_bind (parseEther amount) (fun z => Ok (toString z))
  | APTOS => Ok (number_toString (mul (parseFloat amount) (of_Z 100000000)))
  end.

Definition min_to_amount `{EthersUnits} (to : Chain) (estimated : string) : result string :=
  match to with
  | ETHEREUM =>
      result_bind (parseEther (toFixed (mul (parseFloat estimated) (lit 995 1000)) 18))
        (fun z => Ok (toString z))
  | APTOS =>
      Ok (number_toString
            (floor (mul (mul (parseFloat estimated) (of_Z 100000000)) (lit 995 1000))))
  end.

(** The share of the order that a fill message announces: [isPartialFill] with a
    percentage that is not 0, or the whole amount. *)
Definition announced_share (d : DestinationCreated) : option number :=
  if dc_isPartialFill d then
    match dc_fillPercentage d with Some p => if truthy p then Some p else None | None => None end
  else None.

Definition escrow_share (amount : string) (share : option number) : result string :=
  match share with
  | None => Ok amount
  | Some p =>
      result_bind (BigInt amount) (fun total =>
      result_bind (BigInt_of_number (floor (mul p (of_Z 100)))) (fun basisPoints =>
      result_bind (bigint_div (total * basisPoints) 10000) (fun partial =>
      Ok (toString partial))))
  end.

(** [DutchAuctionProgress]: the rate, the percentage and whether the auction is
    shown as running at the time [now], in seconds. *)
Definition shown_rate (auction : DutchAuction) (now : number) : number :=
  let elapsed := sub now (startTimestamp auction) in
  let rateDrops := floor (div elapsed (decrementInterval auction)) in
  max (sub (startRate auction) (mul rateDrops (decrementAmount auction))) (endRate auction).

Definition shown_percentage (auction : DutchAuction) (now : number) : number :=
  min (mul (div (sub now (startTimestamp auction)) (duration auction)) (of_Z 100)) (of_Z 100).

Definition shown_active (auction : DutchAuction) (now : number) : bool :=
  ltb (sub now (startTimestamp auction)) (duration auction).

(** ** Starting a swap *)

(** [new AccountAuthenticatorEd25519(new Ed25519PublicKey(k), new Ed25519Signature(s))],
    serialized; the date of an expiry as text. *)
Class WalletSdk := {
  ed25519_authenticator : string -> string -> result bytes;
  toLocaleString : number -> string
}.

Section Page.
Context `{Ethers, EthersBytes, SignatureParts, EthersUnits, AptosErrors, WalletSdk}
  (contracts : Contracts).
Local Abbreviation pprog := (prog WebI Page).

Definition setSwapStatus (st : Stage) (orderId : option string) : pprog unit :=
  modify (set_stage st orderId).

(** [orderData]: a field it does not have is absent or has the default of the
    engine's schema. *)
Definition order_data (r : Render) (eth apt swapAmount minToAmount_ secretHash_ nonce_ : string)
    (deadline_ : number) (auction : option DutchAuction) : CreateOrderDto :=
  {| fromChain := page_fromChain r; toChain := page_toChain r;
     fromToken := page_token contracts (page_fromChain r);
     toToken := page_token contracts (page_toChain r);
     fromAmount := swapAmount; minToAmount := minToAmount_;
     maker := match page_fromChain r with ETHEREUM => eth | APTOS => apt end;
     receiver := match page_toChain r with ETHEREUM => eth | APTOS => apt end;
     signature := ""; deadline := deadline_; nonce := nonce_; partialFillAllowed := false;
     partialFillEnabled := partialFillOn r; secretHash := Some secretHash_;
     secretHashes := None; partialFillSecrets := None;
     maxParts := if partialFillOn r
                 then Some (of_Z (match resolvers r with [] => 1 | l => Z.of_nat (length l) end))
                 else None;
     activeResolvers := if partialFillOn r then Some (resolvers r) else None;
     dutchAuction := auction; permit := None; permitSignature := None; gasless := None;
     gaslessData := None |}.

Definition build_order (r : Render) (eth apt swapAmount secretHash_ : string)
    : pprog CreateOrderDto :=
  minTo <- of_result (min_to_amount (page_toChain r) (estimatedOutput r));
  t1 <- now;
  t2 <- now;
  auction <- (if partialFillOn r && dutchAuctionEnabled r then
                t3 <- now;
                Ret (Some (page_auction (default (of_Z 0) (exchangeRate r)) (seconds t3)))
              else Ret None);
  Ret (order_data r eth apt swapAmount minTo secretHash_ (toString t2)
         (add (seconds t1) (of_Z 1800)) auction).

(** [{ ...orderData, signature: '0x00', gasless: true, gaslessData }] *)
Definition deferred_order (d : CreateOrderDto) (g : option GaslessData) : CreateOrderDto :=
  {| fromChain := fromChain d; toChain := toChain d; fromToken := fromToken d;
     toToken := toToken d; fromAmount := fromAmount d; minToAmount := minToAmount d;
     maker := maker d; receiver := receiver d; signature := "0x00";
     deadline := deadline d; nonce := nonce d; partialFillAllowed := partialFillAllowed d;
     partialFillEnabled := partialFillEnabled d; secretHash := secretHash d;
     secretHashes := secretHashes d; partialFillSecrets := partialFillSecrets d;
     maxParts := maxParts d; activeResolvers := activeResolvers d;
     dutchAuction := dutchAuction d; permit := permit d; permitSignature := permitSignature d;
     gasless := Some true; gaslessData := g |}.

(** An approval of [spender] for everything, when the user agrees; the new
    allowance, or nothing when the approval failed and the swap is given up. *)
Definition approve_max (spender refusal failure : string) (stage : Stage) (pause : bool)
    (eth : string) : pprog (option Z) :=
  agreed <- confirmApproval spender;
  if (agreed : bool) then
    try_catch
      (setSwapStatus stage None;;
       tx <- walletSend (ETHEREUM_WETH contracts) "approve" [AString spender; AInt MaxUint256] 0;
       setSwapStatus stage None;;
       walletWait tx;;
       (if pause then timeout 1000 else Ret tt);;
       allowance <- contractRead (ETHEREUM_WETH contracts) "allowance"
                      [AString eth; AString spender];
       Ret (Some allowance))
      (fun _ => webTell (Alert failure);; modify (set_loading false);; Ret None)
  else Fail (Error refusal).

Definition source_escrow_id (d : CreateOrderDto) (secretHash_ : string) : string :=
  PartialFill.id (nonce d ++ "-source-" ++ secretHash_).

(** WETH to APT: the allowance for the gasless escrow, then the signed
    meta-transaction. *)
Definition gasless_order (r : Render) (d : CreateOrderDto) (eth secretHash_ : string)
    : pprog (option CreateOrderDto) :=
  setSwapStatus signing_intent None;;
  if negb (str_truthy (GASLESS_ESCROW contracts)) then
    Fail (Error "Gasless escrow not configured. Please check system configuration.")
  else
    initial <- contractRead (ETHEREUM_WETH contracts) "allowance"
                 [AString eth; AString (GASLESS_ESCROW contracts)];
    amount <- of_result (BigInt (fromAmount d));
    checked <- (if initial <? amount then
                  approve_max (GASLESS_ESCROW contracts)
                    "Gasless swaps require WETH approval. Please approve WETH to enable gasless swaps."
                    "Approval failed. Please try again." signing_intent true eth
                else Ret (Some initial));
    match checked with
    | None => Ret None
    | Some allowance =>
        if (amount <=? allowance) || (allowance =? MaxUint256) then
          escrowId <- of_result (getBytes (source_escrow_id d secretHash_));
          hashlock <- of_result (getBytes secretHash_);
          let params :=
            {| ge_escrowId := escrowId; ge_depositor := eth;
               ge_beneficiary := default (RESOLVER_ETHEREUM contracts)
                                   (present (resolverAddress r));
               ge_token := ETHEREUM_WETH contracts;
               ge_amount := if partialFillOn r then "0" else fromAmount d;
               ge_hashlock := hashlock; ge_timelock := deadline d |} in
          signed <- GaslessWETHTransaction.signMetaTx (GASLESS_ESCROW contracts) 11155111 params;
          Ret (Some (deferred_order d
            (Some (GaslessWETHTransaction.prepareGaslessEscrowData params signed.1 signed.2))))
        else Fail (Error "Failed to create gasless order. WETH approval is required.")
    end.

Definition message_wallets : list string := ["pontem"; "petra"; "rise"; "aptos"].

(** The wallet adapter first, then the first wallet on [window]. *)
Definition sign_readable (r : Render) (text nonce_ : string) : pprog SignedMessage :=
  first <- (if adapterSigns r then attempt (walletSignMessage "adapter" text nonce_)
            else Ret (Throw (Error "")));
  match first with
  | Ok signed => Ret signed
  | Throw _ =>
      match List.find (fun w => bool_decide (w ∈ windowWallets r)) message_wallets with
      | Some w => walletSignMessage w text nonce_
      | None => Fail (Error ("No wallet available for message signing." ++
                             " Please make sure your wallet is connected."))
      end
  end.

Definition newline : string := String (Ascii.ascii_of_nat 10) "".

Definition readable_message (r : Render) (d : CreateOrderDto) (expiry : number) : string :=
  "Fusion+ Swap Order:" ++ newline ++
  "From: " ++ toFixed (div (parseInt (fromAmount d)) (of_Z 100000000)) 4 ++ " APT" ++ newline ++
  "To: " ++ estimatedOutput r ++ " WETH" ++ newline ++
  "Resolver: " ++ RESOLVER_APTOS contracts ++ newline ++
  "Order ID: " ++ nonce d ++ newline ++
  "Expires: " ++ toLocaleString (mul expiry (of_Z 1000)).

(** APT to WETH: the allowance of the destination escrow, then the signed
    intent, kept on [window]. *)
Definition intent_order_of (r : Render) (d : CreateOrderDto) (eth apt secretHash_ : string)
    : pprog (option CreateOrderDto) :=
  setSwapStatus checking_approval None;;
  initial <- contractRead (ETHEREUM_WETH contracts) "allowance"
               [AString eth; AString (ETHEREUM_ESCROW contracts)];
  required <- of_result (parseEther (estimatedOutput r));
  checked <- (if (initial <? required) && negb (initial =? MaxUint256) then
                approve_max (ETHEREUM_ESCROW contracts)
                  "WETH approval is required for APT → ETH swaps."
                  "WETH approval failed. Please try again." approving false eth
              else Ret (Some initial));
  match checked with
  | None => Ret None
  | Some _ =>
      setSwapStatus signing_intent None;;
      t1 <- now;
      let expiry := add (seconds t1) (of_Z 300) in
      t2 <- now;
      escrowId <- of_result (getBytes (source_escrow_id d secretHash_));
      hashlock <- of_result (getBytes secretHash_);
      let orderMessage :=
        {| om_escrow_id := array_from escrowId; om_depositor := apt;
           om_beneficiary := RESOLVER_APTOS contracts; om_amount := fromAmount d;
           om_hashlock := array_from hashlock; om_timelock := deadline d;
           om_nonce := of_Z t2; om_expiry := expiry |} in
      signed <- sign_readable r (readable_message r d expiry) (toString t2);
      p <- get;
      modify (set_intents
        (intents p ++ [{| in_message := orderMessage; in_signature := sm_signature signed;
                          in_publicKey := sm_publicKey signed |}])%list
        (Some (length (intents p))));;
      Ret (Some (deferred_order d None))
  end.

(** Posting the order and setting the page up to follow it. *)
Definition submit_order (r : Render) (final : CreateOrderDto) (eth apt : string)
    : pprog ActiveSwap :=
  setSwapStatus submitting None;;
  result_ <- WebOrders.createOrder final;
  let orderId := default (nonce final) (present result_) in
  setSwapStatus waiting (Some orderId);;
  modify (fun p => set_secret
    ((fun b => {| sb_secret := sb_secret b; sb_secretHash := sb_secretHash b;
                  sb_orderId := Some orderId; sb_revealed := sb_revealed b |})
       <$> window_secret p) p);;
  modify (set_aptEscrows []);;
  modify (set_currentOrder (final, orderId));;
  modify (set_partialFills (fun _ => []));;
  WebOrders.subscribeToOrderUpdates orderId;;
  Ret {| sw_orderId := orderId; sw_order := final; sw_ethAccount := eth; sw_aptosAccount := apt;
         sw_render := r |}.

(** The [try] block; nothing when the swap is given up. *)
Definition start_swap (r : Render) (eth apt : string) : pprog (option ActiveSwap) :=
  swapAmount <- of_result (swap_amount (page_fromChain r) (page_fromAmount r));
  t0 <- now;
  let secret := randomBytes t0 in
  let secretHash_ := keccak256 secret in
  modify (set_secret (Some {| sb_secret := hexlify secret; sb_secretHash := secretHash_;
                              sb_orderId := None; sb_revealed := false |}));;
  d <- build_order r eth apt swapAmount secretHash_;
  final <- match page_fromChain r with
           | ETHEREUM => gasless_order r d eth secretHash_
           | APTOS => intent_order_of r d eth apt secretHash_
           end;
  match final with
  | None => Ret None
  | Some order => active <- submit_order r order eth apt; Ret (Some active)
  end.

(** [logger.logPreSwapState(...)], which is not awaited and only reads and prints
    balances ([AssetFlowLogger.logPreSwapState]), is left out. *)
Definition handleSwap (r : Render) : pprog (option ActiveSwap) :=
  match ethAccount r ≫= fun a => present (Some a), aptosAccount r ≫= fun a => present (Some a),
        hasSigner r with
  | Some eth, Some apt, true =>
      if str_truthy (page_fromAmount r) && str_truthy (estimatedOutput r) then
        modify (set_loading true);;
        try_catch (start_swap r eth apt)
          (fun _ => setSwapStatus stage_error None;; modify (set_loading false);; Ret None)
      else webTell (Alert "Please enter amount");; Ret None
  | _, _, _ => webTell (Alert "Please connect both wallets");; Ret None
  end.

(** ** Listeners of a swap *)

Definition log_step (sw : ActiveSwap) (step : string) : pprog unit :=
  AssetFlowLogger.logSwapStep contracts (sw_ethAccount sw) (sw_aptosAccount sw) step.

(** [ethers.formatEther(amount || '0')] for a text: throws when it is no
    integer. *)
Definition check_printable (amount : option string) : pprog unit :=
  of_result (getBigInt (default "0" (present amount)));; Ret tt.

Definition set_timelock (timelock : number) (i : Intent) : Intent :=
  {| in_message :=
       {| om_escrow_id := om_escrow_id (in_message i); om_depositor := om_depositor (in_message i);
          om_beneficiary := om_beneficiary (in_message i); om_amount := om_amount (in_message i);
          om_hashlock := om_hashlock (in_message i); om_timelock := timelock;
          om_nonce := om_nonce (in_message i); om_expiry := om_expiry (in_message i) |};
     in_signature := in_signature i; in_publicKey := in_publicKey i |}.

(** APT to WETH: once per destination escrow, the intent's timelock is
    overwritten and the transaction is signed a second later. *)
Definition prepare_apt_escrow (data : DestinationCreated) : pprog unit :=
  p <- get;
  let createdEscrows := default [] (window_aptEscrows p) in
  if JsSet.has (dc_escrowId data) createdEscrows then Ret tt
  else
    modify (set_aptEscrows (JsSet.add (dc_escrowId data) createdEscrows));;
    match window_intent p with
    | None => Fail (Error "No signed intent found")
    | Some i =>
        modify (set_intents (alter (set_timelock (dc_timelock data)) i (intents p))
                  (window_intent p));;
        webTell (After 1000 (SignAptEscrow data i))
    end.

Definition on_destination_created (sw : ActiveSwap) (data : DestinationCreated) : pprog unit :=
  if String.eqb (dc_orderId data) (sw_orderId sw) then
    (if String.eqb (dc_chain data) "APTOS" then Ret tt else check_printable (dc_amount data));;
    log_step sw ("🔒 Destination escrow created on " ++ dc_chain data);;
    setSwapStatus escrow_created (Some (sw_orderId sw));;
    match page_fromChain (sw_render sw) with
    | APTOS =>
        if String.eqb (dc_chain data) "ETHEREUM" then prepare_apt_escrow data else Ret tt
    | ETHEREUM =>
        if String.eqb (dc_chain data) "APTOS" then
          amount <- of_result (escrow_share (fromAmount (sw_order sw)) (announced_share data));
          webTell (After 1000 (SendWethEscrow data amount))
        else Ret tt
    end
  else Ret tt.

(** The identifier of an APT source escrow: the array of numbers of the signed
    intent, or the bytes made for a fill of a part. *)
Inductive AptEscrowId :=
  | IdNumbers (l : list Z)
  | IdBytes (b : bytes).

Definition apt_escrow_id (sw : ActiveSwap) (data : DestinationCreated) (i : Intent)
    : result AptEscrowId :=
  match announced_share data with
  | None => Ok (IdNumbers (om_escrow_id (in_message i)))
  | Some _ =>
      result_bind (getBytes (PartialFill.id ("source-" ++ dc_escrowId data ++ "-" ++
                                             nonce (sw_order sw))))
        (fun b => Ok (IdBytes b))
  end.

(** [Array.from(aptEscrowId)] *)
Definition id_array (e : AptEscrowId) : list Z :=
  match e with IdNumbers l => l | IdBytes b => array_from b end.

(** [ethers.hexlify(aptEscrowId)] in the text that is logged between the two
    messages: a plain array is no [BytesLike], and ethers 6 throws. *)
Definition hexlify_id (e : AptEscrowId) : result string :=
  match e with
  | IdNumbers _ => Throw (TypeError "invalid BytesLike value")
  | IdBytes b => Ok (hexlify b)
  end.

(** The wallets tried one after the other when the adapter fails; an error of
    one is ignored. *)
Fixpoint try_wallets (r : Render) (tx : bytes) (ws : list string) : pprog (option bytes) :=
  match ws with
  | [] => Ret None
  | w :: rest =>
      if bool_decide (w ∈ windowWallets r) then
        answer_ <- try_catch
          (response <- walletSignTransaction w tx;
           match response with
           | Some (SignatureAndKey k s) =>
               match present k, present s with
               | Some key, Some sig => a <- of_result (ed25519_authenticator key sig); Ret (Some a)
               | _, _ => Ret None
               end
           | _ => Ret None
           end)
          (fun _ => Ret None);
        match answer_ with
        | Some a => Ret (Some a)
        | None => try_wallets r tx rest
        end
      else try_wallets r tx rest
  end.

(** When the adapter fails: the direct call of Pontem, then the other wallets. *)
Definition direct_wallets (sw : ActiveSwap) (ref : nat) (tx : bytes) : pprog (option bytes) :=
  let r := sw_render sw in
  p <- get;
  match bool_decide ("pontem" ∈ windowWallets r), intents p !! ref with
  | true, Some i =>
      attempt (pontemSign (APTOS_ESCROW contracts ++ "::escrow_v3::create_escrow_user_funded")
        [AInts (om_escrow_id (in_message i)); AString (RESOLVER_APTOS contracts);
         AString (fromAmount (sw_order sw)); AInts (om_hashlock (in_message i));
         AString (number_toString (om_timelock (in_message i))); AString "0";
         AString (RESOLVER_APTOS contracts)]);; Ret tt
  | _, _ => Ret tt
  end;;
  try_wallets r tx ["petra"; "rise"].

(** The user's authenticator of a sponsored transaction. *)
Definition user_authenticator (sw : ActiveSwap) (ref : nat) (tx : bytes) : pprog (option bytes) :=
  try_catch
    (if adapterSigns (sw_render sw) then
       response <- walletSignTransaction "adapter" tx;
       Ret (match response with Some (Authenticator a) => Some a | _ => None end)
     else Fail (Error "Wallet does not support signing transactions separately"))
    (fun _ => direct_wallets sw ref tx).

(** [order:signed:sponsored:v3], by the fields a resolver reads. *)
Definition sponsored_message (sw : ActiveSwap) (data : DestinationCreated) (i : Intent)
    (amount : string) (hash : option string) (signed : SignedBytes) : SignedOrder :=
  {| so_orderId := dc_orderId data; so_fromChain := APTOS; so_toChain := ETHEREUM;
     so_fromAmount := amount; so_toAmount := minToAmount (sw_order sw); so_secretHash := hash;
     so_orderMessage := in_message i; so_publicKey := in_publicKey i;
     so_signature := in_signature i; so_userFundedTx := None; so_isPartialFill := false;
     so_escrowAmount := None; so_fillPercentage := None; so_gaslessData := None;
     so_hasPermit := false; so_sponsoredTransaction := Some signed;
     so_multiAgentTransaction := None |}.

(** The timer of an APT escrow. *)
Definition sign_apt_escrow (sw : ActiveSwap) (data : DestinationCreated) (ref : nat)
    : pprog unit :=
  try_catch
    (setSwapStatus signing_tx None;;
     p <- get;
     match intents p !! ref with
     | None => Ret tt
     | Some i =>
         amount <- of_result (escrow_share (fromAmount (sw_order sw)) (announced_share data));
         escrowId <- of_result (apt_escrow_id sw data i);
         rawTransaction <- SponsoredTransactionV3.buildSponsoredEscrowTransaction
           (maker (sw_order sw))
           {| sp_escrowId := id_array escrowId; sp_beneficiary := RESOLVER_APTOS contracts;
              sp_amount := amount; sp_hashlock := om_hashlock (in_message i);
              sp_timelock := om_timelock (in_message i); sp_safetyDeposit := "0";
              sp_resolverAddress := RESOLVER_APTOS contracts |};
         authenticator <- user_authenticator sw ref rawTransaction;
         match authenticator with
         | None => Fail (Error "Sponsored transaction signing failed.")
         | Some userAuthenticator =>
             now_ <- get;
             let hash := match window_secret now_ with
                         | Some b => match present (Some (sb_secretHash b)) with
                                     | Some x => Some x
                                     | None => dc_secretHash data
                                     end
                         | None => dc_secretHash data
                         end in
             webTell (SendSponsoredV3 (sponsored_message sw data
               (default i (intents now_ !! ref)) amount hash
               (SponsoredTransactionV3.serializeTransactionForResolver rawTransaction
                  userAuthenticator)));;
             of_result (hexlify_id escrowId);;
             webTell (SendSourceCreated
               {| sc_orderId := dc_orderId data; sc_escrowId := id_array escrowId; sc_amount := amount;
                  sc_secretHash := hash |});;
             setSwapStatus processing (Some (dc_orderId data))
         end
     end)
    (fun _ => setSwapStatus stage_error (Some (dc_orderId data))).

(** The timer of a WETH escrow: a partial fill is signed for its own amount and
    resolver. *)
Definition send_weth_escrow (sw : ActiveSwap) (data : DestinationCreated) (amount : string)
    : pprog unit :=
  let order := sw_order sw in
  try_catch
    (setSwapStatus signing_tx None;;
     check_printable (Some amount);;
     gaslessDataForThisFill <-
       (if dc_isPartialFill data && partialFillOn (sw_render sw) then
          address <- fetchResolverAddress
            (match dc_resolverPort data with Some x => or_else x (of_Z 8081) | None => of_Z 8081 end);
          escrowId <- of_result (getBytes (dc_escrowId data));
          hashlock <- of_result (getBytes (default "" (secretHash order)));
          let params :=
            {| ge_escrowId := escrowId; ge_depositor := sw_ethAccount sw;
               ge_beneficiary := address; ge_token := ETHEREUM_WETH contracts;
               ge_amount := amount; ge_hashlock := hashlock; ge_timelock := deadline order |} in
          signed <- GaslessWETHTransaction.signMetaTx (GASLESS_ESCROW contracts) 11155111 params;
          Ret (Some (GaslessWETHTransaction.prepareGaslessEscrowData params signed.1 signed.2))
        else Ret (gaslessData order));
     webTell (SendSignedEthereum
       {| es_orderId := dc_orderId data;
          es_signature := default "0x00" (present (Some (signature order)));
          es_signedOrder := order; es_gaslessData := gaslessDataForThisFill;
          es_secretHash := secretHash order; es_isPartialFill := dc_isPartialFill data;
          es_fillPercentage := dc_fillPercentage data; es_escrowAmount := amount |});;
     setSwapStatus processing (Some (dc_orderId data)))
    (fun _ => setSwapStatus stage_error (Some (dc_orderId data))).

(** [escrow:source:created]: the first one of the swap schedules the reveal of
    the secret on [window]. *)
Definition mark_revealed (b : SecretBox) : SecretBox :=
  {| sb_secret := sb_secret b; sb_secretHash := sb_secretHash b; sb_orderId := sb_orderId b;
     sb_revealed := true |}.

Definition schedule_reveal : pprog unit :=
  p <- get;
  match window_secret p with
  | Some b =>
      if sb_revealed b then Ret tt
      else
        modify (set_secret (Some (mark_revealed b)));;
        webTell (After 2000 RevealSecret)
  | None => Ret tt
  end.

Definition on_source_created (sw : ActiveSwap) (orderId : string) (amount : option string)
    : pprog unit :=
  if String.eqb orderId (sw_orderId sw) then
    match page_fromChain (sw_render sw) with
    | ETHEREUM => check_printable amount
    | APTOS => Ret tt
    end;;
    log_step sw "🔒 Source escrow created";;
    schedule_reveal
  else Ret tt.

Definition row_index (f : FillRow) : number :=
  match row_secretIndex f with Some i => or_else i (of_Z 0) | None => of_Z 0 end.

(** The timer of the reveal: an order with partial-fill secrets reveals the one
    of its latest fill, any other the secret on [window]. *)
Definition reveal_secret (sw : ActiveSwap) : pprog unit :=
  let order := sw_order sw in
  p <- get;
  match partialFillEnabled order, partialFillSecrets order, last (seenFills (sw_render sw)) with
  | true, Some secrets, Some latestFill =>
      webTell (SendReveal
        {| rv_orderId := sw_orderId sw;
           rv_secret := default "" (secret_at (pfs_secrets secrets) (row_index latestFill));
           rv_secretHash := secretHash order; rv_isPartialFill := true;
           rv_secretIndex := Some (row_index latestFill);
           rv_fillPercentage := Some (row_cumulativePercentage latestFill) |})
  | _, _, _ =>
      match window_secret p with
      | Some b =>
          webTell (SendReveal
            {| rv_orderId := sw_orderId sw; rv_secret := sb_secret b;
               rv_secretHash := Some (sb_secretHash b); rv_isPartialFill := false;
               rv_secretIndex := None; rv_fillPercentage := None |})
      | None => Fail (TypeError "Cannot read properties of undefined (reading 'secret')")
      end
  end;;
  setSwapStatus claiming (Some (sw_orderId sw)).

(** [swap:completed]; the refreshed balances are only printed. *)
Definition on_swap_completed (sw : ActiveSwap) (orderId : string)
    (destinationChain toChain_ : option string) : pprog unit :=
  let arrives c := bool_decide (destinationChain = Some c) || bool_decide (toChain_ = Some c) in
  if String.eqb orderId (sw_orderId sw) then
    log_step sw "✅ Swap completed!";;
    setSwapStatus completed (Some (sw_orderId sw));;
    modify (set_loading false);;
    (if arrives "ETHEREUM" then
       attempt (WETHWeb.weth_getBalance (ETHEREUM_WETH contracts) (sw_ethAccount sw);;
                nodeBalance (sw_ethAccount sw));; Ret tt
     else Ret tt);;
    (if arrives "APTOS" then attempt (AptosClient.getAptBalance (sw_aptosAccount sw));; Ret tt
     else Ret tt);;
    webTell (After 5000 ResetForm)
  else Ret tt.

Definition reset_form : pprog unit :=
  modify (set_form "" "");; setSwapStatus idle None.

Definition on_order_error (sw : ActiveSwap) (orderId : string) : pprog unit :=
  if String.eqb orderId (sw_orderId sw) then
    setSwapStatus stage_error (Some (sw_orderId sw));; modify (set_loading false)
  else Ret tt.

(** The fields of [partial:fill:created] and [partial:fill:completed]. *)
Record FillMessage := {
  fm_orderId : string;
  fm_resolver : string;
  fm_fillPercentage : number;
  fm_cumulativePercentage : option number;
  fm_secretIndex : option number
}.

(** [===] on an optional number. *)
Definition same_index (x y : option number) : bool :=
  match x, y with
  | Some a, Some b => eqb a b
  | None, None => true
  | _, _ => false
  end.

Definition add_row (data : FillMessage) (t : Z) (prev : list FillRow) : list FillRow :=
  if existsb (fun f => same_index (row_secretIndex f) (fm_secretIndex data)
                       && String.eqb (row_resolver f) (fm_resolver data)) prev
  then prev
  else (prev ++
    [{| row_resolver := fm_resolver data; row_fillPercentage := fm_fillPercentage data;
        row_cumulativePercentage :=
          match fm_cumulativePercentage data with
          | Some c => or_else c (fm_fillPercentage data)
          | None => fm_fillPercentage data
          end;
        row_secretIndex := fm_secretIndex data; row_completed := false; row_timestamp := t |}])%list.

Definition on_partial_fill_row (sw : ActiveSwap) (data : FillMessage) : pprog unit :=
  if String.eqb (fm_orderId data) (sw_orderId sw) then
    t <- now;
    modify (set_partialFills (add_row data t));;
    setSwapStatus processing (Some (sw_orderId sw))
  else Ret tt.

Definition complete_row (data : FillMessage) (f : FillRow) : FillRow :=
  if same_index (row_secretIndex f) (fm_secretIndex data) then
    {| row_resolver := row_resolver f; row_fillPercentage := row_fillPercentage f;
       row_cumulativePercentage := row_cumulativePercentage f;
       row_secretIndex := row_secretIndex f; row_completed := true;
       row_timestamp := row_timestamp f |}
  else f.

(** The total adds the completed fill to the fills of the render in which the
    swap was started. *)
Definition total_filled (seen : list FillRow) (data : FillMessage) : number :=
  add (fold_left (fun sum f => add sum (row_fillPercentage f)) seen (of_Z 0))
      (fm_fillPercentage data).

Definition on_partial_fill_done (sw : ActiveSwap) (data : FillMessage) : pprog unit :=
  if String.eqb (fm_orderId data) (sw_orderId sw) then
    modify (set_partialFills (fmap (complete_row data)));;
    if geb (total_filled (seenFills (sw_render sw)) data) (of_Z 100) then
      setSwapStatus completed (Some (sw_orderId sw));; modify (set_loading false)
    else setSwapStatus processing (Some (sw_orderId sw))
  else Ret tt.

(** Every program the page runs on an event of a swap: its listeners and its
    timers. *)
Inductive listener (sw : ActiveSwap) : pprog unit -> Prop :=
  | l_destination data : listener sw (on_destination_created sw data)
  | l_apt data ref : listener sw (sign_apt_escrow sw data ref)
  | l_weth data amount : listener sw (send_weth_escrow sw data amount)
  | l_source orderId amount : listener sw (on_source_created sw orderId amount)
  | l_reveal : listener sw (reveal_secret sw)
  | l_completed orderId d t : listener sw (on_swap_completed sw orderId d t)
  | l_reset : listener sw reset_form
  | l_error orderId : listener sw (on_order_error sw orderId)
  | l_fill data : listener sw (on_partial_fill_row sw data)
  | l_fill_done data : listener sw (on_partial_fill_done sw data).
End Page.
