(* ===== verification/PageSecrecy.v ===== *)
(** * What the page keeps to itself

    The secret of a swap is drawn by [handleSwap] and kept on [window]. Two
    pages that differ in it but not in its hash run in lockstep: every
    request, with its arguments, and every message of [handleSwap] and of the
    listeners, up to the timer of the reveal, is the same for both. *)

From Stdlib Require Import ZArith Lia.
From stdpp Require Import base numbers list strings relations.
From S2P Require Import Prelude.
From S2P Require Import JsNumber.
From S2P Require Import JsString.
From S2P Require Import JsMap.
From S2P Require Import PartialFill.
From S2P Require Import OrderTypes.
From S2P Require Import Async.
From S2P Require Import Lockstep.
From S2P Require Import Chain.
From S2P Require Import TokenServices.
From S2P Require Import OrderIntake.
From S2P Require Import Web.
From S2P Require Import WebServices.
From S2P Require Import SwapPage.

(** Everything of a secret's box but the secret. *)
Definition same_box (b c : SecretBox) : Prop :=
  sb_secretHash b = sb_secretHash c /\ sb_orderId b = sb_orderId c /\ sb_revealed b = sb_revealed c.

Definition same_page (p q : Page) : Prop :=
  exists b, option_Forall2 same_box (window_secret p) b /\ q = set_secret b p.

(** The same library with other random bytes. *)
Definition with_random (U : EthersUnits) (draw : Z -> bytes) : EthersUnits :=
  {| formatEther18 := formatEther18; parseEther := parseEther; randomBytes := draw |}.

Lemma same_page_refl p : same_page p p.
Proof.
  exists (window_secret p). split; [|by destruct p].
  destruct (window_secret p); constructor. by split_and!.
Qed.

(** Changes that do not touch the secret. *)
Lemma same_page_modify (f : Page -> Page) :
  (forall b p, f (set_secret b p) = set_secret b (f p)) ->
  (forall p, window_secret (f p) = window_secret p) ->
  lockstep same_page (modify f : prog WebI Page unit) (modify f).
Proof.
  intros Hf Hw. apply lockstep_modify. intros p q (b & Hb & ->). exists b. by rewrite Hw, Hf.
Qed.

Ltac page_lockstep :=
  web_unfold; unfold setSwapStatus;
  repeat first
    [ lockstep_step
    | match goal with
      | |- lockstep _ (modify _) (modify _) => apply same_page_modify; by intros
      | |- lockstep _ (pbind get _) (pbind get _) =>
          apply lockstep_get; let b := fresh "b" in let Hb := fresh "Hb" in intros ? ? (b & Hb & ->)
      end
    | progress cbn [intents window_intent window_aptEscrows window_secret set_secret] ].

Section Secrecy.
Context `{Ethers, EthersBytes, SignatureParts, U : EthersUnits, AptosErrors, WalletSdk}
  (contracts : Contracts).
Local Abbreviation self m := (lockstep same_page m m).

Lemma lockstep_approve spender refusal failure stage pause eth :
  self (approve_max contracts spender refusal failure stage pause eth).
Proof. unfold approve_max. page_lockstep. Qed.

Lemma lockstep_build_order r eth apt amount hash : self (build_order contracts r eth apt amount hash).
Proof. unfold build_order. page_lockstep. Qed.

Lemma lockstep_signMetaTx params :
  self (GaslessWETHTransaction.signMetaTx (S := Page) (GASLESS_ESCROW contracts) 11155111 params).
Proof.
  unfold GaslessWETHTransaction.signMetaTx, GaslessWETHTransaction.buildMetaTxMessage,
    GaslessWETHTransaction.getNonce_web. page_lockstep.
Qed.

Lemma lockstep_gasless_order r d eth hash : self (gasless_order contracts r d eth hash).
Proof.
  unfold gasless_order. page_lockstep; auto using lockstep_approve, lockstep_signMetaTx.
Qed.

Lemma lockstep_intent_order r d eth apt hash : self (intent_order_of contracts r d eth apt hash).
Proof.
  unfold intent_order_of, sign_readable, attempt. page_lockstep; auto using lockstep_approve.
Qed.

Lemma lockstep_submit r final eth apt : self (submit_order r final eth apt).
Proof.
  unfold submit_order, WebOrders.createOrder, WebOrders.subscribeToOrderUpdates. page_lockstep.
  apply lockstep_modify. intros p q (b & Hb & ->). cbn [window_secret set_secret].
  eexists. split; [|reflexivity]. cbn [window_secret set_secret].
  destruct Hb as [x y (E1 & E2 & E3)|]; constructor. by split_and!.
Qed.

(** Drawing another secret with the same hash changes nothing that is sent. *)
Lemma lockstep_start_swap (draw : Z -> bytes) r eth apt :
  (forall t, keccak256 (draw t) = keccak256 (randomBytes t)) ->
  lockstep same_page (start_swap contracts r eth apt)
    (start_swap (H2 := with_random U draw) contracts r eth apt).
Proof.
  intros Hdraw. unfold start_swap.
  apply lockstep_bind; [apply lockstep_of_result|intros amount].
  apply lockstep_bind; [apply lockstep_now|intros t].
  cbn [randomBytes with_random]. rewrite Hdraw.
  apply lockstep_bind.
  { apply lockstep_modify. intros p q (b & Hb & ->). eexists. split; [|reflexivity].
    constructor. by split_and!. }
  intros _. apply lockstep_bind; [apply lockstep_build_order|intros d].
  apply lockstep_bind.
  { destruct (page_fromChain r); [apply lockstep_gasless_order|apply lockstep_intent_order]. }
  intros [order|]; [|constructor].
  apply lockstep_bind; [apply lockstep_submit|intros; constructor].
Qed.

Lemma lockstep_handleSwap (draw : Z -> bytes) r :
  (forall t, keccak256 (draw t) = keccak256 (randomBytes t)) ->
  lockstep same_page (handleSwap contracts r)
    (handleSwap (H2 := with_random U draw) contracts r).
Proof.
  intros Hdraw. unfold handleSwap. page_lockstep; try by apply lockstep_start_swap.
Qed.

(** *** The listeners *)

Lemma lockstep_log_step sw step : self (log_step contracts sw step).
Proof.
  unfold log_step, AssetFlowLogger.logSwapStep, AssetFlowLogger.getResolverBalances,
    AssetFlowLogger.getUserBalances, AssetFlowLogger.ethereum_balances, AssetFlowLogger.apt_balance,
    AptosClient.getAptBalance, WETHWeb.weth_getBalance, attempt. page_lockstep.
Qed.

Lemma lockstep_try_wallets r tx ws : self (try_wallets r tx ws).
Proof. induction ws as [|w ws IH]; cbn [try_wallets]; page_lockstep; done. Qed.

Lemma lockstep_schedule : self schedule_reveal.
Proof.
  unfold schedule_reveal. apply lockstep_get. intros p q (b & Hb & ->). cbn [window_secret set_secret].
  destruct Hb as [x y Hxy|]; [|constructor]. pose proof Hxy as (E1 & E2 & E3). rewrite E3.
  destruct (sb_revealed y); [constructor|]. apply lockstep_bind; [|intros _; page_lockstep].
  apply lockstep_modify. intros p' q' (b' & Hb' & ->). eexists. split; [|reflexivity].
  constructor. by split_and!.
Qed.

Lemma lockstep_user_authenticator sw ref tx : self (user_authenticator contracts sw ref tx).
Proof.
  unfold user_authenticator, direct_wallets, attempt. page_lockstep; apply lockstep_try_wallets.
Qed.

(** The hash on [window] is the same for both. *)
Lemma lockstep_sign_apt sw data ref : self (sign_apt_escrow contracts sw data ref).
Proof.
  unfold sign_apt_escrow, SponsoredTransactionV3.buildSponsoredEscrowTransaction.
  page_lockstep; try apply lockstep_user_authenticator.
  all: match goal with Hb : option_Forall2 same_box (window_secret ?p) ?b |-
         context [match window_secret ?p with _ => _ end] =>
         destruct Hb as [x y (E1 & E2 & E3)|]; [rewrite E1|]; page_lockstep end.
Qed.

Lemma lockstep_listener sw (prg : prog WebI Page unit) :
  listener contracts sw prg -> prg <> reveal_secret sw -> self prg.
Proof.
  intros Hl Hr. destruct Hl; try done;
    unfold on_destination_created, prepare_apt_escrow, send_weth_escrow, on_source_created,
      on_swap_completed, reset_form, on_order_error, on_partial_fill_row, on_partial_fill_done,
      check_printable, AptosClient.getAptBalance, WETHWeb.weth_getBalance, attempt;
    page_lockstep;
    auto using lockstep_log_step, lockstep_schedule, lockstep_sign_apt, lockstep_signMetaTx.
Qed.
End Secrecy.
