(* ===== verification/PageSafety.v ===== *)
(** * What the frontend guarantees

    Properties of the swap page and of the frontend services: what the page
    posts, signs and reveals, how its amounts and rates relate to those of the
    engine and of the resolver, and the waiting loop. *)

From Stdlib Require Import ZArith Lia.
From stdpp Require Import base numbers list strings relations.
From S2P Require Import Prelude.
From S2P Require Import JsNumber.
From S2P Require Import JsString.
From S2P Require Import JsFormat.
From S2P Require Import JsMap.
From S2P Require Import DutchAuction.
From S2P Require Import PartialFill.
From S2P Require Import OrderTypes.
From S2P Require Import Signature.
From S2P Require Import OrderApi.
From S2P Require Import Async.
From S2P Require Import Lockstep.
From S2P Require Import Chain.
From S2P Require Import TokenServices.
From S2P Require Import ChainService.
From S2P Require Import Swap.
From S2P Require Import EscrowEvents.
From S2P Require Import OrderIntake.
From S2P Require Import SignedOrders.
From S2P Require Import Web.
From S2P Require Import WebServices.
From S2P Require Import SwapPage.
From S2P Require Import PageSecrecy.

Local Open Scope string_scope.
Local Open Scope Z_scope.

(** ** The reveal *)

Definition is_reveal_timer (e : Ev WebI) : bool :=
  match e with Told (After _ RevealSecret) => true | _ => false end.

(** How many times a reveal was scheduled. *)
Definition reveal_timers (h : list (Ev WebI)) : nat := length (List.filter is_reveal_timer h).

Lemma reveal_timers_app h1 h2 :
  reveal_timers (h1 ++ h2) = (reveal_timers h1 + reveal_timers h2)%nat.
Proof. unfold reveal_timers. by rewrite List.filter_app, length_app. Qed.

(** A scheduled reveal is recorded in the secret's [revealed] flag. *)
Definition reveal_recorded (p : Page) (h : list (Ev WebI)) : Prop :=
  (reveal_timers h <= match window_secret p with
                      | Some b => if sb_revealed b then 1 else 0
                      | None => 0
                      end)%nat.

Lemma reveal_recorded_called p h r x :
  reveal_recorded p h -> reveal_recorded p (h ++ [Called (I := WebI) r x]).
Proof. unfold reveal_recorded. rewrite reveal_timers_app. unfold reveal_timers at 3. simpl. lia. Qed.

Lemma reveal_recorded_told p h o :
  is_reveal_timer (Told (I := WebI) o) = false ->
  reveal_recorded p h -> reveal_recorded p (h ++ [Told (I := WebI) o]).
Proof.
  unfold reveal_recorded. rewrite reveal_timers_app. intros Ho.
  unfold reveal_timers at 3. cbn [List.filter]. rewrite Ho. simpl. lia.
Qed.

(** Decompose a goal about one of the page's programs. *)
Ltac page_keeps :=
  repeat first
    [ keeps_step
    | match goal with
      | |- keeps _ (modify _) _ _ => cbn [keeps modify]
      | |- keeps _ (tell _) _ _ => cbn [keeps tell]; apply reveal_recorded_told; [reflexivity|]
      | |- forall s h x, reveal_recorded s h -> _ => intros; by apply reveal_recorded_called
      | |- reveal_recorded _ _ => assumption
      end ].

Section Reveal.
Context `{Ethers, EthersBytes, SignatureParts, EthersUnits, AptosErrors, WalletSdk}
  (contracts : Contracts).

Lemma keeps_log_step sw step p h :
  reveal_recorded p h -> keeps reveal_recorded (log_step contracts sw step) p h.
Proof.
  intros HJ. unfold log_step, AssetFlowLogger.logSwapStep, AssetFlowLogger.getResolverBalances,
    AssetFlowLogger.getUserBalances, AssetFlowLogger.ethereum_balances, AssetFlowLogger.apt_balance,
    AptosClient.getAptBalance, WETHWeb.weth_getBalance, attempt. web_unfold. page_keeps.
Qed.

Lemma keeps_try_wallets r tx ws p h :
  reveal_recorded p h -> keeps reveal_recorded (try_wallets r tx ws) p h.
Proof.
  revert p h. induction ws as [|w ws IH]; intros p h HJ; cbn [try_wallets]; [exact HJ|].
  web_unfold. destruct (bool_decide _); [|by apply IH].
  page_keeps. by apply IH.
Qed.

(** Checking the flag and setting it is one stretch without an await. *)
Lemma keeps_schedule p h : reveal_recorded p h -> keeps reveal_recorded schedule_reveal p h.
Proof.
  intros HJ. unfold schedule_reveal. web_unfold. cbn [keeps pbind get].
  unfold reveal_recorded in HJ.
  destruct (window_secret p) as [b|] eqn:Hb; cbn [keeps]; [|by unfold reveal_recorded; rewrite Hb].
  destruct (sb_revealed b) eqn:Hr; cbn [keeps pbind modify tell].
  - unfold reveal_recorded. by rewrite Hb, Hr.
  - unfold reveal_recorded. rewrite reveal_timers_app. simpl.
    unfold reveal_timers at 2. simpl. lia.
Qed.

Lemma listener_keeps sw (prg : prog WebI Page unit) p h :
  listener contracts sw prg -> reveal_recorded p h -> keeps reveal_recorded prg p h.
Proof.
  intros Hl HJ. destruct Hl;
    unfold on_destination_created, prepare_apt_escrow, sign_apt_escrow, send_weth_escrow,
      on_source_created, reveal_secret, on_swap_completed, reset_form, on_order_error,
      on_partial_fill_row, on_partial_fill_done, user_authenticator, direct_wallets, check_printable,
      setSwapStatus, SponsoredTransactionV3.buildSponsoredEscrowTransaction,
      GaslessWETHTransaction.signMetaTx, GaslessWETHTransaction.buildMetaTxMessage,
      GaslessWETHTransaction.getNonce_web, AptosClient.getAptBalance, WETHWeb.weth_getBalance,
      attempt; web_unfold;
    repeat first [ progress page_keeps | by apply keeps_log_step | by apply keeps_schedule
                 | by apply keeps_try_wallets ].
Qed.

(** C15. The page schedules the reveal of a secret at most once: however the
    listeners and timers of its swaps interleave at their awaits, and whatever
    the wallets, nodes and the hub send, after a secret was drawn at most one
    timer that reveals it is ever set. *)
Theorem reveal_scheduled_once (w w' : Pool WebI Page unit) (b : SecretBox)
    (Hb : window_secret (fields w) = Some b) (Hr : sb_revealed b = false)
    (Hh : handlers w = []) (Hl : reveal_timers (log w) = 0%nat)
    (Hsteps : rtc (step_of (fun p => exists sw, listener contracts sw p)) w w') :
  (reveal_timers (log w') <= 1)%nat.
Proof.
  assert (reveal_recorded (fields w') (log w')) as HJ.
  { apply (pool_history_invariant reveal_recorded (fun p => exists sw, listener contracts sw p) w w').
    - intros p s h [sw Hp] Hj. by apply (listener_keeps sw).
    - done.
    - unfold reveal_recorded. rewrite Hl. lia.
    - rewrite Hh. constructor. }
  unfold reveal_recorded in HJ. destruct (window_secret (fields w')) as [b'|]; [|lia].
  destruct (sb_revealed b'); lia.
Qed.

(** The requests that only read balances. *)
Definition balance_read (e : Ev WebI) : Prop :=
  match e with
  | Called (NodeBalance _) _ | Called (ContractRead _ _ _) _ | Called (AptosAmount _ _) _ => True
  | _ => False
  end.

Lemma wp_user_balances (eth apt : string) (p : Page) h :
  wp (AssetFlowLogger.getUserBalances contracts eth apt)
     (fun r p' h' => (exists x, r = Ok x) /\ p' = p /\ exists l, h' = (h ++ l)%list /\ Forall balance_read l)
     p h.
Proof.
  unfold AssetFlowLogger.getUserBalances, AssetFlowLogger.ethereum_balances,
    AssetFlowLogger.apt_balance, AptosClient.getAptBalance, WETHWeb.weth_getBalance, attempt.
  web_norm. intros [b|e]; web_norm.
  - destruct (b =? 0); web_norm; intros [w|e]; web_norm;
      try (intros [a|e]; web_norm; [destruct (present a)|destruct (rate_limited e)]);
      split_and!; eauto; rewrite <- ?app_assoc; eexists; (split; [reflexivity|]); repeat constructor.
  - split_and!; eauto. eexists. split; [reflexivity|]. repeat constructor.
Qed.

(** Logging a step reads balances at most; it never fails. *)
Lemma wp_log_step sw step (p : Page) h :
  wp (log_step contracts sw step)
     (fun r p' h' => r = Ok tt /\ p' = p /\ exists l, h' = (h ++ l)%list /\ Forall balance_read l) p h.
Proof.
  unfold log_step, AssetFlowLogger.logSwapStep.
  destruct (_ || _); [|cbn; split_and!; try done; exists []; by rewrite app_nil_r].
  rewrite wp_bind. eapply wp_mono; [|apply wp_user_balances].
  intros ? ? ? ([x ->] & -> & l1 & -> & Hl1). rewrite wp_bind.
  eapply wp_mono; [|apply wp_user_balances].
  intros ? ? ? ([y ->] & -> & l2 & -> & Hl2). cbn. split_and!; try done.
  exists (l1 ++ l2)%list. rewrite app_assoc. split; [done|]. by apply Forall_app.
Qed.

Lemma run_log_step O sw step (p : Page) h :
  exists l, run O (log_step contracts sw step) p h = (Ok tt, p, (h ++ l)%list) /\
            Forall balance_read l.
Proof.
  pose proof (wp_run O _ _ _ _ (wp_log_step sw step p h)) as (Hr & Hp & l & Hl & HF).
  exists l. split; [|done].
  destruct (run O (log_step contracts sw step) p h) as [[r p'] h']. simpl in *. by subst.
Qed.

(** The first source-escrow message of an APT swap, whoever sent it. *)
Lemma run_on_source_created O sw amount (p : Page) (b : SecretBox) h :
  page_fromChain (sw_render sw) = APTOS ->
  window_secret p = Some b -> sb_revealed b = false ->
  exists l, run O (on_source_created contracts sw (sw_orderId sw) amount) p h =
              (Ok tt, set_secret (Some (mark_revealed b)) p,
               (h ++ l ++ [Told (I := WebI) (After 2000 RevealSecret)])%list) /\
            Forall balance_read l.
Proof.
  intros Hf Hb Hr. unfold on_source_created. rewrite String.eqb_refl, Hf.
  cbn [pbind]. rewrite run_bind.
  destruct (run_log_step O sw "🔒 Source escrow created" p h) as (l & -> & Hl).
  exists l. split; [|done]. unfold schedule_reveal. web_unfold. cbn [run pbind get].
  rewrite Hb, Hr. cbn [run pbind modify tell]. by rewrite <- app_assoc.
Qed.

(** The page reveals its secret because of a message it sent itself. When the
    page hands the signed APT transaction of a part of an order to the resolver
    it also announces the source escrow; the hub delivers that announcement back to it, and from
    there the secret is revealed two seconds later without anything but
    balances being read: no answer of the resolver, no check that the escrow
    exists on either chain. *)
Theorem own_announcement_reveals (O : Oracle WebI) (sw : ActiveSwap) (p : Page) (b : SecretBox)
    (h : list (Ev WebI)) (hub : Hub) (socket rest : string) (amount : option string)
    (Hf : page_fromChain (sw_render sw) = APTOS)
    (Hps : partialFillSecrets (sw_order sw) = None)
    (Hb : window_secret p = Some b) (Hr : sb_revealed b = false)
    (Hc : socket ∈ clients hub) (Hid : str_truthy (sw_orderId sw) = true) :
  let announcement := {| data_orderId := Some (sw_orderId sw); data_cumulativePercentage := None;
                         data_rest := rest |} in
  (1 <= deliveries hub socket "escrow:source:created" (relay escrow_source_created announcement))%nat /\
  exists l p',
    run O (on_source_created contracts sw (sw_orderId sw) amount) p h =
      (Ok tt, p', (h ++ l ++ [Told (I := WebI) (After 2000 RevealSecret)])%list) /\
    Forall balance_read l /\
    forall h1, (run O (reveal_secret sw) p' h1).2 =
      (h1 ++ [Told (I := WebI) (SendReveal
         {| rv_orderId := sw_orderId sw; rv_secret := sb_secret b;
            rv_secretHash := Some (sb_secretHash b); rv_isPartialFill := false;
            rv_secretIndex := None; rv_fillPercentage := None |})])%list.
Proof.
  cbn zeta. split.
  - unfold deliveries, relay. cbn [data_orderId]. rewrite Hid. cbn [List.filter out_event relay_name reaches].
    rewrite bool_decide_eq_true_2 by done. simpl. lia.
  - destruct (run_on_source_created O sw amount p b h Hf Hb Hr) as (l & Hrun & Hl).
    exists l, (set_secret (Some (mark_revealed b)) p). split_and!; try done.
    intros h1. unfold reveal_secret, setSwapStatus. web_unfold. rewrite Hps.
    by destruct (partialFillEnabled (sw_order sw)).
Qed.

(** A listener of an earlier swap uses the secret of the current one: the
    listeners are never removed and read the secret from [window], so a
    source-escrow message for the earlier order reveals the current order's
    secret under the earlier order's identifier, and the message for the
    current order then schedules nothing. *)
Theorem stale_listener_reveals (O : Oracle WebI) (old new : ActiveSwap) (p : Page) (b : SecretBox)
    (h : list (Ev WebI)) (amount amount' : option string)
    (Hf : page_fromChain (sw_render old) = APTOS) (Hf' : page_fromChain (sw_render new) = APTOS)
    (Hps : partialFillSecrets (sw_order old) = None)
    (Hb : window_secret p = Some b) (Hnew : sb_orderId b = Some (sw_orderId new))
    (Hne : sw_orderId old <> sw_orderId new) (Hr : sb_revealed b = false) :
  exists p1 h1,
    run O (on_source_created contracts old (sw_orderId old) amount) p h = (Ok tt, p1, h1) /\
    (exists m, (run O (reveal_secret old) p1 h1).2 = (h1 ++ [Told (I := WebI) (SendReveal m)])%list /\
       rv_orderId m = sw_orderId old /\ rv_secret m = sb_secret b) /\
    forall h2, reveal_timers (run O (on_source_created contracts new (sw_orderId new) amount') p1 h2).2 =
               reveal_timers h2.
Proof.
  destruct (run_on_source_created O old amount p b h Hf Hb Hr) as (l & Hrun & Hl).
  do 2 eexists. split_and!; [exact Hrun| |].
  - unfold reveal_secret, setSwapStatus. web_unfold. rewrite Hps.
    destruct (partialFillEnabled (sw_order old)); (eexists; split_and!; [reflexivity|done|done]).
  - intros h2. unfold on_source_created. rewrite String.eqb_refl, Hf'. cbn [pbind]. rewrite run_bind.
    destruct (run_log_step O new "🔒 Source escrow created"
                (set_secret (Some (mark_revealed b)) p) h2) as (l2 & -> & Hl2).
    unfold schedule_reveal. cbn [run pbind get window_secret set_secret mark_revealed sb_revealed].
    cbn [snd]. rewrite reveal_timers_app. assert (reveal_timers l2 = 0%nat) as ->; [|lia].
    clear -Hl2. induction Hl2 as [|e l He _ IH]; [done|]. destruct e as [o|r x]; [done|].
    exact IH.
Qed.
End Reveal.

(** ** What the page signs and posts *)

(** Events that post nothing and send nothing. *)
Definition quiet (e : Ev WebI) : Prop :=
  match e with
  | Called (PostOrder _) _ | Called (PostRelay _) _ => False
  | Told (Alert _) => True
  | Told _ => False
  | _ => True
  end.

(** The signature that a wallet answered for a typed message. *)
Definition signed_as (d : Domain) (t : FieldTypes) (m : Signature.Message) (sig : string)
    (e : Ev WebI) : Prop :=
  match e with
  | Called (SignTypedData d' t' m') x => d' = d /\ t' = t /\ m' = m /\ x = Ok sig
  | _ => False
  end.

Ltac quiet_end :=
  rewrite <- ?app_assoc; try (eexists; split; [reflexivity|]); try (exists []; split; [by rewrite app_nil_r|]);
  repeat constructor.

Section Signing.
Context `{Ethers, EthersBytes, SignatureParts, EthersUnits, AptosErrors, WalletSdk}
  (contracts : Contracts).

(** The meta-transaction that [params] and a nonce stand for. *)
Definition meta_signed (params : GaslessEscrowParams) (sig : Z * string * string)
    (metaDeadline : number) (l : list (Ev WebI)) : Prop :=
  exists n sigText, signature_from sigText = Ok sig /\
    Exists (signed_as (GaslessWETHTransaction.meta_domain (GASLESS_ESCROW contracts) 11155111)
              GaslessWETHTransaction.CREATE_ESCROW_TYPE
              (GaslessWETHTransaction.meta_message params n metaDeadline) sigText) l.

Lemma signMetaTx_wp params (p : Page) h :
  wp (GaslessWETHTransaction.signMetaTx (GASLESS_ESCROW contracts) 11155111 params)
     (fun r p' h' => p' = p /\ exists l, h' = (h ++ l)%list /\ Forall quiet l /\
        forall x, r = Ok x -> meta_signed params x.1 x.2 l) p h.
Proof.
  unfold GaslessWETHTransaction.signMetaTx, GaslessWETHTransaction.buildMetaTxMessage,
    GaslessWETHTransaction.getNonce_web.
  web_norm. intros [n|e]; web_norm; [|split; [done|]; eexists; split_and!; [reflexivity|repeat constructor|done]].
  intros t [sigText|e]; web_norm; [destruct (signature_from sigText) as [sig|e] eqn:Hs; web_norm|];
    (split; [done|]); rewrite <- app_assoc; eexists; (split_and!; [reflexivity|repeat constructor|]);
    try done.
  intros x [= <-]. exists (of_Z n), sigText. split; [done|]. apply Exists_cons. right.
  apply Exists_cons. by left.
Qed.

Lemma approve_max_wp spender refusal failure stage pause eth (p : Page) h :
  wp (approve_max contracts spender refusal failure stage pause eth)
     (fun r p' h' => window_secret p' = window_secret p /\
        exists l, h' = (h ++ l)%list /\ Forall quiet l) p h.
Proof.
  unfold approve_max, setSwapStatus. web_norm.
  intros [[]|e]; web_norm; [|split; [done|]; quiet_end..].
  intros [tx|e]; web_norm; [|split; [done|]; quiet_end].
  intros [c|e]; web_norm; [|split; [done|]; quiet_end].
  destruct pause; web_norm.
  - intros [[]|e]; web_norm; [|split; [done|]; quiet_end].
    intros [a|e]; web_norm; (split; [done|]); quiet_end.
  - intros [a|e]; web_norm; (split; [done|]); quiet_end.
Qed.

(** The order a WETH swap ends with. *)
Definition gasless_signed (r : Render) (d : CreateOrderDto) (eth hash : string) (o : CreateOrderDto)
    (l : list (Ev WebI)) : Prop :=
  exists params sig metaDeadline,
    o = deferred_order d
          (Some (GaslessWETHTransaction.prepareGaslessEscrowData params sig metaDeadline)) /\
    ge_depositor params = eth /\ ge_token params = ETHEREUM_WETH contracts /\
    ge_amount params = (if partialFillOn r then "0" else fromAmount d) /\
    ge_timelock params = deadline d /\
    ge_beneficiary params = default (RESOLVER_ETHEREUM contracts) (present (resolverAddress r)) /\
    getBytes (PartialFill.id (nonce d ++ "-source-" ++ hash)) = Ok (ge_escrowId params) /\
    getBytes hash = Ok (ge_hashlock params) /\ meta_signed params sig metaDeadline l.

Lemma meta_signed_app params sig dl l1 l2 : meta_signed params sig dl l2 -> meta_signed params sig dl (l1 ++ l2).
Proof. intros (n & t & Ht & He). exists n, t. split; [done|]. apply Exists_app. by right. Qed.

Lemma gasless_order_wp r d eth hash (p : Page) h :
  wp (gasless_order contracts r d eth hash)
     (fun x p' h' => window_secret p' = window_secret p /\
        exists l, h' = (h ++ l)%list /\ Forall quiet l /\
          forall o, x = Ok (Some o) -> gasless_signed r d eth hash o l) p h.
Proof.
  unfold gasless_order, setSwapStatus. web_norm.
  destruct (negb _); web_norm; [split; [done|]; exists []; split_and!; [by rewrite app_nil_r|constructor|done]|].
  intros [initial|e]; web_norm; [|split; [done|]; eexists; split_and!; [reflexivity|repeat constructor|done]].
  destruct (BigInt (fromAmount d)) as [amount|e]; web_norm;
    [|split; [done|]; eexists; split_and!; [reflexivity|repeat constructor|done]].
  rewrite wp_bind. set (p1 := set_stage signing_intent None p).
  eapply (wp_mono _ (fun x p' h' => window_secret p' = window_secret p1 /\
            exists l, h' = ((h ++ [Called (I := WebI) _ (Ok initial)]) ++ l)%list /\ Forall quiet l)).
  2: { destruct (initial <? amount); [apply approve_max_wp|].
       split; [done|]. exists []. split; [by rewrite app_nil_r|constructor]. }
  intros x p' h' (Hp' & l & -> & Hl). rewrite <- app_assoc.
  destruct x as [[allowance|]|e]; web_norm.
  2, 3: split; [done|]; eexists; split_and!; [reflexivity|by repeat constructor|done].
  destruct (_ || _); web_norm.
  2: split; [done|]; eexists; split_and!; [reflexivity|by repeat constructor|done].
  destruct (getBytes (source_escrow_id d hash)) as [eid|e] eqn:Heid; web_norm.
  2: split; [done|]; eexists; split_and!; [reflexivity|by repeat constructor|done].
  destruct (getBytes hash) as [hl|e] eqn:Hhl; web_norm.
  2: split; [done|]; eexists; split_and!; [reflexivity|by repeat constructor|done].
  rewrite wp_bind. eapply wp_mono; [|apply signMetaTx_wp].
  intros [[sig dl]|e] p2 h2 (-> & l2 & -> & Hl2 & Hs); web_norm; (split; [done|]); rewrite <- app_assoc;
    eexists; (split_and!; [reflexivity|repeat (constructor || apply Forall_app || split); done|]);
    [|done].
  intros o [= <-]. do 3 eexists. split_and!; [reflexivity|done..|].
  apply (meta_signed_app _ _ _ (_ :: l)). by apply (Hs (sig, dl)).
Qed.

Lemma sign_readable_wp r text nonce_ (p : Page) h :
  wp (sign_readable r text nonce_)
     (fun _ p' h' => p' = p /\ exists l, h' = (h ++ l)%list /\ Forall quiet l) p h.
Proof.
  unfold sign_readable, attempt. web_norm.
  destruct (adapterSigns r); web_norm.
  - intros [m|e]; web_norm; [split; [done|]; quiet_end|].
    destruct (List.find _ _); web_norm; [|split; [done|]; quiet_end].
    intros [m|e']; web_norm; (split; [done|]); quiet_end.
  - destruct (List.find _ _); web_norm; [|split; [done|]; quiet_end].
    intros [m|e']; web_norm; (split; [done|]); quiet_end.
Qed.

Lemma intent_order_wp r d eth apt hash (p : Page) h :
  wp (intent_order_of contracts r d eth apt hash)
     (fun x p' h' => window_secret p' = window_secret p /\
        exists l, h' = (h ++ l)%list /\ Forall quiet l /\
          forall o, x = Ok (Some o) -> o = deferred_order d None) p h.
Proof.
  unfold intent_order_of, setSwapStatus. web_norm.
  intros [initial|e]; web_norm; [|split; [done|]; eexists; split_and!; [reflexivity|repeat constructor|done]].
  destruct (parseEther (estimatedOutput r)) as [required|e]; web_norm;
    [|split; [done|]; eexists; split_and!; [reflexivity|repeat constructor|done]].
  rewrite wp_bind. set (p1 := set_stage checking_approval None p).
  eapply (wp_mono _ (fun x p' h' => window_secret p' = window_secret p1 /\
            exists l, h' = ((h ++ [Called (I := WebI) _ (Ok initial)]) ++ l)%list /\ Forall quiet l)).
  2: { destruct (_ && _); [apply approve_max_wp|].
       split; [done|]. exists []. split; [by rewrite app_nil_r|constructor]. }
  intros x p' h' (Hp' & l & -> & Hl). rewrite <- app_assoc.
  destruct x as [[allowance|]|e]; web_norm.
  2, 3: split; [done|]; eexists; split_and!; [reflexivity|by repeat constructor|done].
  intros t1 t2.
  destruct (getBytes (source_escrow_id d hash)) as [eid|e]; web_norm.
  2: split; [done|]; eexists; split_and!; [reflexivity|by repeat constructor|done].
  destruct (getBytes hash) as [hl|e]; web_norm.
  2: split; [done|]; eexists; split_and!; [reflexivity|by repeat constructor|done].
  rewrite wp_bind. eapply wp_mono; [|apply sign_readable_wp].
  intros [m|e] p2 h2 (-> & l2 & -> & Hl2); web_norm; (split; [done|]); rewrite <- app_assoc;
    eexists; (split_and!; [reflexivity|repeat (constructor || apply Forall_app || split); done|]);
    [|done].
  by intros o [= <-].
Qed.

(** The secret the page keeps for a swap, drawn at some moment. *)
Definition drawn_secret (b : SecretBox) : Prop :=
  sb_revealed b = false /\
  exists t, sb_secret b = hexlify (randomBytes t) /\ sb_secretHash b = keccak256 (randomBytes t).

(** The meta-transaction of an order from Ethereum, [g]: on the hash of the
    secret, and in every field what the wallet signed for the gasless contract,
    with the signature it answered. *)
Definition meta_posted (r : Render) (eth hash : string) (o : CreateOrderDto) (g : GaslessData)
    (l0 : list (Ev WebI)) : Prop :=
  exists eid hl sigText v sr ss n dl m,
    getBytes (PartialFill.id (nonce o ++ "-source-" ++ hash)) = Ok eid /\ getBytes hash = Ok hl /\
    gd_escrowId g = hexlify eid /\ gd_hashlock g = hexlify hl /\ gd_depositor g = eth /\
    gd_beneficiary g = default (RESOLVER_ETHEREUM contracts) (present (resolverAddress r)) /\
    gd_token g = ETHEREUM_WETH contracts /\
    gd_amount g = (if partialFillOn r then "0" else fromAmount o) /\
    gd_timelock g = number_toString (deadline o) /\ gd_deadline g = number_toString dl /\
    gd_secrets g = None /\
    signature_from sigText = Ok (v, sr, ss) /\
    gd_metaTxV g = of_Z v /\ gd_metaTxR g = sr /\ gd_metaTxS g = ss /\
    m = [("escrowId", VString (gd_escrowId g)); ("depositor", VString (gd_depositor g));
         ("beneficiary", VString (gd_beneficiary g)); ("token", VString (gd_token g));
         ("amount", VString (gd_amount g)); ("hashlock", VString (gd_hashlock g));
         ("timelock", VNumber (deadline o)); ("nonce", VNumber n); ("deadline", VNumber dl)] /\
    Exists (signed_as {| domain_name := "FusionPlusGaslessEscrowV2"; domain_version := "1";
                         domain_chainId := 11155111; domain_contract := Some (GASLESS_ESCROW contracts) |}
              GaslessWETHTransaction.CREATE_ESCROW_TYPE m sigText) l0.

(** What a posted order looks like, given the events before it: the form, the
    accounts and the hash of the secret that the page keeps. *)
Definition posted_well (r : Render) (p' : Page) (l0 : list (Ev WebI)) (o : CreateOrderDto) : Prop :=
  exists b eth apt,
    window_secret p' = Some b /\ drawn_secret b /\ secretHash o = Some (sb_secretHash b) /\
    ethAccount r = Some eth /\ aptosAccount r = Some apt /\
    signature o = "0x00" /\ gasless o = Some true /\
    partialFillSecrets o = None /\ secretHashes o = None /\ permit o = None /\
    fromChain o = page_fromChain r /\ toChain o = page_toChain r /\
    maker o = (match page_fromChain r with ETHEREUM => eth | APTOS => apt end) /\
    receiver o = (match page_toChain r with ETHEREUM => eth | APTOS => apt end) /\
    swap_amount (page_fromChain r) (page_fromAmount r) = Ok (fromAmount o) /\
    min_to_amount (page_toChain r) (estimatedOutput r) = Ok (minToAmount o) /\
    match page_fromChain r with
    | ETHEREUM => exists g, gaslessData o = Some g /\ meta_posted r eth (sb_secretHash b) o g l0
    | APTOS => gaslessData o = None
    end.

Lemma gasless_signed_posted r d eth hash o l0 :
  gasless_signed r d eth hash o l0 -> exists g, gaslessData o = Some g /\ meta_posted r eth hash o g l0.
Proof.
  intros (params & [[v sr] ss] & dl & -> & <- & Ht & Ha & Htl & Hb & Hid & Hh & n & sigText & Hs & He).
  eexists. split; [reflexivity|].
  eexists (ge_escrowId params), (ge_hashlock params), sigText, v, sr, ss, n, dl, _.
  unfold GaslessWETHTransaction.prepareGaslessEscrowData.
  cbn [deferred_order deadline nonce fromAmount gd_escrowId gd_hashlock gd_depositor gd_beneficiary
       gd_token gd_amount gd_timelock gd_deadline gd_secrets gd_metaTxV gd_metaTxR gd_metaTxS].
  rewrite <- Htl. by split_and!.
Qed.

Lemma connected_account (x : option string) (a : string) :
  (x ≫= fun y => present (Some y)) = Some a -> x = Some a.
Proof. destruct x as [y|]; [|done]. simpl. by destruct (str_truthy y). Qed.

Lemma submit_order_wp r final eth apt (p : Page) (b : SecretBox) h :
  window_secret p = Some b -> drawn_secret b ->
  wp (submit_order r final eth apt)
     (fun _ p' h' =>
        (exists b', window_secret p' = Some b' /\ drawn_secret b' /\ sb_secretHash b' = sb_secretHash b) /\
        exists x l1, h' = (h ++ Called (I := WebI) (PostOrder final) x :: l1)%list /\
          (l1 = [] \/ exists orderId, l1 = [Told (I := WebI) (SendSubscribe orderId)])) p h.
Proof.
  intros Hb [Hd1 Hd2]. unfold submit_order, setSwapStatus, WebOrders.createOrder,
    WebOrders.subscribeToOrderUpdates. web_norm.
  intros [x|e]; web_norm.
  - split; [|by rewrite <- app_assoc; do 2 eexists; split; [reflexivity|eauto]].
    cbn. rewrite Hb. cbn. eexists. split_and!; [reflexivity| |done]. by split.
  - split; [|by do 2 eexists; split; [reflexivity|auto]]. exists b. by split_and!.
Qed.

(** The outcome of a started swap: nothing was posted, or exactly one order
    was. *)
Definition swap_outcome (r : Render) (h : list (Ev WebI)) (p' : Page) (h' : list (Ev WebI)) : Prop :=
  exists l, h' = (h ++ l)%list /\
    (Forall quiet l \/
     exists l0 o x l1, l = (l0 ++ Called (I := WebI) (PostOrder o) x :: l1)%list /\ Forall quiet l0 /\
       posted_well r p' l0 o /\
       (l1 = [] \/ exists orderId, l1 = [Told (I := WebI) (SendSubscribe orderId)])).

Lemma build_order_wp r eth apt amount hash (p : Page) h :
  wp (build_order contracts r eth apt amount hash)
     (fun x p' h' => p' = p /\ h' = h /\
        forall d, x = Ok d -> exists minTo t1 t2 auction,
          min_to_amount (page_toChain r) (estimatedOutput r) = Ok minTo /\
          d = order_data contracts r eth apt amount minTo hash t2 t1 auction) p h.
Proof.
  unfold build_order. destruct (min_to_amount _ _); web_norm; [|done]. intros t1 t2.
  destruct (_ && _); web_norm; [intros t3; web_norm|]; split_and!; try done;
    intros d [= <-]; by do 4 eexists.
Qed.

(** The order that the two kinds of swaps end with. *)
Lemma final_order_wp r d eth apt hash (p : Page) h :
  wp (match page_fromChain r with
      | ETHEREUM => gasless_order contracts r d eth hash
      | APTOS => intent_order_of contracts r d eth apt hash
      end)
     (fun x p' h' => window_secret p' = window_secret p /\
        exists l, h' = (h ++ l)%list /\ Forall quiet l /\
          forall o, x = Ok (Some o) -> (exists g, o = deferred_order d g) /\
            match page_fromChain r with
            | ETHEREUM => exists g, gaslessData o = Some g /\ meta_posted r eth hash o g l
            | APTOS => gaslessData o = None
            end) p h.
Proof.
  destruct (page_fromChain r).
  - eapply wp_mono; [|apply gasless_order_wp]. intros x p' h' (Hp & l & -> & Hl & Ho).
    split; [done|]. exists l. split_and!; [done..|]. intros o Hx. specialize (Ho o Hx).
    split; [destruct Ho as (? & ? & ? & -> & _); eauto|by eapply gasless_signed_posted].
  - eapply wp_mono; [|apply intent_order_wp]. intros x p' h' (Hp & l & -> & Hl & Ho).
    split; [done|]. exists l. split_and!; [done..|]. intros o Hx. rewrite (Ho o Hx). eauto.
Qed.

Lemma start_swap_wp r eth apt (p : Page) h :
  ethAccount r = Some eth -> aptosAccount r = Some apt ->
  wp (start_swap contracts r eth apt) (fun _ p' h' => swap_outcome r h p' h') p h.
Proof.
  intros Heth Hapt. unfold start_swap. rewrite wp_bind, wp_of_result.
  destruct (swap_amount _ _) as [amount|e] eqn:Hamount; [|exists []; rewrite app_nil_r; auto using Forall_nil].
  cbn [wp pbind now modify]. intros t0.
  set (b := {| sb_secret := hexlify (randomBytes t0) |}). set (p1 := set_secret (Some b) p).
  assert (drawn_secret b) as Hb by (split; [done|]; by exists t0).
  rewrite wp_bind. eapply wp_mono; [|apply build_order_wp].
  intros [d|e] ? ? (-> & -> & Hd); [|exists []; rewrite app_nil_r; auto using Forall_nil].
  destruct (Hd d eq_refl) as (minTo & t1 & t2 & auction & Hmin & ->). rewrite wp_bind.
  eapply wp_mono; [|apply final_order_wp].
  intros [[o|]|e] p2 h2 (Hp2 & l & -> & Hl & Ho); cbn [wp]; [|exists l; auto..].
  destruct (Ho o eq_refl) as [[g ->] Hs]. rewrite wp_bind.
  eapply wp_mono; [|apply (submit_order_wp r _ eth apt p2 b); done].
  intros [a|e] p3 h3 ((b' & Hb' & Hdb & Hbh) & x & l1 & -> & Hl1); cbn [wp].
  all: eexists; rewrite <- app_assoc; split; [reflexivity|]; right; exists l, (deferred_order _ g), x, l1;
    split_and!; try done; exists b', eth, apt; rewrite Hbh; split_and!; try done.
Qed.

(** C14. What a swap posts, whatever the wallets and nodes answer: at most one
    order, marked gasless, with the placeholder for a signature, on the accounts
    and amounts of the form, and with the hash of the secret that the page drew
    and keeps unrevealed. An order from Ethereum carries the meta-transaction
    exactly as the wallet signed it, locked with that hash, for the whole amount
    (for an order that may be filled in parts, for nothing). The secret is not
    sent: with another secret of the same hash, and whatever secrets the pages
    kept before, every request and every message of the swap is the same, and so
    is, up to the timer that reveals the secret, everything that the listeners
    of any swap send. *)
Theorem swap_posts_hash_only (r : Render) (p : Page) (h : list (Ev WebI)) :
  wp (handleSwap contracts r) (fun _ p' h' => swap_outcome r h p' h') p h /\
  (forall draw q O, (forall t, keccak256 (draw t) = keccak256 (randomBytes t)) -> same_page p q ->
     let one := run O (handleSwap contracts r) p h in
     let two := run O (handleSwap (H2 := with_random _ draw) contracts r) q h in
     one.1.1 = two.1.1 /\ one.2 = two.2 /\ same_page one.1.2 two.1.2) /\
  (forall sw prg q O, listener contracts sw prg -> prg <> reveal_secret sw -> same_page p q ->
     let one := run O prg p h in
     let two := run O prg q h in
     one.1.1 = two.1.1 /\ one.2 = two.2 /\ same_page one.1.2 two.1.2).
Proof.
  split_and!.
  - unfold handleSwap. set (Q := fun _ p' h' => swap_outcome r h p' h').
    assert (forall o, wp (Tell (I := WebI) (Alert o) (Ret None)) Q p h) as Halert.
    { intros o. exists [Told (I := WebI) (Alert o)]. split; [done|]. left. repeat constructor. }
    destruct (ethAccount r ≫= _) as [eth|] eqn:Heth; [|apply Halert].
    destruct (aptosAccount r ≫= _) as [apt|] eqn:Hapt; [|apply Halert].
    destruct (hasSigner r); [|apply Halert].
    destruct (_ && _); [|apply Halert].
    apply connected_account in Heth, Hapt.
    cbn [wp pbind modify]. rewrite wp_try. eapply wp_mono; [|by apply start_swap_wp].
    by intros [x|e] p' h' Ho.
  - intros draw q O Hdraw Hq. by apply lockstep_run; [apply lockstep_handleSwap|].
  - intros sw prg q O Hl Hr Hq. by apply lockstep_run; [eapply lockstep_listener|].
Qed.
End Signing.

(** ** The APT escrow the page hands over *)

Section Handover.
Context `{Ethers, EthersBytes, SignatureParts, EthersUnits, AptosErrors, WalletSdk}
  (contracts : Contracts).






End Handover.

(** ** Witnesses *)

Definition sample_parts : SignatureParts := {| signature_from := fun s => Ok (27, s, s) |}.
Definition sample_units : EthersUnits :=
  {| formatEther18 := fun z => toString z; parseEther := fun s => BigInt s;
     randomBytes := fun _ => "0x01" |}.
Definition sample_errors : AptosErrors := {| rate_limited := fun _ => false |}.
Definition sample_sdk : WalletSdk :=
  {| ed25519_authenticator := fun k s => Ok (k ++ s); toLocaleString := fun _ => "" |}.
Definition sample_contracts : Contracts :=
  {| ETHEREUM_ESCROW := "0xe"; ETHEREUM_WETH := "0xw"; GASLESS_ESCROW := "0xg"; APTOS_ESCROW := "0xa";
     RESOLVER_ETHEREUM := "0xr"; RESOLVER_APTOS := "0xs" |}.

Definition apt_render : Render :=
  {| ethAccount := Some "0x1"; aptosAccount := Some "0x2"; hasSigner := true;
     page_fromChain := APTOS; page_toChain := ETHEREUM; page_fromAmount := "1"; estimatedOutput := "1";
     exchangeRate := None; partialFillOn := false; dutchAuctionEnabled := false; resolvers := [];
     resolverAddress := None; seenFills := []; adapterSigns := true; windowWallets := [] |}.

Definition swap_named (orderId : string) : ActiveSwap :=
  {| sw_orderId := orderId; sw_order := sample_dto; sw_ethAccount := "0x1"; sw_aptosAccount := "0x2";
     sw_render := apt_render |}.

Definition fresh_box : SecretBox :=
  {| sb_secret := "0x01"; sb_secretHash := "0x02"; sb_orderId := Some "o2"; sb_revealed := false |}.

Definition fresh_page : Page := set_secret (Some fresh_box) initial_page.

Definition silent_web : Oracle WebI :=
  {| answer := fun _ _ => Throw (Error "offline"); clock := fun _ => 0 |}.

(** A hash that many secrets share, and a web in which an APT swap goes through. *)
Definition short_hash : Ethers :=
  {| keccak256 := fun _ => "0x02"; concat := String.concat ""; PartialFill.id := fun _ => "0x03";
     getBigInt := BigInt |}.

Definition small_units : EthersUnits :=
  {| formatEther18 := toString; parseEther := fun _ => Ok 1; randomBytes := fun _ => "0x01" |}.

Definition obliging_web : Oracle WebI :=
  {| answer := fun (_ : list (Ev WebI)) (r : Req WebI) =>
       match r return result (web_ans r) with
       | ContractRead _ _ _ => Ok MaxUint256
       | WalletSignMessage _ _ _ => Ok {| sm_signature := "0xs"; sm_publicKey := "0xk"; sm_fullMessage := None |}
       | PostOrder _ => Ok (Some "o1")
       | _ => Throw (Error "offline")
       end;
     clock := fun _ => 1700000000000 |}.

Definition is_post (e : Ev WebI) : bool :=
  match e with Called (PostOrder _) _ => true | _ => false end.

Section SecrecyExample.
Local Existing Instances short_hash hex_bytes sample_parts sample_errors sample_sdk.

(** Two pages with different secrets of the same hash post the same order. *)
Lemma swap_posts_hash_only_witness :
  let one := run obliging_web (handleSwap (H2 := small_units) sample_contracts apt_render)
               initial_page [] in
  let two := run obliging_web
               (handleSwap (H2 := with_random small_units (fun _ => "0x07")) sample_contracts apt_render)
               initial_page [] in
  one.2 = two.2 /\ existsb is_post one.2 = true /\
  (sb_secret <$> window_secret one.1.2) <> (sb_secret <$> window_secret two.1.2).
Proof.
  split.
  - refine (proj1 (proj2 (proj1 (proj2 (swap_posts_hash_only (H2 := small_units) sample_contracts
             apt_render initial_page [])) (fun _ => "0x07") initial_page obliging_web _ _))).
    + reflexivity.
    + apply same_page_refl.
  - split; [vm_compute; reflexivity|]. vm_compute. discriminate.
Defined.
End SecrecyExample.

Local Existing Instances tagged_ethers hex_bytes sample_parts sample_units sample_errors sample_sdk.

Lemma reveal_scheduled_once_witness :
  exists w : Pool WebI Page unit, length (handlers w) = 1%nat /\ (reveal_timers (log w) <= 1)%nat.
Proof.
  eexists. split.
  2: { eapply (reveal_scheduled_once sample_contracts {| handlers := []; fields := fresh_page; log := [] |} _ fresh_box);
         [reflexivity|reflexivity|reflexivity|reflexivity|].
       apply rtc_once. eapply (step_start _ _ 0 (on_source_created sample_contracts (swap_named "o2") "o2" None));
         [exists (swap_named "o2"); constructor|reflexivity]. }
  reflexivity.
Defined.

Lemma own_announcement_reveals_witness :
  (1 <= deliveries sample_hub "c1" "escrow:source:created"
          (relay escrow_source_created
             {| data_orderId := Some "o2"; data_cumulativePercentage := None; data_rest := "" |}))%nat.
Proof.
  refine (proj1 (own_announcement_reveals sample_contracts silent_web (swap_named "o2") fresh_page fresh_box []
             sample_hub "c1" "" None _ _ _ _ _ _)); try reflexivity.
  left.
Defined.

Lemma stale_listener_reveals_witness :
  exists p1 h1,
    run silent_web (on_source_created sample_contracts (swap_named "o1") "o1" None) fresh_page [] =
      (Ok tt, p1, h1).
Proof.
  destruct (stale_listener_reveals sample_contracts silent_web (swap_named "o1") (swap_named "o2") fresh_page
              fresh_box [] None None eq_refl eq_refl eq_refl eq_refl eq_refl ltac:(discriminate) eq_refl)
    as (p1 & h1 & Hr & _).
  exists p1, h1. exact Hr.
Defined.
