(* ===== verification/PageValues.v ===== *)
(** * Amounts, rates and signatures of the frontend

    The values the page computes for itself against those of the order engine
    and of the resolver: shares of an order, base units, the auction it
    proposes and the rate it shows; the signatures it asks for against the
    checks of the backend; and the loop that waits for an escrow. *)

From Stdlib Require Import ZArith Lia.
From stdpp Require Import base numbers list strings.
From S2P Require Import Prelude.
From S2P Require Import JsNumber.
From S2P Require Import JsString.
From S2P Require Import JsFormat.
From S2P Require Import DutchAuction.
From S2P Require Import PartialFill.
From S2P Require Import OrderTypes.
From S2P Require Import Signature.
From S2P Require Import Async.
From S2P Require Import Chain.
From S2P Require Import TokenServices.
From S2P Require Import OrderIntake.
From S2P Require Import Web.
From S2P Require Import WebServices.
From S2P Require Import SwapPage.

Local Open Scope string_scope.
Local Open Scope Z_scope.

(** ** Amounts *)

(** The share of an order that the page locks for a partial fill is the
    amount the backend computes for that fill: for every order amount and
    every percentage the two computations agree, errors included. *)
Theorem page_share_equivalent `{EthersLaws} (total : Z) (p : number) (Ht : 0 <= total) :
  escrow_share (toString total) (Some p) = calculatePartialAmount (toString total) p.
Proof.
  unfold escrow_share, calculatePartialAmount.
  by rewrite BigInt_toString, (getBigInt_decimal total Ht).
Qed.

(** An APT amount typed with decimals can become an order amount that is no
    integer: 1.1 APT is posted as 110000000.00000001, and every later
    computation of a share of that order throws, whatever the percentage. *)
Theorem fractional_apt_amount `{EthersUnits} (p : number) :
  swap_amount APTOS "1.1" = Ok "110000000.00000001" /\
  escrow_share "110000000.00000001" (Some p) =
    Throw (SyntaxError "Cannot convert 110000000.00000001 to a BigInt").
Proof. split; vm_compute; reflexivity. Qed.

(** The text of a whole number below 2^53 is read back as that number. *)
Lemma whole_text (z : Z) :
  0 <= z < 2 ^ 53 -> BigInt (number_toString (of_Z z)) = Ok z.
Proof.
  intros Hz. assert (small z) as Hsm by (unfold small; lia). pose proof scale_pos.
  rewrite (of_Z_small z Hsm).
  destruct (whole_toString z) as (z' & Hz' & -> & Hof); [lia|by apply small_double|].
  f_equal. destruct (Z.le_gt_cases z' (2 ^ 53)).
  - rewrite of_Z_small in Hof by (unfold small; lia). injection Hof as Hof. nia.
  - assert (leb (of_Z (2 ^ 53)) (of_Z z') = true) as Hle by (apply round_mono; [lia..|]; rewrite !Z.mul_1_r; apply Z.mul_le_mono_nonneg_r; lia).
    rewrite Hof, of_Z_small in Hle by (unfold small; lia). cbn in Hle. zbool. nia.
Qed.

(** An APT amount typed as a whole number is posted as exactly that many
    base units, for every amount below 2^53 units. *)
Theorem whole_apt_amount `{EthersUnits} (k : Z) (Hk : 0 <= k) (Hmax : k * 100000000 < 2 ^ 53) :
  exists text, swap_amount APTOS (toString k) = Ok text /\ BigInt text = Ok (k * 100000000).
Proof.
  eexists. split; [reflexivity|].
  assert (parseFloat (toString k) = of_Z k) as ->.
  { rewrite parseFloat_digit_first.
    - rewrite parse_whole, digits_value_toString, decimal_whole by
        (try lia; auto using toString_digits, toString_nonempty). f_equal. lia.
    - pose proof (toString_digits k Hk) as Hd. pose proof (toString_nonempty k Hk).
      destruct (toString k) as [|c t]; [done|]. unfold digits in Hd. simpl in *.
      by apply andb_true_iff in Hd as [? _]. }
  rewrite mul_of_Z by (unfold small; lia). apply whole_text. lia.
Qed.

(** ** Auctions *)

Lemma rate_factor_finite (rate f M : number) :
  leb (Finite 0) rate = true -> leb rate M = true -> is_finite M = true ->
  leb (Finite 0) f = true -> is_finite f = true -> is_finite (mul M f) = true ->
  is_finite (mul rate f) = true /\ leb (Finite 0) (mul rate f) = true /\
  leb (mul rate f) (mul M f) = true.
Proof.
  intros Hr0 Hr HM Hf0 Hf Hm.
  assert (is_finite rate = true) as Hfin by exact (leb_finite_between _ _ _ Hr0 Hr eq_refl HM).
  pose proof (mul_nonneg rate f Hr0 Hf0 Hfin Hf) as Hn.
  pose proof (mul_mono_nonneg rate M f Hr Hf0 Hf Hfin HM) as Hle.
  split; [|done]. exact (leb_finite_between _ _ _ Hn Hle eq_refl Hm).
Qed.

(** The auction the page proposes is one the engine's clock can run. *)
Lemma page_auction_seconds (rate : number) (start : Z) :
  leb (of_Z 0) rate = true -> leb rate (of_Z (2 ^ 52)) = true -> 0 <= start < 2 ^ 51 ->
  seconds_auction (page_auction rate (of_Z start)) start 120 15.
Proof.
  intros Hr0 Hr Hs. rewrite of_Z_0 in Hr0.
  assert (is_finite (of_Z (2 ^ 52)) = true) as HM by (vm_compute; reflexivity).
  pose proof (leb_finite_between _ _ _ Hr0 Hr eq_refl HM) as Hfin.
  assert (is_finite (mul (of_Z (2 ^ 52)) (lit 103 100)) = true) as M1 by (vm_compute; reflexivity).
  assert (is_finite (mul (of_Z (2 ^ 52)) (lit 97 100)) = true) as M2 by (vm_compute; reflexivity).
  assert (is_finite (mul (of_Z (2 ^ 52)) (lit 6 100)) = true) as M3 by (vm_compute; reflexivity).
  assert (is_finite (div (mul (of_Z (2 ^ 52)) (lit 6 100)) (of_Z 8)) = true) as M4
    by (vm_compute; reflexivity).
  assert (leb (Finite 0) (lit 97 100) = true /\ leb (lit 97 100) (lit 103 100) = true /\
          leb (Finite 0) (lit 103 100) = true /\ leb (Finite 0) (lit 6 100) = true)
    as (L1 & L2 & L3 & L4) by (split_and!; vm_compute; reflexivity).
  assert (is_finite (lit 97 100) = true /\ is_finite (lit 103 100) = true /\
          is_finite (lit 6 100) = true) as (F1 & F2 & F3) by (split_and!; vm_compute; reflexivity).
  assert (ltb (Finite 0) (of_Z 8) = true) as L5 by (vm_compute; reflexivity).
  assert (is_finite (of_Z 8) = true) as F4 by (vm_compute; reflexivity).
  revert Hr HM M1 M2 M3 M4 L5 F4. unfold page_auction.
  generalize (of_Z (2 ^ 52)) as M. intros M Hr HM M1 M2 M3 M4 L5 F4.
  destruct (rate_factor_finite rate _ M Hr0 Hr HM L3 F2 M1) as [R1 _].
  destruct (rate_factor_finite rate _ M Hr0 Hr HM L1 F1 M2) as [R2 _].
  destruct (rate_factor_finite rate _ M Hr0 Hr HM L4 F3 M3) as (R3 & R4 & R5).
  pose proof (div_nonneg _ _ R4 R3 F4 L5) as D1.
  pose proof (div_mono_pos _ _ _ R5 L5 F4 R3 M3) as D2.
  split; cbn [startTimestamp duration decrementInterval startRate endRate decrementAmount].
  - reflexivity.
  - reflexivity.
  - reflexivity.
  - exact Hs.
  - lia.
  - lia.
  - split; [exact R1|apply wf_mul].
  - split; [exact R2|apply wf_mul].
  - rewrite !(mul_comm rate). exact (mul_mono_nonneg _ _ _ L2 Hr0 Hfin F1 F2).
  - split; [exact (leb_finite_between _ _ _ D1 D2 eq_refl M4)|rewrite of_Z_0; exact D1].
Qed.

(** The auction that the page proposes: for every quoted rate up to 2^52 and
    every time, the rate the engine grants stays between 97% and 103% of the
    quoted rate (as doubles) and never rises. *)
Theorem page_auction_bounded (rate : number) (start t1 t2 : Z)
    (Hr0 : leb (of_Z 0) rate = true) (Hr : leb rate (of_Z (2 ^ 52)) = true)
    (Hs : 0 <= start < 2 ^ 51) (Ht1 : timestamp t1) (Ht2 : timestamp t2) (Hle : t1 <= t2) :
  let granted t := getCurrentRate (page_auction rate (of_Z start)) (of_Z t) in
  leb (mul rate (lit 97 100)) (granted t2) = true /\
  leb (granted t2) (granted t1) = true /\
  leb (granted t1) (mul rate (lit 103 100)) = true.
Proof.
  pose proof (page_auction_seconds rate start Hr0 Hr Hs) as Ha. cbn zeta. split_and!.
  - apply (auction_rate_bounds_aux _ start 120 15 t2 Ha Ht2).
  - by apply (auction_antitone_aux _ start 120 15 t1 t2).
  - apply (auction_rate_bounds_aux _ start 120 15 t1 Ha Ht1).
Qed.

(** The rate shown to the user is the rate the engine grants: at every whole
    second from the start of an auction, the page shows it as running exactly
    until its end, and while it runs it shows the engine's current rate. *)
Theorem shown_rate_equivalent (a : DutchAuction) (start dur interval t : Z)
    (Ha : seconds_auction a start dur interval) (Ht : timestamp t) (Hst : start <= t) :
  shown_active a (of_Z t) = (t <? start + dur) /\
  (shown_active a (of_Z t) = true -> shown_rate a (of_Z t) = getCurrentRate a (of_Z t)).
Proof.
  pose proof (sa_start_range Ha). pose proof (sa_duration_range Ha).
  assert (shown_active a (of_Z t) = (t <? start + dur)) as Hact.
  { unfold shown_active. rewrite (sa_start Ha), (sa_duration Ha).
    unfold timestamp in Ht. rewrite sub_of_Z, ltb_of_Z by (unfold small; lia).
    apply eq_true_iff_eq. rewrite !Z.ltb_lt. lia. }
  split; [done|]. rewrite Hact. intros Hlt%Z.ltb_lt.
  rewrite (getCurrentRate_seconds a start dur interval Ha t Ht).
  rewrite (proj2 (Z.ltb_ge t start)), (proj2 (Z.leb_gt (start + dur) t)) by lia.
  unfold shown_rate. by rewrite (intervals_passed a start dur interval Ha t Ht Hst).
Qed.

(** ** Signatures *)

(** A wallet of [mk] on the network [chainId] that agrees to sign [agreed]: the
    signer recovered from such a signature is [mk]. *)
Record honest_wallet `{Signing} (O : Oracle WebI) (mk : string) (chainId : Z)
    (agreed : list (Domain * FieldTypes * Signature.Message)) : Prop := {
  hw_signs : forall h d t m, (d, t, m) ∈ agreed -> exists sig a,
    answer O h (SignTypedData d t m) = Ok sig /\
    verifyTypedData d t m sig = Ok a /\ toLowerCase a = toLowerCase mk;
  hw_address : forall h, answer O h SignerAddress = Ok mk;
  hw_chain : forall h, answer O h NetworkChainId = Ok chainId
}.
Arguments hw_signs {_ O mk chainId agreed}.
Arguments hw_address {_ O mk chainId agreed}.
Arguments hw_chain {_ O mk chainId agreed}.

Section Signatures.
Context `{Ethers, Signing} {S : Type} (O : Oracle WebI).

(** The request a wallet answers, as one step of a run. *)
Lemma run_sign (d : Domain) t m (s : S) h mk chainId agreed :
  honest_wallet O mk chainId agreed -> (d, t, m) ∈ agreed ->
  exists sig a, run O (signTypedData d t m) s h =
      (Ok sig, s, (h ++ [Called (I := WebI) (SignTypedData d t m) (Ok sig)])%list) /\
    verifyTypedData d t m sig = Ok a /\ toLowerCase a = toLowerCase mk.
Proof.
  intros Hw Hin. destruct (hw_signs Hw h d t m Hin) as (sig & a & Hs & Hv & Ha). exists sig, a.
  split; [|done]. unfold signTypedData, await. cbn [run]. by rewrite Hs.
Qed.

(** The typed data of an order with a permit, and the permit of an order. *)
Definition permit_typed_order (order : CreateOrderDto) (permitHash : string)
    : Domain * FieldTypes * Signature.Message :=
  (EIP712_DOMAIN, ORDER_TYPE_WITH_PERMIT,
   (order_message order ++ [("permitHash", VString permitHash)])%list).

Definition permit_of (order : CreateOrderDto) (resolver : string) (n : Z) : Permit :=
  {| permit_owner := maker order; permit_spender := resolver;
     permit_value := fromAmount order; permit_nonce := toString n;
     permit_deadline := deadline order |}.

(** An order that the frontend signs is one the engine accepts: when the
    wallet of the maker signs, the order with that signature passes the
    engine's validation (an order from Aptos with the placeholder). *)
Theorem web_signature_accepted (order : CreateOrderDto) (chainId : Z) (s : S) (h : list (Ev WebI))
    (Hw : honest_wallet O (maker order) chainId
            [(EIP712_DOMAIN, ORDER_TYPE, order_message order)])
    (Hp : permit order = None) :
  exists sig s' h', run O (WebOrders.signOrder order) s h = (Ok sig, s', h') /\
    validateOrderSignature (with_signature sig order) = true.
Proof.
  unfold WebOrders.signOrder. destruct (fromChain order) eqn:Hf.
  - destruct (run_sign WebOrders.WEB_DOMAIN WebOrders.WEB_ORDER_TYPE
                (WebOrders.web_order_message order) s h _ _ _ Hw ltac:(by left))
      as (sig & a & Hr & Hv & Ha).
    exists sig. do 2 eexists. split; [exact Hr|]. apply validateOrderSignature_spec. right.
    split; [done|]. exists a. split; [|done]. unfold recover_signer. cbn. by rewrite Hp.
  - exists "0x00". do 2 eexists. split; [reflexivity|].
    apply validateOrderSignature_spec. left. auto.
Qed.

(** C28. An order with a permit, from the frontend through the backend: with the
    maker's wallet on Sepolia and a readable permit nonce, an order completed
    by [createOrderWithPermit] passes the engine's validation, and the permit in
    it passes the resolver's check, is for that resolver, and covers exactly the
    order's amount until its deadline. *)
Theorem permit_order_accepted (order : CreateOrderDto) (permitContract resolver permitHash : string)
    (n : Z) (s : S) (h : list (Ev WebI))
    (Hhash : permit_hash (permit_of order resolver n) = Ok permitHash)
    (Hw : honest_wallet O (maker order) 11155111
            [WebPermits.createPermitTypedData 11155111 permitContract (permit_of order resolver n);
             permit_typed_order order permitHash])
    (Hf : fromChain order = ETHEREUM)
    (Hn : forall h', answer O h' (ContractRead permitContract "nonces" [AString (maker order)]) = Ok n) :
  exists order' p sig s' h',
    run O (WebPermits.createOrderWithPermit order permitContract resolver) s h = (Ok order', s', h') /\
    validateOrderSignature order' = true /\
    permit order' = Some p /\ permitSignature order' = Some sig /\
    PermitService.verifyPermit permitContract p sig 11155111 = true /\
    permit_spender p = resolver /\ permit_value p = fromAmount order /\
    permit_deadline p = deadline order.
Proof.
  unfold WebPermits.createOrderWithPermit, WebPermits.getPermitNonce, WebPermits.signOrderWithPermit,
    WebPermits.signPermit.
  unfold networkChainId, signerAddress, contractRead, await. cbn [pbind run].
  rewrite (hw_chain Hw). cbn [of_result pbind run]. rewrite (hw_address Hw).
  cbn [of_result pbind try_catch run]. rewrite Hn. cbn [of_result pbind try_catch run].
  fold (permit_of order resolver n). cbn [WebPermits.createPermitTypedData fst snd].
  rewrite run_bind.
  match goal with |- context [run O (signTypedData ?d ?t ?m) s ?h0] =>
    destruct (run_sign d t m s h0 _ _ _ Hw ltac:(by left)) as (psig & a & -> & Hpv & Hpa) end.
  cbn [pbind run]. rewrite (hw_chain Hw). cbn [of_result pbind run].
  change (WebPermits.web_permit_hash (permit_of order resolver n))
    with (permit_hash (permit_of order resolver n)). rewrite Hhash.
  cbn [result_bind of_result pbind run]. rewrite run_bind.
  match goal with |- context [run O (signTypedData ?d ?t ?m) s ?h0] =>
    destruct (run_sign d t m s h0 _ _ _ Hw ltac:(by right; left)) as (osig & a' & -> & Hov & Hoa) end.
  cbn [run]. do 5 eexists. split; [reflexivity|]. split_and!; try reflexivity.
  - apply validateOrderSignature_spec. right. split; [exact Hf|]. exists a'. split; [|exact Hoa].
    unfold recover_signer. cbn [permit with_signature with_permit].
    rewrite Hhash. cbn [result_bind]. exact Hov.
  - unfold PermitService.verifyPermit. unfold PermitService.permit_domain, PermitService.PERMIT_TYPE,
      PermitService.permit_message. rewrite Hpv. apply String.eqb_eq. exact Hpa.
Qed.
End Signatures.

(** ** Waiting for an escrow *)

(** Clocks that a timer moves: time does not go back, and after waiting [ms]
    milliseconds at least [ms] have passed. *)
Record timers_run (O : Oracle WebI) : Prop := {
  tr_timeout : forall h ms, answer O h (Timeout ms) = Ok tt;
  tr_waits : forall h ms,
    clock O h + ms <= clock O (h ++ [Called (I := WebI) (Timeout ms) (Ok tt)]);
  tr_calls : forall h r x, clock O h <= clock O (h ++ [Called (I := WebI) r x])
}.
Arguments tr_timeout {O}.
Arguments tr_waits {O}.
Arguments tr_calls {O}.

Section Waiting.
Context {S : Type} (O : Oracle WebI) (escrowModule : string).

(** An answer that the escrow exists. *)
Definition found (e : Ev WebI) : Prop :=
  match e with Called (AptosFlag _ _) x => x = Ok (Some true) | _ => False end.

Lemma run_checkEscrowExists escrowId (s : S) h :
  exists b e, run O (AptosService.checkEscrowExists escrowModule escrowId) s h =
    (Ok b, s, (h ++ [e])%list) /\ (b = Some true <-> found e) /\
    (timers_run O -> clock O h <= clock O (h ++ [e])).
Proof.
  unfold AptosService.checkEscrowExists, aptosFlag, await. cbn [try_catch run].
  set (x := answer O h _). destruct x as [b|err] eqn:Hx; cbn [of_result try_catch run];
    do 2 eexists; (split_and!; [reflexivity|cbn; naive_solver|]); intros Ht; apply (tr_calls Ht).
Qed.

Lemma wait_loop_returns (Ht : timers_run O) escrowId (startTime limit : Z) (fuel : nat) (s : S) h :
  limit - (clock O h - startTime) <= 2000 * (Z.of_nat fuel - 1) -> (0 < fuel)%nat ->
  exists b l, run O (AptosService.wait_loop escrowModule fuel escrowId startTime limit) s h =
      (Ok (Some b), s, (h ++ l)%list) /\
    (b = true <-> Exists found l) /\
    (b = false -> limit <= clock O (h ++ l) - startTime).
Proof.
  revert h. induction fuel as [|fuel IH]; intros h Hf H0; [lia|].
  cbn [AptosService.wait_loop pbind now run].
  destruct (Z.ltb_spec (clock O h - startTime) limit) as [Hlt|Hge].
  2: { exists false, []. rewrite app_nil_r. split_and!; [done| |by intros].
       split; [done|by intros Hx%Exists_nil]. }
  rewrite run_bind. destruct (run_checkEscrowExists escrowId s h) as (b & e & -> & Hb & Hc).
  specialize (Hc Ht). destruct b as [[]|].
  { exists true. eexists. split_and!; [reflexivity| |done]. split; [|done].
    intros _. apply Exists_cons. left. by apply Hb. }
  all: unfold timeout; cbn [pbind]; rewrite run_bind; unfold await; cbn [run];
    rewrite (tr_timeout Ht); cbn [of_result run].
  all: pose proof (tr_waits Ht (h ++ [e]) 2000);
    edestruct (IH ((h ++ [e]) ++ [Called (I := WebI) (Timeout 2000) (Ok tt)])%list)
      as (b & l & Hl & Hbl & Hcl); [lia|lia|].
  all: rewrite <- !app_assoc in Hl, Hcl; rewrite <- !app_assoc; exists b; eexists;
    (split_and!; [exact Hl| |exact Hcl]).
  all: rewrite Hbl, !Exists_app, !Exists_cons, !Exists_nil; cbn; naive_solver.
Qed.

(** C31. Waiting for an escrow ends. Whatever the node answers, and for every
    limit, the polling loop returns after at most one round per two seconds of
    the limit (and one more); it returns [true] exactly when the node answered
    that the escrow exists, and [false] only when the limit had passed. *)
Theorem wait_for_escrow_terminates (escrowId : bytes) (limit : Z) (s : S) (h : list (Ev WebI))
    (Ht : timers_run O) (Hl : 0 <= limit) :
  exists b l,
    run O (AptosService.waitForEscrowCreation escrowModule (Z.to_nat (limit / 2000 + 2)) escrowId limit)
      s h = (Ok (Some b), s, (h ++ l)%list) /\
    (b = true <-> Exists found l) /\
    (b = false -> clock O h + limit <= clock O (h ++ l)).
Proof.
  unfold AptosService.waitForEscrowCreation. cbn [pbind now run].
  pose proof (Z.div_mod limit 2000 ltac:(lia)). pose proof (Z.mod_pos_bound limit 2000 ltac:(lia)).
  destruct (wait_loop_returns Ht escrowId (clock O h) limit (Z.to_nat (limit / 2000 + 2)) s h)
    as (b & l & Hr & Hb & Hc); [lia|lia|].
  exists b, l. split_and!; [exact Hr|done|]. intros Hf. specialize (Hc Hf). lia.
Qed.
End Waiting.

(** ** Witnesses *)

Definition no_units : EthersUnits :=
  {| formatEther18 := fun _ => ""; parseEther := fun _ => Throw (Error "not a number");
     randomBytes := fun _ => "0x01" |}.

(** A wallet whose signatures are its address, a node that knows no escrow, and
    a clock that only timers move. *)
Definition web_answers (mk : string) (h : list (Ev WebI)) (r : WebReq) : result (web_ans r) :=
  match r with
  | SignTypedData _ _ _ | SignerAddress => Ok mk
  | NetworkChainId => Ok 11155111
  | ContractRead _ _ _ => Ok 5
  | AptosFlag _ _ => Ok (Some false)
  | Timeout _ => Ok tt
  | _ => Throw (Error "no answer")
  end.

Definition timer_clock (h : list (Ev WebI)) : Z :=
  foldr (fun (e : Ev WebI) acc => match e with
                      | Called (Timeout ms) _ => Z.max 0 ms + acc
                      | _ => acc
                      end) 0 h.

Definition sample_web : Oracle WebI :=
  {| answer := web_answers "0xMaker"; clock := timer_clock |}.

Lemma timer_clock_app h1 h2 : timer_clock (h1 ++ h2) = timer_clock h1 + timer_clock h2.
Proof.
  induction h1 as [|[o|r x] h1 IH]; [done|done|]. cbn [timer_clock foldr app].
  destruct r; try exact IH. unfold timer_clock in *. cbn. lia.
Qed.

Lemma sample_timers : timers_run sample_web.
Proof.
  split; cbn [sample_web clock answer].
  - done.
  - intros h ms. rewrite timer_clock_app. cbn. lia.
  - intros h r x. rewrite timer_clock_app. assert (0 <= timer_clock [Called (I := WebI) r x]); [|lia].
    destruct r; cbn; lia.
Qed.

Lemma sample_wallet agreed : @honest_wallet echo_signing sample_web "0xMaker" 11155111 agreed.
Proof. split; [|done..]. intros h d t m _. by exists "0xMaker", "0xMaker". Qed.

Lemma page_share_equivalent_witness :
  escrow_share (toString 1000) (Some (lit 3333 100)) =
  @calculatePartialAmount tagged_ethers (toString 1000) (lit 3333 100).
Proof. apply (@page_share_equivalent tagged_ethers tagged_ethers_laws 1000 (lit 3333 100)). lia. Defined.

Lemma whole_apt_amount_witness :
  exists text, @swap_amount no_units APTOS (toString 3) = Ok text /\ BigInt text = Ok 300000000.
Proof. apply (@whole_apt_amount no_units 3); lia. Defined.

Lemma page_auction_bounded_witness :
  leb (mul (of_Z 500) (lit 97 100))
      (getCurrentRate (page_auction (of_Z 500) (of_Z 1700000000)) (of_Z 1700000060)) = true.
Proof.
  refine (proj1 (page_auction_bounded (of_Z 500) 1700000000 1700000030 1700000060 _ _ _ _ _ _));
    [vm_compute; reflexivity|vm_compute; reflexivity|lia|unfold timestamp; lia..|lia].
Defined.

Lemma shown_rate_equivalent_witness :
  shown_active sample_auction (of_Z 1700000100) = true.
Proof.
  rewrite (proj1 (shown_rate_equivalent sample_auction 1700000000 300 30 1700000100
                    sample_auction_ok ltac:(unfold timestamp; lia) ltac:(lia))).
  reflexivity.
Defined.

Lemma web_signature_accepted_witness :
  exists sig s' h',
    run sample_web (WebOrders.signOrder sample_dto) tt [] = (Ok sig, s', h') /\
    @validateOrderSignature tagged_ethers echo_signing (with_signature sig sample_dto) = true.
Proof.
  apply (@web_signature_accepted tagged_ethers echo_signing unit sample_web sample_dto 11155111 tt []
           (sample_wallet _)); reflexivity.
Defined.

Lemma permit_order_accepted_witness :
  exists order' p sig s' h',
    run sample_web (@WebPermits.createOrderWithPermit tagged_ethers echo_signing unit sample_dto
                      "0xpermit" "0xresolver") tt [] = (Ok order', s', h') /\
    @validateOrderSignature tagged_ethers echo_signing order' = true /\
    permit order' = Some p /\ permitSignature order' = Some sig /\
    @PermitService.verifyPermit echo_signing "0xpermit" p sig 11155111 = true /\
    permit_spender p = "0xresolver" /\ permit_value p = "1000" /\
    permit_deadline p = deadline sample_dto.
Proof.
  apply (@permit_order_accepted tagged_ethers echo_signing unit sample_web sample_dto
           "0xpermit" "0xresolver"
           (match @permit_hash tagged_ethers echo_signing (permit_of sample_dto "0xresolver" 5) with Ok x => x | Throw _ => "" end)
           5 tt [] ltac:(reflexivity) (sample_wallet _)); reflexivity.
Defined.

Lemma wait_for_escrow_terminates_witness :
  exists b l,
    run sample_web (AptosService.waitForEscrowCreation "0x3f" 32 "0x01" 60000) tt [] =
      (Ok (Some b), tt, l).
Proof.
  destruct (wait_for_escrow_terminates sample_web "0x3f" "0x01" 60000 tt [] sample_timers
              ltac:(lia)) as (b & l & Hr & _).
  exists b, l. exact Hr.
Defined.
