(* ===== verification/SwapSafety.v ===== *)
(** * Safety of the swap

    What [completeSwap] and the escrow events guarantee whatever the chains and
    the order engine answer: the order of the two withdrawals, what happens on
    failures, and which secrets are acted upon. *)

From Stdlib Require Import ZArith Lia.
From stdpp Require Import base numbers list strings.
From S2P Require Import Prelude.
From S2P Require Import JsNumber.
From S2P Require Import JsString.
From S2P Require Import JsMap.
From S2P Require Import PartialFill.
From S2P Require Import DutchAuction.
From S2P Require Import OrderTypes.
From S2P Require Import Async.
From S2P Require Import Chain.
From S2P Require Import AptosChain.
From S2P Require Import ChainService.
From S2P Require Import FillStrategy.
From S2P Require Import Resolver.
From S2P Require Import Swap.
From S2P Require Import EscrowEvents.

Local Open Scope string_scope.
Local Open Scope Z_scope.

(** ** Kinds of requests *)

Definition is_eth (r : ChainReq) : bool :=
  match r with
  | EthSend _ _ _ _ _ | EthWait _ | EthView _ _ _ | EthBalance _ | EthFeeData
  | EthBlockNumber | EthQueryEscrows _ _ _ _ => true
  | _ => false
  end.

Definition is_aptos (r : ChainReq) : bool :=
  match r with
  | AptosView _ _ | AptosAccountInfo _ | AptosBuild _ _ _ | AptosSubmit _ | AptosWait _ _
  | AptosCoinAmount _ | AptosSubmitMultiAgent _ _ _ _ | AptosSubmitFeePayer _ _ _
  | AptosTxByHash _ | Sleep _ => true
  | _ => false
  end.

Definition is_http (r : ChainReq) : bool :=
  match r with
  | HttpGetFilled _ | HttpPostFill _ _ | HttpPatchFill _ _ _ _ | HttpGetPrices _ _
  | FetchAptBalance _ | FetchAptBalanceJson _ | FetchPrices _ _ | FetchPricesJson _ => true
  | _ => false
  end.

(** Every event of kind [p] is preceded by a history with [Q]. *)
Definition after (Q : list (Ev ChainI) -> Prop) (p : Ev ChainI -> bool) (h : list (Ev ChainI))
    : Prop :=
  forall h1 e h2, h = (h1 ++ e :: h2)%list -> p e = true -> Q h1.

(** [Q] persists as the history grows. *)
Definition grows (Q : list (Ev ChainI) -> Prop) : Prop := forall h l, Q h -> Q (h ++ l)%list.

Lemma after_nil Q p : after Q p [].
Proof. intros h1 e h2 Heq. by destruct h1. Qed.

Lemma after_snoc Q p h e : after Q p h -> p e = false -> after Q p (h ++ [e])%list.
Proof.
  intros Ha He h1 e' h2 Heq Hp.
  destruct h2 as [|x h2 _] using rev_ind.
  - apply app_inj_tail in Heq as [-> ->]. congruence.
  - rewrite app_comm_cons, app_assoc in Heq. apply app_inj_tail in Heq as [-> _]. by eapply Ha.
Qed.

Lemma after_app Q p h l : grows Q -> after Q p h -> Q h -> after Q p (h ++ l)%list.
Proof.
  intros Hg Ha HQ. induction l as [|e l IH] using rev_ind; [by rewrite app_nil_r|].
  rewrite app_assoc. intros h1 e' h2 Heq Hp.
  destruct h2 as [|x h2 _] using rev_ind.
  - apply app_inj_tail in Heq as [<- _]. by apply Hg.
  - rewrite app_comm_cons, app_assoc in Heq. apply app_inj_tail in Heq as [Heq _]. by eapply IH.
Qed.

(** ** Programs that only talk to one side *)

Section OneSide.
Context `{Ethers, AptosSdk, EthersBytes} {S : Type} (J : S -> list (Ev ChainI) -> Prop).

Definition closed_under (kind : ChainReq -> bool) : Prop :=
  forall (r : ChainReq) s h (x : result (chain_ans r)),
    kind r = true -> J s h -> J s (h ++ [Called (I := ChainI) r x])%list.

(** Discharge one request of kind [Hk]. *)
Local Ltac one_side Hk :=
  repeat first [ holds_step
               | progress unfold ethSend, ethWait, ethView, ethBalance, aptosView,
                   aptosAccountInfo, aptosBuild, aptosSubmit, aptosWait, aptosCoinAmount, sleep,
                   httpPatchFill
               | progress cbn beta iota ];
  try (intros; apply Hk; [reflexivity|assumption]).

Lemma holds_wait_loop n hash : closed_under is_aptos -> holds J (wait_loop n hash).
Proof.
  intros Hk. induction n as [|n IH]; cbn [wait_loop]; [apply holds_ret|].
  one_side Hk. exact IH.
Qed.

Lemma holds_attempt_loop ea aa n escrow secret :
  closed_under is_aptos -> holds J (attempt_loop ea aa n escrow secret).
Proof.
  intros Hk. induction n as [|n IH]; cbn [attempt_loop]; [apply holds_fail|].
  apply holds_try; [|intros e; one_side Hk; exact IH].
  unfold withdraw_attempt. one_side Hk. by apply holds_wait_loop.
Qed.

Lemma holds_withdrawAptos cc escrow secret :
  closed_under is_aptos -> holds J (withdrawAptosEscrow cc escrow secret).
Proof.
  intros Hk. unfold withdrawAptosEscrow, withdrawEscrow, view_exists. one_side Hk.
  by apply holds_attempt_loop.
Qed.

Lemma holds_checkAptos cc escrow :
  closed_under is_aptos -> holds J (checkAptosEscrow cc escrow).
Proof. intros Hk. unfold checkAptosEscrow, checkAptosEscrowExists, view_exists. one_side Hk. Qed.

Lemma holds_withdrawEthereum cc escrow secret :
  closed_under is_eth -> holds J (withdrawEthereumEscrow cc escrow secret).
Proof. intros Hk. unfold withdrawEthereumEscrow. one_side Hk. Qed.

Lemma holds_withdrawGasless cc escrow secret :
  closed_under is_eth -> holds J (withdrawGaslessEscrow cc escrow secret).
Proof. intros Hk. unfold withdrawGaslessEscrow. one_side Hk. Qed.

Lemma holds_reveal cc id escrow secret :
  closed_under is_eth -> holds J (sendCrossChainSecretReveal cc id escrow secret).
Proof. intros Hk. unfold sendCrossChainSecretReveal. one_side Hk. Qed.
End OneSide.

(** ** The source withdrawal is confirmed when it returns *)

Section Source.
Context `{Ethers, AptosSdk, EthersBytes} (cfg : RConfig).

(** A withdrawal of the escrow with the secret was sent on Ethereum and its
    receipt seen. *)
Definition eth_withdrawn (escrow : string) (secret : bytes) (h : list (Ev ChainI)) : Prop :=
  exists contract tx receipt,
    Called (I := ChainI)
      (EthSend contract "withdraw" [AString escrow; AString (hexlify secret)] 0 None) (Ok tx) ∈ h /\
    Called (I := ChainI) (EthWait tx) (Ok receipt) ∈ h.

(** A withdrawal of the escrow with the secret was seen executed on Aptos. *)
Definition aptos_withdrawn (escrow : string) (secret : bytes) (h : list (Ev ChainI)) : Prop :=
  exists escrowBytes hash,
    getBytes escrow = Ok escrowBytes /\
    executed_entry (aptosEscrowAddress (chainConfig cfg) ++ "::escrow_v3::withdraw")
      [ABytes escrowBytes; ABytes secret] hash h.

Lemma eth_withdrawn_grows escrow secret : grows (eth_withdrawn escrow secret).
Proof.
  intros h l (c & tx & r & H1' & H2'). exists c, tx, r. rewrite !elem_of_app. auto.
Qed.

Lemma aptos_withdrawn_grows escrow secret : grows (aptos_withdrawn escrow secret).
Proof.
  intros h l (b & hash & Hb & He). exists b, hash. split; [done|]. by apply executed_entry_grows.
Qed.

Lemma withdrawAptos_executed escrow secret (s : RState) h :
  wp (withdrawAptosEscrow (chainConfig cfg) escrow secret)
     (fun r _ h' => forall hash, r = Ok hash ->
        executed_entry (aptosEscrowAddress (chainConfig cfg) ++ "::escrow_v3::withdraw")
          [ABytes escrow; ABytes secret] hash h') s h.
Proof.
  unfold withdrawAptosEscrow, withdrawEscrow, rethrowing, view_exists.
  rewrite wp_try, wp_bind, wp_try. chain_call v e; [|done].
  destruct (denies v); [done|]. eapply wp_mono; [|apply attempt_loop_wp].
  intros [hash|e] s' h' (_ & _ & Hc); [|done]. intros hash' [= <-]. by apply Hc.
Qed.

Lemma withdraw_source_aptos (order : Order) source secret s h :
  fromChain order = APTOS ->
  wp (withdraw_source cfg order source secret)
     (fun r _ h' => forall hash, r = Ok hash -> aptos_withdrawn source secret h') s h.
Proof.
  intros Hc. unfold withdraw_source. rewrite Hc, wp_bind.
  destruct (startsWith source "0x"); [|done].
  rewrite wp_of_result. destruct (getBytes source) as [b|e] eqn:Hb; [|done]. rewrite wp_bind.
  unfold checkAptosEscrow, checkAptosEscrowExists, view_exists. rewrite wp_try.
  chain_call v e; [|done].
  destruct (match v with ViewArray _ => _ | ViewBool _ => _ end); [|done].
  eapply wp_mono; [|apply withdrawAptos_executed]. intros r s' h' Hx hash Hr. exists b, hash. auto.
Qed.

Lemma withdraw_source_ethereum (order : Order) source secret s h :
  fromChain order = ETHEREUM ->
  wp (withdraw_source cfg order source secret)
     (fun r _ h' => forall hash, r = Ok hash -> eth_withdrawn source secret h') s h.
Proof.
  intros Hc. unfold withdraw_source. rewrite Hc.
  destruct (is_gasless order).
  - unfold withdrawGaslessEscrow. destruct (present _) as [contract|]; [|done].
    chain_call tx e; [|done]. intros [hash|e]; chain_norm; [|done].
    intros _ _. exists contract, tx, hash. rewrite !elem_of_app. auto using list_elem_of_here.
  - unfold withdrawEthereumEscrow.
    chain_call tx e; [|done]. intros [hash|e]; chain_norm; [|done].
    intros _ _. eexists _, tx, hash. rewrite !elem_of_app. auto using list_elem_of_here.
Qed.
End Source.

(** ** Ordering of the two withdrawals *)

Section Ordering.
Context `{Ethers, AptosSdk, EthersBytes} (cfg : RConfig).

(** The shape of both directions: nothing of kind [p] before [Q], when the
    steps up to the source withdrawal are free of [p] and the withdrawal
    returns only after [Q]. *)
Lemma completeSwap_after (Q : list (Ev ChainI) -> Prop) (p : Ev ChainI -> bool)
    order fill secret source dest s :
  grows Q ->
  (forall r x, is_http r = true -> p (Called (I := ChainI) r x) = false) ->
  holds (fun (_ : RState) h => after Q p h) (withdraw_source cfg order source secret) ->
  (forall s h, wp (withdraw_source cfg order source secret)
     (fun r _ h' => forall hash, r = Ok hash -> Q h') s h) ->
  wp (completeSwap cfg order fill secret source dest) (fun _ _ h' => after Q p h') s [].
Proof.
  intros Hgrow Hhttp Hsrc Hconf. unfold completeSwap. rewrite wp_try.
  destruct (already_done fill); [apply after_nil|].
  rewrite wp_bind. unfold updateFillStatus at 1. chain_norm. intros [u|e]; chain_norm.
  2: { intros [u'|e']; chain_norm; apply (after_snoc Q p [_]), (Hhttp (HttpPatchFill _ _ _ _)), eq_refl;
         apply (after_snoc Q p []), (Hhttp (HttpPatchFill _ _ _ _)), eq_refl; apply after_nil. }
  set (h1 := [Called _ _]).
  assert (after Q p h1) as Hg1.
  { apply (after_snoc Q p []); [apply after_nil|by apply Hhttp]. }
  rewrite wp_bind. eapply wp_mono; [|apply wp_and; [apply Hsrc, Hg1|apply Hconf]].
  intros [tx|e] s' h' [Hg Hc]; cbn beta iota.
  - specialize (Hc tx eq_refl). eapply wp_mono; [|apply wp_extends].
    intros [[]|e] s'' h'' [l ->]; [by apply after_app|].
    chain_norm. intros [u'|e']; chain_norm; rewrite <- app_assoc; by apply after_app.
  - chain_norm. intros [u'|e']; chain_norm; (apply after_snoc; [done|by apply Hhttp]).
Qed.
End Ordering.

(** ** Properties *)

Section Properties.
Context `{Ethers, AptosSdk, EthersBytes} (cfg : RConfig).

(** C10. Order of the withdrawals, Ethereum to Aptos: whatever the nodes and
    the order engine answer, [completeSwap] submits nothing on Aptos (where
    the user is paid) before a withdrawal of this source escrow with this
    secret was sent on Ethereum and its receipt seen. *)
Theorem aptos_paid_after_ethereum (order : Order) (fill : RFill) (secret : bytes)
    (source dest : string) (s : RState) (Hfrom : fromChain order = ETHEREUM) :
  wp (completeSwap cfg order fill secret source dest)
     (fun _ _ h' => after (eth_withdrawn source secret) is_submit h') s [].
Proof.
  apply completeSwap_after.
  - apply eth_withdrawn_grows.
  - intros r x Hr. by destruct r.
  - unfold withdraw_source. rewrite Hfrom.
    assert (closed_under (fun (_ : RState) h => after (eth_withdrawn source secret) is_submit h)
              is_eth).
    { intros r s' h x Hr Hg. apply after_snoc; [done|]. by destruct r. }
    destruct (is_gasless order); [by apply holds_withdrawGasless|by apply holds_withdrawEthereum].
  - intros s' h. by apply withdraw_source_ethereum.
Qed.

(** C11. Order of the withdrawals, Aptos to Ethereum: no Ethereum transaction
    is sent before a withdrawal of this source escrow with this secret was
    submitted on Aptos and seen executed with success. *)
Theorem ethereum_paid_after_aptos (order : Order) (fill : RFill) (secret : bytes)
    (source dest : string) (s : RState) (Hfrom : fromChain order = APTOS) :
  wp (completeSwap cfg order fill secret source dest)
     (fun _ _ h' => after (aptos_withdrawn cfg source secret) is_send h') s [].
Proof.
  apply completeSwap_after.
  - apply aptos_withdrawn_grows.
  - intros r x Hr. by destruct r.
  - unfold withdraw_source. rewrite Hfrom.
    assert (closed_under (fun (_ : RState) h => after (aptos_withdrawn cfg source secret) is_send h)
              is_aptos).
    { intros r s' h x Hr Hg. apply after_snoc; [done|]. by destruct r. }
    repeat holds_step; [by apply holds_checkAptos|by apply holds_withdrawAptos].
  - intros s' h. by apply withdraw_source_aptos.
Qed.

(** A wrong partial secret has no effect: when the revealed secret is not
    the one the order lists for its index (or the order or its secrets are
    unknown), the listener returns without a request, a message or a change
    of state. *)
Theorem wrong_partial_secret_ignored (data : Reveal) (i : number) (s : RState)
    (h : list (Ev ChainI))
    (Hpart : rv_isPartialFill data = true) (Hi : rv_secretIndex data = Some i)
    (Hwrong : forall order, JsMap.get (rv_orderId data) (activeOrders s) = Some order ->
                expected_secret order i <> Some (rv_secret data)) :
  wp (on_secret_reveal cfg data) (fun r s' h' => r = Ok tt /\ s' = s /\ h' = h) s h.
Proof.
  unfold on_secret_reveal, reveal_partial. rewrite Hpart, Hi. chain_norm.
  destruct (JsMap.get _ _) as [order|] eqn:E; [|done].
  by rewrite bool_decide_eq_false_2 by (by apply Hwrong).
Qed.

(** A full reveal is checked against the message only: when the secret
    hashes to the hash that the same message carries, the pending swap is
    completed with it, whatever secret hash the order was signed with. *)
Theorem full_reveal_trusts_message (O : Oracle ChainI) (data : Reveal) (s : RState)
    (h : list (Ev ChainI)) (p : Pending) (secret : bytes)
    (Hfull : rv_isPartialFill data = false)
    (Hp : JsMap.get (rv_orderId data) (pendingSecretReveals s) = Some p)
    (Hb : getBytes (rv_secret data) = Ok secret)
    (Hhash : rv_secretHash data = Some (keccak256 secret)) :
  run O (on_secret_reveal cfg data) s h =
  run O (pbind (completeSwap cfg (pending_order p) (pending_fill p) secret (pending_source p)
                  (pending_destination p))
           (fun _ => modify (set_pending (JsMap.remove (rv_orderId data))))) s h.
Proof.
  unfold on_secret_reveal. rewrite Hfull. unfold reveal_full. cbn [pbind get run].
  rewrite Hp, Hb. cbn [of_result pbind]. by rewrite bool_decide_eq_true_2 by done.
Qed.
End Properties.

(** ** Witnesses *)

Definition sample_rconfig : RConfig := {|
  identity := resolver_1; ethereumAddress := "0xres"; aptosAddress := "0xapt";
  wethAddress := "0xweth"; portEnv := None; apiKey := None;
  permitContract := "0xpermit"; escrowModule := "0xmod"; chainConfig := sample_config
|}.

Definition full_order : Order := {|
  order_dto := {|
    fromChain := ETHEREUM; toChain := APTOS; fromToken := "0xtok"; toToken := "apt";
    fromAmount := "1000"; minToAmount := "900"; maker := "0xm"; receiver := "0xr";
    signature := "0x00"; deadline := of_Z 2000000000; nonce := "1";
    partialFillAllowed := false; partialFillEnabled := false; secretHash := Some "0xhash";
    secretHashes := None; partialFillSecrets := None; maxParts := None;
    activeResolvers := None; dutchAuction := None; permit := None; permitSignature := None;
    gasless := None; gaslessData := None |};
  id := "o1"; status := PENDING; filledAmount := "0"; filledPercentage := of_Z 0;
  createdAt := 0; updatedAt := 0; fills := []
|}.

Definition sample_fill : RFill := {|
  f_id := "f1"; f_orderId := "o1"; f_resolver := "0xres"; f_amount := "900";
  f_secretHash := Some "0xhash"; f_secretIndex := of_Z 0; f_status := "PENDING";
  f_fillPercentage := None; f_cumulativePercentage := None; f_cumulativeFillPercentage := None;
  f_merkleIndex := None; f_actualEscrowId := None; f_baseOrderId := None; f_fillIndex := None;
  f_destinationEscrowId := Some "0xdst"; f_sourceEscrowId := None
|}.

Definition apt_order : Order := {|
  order_dto := {|
    fromChain := APTOS; toChain := ETHEREUM; fromToken := "apt"; toToken := "0xtok";
    fromAmount := "1000"; minToAmount := "900"; maker := "0xm"; receiver := "0xr";
    signature := "0x00"; deadline := of_Z 2000000000; nonce := "1";
    partialFillAllowed := true; partialFillEnabled := true; secretHash := Some "0xhash";
    secretHashes := None;
    partialFillSecrets := Some {| pfs_merkleRoot := "0xroot"; pfs_secrets := ["0xs0"; "0xs1"];
                                  pfs_merkleProofs := []; pfs_fillThresholds := [] |};
    maxParts := None; activeResolvers := None; dutchAuction := None; permit := None;
    permitSignature := None; gasless := None; gaslessData := None |};
  id := "o2"; status := PENDING; filledAmount := "0"; filledPercentage := of_Z 0;
  createdAt := 0; updatedAt := 0; fills := []
|}.

#[local] Existing Instance range_sdk.
#[local] Existing Instance hex_bytes.

Lemma aptos_paid_after_ethereum_witness :
  wp (completeSwap sample_rconfig full_order sample_fill "0x5ec" "0xsrc" "0xdst")
     (fun _ _ h' => after (eth_withdrawn "0xsrc" "0x5ec") is_submit h') initial_state [].
Proof.
  apply (aptos_paid_after_ethereum sample_rconfig full_order sample_fill "0x5ec" "0xsrc" "0xdst").
  reflexivity.
Defined.

Lemma ethereum_paid_after_aptos_witness :
  wp (completeSwap sample_rconfig apt_order sample_fill "0x5ec" "0xsrc" "0xdst")
     (fun _ _ h' => after (aptos_withdrawn sample_rconfig "0xsrc" "0x5ec") is_send h')
     initial_state [].
Proof.
  apply (ethereum_paid_after_aptos sample_rconfig apt_order sample_fill "0x5ec" "0xsrc" "0xdst").
  reflexivity.
Defined.

Definition wrong_reveal : Reveal := {|
  rv_orderId := "o2"; rv_secret := "0xs1"; rv_secretHash := None; rv_isPartialFill := true;
  rv_secretIndex := Some (Finite 0); rv_fillPercentage := None
|}.

Definition apt_state : RState := {|
  isProcessing := []; activeOrders := [("o2", apt_order)]; monitoringFills := [];
  fillSecrets := []; processedEvents := []; pendingSecretReveals := [];
  priceCache := []; lastEth := None; lastWeth := None
|}.

Lemma wrong_partial_secret_ignored_witness :
  wp (on_secret_reveal sample_rconfig wrong_reveal)
     (fun r s' h' => r = Ok tt /\ s' = apt_state /\ h' = []) apt_state [].
Proof.
  apply (wrong_partial_secret_ignored sample_rconfig wrong_reveal (Finite 0) apt_state []);
    [reflexivity|reflexivity|].
  intros order Ho. injection Ho as <-. vm_compute. discriminate.
Defined.

Definition self_hashed_reveal : Reveal := {|
  rv_orderId := "o1"; rv_secret := "0xother"; rv_secretHash := Some "K(0xother)";
  rv_isPartialFill := false; rv_secretIndex := None; rv_fillPercentage := None
|}.

Definition sample_pending : Pending := {|
  pending_order := full_order; pending_fill := sample_fill; pending_source := "0xsrc";
  pending_destination := "0xdst"
|}.

Definition pending_state : RState := {|
  isProcessing := []; activeOrders := []; monitoringFills := []; fillSecrets := [];
  processedEvents := []; pendingSecretReveals := [("o1", sample_pending)];
  priceCache := []; lastEth := None; lastWeth := None
|}.

Definition all_down : Oracle ChainI := {|
  answer := fun (_ : list (Ev ChainI)) (r : ChainReq) => Throw (Error "down");
  clock := fun _ => 0
|}.

Lemma full_reveal_trusts_message_witness :
  run all_down (on_secret_reveal sample_rconfig self_hashed_reveal) pending_state [] =
  run all_down (pbind (completeSwap sample_rconfig full_order sample_fill "0xother" "0xsrc" "0xdst")
           (fun _ => modify (set_pending (JsMap.remove "o1")))) pending_state [].
Proof.
  apply (full_reveal_trusts_message sample_rconfig all_down self_hashed_reveal pending_state []
           sample_pending "0xother"); reflexivity.
Defined.
