(* ===== verification/IntakeSafety.v ===== *)
(** * Guarantees of the order intake

    What [handleNewOrder] and [createDestinationEscrow] ensure for every answer
    of the nodes, the price server and the order engine: an escrow is announced
    only when it is locked, the lock on an order, and the orders the resolver
    cannot finish. *)

From Stdlib Require Import ZArith Lia Ascii.
From stdpp Require Import base numbers list strings.
From S2P Require Import Prelude.
From S2P Require Import JsNumber.
From S2P Require Import JsString.
From S2P Require Import JsFormat.
From S2P Require Import JsMap.
From S2P Require Import PartialFill.
From S2P Require Import OrderTypes.
From S2P Require Import Async.
From S2P Require Import Chain.
From S2P Require Import AptosChain.
From S2P Require Import TokenServices.
From S2P Require Import ChainService.
From S2P Require Import PriceService.
From S2P Require Import Resolver.
From S2P Require Import Swap.
From S2P Require Import EscrowEvents.
From S2P Require Import OrderIntake.
From S2P Require Import SwapSafety.

Local Open Scope string_scope.
Local Open Scope Z_scope.
Local Open Scope list_scope.

(** ** Announcements of a destination escrow *)

Definition ANNOUNCED : string := "escrow:destination:created".

(** Every message [name] is preceded by a history that justifies it. *)
Definition said_after (name : string) (Q : list (string * Json) -> list (Ev ChainI) -> Prop)
    (h : list (Ev ChainI)) : Prop :=
  forall h1 d h2, h = h1 ++ Told (I := ChainI) (Emit (msg name d)) :: h2 -> Q d h1.

Abbreviation announces := (said_after ANNOUNCED).

Lemma announces_nil name Q : said_after name Q [].
Proof. intros h1 d h2 Heq. by destruct h1. Qed.

Lemma announces_snoc name Q h e :
  said_after name Q h -> (forall d, e = Told (I := ChainI) (Emit (msg name d)) -> Q d h) ->
  said_after name Q (h ++ [e]).
Proof.
  intros Ha He h1 d h2 Heq. destruct h2 as [|x h2 _] using rev_ind.
  - apply app_inj_tail in Heq as [-> ->]. by apply He.
  - rewrite app_comm_cons, app_assoc in Heq. apply app_inj_tail in Heq as [-> _]. by eapply Ha.
Qed.

Lemma announces_call name Q (r : ChainReq) (x : result (chain_ans r)) h :
  said_after name Q h -> said_after name Q (h ++ [Called (I := ChainI) r x]).
Proof. intros Ha. by apply announces_snoc. Qed.

Lemma announces_other name Q name' d h :
  name' <> name -> said_after name Q h ->
  said_after name Q (h ++ [Told (I := ChainI) (Emit (msg name' d))]).
Proof. intros Hn Ha. apply announces_snoc; [done|]. intros d' [= -> _]. done. Qed.

Section Announced.
Context `{Ethers, AptosSdk, EthersBytes, SignatureParts, EthersUnits} (cfg : RConfig).

Section Keeps.
Context (Q : list (string * Json) -> list (Ev ChainI) -> Prop).
Local Abbreviation J := (fun (_ : RState) h => announces Q h).


(** Programs that announce no destination escrow. *)
Local Ltac keeps :=
  repeat first
    [ holds_step
    | progress unfold ethSend, ethWait, ethView, ethBalance, ethFeeData, aptosView, aptosBuild,
        aptosSubmit, aptosWait, aptosCoinAmount, httpGetFilled, httpPostFill, httpPatchFill,
        httpGetPrices, fetchAptBalance, fetchAptBalanceJson, sleep, socketEmit, u64_string,
        u64_number, submit_entry, createEscrow, createAptosEscrow, send_guarded_erc20,
        createEthereumEscrow, createEthereumEscrowFor, getEthereumBalance, formatEther,
        WETHService.getAllowance, PermitService.executePermitTransfer, updateFillStatus,
        request_secret, executeGaslessWETHEscrow, cached_rate, remember, fetchCrossChainRate,
        rate_with, getExchangeRate, ensure_allowance, secret_hash_of, createFill, attempt,
        lock_destination, source_transfer, createSourceEscrowForAPT, create_source,
        destination_failed
    | progress cbn beta iota zeta ];
  try (intros; by apply announces_call);
  try (intros; by apply announces_other);
  try (intros; assumption).

Lemma ensure_allowance_keeps order : holds J (ensure_allowance cfg order).
Proof. keeps. Qed.

Lemma getExchangeRate_keeps key fromToken toToken : holds J (getExchangeRate key fromToken toToken).
Proof. keeps. Qed.

Lemma secret_hash_keeps order : holds J (secret_hash_of order).
Proof. keeps. Qed.

Lemma createFill_keeps order amount sh : holds J (attempt (createFill cfg order amount sh)).
Proof. keeps. Qed.

Lemma lock_destination_keeps order amount sh tl : holds J (lock_destination cfg order amount sh tl).
Proof. keeps. Qed.




End Keeps.







End Announced.

(** ** Orders that cannot be finished *)

Section Unfinished.
Context `{Ethers, AptosSdk, EthersBytes, SignatureParts, EthersUnits} (cfg : RConfig).

(** No destination escrow was announced. *)
Abbreviation silent := (announces (fun _ _ => False)).

(** The engine was told that a fill of the order failed. *)
Definition told_failed (order : Order) (h : list (Ev ChainI)) : Prop :=
  exists fill x, Called (I := ChainI) (HttpPatchFill (id order) fill "FAILED" []) x ∈ h.

(** A failed attempt: thrown, and an announced escrow is followed by FAILED. *)
Definition failed_attempt (order : Order) {A} (r : result A) (h : list (Ev ChainI)) : Prop :=
  (exists e, r = Throw e) /\ (silent h \/ told_failed order h).

Lemma destination_failed_tells order fill e s h :
  wp (destination_failed order (Some fill) e)
     (fun r _ h' => (exists e', r = Throw e') /\ told_failed order h') s h.
Proof.
  unfold destination_failed, updateFillStatus. chain_norm.
  intros [u|e']; chain_norm; (split; [eauto|]); exists (f_id fill); eexists;
    rewrite elem_of_app; right; apply list_elem_of_here.
Qed.

Lemma destination_failed_silent order e s h :
  silent h -> wp (destination_failed order None e) (fun r _ h' => failed_attempt order r h') s h.
Proof.
  intros Hs. unfold destination_failed. chain_norm. split; [eauto|]. left.
  by apply announces_other.
Qed.

Lemma weth_steps_throw order fill amount sh s h :
  isWETHOrder cfg order = true -> is_gasless order = false ->
  wp (destination_steps cfg order (Some fill) amount sh) (fun r _ _ => exists e, r = Throw e) s h.
Proof.
  intros Hw Hg. unfold destination_steps. cbn [wp pbind now]. intros t. cbn zeta.
  rewrite wp_bind. eapply wp_mono; [|apply wp_extends]. intros [tx|e] s1 h1 _; [|by eauto].
  rewrite wp_bind, wp_of_result, wp_bind. eapply wp_mono; [|apply wp_extends].
  intros [u|e] s2 h2 _; [|by eauto]. cbn [wp pbind modify].
  unfold announce_destination, socketEmit, source_transfer. cbn [wp pbind tell].
  rewrite wp_bind.
  assert (isAPTOrder order = false) as ->.
  { unfold isWETHOrder, isAPTOrder in *. apply andb_true_iff in Hw as [Hc%bool_decide_eq_true _].
    by rewrite Hc. }
  rewrite Hw, Hg. cbn [wp]. eauto.
Qed.

Lemma no_fill_steps order amount sh s h :
  silent h ->
  wp (destination_steps cfg order None amount sh)
     (fun r _ h' => (exists e, r = Throw e) /\ silent h') s h.
Proof.
  intros Hs. unfold destination_steps. cbn [wp pbind now]. intros t. cbn zeta.
  rewrite wp_bind. eapply wp_mono; [|apply (lock_destination_keeps cfg (fun _ _ => False)), Hs].
  intros [tx|e] s1 h1 Hs1; [|by eauto]. rewrite wp_bind, wp_of_result. eauto.
Qed.

(** A WETH order without the data of a gasless transaction is never
    finished: for every answer of the outside, [createDestinationEscrow]
    throws; but it refuses the order only after the destination escrow was
    locked and announced, and then tells the engine that the fill failed. *)
Theorem weth_requires_gasless (order : Order) (s : RState) :
  isWETHOrder cfg order = true -> is_gasless order = false ->
  wp (createDestinationEscrow cfg order) (fun r _ h' => failed_attempt order r h') s [].
Proof.
  intros Hw Hg. unfold createDestinationEscrow, failed_attempt. rewrite wp_bind.
  eapply wp_mono; [|apply (ensure_allowance_keeps cfg (fun _ _ => False)), announces_nil].
  intros [[]|e] s1 h1 H1'; [|by eauto]. rewrite wp_bind.
  eapply wp_mono; [|apply (getExchangeRate_keeps (fun _ _ => False)), H1'].
  intros [r|e] s2 h2 H2'; [|by eauto]. rewrite wp_bind, wp_of_result.
  destruct (amount_text _ _) as [txt|e]; [|by eauto]. cbn zeta. rewrite wp_bind, wp_of_result.
  destruct (output_units _ _) as [amount|e]; [|by eauto]. rewrite wp_bind.
  eapply wp_mono; [|apply (secret_hash_keeps (fun _ _ => False)), H2'].
  intros [sh|e] s3 h3 H3'; [|by eauto]. rewrite wp_bind.
  eapply wp_mono; [|apply (createFill_keeps cfg (fun _ _ => False)), H3'].
  intros [[created|e]|e] s4 h4 H4'; [|by apply destination_failed_silent|by eauto].
  rewrite wp_try. destruct created as [fill|].
  - eapply wp_mono; [|by apply weth_steps_throw]. intros [u|e] s5 h5 [e' He]; [done|].
    eapply wp_mono; [|apply destination_failed_tells]. intros r' s6 h6 [Ht Hf]. auto.
  - eapply wp_mono; [|by apply no_fill_steps]. intros [u|e] s5 h5 [[e' He] Hs]; [done|].
    by apply destination_failed_silent.
Qed.
End Unfinished.

(** ** The lock on an order *)

Section Lock.
Context `{Ethers, AptosSdk, EthersBytes, SignatureParts, EthersUnits} (cfg : RConfig).

Definition marked (x : string) (s : RState) : Prop := x ∈ isProcessing s.

Local Ltac stable_intake :=
  repeat first
    [ stable_step
    | progress unfold ethSend, ethWait, ethView, ethBalance, ethFeeData, aptosView, aptosBuild,
        aptosSubmit, aptosWait, aptosCoinAmount, httpGetFilled, httpPostFill, httpPatchFill,
        httpGetPrices, fetchAptBalance, fetchAptBalanceJson, sleep, socketEmit, u64_string,
        u64_number, submit_entry, createEscrow, createAptosEscrow, send_guarded_erc20,
        createEthereumEscrow, createEthereumEscrowFor, getEthereumBalance, formatEther,
        WETHService.getAllowance, PermitService.executePermitTransfer, updateFillStatus,
        request_secret, executeGaslessWETHEscrow, cached_rate, remember, fetchCrossChainRate,
        rate_with, getExchangeRate, ensure_allowance, secret_hash_of, createFill, attempt,
        lock_destination, source_transfer, createSourceEscrowForAPT, create_source,
        destination_failed, destination_steps, announce_destination, createDestinationEscrow,
        trackBalanceChange, checkProfitability, checkBalance, whole_order, explain_error
    | progress cbn beta iota zeta ];
  try (intros; assumption).

Lemma whole_order_marked x order :
  stable (marked x) (try_catch (whole_order cfg order) (explain_error cfg order)).
Proof. stable_intake. Qed.

(** Whole orders are taken one at a time: from the moment [handleNewOrder]
    takes such an order until it is done, the order is marked at every await,
    whatever other handlers do that keeps the mark, so that another message for
    the same order is ignored; and however the attempt ends, no error escapes
    and the mark is gone. *)
Theorem whole_order_lock (order : Order) (s : RState) :
  takes_partial_path order = false -> ~ marked (id order) s ->
  guards (marked (id order)) (handleNewOrder cfg order)
    (fun r s' => r = Ok tt /\ ~ marked (id order) s') s /\
  forall (O : Oracle ChainI) (order' : Order) s' h,
    id order' = id order -> marked (id order) s' ->
    run O (handleNewOrder cfg order') s' h = (Ok tt, s', h).
Proof.
  intros Hp Hm. unfold marked in *. split.
  - unfold handleNewOrder. cbn [guards get pbind modify].
    rewrite (proj2 (JsSet.set_has_false _ _)) by done. cbn [guards pbind modify]. rewrite Hp.
    apply guards_bind. eapply guards_mono; [|apply guards_no_throw].
    + intros r s' [[[] ->] Hs']. cbn. split; [done|]. rewrite JsSet.elem_set_remove. tauto.
    + apply (whole_order_marked (id order)).
    + apply no_throw_try. intros e. unfold explain_error. case_match; [|done].
      by apply no_throw_try.
    + unfold marked. cbn. apply JsSet.elem_add. auto.
  - intros O order' s' h Hid Hs'. unfold handleNewOrder. cbn [run get pbind].
    rewrite Hid. by rewrite (proj2 (JsSet.set_has_spec _ _)).
Qed.

Lemma partial_first_call order : exists r k, handlePartialFillOrder cfg order = Call r k.
Proof.
  unfold handlePartialFillOrder, calculateOptimalFillPercentage, getDestinationBalance.
  destruct (toChain order); [unfold getEthereumBalance, present|]; repeat case_match;
    eexists _, _; reflexivity.
Qed.

(** Orders that may be filled in parts are not taken one at a time: when
    [handleNewOrder] reaches its first await for such an order, the mark is
    already gone, and a second message for the order at that moment starts a
    second fill, which asks the node the same question again. *)
Theorem partial_lock_released (order : Order) (s : RState) (h : list (Ev ChainI)) (t : Z) :
  takes_partial_path order = true -> ~ marked (id order) s ->
  exists r k s',
    advance t (handleNewOrder cfg order) s h = (Call r k, s', h) /\
    isProcessing s' = isProcessing s /\
    exists s'', advance t (handleNewOrder cfg order) s' h = (Call r k, s'', h).
Proof.
  intros Hp Hm. unfold marked in *. destruct (partial_first_call order) as (r & k & Hc).
  assert (forall s1, isProcessing s1 = isProcessing s -> exists s2,
    advance t (handleNewOrder cfg order) s1 h = (Call r k, s2, h) /\
    isProcessing s2 = isProcessing s) as Hstart.
  { intros s1 Hs1. eexists. unfold handleNewOrder. cbn [advance get pbind modify].
    rewrite Hs1, (proj2 (JsSet.set_has_false _ _)) by done. cbn [advance pbind modify].
    rewrite Hp, Hc. split; [reflexivity|]. cbn. rewrite Hs1. by apply JsSet.remove_add. }
  destruct (Hstart s eq_refl) as (s1 & H1' & Hi). destruct (Hstart s1 Hi) as (s2 & H2' & _).
  exists r, k, s1. eauto.
Qed.
End Lock.

(** ** The amount in the units of a chain *)

Lemma fixed_digits_toFixed (m f : Z) :
  0 <= m < 10 ^ 21 * scale ->
  toFixed (Finite m) f = fixed_digits ((2 * m * 10 ^ f + scale) / (2 * scale)) f.
Proof.
  intros Hm. unfold toFixed. rewrite Z.abs_eq by lia.
  by rewrite (proj2 (Z.leb_gt _ _)), (proj2 (Z.ltb_ge m 0)) by lia.
Qed.

(** The amount the resolver locks is the offered amount in the units of
    the destination chain. On Ethereum it is the nearest whole number of wei,
    within half a wei; on Aptos it is the offered number times [10^8], rounded
    down, printed so that the Aptos service reads exactly that number back. *)
Theorem offered_amount_units `{EthersUnitsLaws} (outputAmount : string) (m a : Z) :
  parseFloat outputAmount = Finite m -> 0 <= m < 10 ^ 21 * scale ->
  mul (Finite m) (of_Z 100000000) = Finite a -> a < 10 ^ 21 * scale ->
  (exists z, output_units ETHEREUM outputAmount = Ok (toString z) /\ 0 <= z /\
     2 * Z.abs (z * scale - m * 10 ^ 18) <= scale) /\
  (exists text z, output_units APTOS outputAmount = Ok text /\ BigInt text = Ok z /\ 0 <= z /\
     of_Z z = floor (mul (Finite m) (of_Z 100000000))).
Proof.
  intros Hp Hm Ha Hlt. pose proof scale_pos as Hs. unfold output_units. rewrite Hp. split.
  - rewrite fixed_digits_toFixed by lia.
    set (z := (2 * m * 10 ^ 18 + scale) / (2 * scale)).
    assert (0 <= z) as Hz by (apply Z.div_pos; lia).
    exists z. rewrite parseEther_fixed by done. split_and!; [done|done|].
    pose proof (Z.mul_div_le (2 * m * 10 ^ 18 + scale) (2 * scale) ltac:(lia)) as H1'.
    pose proof (Z.mul_succ_div_gt (2 * m * 10 ^ 18 + scale) (2 * scale) ltac:(lia)) as H2'.
    fold z in H1', H2'. lia.
  - assert (0 <= a) as Ha0.
    { assert (leb (Finite 0) (mul (Finite m) (of_Z 100000000)) = true) as Hle.
      { apply mul_nonneg; [apply Z.leb_le; lia|vm_compute; reflexivity|done|vm_compute; reflexivity]. }
      rewrite Ha in Hle. by apply Z.leb_le in Hle. }
    pose proof (wf_mul (Finite m) (of_Z 100000000)) as Hw. rewrite Ha in *.
    pose proof (is_double_floor a Ha0 Hw) as Hwf. cbn [floor].
    destruct (whole_toString (a / scale)) as (z & Hz & Hb & Ho); [|exact Hwf|].
    + split; [by apply Z.div_pos|]. apply Z.div_lt_upper_bound; lia.
    + eexists _, z. by split_and!.
Qed.

(** ** Witnesses *)

(** Plain decimal units. *)
Definition parse_units (s : string) : result Z :=
  let (whole, r) := span_digits s in
  match r with
  | EmptyString => Ok (digits_value whole * 10 ^ 18)
  | String "." frac =>
      if all_chars is_digit frac && (str_length frac <=? 18)
      then Ok (digits_value (whole +:+ frac) * 10 ^ (18 - str_length frac))
      else Throw (TypeError "too many decimals for format")
  | _ => Throw (TypeError "invalid FixedNumber string value")
  end.

#[local] Instance plain_units : EthersUnits := {
  formatEther18 := fun z => fixed_digits z 18;
  parseEther := parse_units;
  randomBytes := fun t => "0xrandom" +:+ toString t
}.

#[local] Instance plain_units_laws : EthersUnitsLaws.
Proof.
  split. intros z Hz. cbn [parseEther plain_units]. unfold parse_units, fixed_digits.
  set (ds := zeros _ +:+ toString z). change (18 =? 0) with false. cbn iota.
  pose proof (toString_digits z Hz) as Hd.
  assert (all_chars is_digit ds = true) as Hds by (unfold ds; by rewrite all_chars_app, zeros_digits).
  assert (digits_value ds = z) as Hv.
  { unfold ds. rewrite digits_value_app, zeros_value, digits_value_toString by
      (done || apply zeros_digits). lia. }
  assert (19 <= str_length ds) as Hk.
  { unfold ds. rewrite str_length_app, zeros_length. pose proof (str_length_nonneg (toString z)). lia. }
  set (n := Z.to_nat (str_length ds - 18)).
  assert (n <= String.length ds)%nat as Hn by (unfold n, str_length in *; lia).
  replace (Z.to_nat 18) with (String.length ds - n)%nat by (unfold n, str_length in *; lia).
  pose proof (substring_split n ds Hn) as Hsp. pose proof (substring_length n ds Hn) as Hl.
  set (w := String.substring 0 n ds) in *. set (f := String.substring n _ ds) in *.
  rewrite <- Hsp, all_chars_app, andb_true_iff in Hds. destruct Hds as [Hw Hf].
  rewrite (span_digits_app w ("." +:+ f)) by done. change ("." +:+ f) with (String "." f). cbn iota.
  pose proof (str_length_app w f) as Hlen. rewrite Hsp in Hlen.
  assert (str_length f = 18) as -> by (unfold n, str_length in *; lia).
  rewrite Hf, Hsp, Hv. cbn. f_equal. lia.
Qed.

#[local] Instance no_signatures : SignatureParts := {
  signature_from := fun _ => Throw (TypeError "invalid raw signature length")
}.

(** [ethers.id] and [keccak256] give hex strings. *)
#[local] Instance hex_ethers : Ethers := {
  keccak256 := fun s => "0xK" +:+ s;
  concat := fun l => foldr (fun a b => a +:+ b) "" l;
  PartialFill.id := fun s => "0xI" +:+ s;
  getBigInt := BigInt
}.

#[local] Existing Instance range_sdk.
#[local] Existing Instance hex_bytes.

Definition weth_order (gasless : option bool) : Order := {|
  order_dto := {|
    fromChain := ETHEREUM; toChain := APTOS; fromToken := "0xWETH"; toToken := APTOS_COIN;
    fromAmount := "1000000000000000000"; minToAmount := "40000000000"; maker := "0xm";
    receiver := "0xr"; signature := "0x00"; deadline := of_Z 2000000000; nonce := "1";
    partialFillAllowed := false; partialFillEnabled := false; secretHash := Some "0xhash";
    secretHashes := None; partialFillSecrets := None; maxParts := None;
    activeResolvers := None; dutchAuction := None; permit := None; permitSignature := None;
    gasless := gasless; gaslessData := None |};
  id := "o1"; status := PENDING; filledAmount := "0"; filledPercentage := of_Z 0;
  createdAt := 0; updatedAt := 0; fills := []
|}.

(** Everything answers; the price server quotes 4000 and 8 dollars. *)
Definition all_up : Oracle ChainI := {|
  answer := fun (_ : list (Ev ChainI)) (r : ChainReq) =>
    match r as r0 return result (chain_ans r0) with
    | AptosBuild fn args seq =>
        Ok {| tx_function := fn; tx_arguments := args; tx_sequence := seq |}
    | AptosSubmit _ => Ok "0xsubmitted"
    | AptosWait hash _ => Ok {| success := true; vm_status := ""; executed_hash := hash |}
    | HttpPostFill _ _ => Ok (Some sample_fill)
    | HttpPatchFill _ _ _ _ => Ok tt
    | HttpGetPrices _ _ => Ok sample_prices
    | EthSend _ _ _ _ _ => Ok "0xtx"
    | EthWait hash => Ok hash
    | Sleep _ => Ok tt
    | _ => Throw (Error "down")
    end;
  clock := fun _ => 0
|}.

Definition announced_fields (h : list (Ev ChainI)) : list (list (string * Json)) :=
  omap (fun e : Ev ChainI => match e with
        | Told (Emit m) => if String.eqb (event m) ANNOUNCED then Some (data m) else None
        | _ => None
        end) h.

(** With everything up, the refused order's escrow is locked and announced. *)
Lemma weth_requires_gasless_witness :
  wp (createDestinationEscrow sample_rconfig (weth_order None))
     (fun r _ h' => failed_attempt (weth_order None) r h') initial_state [] /\
  length (announced_fields
    (run all_up (createDestinationEscrow sample_rconfig (weth_order None)) initial_state []).2) = 1%nat.
Proof.
  split; [|vm_compute; reflexivity].
  apply (weth_requires_gasless sample_rconfig (weth_order None) initial_state); reflexivity.
Defined.

Lemma whole_order_lock_witness :
  guards (marked "o1") (handleNewOrder sample_rconfig (weth_order None))
    (fun r s' => r = Ok tt /\ ~ marked "o1" s') initial_state /\
  forall (O : Oracle ChainI) (order' : Order) s' h,
    id order' = "o1" -> marked "o1" s' ->
    run O (handleNewOrder sample_rconfig order') s' h = (Ok tt, s', h).
Proof.
  apply (whole_order_lock sample_rconfig (weth_order None) initial_state); [reflexivity|].
  apply not_elem_of_nil.
Defined.

Lemma partial_lock_released_witness :
  exists r k s',
    advance 5 (handleNewOrder sample_rconfig apt_order) initial_state [] = (Call r k, s', []) /\
    isProcessing s' = [] /\
    exists s'', advance 5 (handleNewOrder sample_rconfig apt_order) s' [] = (Call r k, s'', []).
Proof.
  apply (partial_lock_released sample_rconfig apt_order initial_state [] 5); [reflexivity|].
  apply not_elem_of_nil.
Defined.

Lemma offered_amount_units_witness :
  let m := 123 * scale in
  (exists z, output_units ETHEREUM "123" = Ok (toString z) /\ 0 <= z /\
     2 * Z.abs (z * scale - m * 10 ^ 18) <= scale) /\
  (exists text z, output_units APTOS "123" = Ok text /\ BigInt text = Ok z /\ 0 <= z /\
     of_Z z = floor (mul (Finite m) (of_Z 100000000))).
Proof.
  apply (offered_amount_units "123" (123 * scale) (12300000000 * scale)).
  - vm_compute. reflexivity.
  - pose proof scale_pos. lia.
  - vm_compute. reflexivity.
  - pose proof scale_pos. lia.
Defined.
