(* ===== verification/SignedSafety.v ===== *)
(** * Guarantees of the signed-order handlers

    A source escrow on Aptos is announced only when its transaction is
    confirmed, for the handlers that submit one; the sponsored handler that
    submits none; and the destination that a multi-agent order never gets. *)

From Stdlib Require Import ZArith Lia.
From stdpp Require Import base numbers list strings.
From S2P Require Import Prelude.
From S2P Require Import JsNumber.
From S2P Require Import JsString.
From S2P Require Import JsFormat.
From S2P Require Import JsMap.
From S2P Require Import PartialFill.
From S2P Require Import OrderTypes.
From S2P Require Import Async.
From S2P Require Import Chain.
From S2P Require Import AptosChain.
From S2P Require Import TokenServices.
From S2P Require Import ChainService.
From S2P Require Import PriceService.
From S2P Require Import Resolver.
From S2P Require Import Swap.
From S2P Require Import EscrowEvents.
From S2P Require Import OrderIntake.
From S2P Require Import SignedOrders.
From S2P Require Import SwapSafety.
From S2P Require Import IntakeSafety.

Local Open Scope string_scope.
Local Open Scope Z_scope.
Local Open Scope list_scope.

Definition SOURCE_CREATED : string := "escrow:source:created".

(** The transaction [hash] was seen executed with success: by waiting for it,
    or by looking it up after a timeout. *)
Definition tx_succeeded (hash : Json) (h : list (Ev ChainI)) : Prop :=
  (exists tx executed, (hash = JStr tx \/ hash = JStr (executed_hash executed)) /\
     success executed = true /\
     Called (I := ChainI) (AptosWait tx true) (Ok executed) ∈ h) \/
  exists tx, hash = JOpt tx /\ Called (I := ChainI) (AptosTxByHash tx) (Ok (Some true)) ∈ h.

(** The message names a transaction that succeeded. *)
Definition source_confirmed (d : list (string * Json)) (h : list (Ev ChainI)) : Prop :=
  exists hash, ("txHash", hash) ∈ d /\ tx_succeeded hash h.

Section Signed.
Context `{Ethers, AptosSdk, EthersBytes, SignatureParts, EthersUnits, AptosCodec} (cfg : RConfig).
Local Abbreviation J := (fun (_ : RState) h => said_after SOURCE_CREATED source_confirmed h).

Local Ltac keeps :=
  repeat first
    [ holds_step
    | progress unfold aptosCoinAmount, aptosTxByHash, httpPatchFill, socketEmit,
        AptosChain.getBalance, updateFillStatus, secret_request
    | progress cbn beta iota zeta ];
  try (intros; by apply announces_call);
  try (intros; by apply announces_other);
  try (intros; assumption).

(** Telling of a confirmed transaction keeps the guarantee. *)
Lemma tell_confirmed d (k : prog ChainI RState unit) s h hash :
  ("txHash", hash) ∈ d -> tx_succeeded hash h -> said_after SOURCE_CREATED source_confirmed h ->
  (forall s' h', said_after SOURCE_CREATED source_confirmed h' -> wp k (fun _ _ h'' =>
     said_after SOURCE_CREATED source_confirmed h'') s' h') ->
  wp (pbind (socketEmit SOURCE_CREATED d) (fun _ => k))
     (fun _ _ h' => said_after SOURCE_CREATED source_confirmed h') s h.
Proof.
  intros Hd Ht Ha Hk. unfold socketEmit. cbn [tell pbind wp]. apply Hk.
  apply announces_snoc; [done|]. intros d' [= <-]. by exists hash.
Qed.

Lemma confirm_wp hash (s : RState) h :
  wp (confirm hash) (fun r _ h' =>
    (exists x, h' = h ++ [Called (I := ChainI) (AptosWait hash true) x]) /\
    (r = Ok tt -> tx_succeeded (JStr hash) h')) s h.
Proof.
  unfold confirm. chain_norm. intros [ex|e]; chain_norm; [|split; [by eexists|done]].
  destruct (success ex) eqn:Hs; cbn [wp]; (split; [by eexists|]); [|done]. intros _. left.
  exists hash, ex. split_and!; [by left|done|]. rewrite elem_of_app. right. apply list_elem_of_here.
Qed.

(** Local steps before the submission. *)
Local Ltac decode :=
  repeat (rewrite wp_bind, wp_of_result;
          match goal with |- context [match ?x with Ok _ => _ | Throw _ => _ end] =>
            destruct x as [?|?]; [|apply announces_nil] end).

Local Ltac txHash_field := unfold source_fields; rewrite !elem_of_cons; auto 10.

(** The rest of a handler, which sends no other [escrow:source:created]. *)
Local Ltac rest := intros s2 h2 Ha2; refine ((_ : holds J _) s2 h2 Ha2); keeps.

Lemma failure_keeps d s h :
  said_after SOURCE_CREATED source_confirmed h ->
  wp (socketEmit "order:error" d : prog ChainI RState unit)
     (fun _ _ h' => said_after SOURCE_CREATED source_confirmed h') s h.
Proof. intros Ha. unfold socketEmit. cbn [tell wp]. by apply announces_other. Qed.

Lemma v2_confirmed data signed s :
  wp (handleSponsoredAptosOrderV2 data signed)
     (fun _ _ h' => said_after SOURCE_CREATED source_confirmed h') s [].
Proof.
  unfold handleSponsoredAptosOrderV2. cbn zeta. rewrite wp_try.
  eapply (wp_mono _ (fun r _ h' => said_after SOURCE_CREATED source_confirmed h')).
  { intros [u|e] s' h' Ha; [done|by apply failure_keeps]. }
  decode. chain_norm. intros [hash|e]; chain_norm; [|apply announces_call, announces_nil].
  rewrite wp_bind. eapply wp_mono; [|apply confirm_wp].
  intros [[]|e] s1 h1 [[x ->] Hok]; [|apply announces_call, announces_call, announces_nil].
  eapply tell_confirmed; [txHash_field|by apply Hok|apply announces_call, announces_call, announces_nil|].
  rest.
Qed.

Lemma recover_wp data e s h :
  said_after SOURCE_CREATED source_confirmed h ->
  wp (recover_timeout data e) (fun _ _ h' => said_after SOURCE_CREATED source_confirmed h') s h.
Proof.
  intros Ha. unfold recover_timeout. destruct (includes _ _); [|done]. rewrite wp_try.
  unfold aptosTxByHash. chain_norm. intros [st|e']; chain_norm; [|by apply announces_call].
  case_bool_decide as Hst; [|by apply announces_call]. subst st. chain_norm.
  apply announces_snoc; [by apply announces_call|]. intros d [= <-].
  exists (JOpt (last_submitted e)). split; [txHash_field|]. right. exists (last_submitted e).
  split; [done|]. rewrite elem_of_app. right. apply list_elem_of_here.
Qed.

Lemma v3_confirmed data signed s :
  wp (handleSponsoredAptosOrderV3 data signed)
     (fun _ _ h' => said_after SOURCE_CREATED source_confirmed h') s [].
Proof.
  unfold handleSponsoredAptosOrderV3. cbn zeta. rewrite wp_try.
  eapply (wp_mono _ (fun r _ h' => said_after SOURCE_CREATED source_confirmed h')).
  { intros [u|e] s' h' Ha; [done|]. rewrite wp_bind. eapply wp_mono; [|by apply recover_wp].
    intros [[]|e'] s3 h3 Ha3; [done|by apply failure_keeps|done]. }
  decode. chain_norm. intros [hash|e]; chain_norm; [|apply announces_call, announces_nil].
  rewrite wp_bind. eapply wp_mono; [|apply confirm_wp].
  intros [[]|e] s1 h1 [[x ->] Hok]; [|apply announces_call, announces_call, announces_nil].
  cbn [wp pbind get]. match goal with |- context [if ?b then Ret tt else _] => destruct b end.
  - cbn [wp pbind]. refine ((_ : holds J _) s1 _ _); [keeps|].
    apply announces_call, announces_call, announces_nil.
  - eapply tell_confirmed; [txHash_field|by apply Hok|apply announces_call, announces_call, announces_nil|].
    rest.
Qed.

Lemma submit_delegated_wp data order args s h :
  said_after SOURCE_CREATED source_confirmed h ->
  wp (submit_delegated cfg data order args)
     (fun _ _ h' => said_after SOURCE_CREATED source_confirmed h') s h.
Proof.
  intros Ha. unfold submit_delegated, rethrowing. rewrite wp_try.
  eapply (wp_mono _ (fun r _ h' => said_after SOURCE_CREATED source_confirmed h')); [by intros []|].
  chain_norm. intros [sn|e]; chain_norm; [|by apply announces_call].
  rewrite wp_bind, wp_of_result. destruct (BigInt sn); [|by apply announces_call].
  chain_norm. intros [tx|e]; chain_norm; [|by do 2 apply announces_call].
  intros [hash|e]; chain_norm; [|by do 3 apply announces_call].
  intros [ex|e]; chain_norm; [|by do 4 apply announces_call].
  destruct (success ex) eqn:Hs; cbn [wp]; [|by do 4 apply announces_call].
  apply announces_snoc; [by do 4 apply announces_call|]. intros d [= <-].
  exists (JStr (executed_hash ex)). split; [rewrite !elem_of_cons; auto 10|].
  left. exists hash, ex. split_and!; [by right|done|]. rewrite elem_of_app. right.
  apply list_elem_of_here.
Qed.

Lemma delegated_confirmed data s :
  wp (handleSignedAptosOrder cfg data)
     (fun _ _ h' => said_after SOURCE_CREATED source_confirmed h') s [].
Proof.
  unfold handleSignedAptosOrder. rewrite wp_try.
  eapply (wp_mono _ (fun r _ h' => said_after SOURCE_CREATED source_confirmed h')).
  { intros [u|e] s' h' Ha; [done|]. unfold socketEmit. cbn [tell wp]. by apply announces_other. }
  cbn [wp pbind get]. destruct (JsMap.get _ _) as [order|]; [|apply announces_nil].
  destruct (present _); [apply announces_nil|]. destruct (first_fill _ _); [|apply announces_nil].
  rewrite wp_bind. eapply wp_mono; [|refine ((_ : holds J _) s _ _); [keeps|apply announces_nil]].
  intros [b|e] s1 h1 Ha1; [|done]. destruct (ltb _ _); [done|].
  rewrite wp_bind, wp_of_result. destruct (bytes_of_hex _) as [pk|e]; [|done].
  rewrite wp_bind, wp_of_result. destruct (bytes_of_hex _) as [sg|e]; [|done].
  by apply submit_delegated_wp.
Qed.

(** C16. A source escrow on Aptos is announced only when its transaction
    succeeded: for every answer of the node, and for each of the three ways a
    maker's signed order is executed (the resolver's own delegated transaction,
    the sponsored one with the resolver as second signer, the sponsored one
    with the resolver as fee payer), the transaction that the
    [escrow:source:created] message names was seen executed with success, by
    waiting for it or, after a timeout, by looking it up. *)
Theorem signed_source_confirmed (data : SignedOrder) (signed : SignedBytes) (s : RState) :
  let Q := fun (_ : result unit) (_ : RState) h' => said_after SOURCE_CREATED source_confirmed h' in
  wp (handleSignedAptosOrder cfg data) Q s [] /\
  wp (handleSponsoredAptosOrderV2 data signed) Q s [] /\
  wp (handleSponsoredAptosOrderV3 data signed) Q s [].
Proof. cbn zeta. auto using delegated_confirmed, v2_confirmed, v3_confirmed. Qed.

(** The first sponsored variant announces a source escrow that nobody
    created: for a fill whose key contains the order id, it sends no request
    to any chain and emits [escrow:source:created] with a constant instead of
    a transaction hash. *)
Theorem sponsored_without_transaction (O : Oracle ChainI) (data : SignedOrder) (key : string)
    (fill : RFill) (s : RState) (h : list (Ev ChainI)) :
  JsMap.find (fun key _ => includes key (so_orderId data)) (monitoringFills s) = Some (key, fill) ->
  exists s' d rest,
    run O (handleSponsoredAptosOrder data) s h =
      (Ok tt, s', (h ++ Told (I := ChainI) (Emit (msg SOURCE_CREATED d)) :: rest)) /\
    ("txHash", JStr simulated_hash) ∈ d /\
    Forall (fun e => exists m, e = Told (I := ChainI) (Emit m)) rest.
Proof.
  intros Hf. unfold handleSponsoredAptosOrder. cbn zeta. rewrite run_try.
  cbn [run pbind get]. rewrite Hf. cbn [run pbind now socketEmit tell]. unfold secret_request, socketEmit, tell.
  generalize (rebuilt_order data key (clock O h)) as order. intros order. cbn [run pbind].
  destruct (JsMap.get _ _) as [f|].
  2: { eexists _, _, []. split_and!; [reflexivity| |done]. rewrite !elem_of_cons; auto 10. }
  destruct (present _) as [dest|].
  2: { eexists _, _, []. split_and!; [reflexivity| |done]. rewrite !elem_of_cons; auto 10. }
  cbn [run pbind modify]. rewrite <- app_assoc. eexists _, _, [_]. split; [reflexivity|].
  split; [rewrite !elem_of_cons; auto 10|]. apply Forall_singleton. by eexists.
Qed.

(** ** Multi-agent orders *)

(** An order from Aptos without a permit: the resolver itself creates nothing
    on its source chain. *)
Definition plain_apt (order : Order) : bool :=
  isAPTOrder order && negb (bool_decide (is_Some (order_permit order))).

Local Ltac keeps_fields :=
  repeat first
    [ match goal with
      | |- holds _ (if ?x && (false || false) then _ else _) =>
          replace (x && (false || false)) with false by (by destruct x)
      end
    | holds_step
    | progress unfold ethSend, ethWait, ethView, ethBalance, ethFeeData, aptosView, aptosBuild,
        aptosSubmit, aptosWait, aptosCoinAmount, httpGetFilled, httpPostFill, httpPatchFill,
        httpGetPrices, sleep, socketEmit, u64_string, u64_number, submit_entry, createEscrow,
        createAptosEscrow, send_guarded_erc20, createEthereumEscrow, getEthereumBalance,
        formatEther, WETHService.getAllowance, updateFillStatus, cached_rate, remember,
        fetchCrossChainRate, rate_with, getExchangeRate, ensure_allowance, secret_hash_of,
        createFill, attempt, lock_destination, announce_destination, destination_failed,
        createSourceEscrowForAPT
    | progress cbn beta iota zeta ];
  try (intros; assumption).

Lemma plain_destination_pending order (P : JsMap.t Pending) :
  plain_apt order = true ->
  holds (fun (s : RState) (_ : list (Ev ChainI)) => pendingSecretReveals s = P)
    (createDestinationEscrow cfg order).
Proof.
  unfold plain_apt. intros [Ha Hp]%andb_true_iff. apply negb_true_iff in Hp.
  assert (isWETHOrder cfg order = false) as Hw.
  { unfold isWETHOrder, isAPTOrder in *. apply andb_true_iff in Ha as [Hc%bool_decide_eq_true _].
    by rewrite Hc. }
  unfold createDestinationEscrow, destination_steps, source_transfer. rewrite Ha, Hw, Hp.
  keeps_fields.
Qed.

(** A multi-agent order is left without its destination: whatever is
    answered, when [handleMultiAgentAptosOrder] has recorded the maker's
    confirmed source escrow of an Aptos order without a permit, the recorded
    swap has the empty string as its destination escrow, and creating the
    destination escrow does not fill it in, so that the reveal of the secret
    will withdraw from an escrow with no name. *)
Theorem multi_agent_destination_empty (data : SignedOrder) (signed : SignedBytes) (order : Order)
    (s : RState) (h : list (Ev ChainI)) :
  JsMap.get (so_orderId data) (activeOrders s) = Some order -> plain_apt order = true ->
  wp (handleMultiAgentAptosOrder cfg data signed)
     (fun r s' _ => r = Ok tt /\
        (pendingSecretReveals s' = pendingSecretReveals s \/
         exists p, JsMap.get (id order) (pendingSecretReveals s') = Some p /\
           pending_destination p = "" /\
           pending_source p = ref_hex (RefBytes (om_escrow_id (so_orderMessage data))))) s h.
Proof.
  intros Ho Hp. unfold handleMultiAgentAptosOrder. rewrite wp_try. cbn [wp pbind get]. rewrite Ho.
  eapply (wp_mono _ (fun _ s' _ => pendingSecretReveals s' = pendingSecretReveals s \/
    exists p, JsMap.get (id order) (pendingSecretReveals s') = Some p /\
      pending_destination p = "" /\
      pending_source p = ref_hex (RefBytes (om_escrow_id (so_orderMessage data))))).
  { intros [[]|e] s' h' HQ; unfold socketEmit; cbn [tell wp]; auto. }
  rewrite wp_bind, wp_of_result. destruct (deserializeRaw _) as [raw|e]; [|by left].
  rewrite wp_bind, wp_of_result. destruct (deserializeAuthenticator _) as [ua|e]; [|by left].
  rewrite wp_bind, wp_of_result. destruct (accountSignAsFeePayer _) as [fa|e]; [|by left].
  unfold submitMultiAgentTransaction. chain_norm. intros [hash|e]; chain_norm; [|by left].
  unfold confirm. chain_norm. intros [ex|e]; chain_norm; [|by left].
  destruct (success ex); cbn [wp pbind]; [|by left].
  eapply wp_mono; [|by apply plain_destination_pending].
  intros r s' h' ->. right. cbn. rewrite JsMap.get_set_eq. eauto.
Qed.

End Signed.

(** ** Witnesses *)

Definition sample_message : OrderMessage := {|
  om_escrow_id := [1; 255]; om_depositor := "0xm"; om_beneficiary := "0xapa"; om_amount := "1000";
  om_hashlock := [7; 8]; om_timelock := of_Z 3600; om_nonce := of_Z 5; om_expiry := of_Z 300
|}.

Definition sample_signed : SignedOrder := {|
  so_orderId := "o2"; so_fromChain := APTOS; so_toChain := ETHEREUM; so_fromAmount := "1000";
  so_toAmount := "900"; so_secretHash := Some "0xhash"; so_orderMessage := sample_message;
  so_publicKey := "0xab"; so_signature := "0xcd"; so_userFundedTx := None;
  so_isPartialFill := false; so_escrowAmount := None; so_fillPercentage := None;
  so_gaslessData := None; so_hasPermit := false; so_sponsoredTransaction := None;
  so_multiAgentTransaction := None
|}.

Definition monitored_state : RState := set_monitoringFills (JsMap.set "o2-apt-eth" sample_fill) initial_state.

Lemma sponsored_without_transaction_witness :
  exists s' d rest,
    run all_up (handleSponsoredAptosOrder sample_signed) monitored_state [] =
      (Ok tt, s', (Told (I := ChainI) (Emit (msg SOURCE_CREATED d)) :: rest)) /\
    ("txHash", JStr simulated_hash) ∈ d /\
    Forall (fun e => exists m, e = Told (I := ChainI) (Emit m)) rest.
Proof.
  apply (sponsored_without_transaction all_up sample_signed "o2-apt-eth" sample_fill
           monitored_state []). reflexivity.
Defined.

#[local] Instance no_codec : AptosCodec := {
  deserializeSimple := fun s => Ok s;
  deserializeRaw := fun s => Ok s;
  deserializeAuthenticator := fun s => Ok s;
  signTransaction := fun b => Ok ("S" +:+ b);
  signAsFeePayer := fun b => Ok ("F" +:+ b);
  accountSignAsFeePayer := fun b => Ok ("F" +:+ b)
}.

#[local] Existing Instance range_sdk.
#[local] Existing Instance hex_bytes.
#[local] Existing Instance plain_units.
#[local] Existing Instance no_signatures.

Definition native_apt_order : Order :=
  update_dto (fun d => {|
    fromChain := APTOS; toChain := ETHEREUM; fromToken := APTOS_COIN; toToken := "0xweth";
    fromAmount := "1000"; minToAmount := "900"; maker := "0xm"; receiver := "0xr";
    signature := "0x00"; deadline := deadline d; nonce := "1"; partialFillAllowed := false;
    partialFillEnabled := false; secretHash := Some "0xhash"; secretHashes := None;
    partialFillSecrets := None; maxParts := None; activeResolvers := None; dutchAuction := None;
    permit := None; permitSignature := None; gasless := None; gaslessData := None |}) apt_order.

Lemma multi_agent_destination_empty_witness :
  wp (handleMultiAgentAptosOrder sample_rconfig sample_signed
        {| transactionBytes := "00"; authenticatorBytes := "01" |})
     (fun r s' _ => r = Ok tt /\
        (pendingSecretReveals s' = [] \/
         exists p, JsMap.get "o2" (pendingSecretReveals s') = Some p /\
           pending_destination p = "" /\ pending_source p = ref_hex (RefBytes [1; 255])))
     (set_activeOrders (JsMap.set "o2" native_apt_order) initial_state) [].
Proof.
  apply (multi_agent_destination_empty sample_rconfig sample_signed
    {| transactionBytes := "00"; authenticatorBytes := "01" |} native_apt_order
    (set_activeOrders (JsMap.set "o2" native_apt_order) initial_state) []); reflexivity.
Defined.
