(* ===== verification/ResolverSafety.v ===== *)
(** * The resolver under interleaving

    Invariants of the resolver's fields over any interleaving of its handlers,
    the announcement of partial fills, the escrow poll, and two histories in
    which a swap does not end the way its messages say. *)

From Stdlib Require Import ZArith Lia.
From stdpp Require Import base numbers list strings relations.
From S2P Require Import Prelude.
From S2P Require Import JsNumber.
From S2P Require Import JsString.
From S2P Require Import JsMap.
From S2P Require Import PartialFill.
From S2P Require Import DutchAuction.
From S2P Require Import OrderTypes.
From S2P Require Import Signature.
From S2P Require Import Async.
From S2P Require Import Chain.
From S2P Require Import AptosChain.
From S2P Require Import ChainService.
From S2P Require Import FillStrategy.
From S2P Require Import Resolver.
From S2P Require Import Swap.
From S2P Require Import EscrowEvents.
From S2P Require Import TokenServices.
From S2P Require Import PriceService.
From S2P Require Import OrderIntake.
From S2P Require Import SignedOrders.
From S2P Require Import SwapSafety.
From S2P Require Import IntakeSafety.
From S2P Require Import SignedSafety.

Local Open Scope string_scope.
Local Open Scope Z_scope.

(** ** The handlers *)

Section Handlers.
Context `{Ethers, AptosSdk, EthersBytes, SignatureParts, EthersUnits, AptosCodec} (cfg : RConfig).

(** The handlers of the resolver: its socket listeners, its timers and its
    escrow poll. *)
Inductive handler : prog ChainI RState unit -> Prop :=
  | h_new order : handler (on_order_new cfg order)
  | h_update order : handler (on_order_update cfg order)
  | h_fill order : handler (on_order_fill order)
  | h_partial order : handler (handlePartialFillOrder cfg order)
  | h_source chain order ref hash : handler (on_source_created chain order ref hash)
  | h_signed data : handler (on_order_signed cfg data)
  | h_sponsored data : handler (on_signed_sponsored data)
  | h_sponsored_v2 data : handler (on_signed_sponsored_v2 data)
  | h_sponsored_v3 data : handler (on_signed_sponsored_v3 data)
  | h_permit data : handler (on_signed_with_permit cfg data)
  | h_multiagent data : handler (on_signed_multiagent cfg data)
  | h_reveal data : handler (on_secret_reveal cfg data)
  | h_poll : handler (poll_escrows cfg).

(** Unfold the programs of the chain services and decompose. *)
Local Ltac stable_all :=
  repeat first
    [ stable_step
    | progress unfold ethSend, ethWait, ethView, ethBalance, ethFeeData, ethBlockNumber,
        ethQueryEscrows, aptosView, aptosAccountInfo, aptosBuild, aptosSubmit, aptosWait,
        aptosCoinAmount, sleep, httpGetFilled, httpPostFill, httpPatchFill, socketEmit,
        retryLater, updateFillStatus, trackBalanceChange, u64_string, u64_number, submit_entry,
        createEscrow, createAptosEscrow, view_exists, checkAptosEscrow, checkAptosEscrowExists,
        AptosChain.getBalance, getAptosBalance, getEthereumBalance, getDestinationBalance,
        getCurrentFillPercentage, calculateOptimalFillPercentage, send_guarded_erc20,
        createEthereumEscrow, withdrawEthereumEscrow, withdrawGaslessEscrow,
        sendCrossChainSecretReveal, createPartialEthereumEscrow, createPartialAptosEscrow,
        formatEther, manual_withdrawal, announce_withdrawal, request_secret,
        post_fill, announce_partial_fill, createPartialEscrows, handlePartialFillOrder,
        withdraw_source, withdraw_destination, announce_completion, clean_up, after_source,
        completeSwap, reveal_partial, reveal_full, on_secret_reveal, executeGaslessWETHEscrow,
        handleAPTEscrowCreated, withdraw_detected, pay_detected, handleSourceEscrowCreated,
        process_log, poll_escrows, httpGetPrices, fetchAptBalance, fetchAptBalanceJson,
        aptosSubmitMultiAgent, aptosSubmitFeePayer, aptosTxByHash, newOrderLater,
        createEthereumEscrowFor, WETHService.getAllowance, PermitService.executePermitTransfer,
        cached_rate, remember, fetchCrossChainRate, rate_with, getExchangeRate,
        ensure_allowance, secret_hash_of, createFill, attempt, lock_destination,
        source_transfer, createSourceEscrowForAPT, create_source, destination_failed,
        destination_steps, announce_destination, createDestinationEscrow, checkProfitability,
        checkBalance, whole_order, explain_error, release, handleNewOrder, on_order_new,
        on_order_update, on_order_fill, on_source_created, submit_delegated,
        handleSignedAptosOrder, secret_request, handleSponsoredAptosOrder, confirm,
        handleSponsoredAptosOrderV2, handlePermitBasedAptosOrder, submitMultiAgentTransaction,
        handleMultiAgentAptosOrder, recover_timeout, handleSponsoredAptosOrderV3,
        on_signed_ethereum, on_order_signed, on_signed_sponsored, on_signed_sponsored_v2,
        on_signed_sponsored_v3, on_signed_with_permit, on_signed_multiagent
    | progress cbn beta iota zeta ].

Section Stable.
Context (J : RState -> Prop).

Lemma stable_wait_loop n hash : stable J (wait_loop n hash).
Proof.
  induction n as [|n IH]; cbn [wait_loop]; [exact Logic.I|]. stable_all. exact IH.
Qed.

Lemma stable_withdrawAptos cc escrow secret : stable J (withdrawAptosEscrow cc escrow secret).
Proof.
  unfold withdrawAptosEscrow, withdrawEscrow. stable_all. generalize 3%nat as n.
  induction n as [|n IH]; cbn [attempt_loop]; [exact Logic.I|].
  apply stable_try; [|intros e; stable_all; exact IH].
  unfold withdraw_attempt. stable_all. apply stable_wait_loop.
Qed.
End Stable.

(** No handler ever stores a secret for a fill. *)
Definition no_secrets (s : RState) : Prop := fillSecrets s = [].

Lemma no_secrets_remove k s : no_secrets s -> no_secrets (set_fillSecrets (JsMap.remove k) s).
Proof. unfold no_secrets. simpl. by intros ->. Qed.

Lemma completeSwap_no_secrets order fill secret source dest :
  stable no_secrets (completeSwap cfg order fill secret source dest).
Proof.
  stable_all; try apply stable_withdrawAptos; try (intros; assumption).
  all: intros; by apply no_secrets_remove.
Qed.

Lemma handleSource_no_secrets fill source :
  stable no_secrets (handleSourceEscrowCreated cfg fill source).
Proof. stable_all; try apply stable_withdrawAptos; intros; assumption. Qed.

Lemma process_logs_no_secrets logs : stable no_secrets (process_logs cfg logs).
Proof.
  induction logs as [|l logs IH]; cbn [process_logs]; [exact Logic.I|].
  apply stable_bind; [|intros _; exact IH]. unfold process_log.
  repeat stable_step; try apply handleSource_no_secrets; intros; assumption.
Qed.

Lemma handlers_no_secrets p : handler p -> stable no_secrets p.
Proof.
  intros [order|order|order|order|chain order ref hash|data|data|data|data|data|data|data|].
  1-11: stable_all; intros; assumption.
  - unfold on_secret_reveal, reveal_partial, reveal_full.
    repeat stable_step; try apply completeSwap_no_secrets; try exact Logic.I; intros; assumption.
  - unfold poll_escrows. unfold ethBlockNumber, ethQueryEscrows. repeat stable_step.
    apply process_logs_no_secrets.
Qed.
End Handlers.

(** ** Announcing a partial fill *)

Definition is_told (e : Ev ChainI) : bool := match e with Told (Emit _) => true | _ => false end.

Section Announce.
Context `{Ethers, AptosSdk, EthersBytes} (cfg : RConfig).

(** An escrow for the order's receiver under the order's secret hash, created by
    the resolver's account, was seen executed on Aptos. *)
Definition escrow_locked (order : Order) (h : list (Ev ChainI)) : Prop :=
  exists sh hashlock escrow amount timelock deposit hash,
    OrderTypes.secretHash order = Some sh /\ getBytes sh = Ok hashlock /\
    executed_entry
      (aptosEscrowAddress (chainConfig cfg) ++ "::escrow_v3::create_escrow_user_funded")
      [ABytes escrow; AString (receiver order); AInt amount; ABytes hashlock; AInt timelock;
       AInt deposit; AString (aptosAccountAddress (chainConfig cfg))] hash h.

Lemma escrow_locked_grows order : grows (escrow_locked order).
Proof.
  intros h l (sh & hl & b & a & t & d & hash & H1' & H2' & H3').
  exists sh, hl, b, a, t, d, hash. split_and!; [done|done|by apply executed_entry_grows].
Qed.

(** Steps that only ask: an announcement guard survives any call. *)
Lemma after_calls Q : closed_under (fun (_ : RState) h => after Q is_told h) (fun _ => true).
Proof. intros r s h x _ Hg. by apply after_snoc. Qed.

Local Ltac asks Q :=
  repeat first
    [ holds_step
    | progress unfold ethSend, ethWait, ethView, ethBalance, ethFeeData, aptosView, aptosBuild,
        aptosSubmit, aptosWait, aptosCoinAmount, httpGetFilled, u64_string, u64_number,
        submit_entry, AptosChain.getBalance, getAptosBalance, getEthereumBalance,
        getDestinationBalance, getCurrentFillPercentage, calculateOptimalFillPercentage
    | progress cbn beta iota zeta ];
  try (intros; by apply (after_calls Q)).

Lemma createAptos_locked order escrow amount s h :
  wp (createPartialAptosEscrow cfg order escrow amount)
     (fun r _ h' => r = Ok tt -> escrow_locked order h') s h.
Proof.
  unfold createPartialAptosEscrow, createAptosEscrow, createEscrow, rethrowing.
  rewrite wp_bind, wp_of_result. destruct (escrow_id_bytes escrow) as [b|e]; [|done].
  rewrite wp_bind, wp_of_result. unfold asserted.
  destruct (OrderTypes.secretHash order) as [sh|] eqn:Hsh; [|done].
  rewrite wp_bind, wp_of_result. destruct (getBytes sh) as [hl|e] eqn:Hhl; [|done].
  cbn [wp now pbind]. intros t. rewrite wp_bind, wp_try.
  apply wp_u64_string; [done|]. intros _ n _ _.
  apply wp_u64_number; [done|]. intros tl.
  apply wp_u64_string; [done|]. intros _ dep _ _.
  eapply wp_mono; [|apply submit_entry_wp].
  intros [hash|e] s' h' (_ & _ & Hc); cbn [wp]; [|done]. intros _.
  exists sh, hl, b, n, tl, dep, hash. split_and!; [done|done|by apply Hc].
Qed.

Lemma createPartialAptos_asks Q order escrow amount :
  holds (fun (_ : RState) h => after Q is_told h) (createPartialAptosEscrow cfg order escrow amount).
Proof. unfold createPartialAptosEscrow, createAptosEscrow, createEscrow. asks Q. Qed.

Lemma createPartialEscrows_after (order : Order) pct i fromA toA s h :
  toChain order = APTOS -> after (escrow_locked order) is_told h ->
  wp (createPartialEscrows cfg order pct i fromA toA)
     (fun _ _ h' => after (escrow_locked order) is_told h') s h.
Proof.
  intros Hto Hg. unfold createPartialEscrows. rewrite Hto, wp_bind.
  assert (holds (fun (_ : RState) h => after (escrow_locked order) is_told h)
            (getCurrentFillPercentage (id order))) as Hcur by asks (escrow_locked order).
  eapply wp_mono; [|apply Hcur, Hg]. intros [cur|e] s1 h1 Hg1; [|done]. cbn beta iota zeta.
  rewrite wp_bind.
  eapply wp_mono; [|apply wp_and; [apply (createPartialAptos_asks (escrow_locked order)), Hg1
                                  |apply createAptos_locked]].
  intros [[]|e] s2 h2 [Hg2 Hc]; cbn beta iota; [|done].
  eapply wp_mono; [|apply wp_extends]. intros r s3 h3 [l ->].
  apply after_app; auto using escrow_locked_grows.
Qed.

Lemma handlePartial_after (order : Order) s :
  toChain order = APTOS ->
  wp (handlePartialFillOrder cfg order)
     (fun _ _ h' => after (escrow_locked order) is_told h') s [].
Proof.
  intros Hto. unfold handlePartialFillOrder, rethrowing. rewrite wp_try, wp_bind.
  assert (holds (fun (_ : RState) h => after (escrow_locked order) is_told h)
            (calculateOptimalFillPercentage cfg order)) as Hcalc by asks (escrow_locked order).
  eapply wp_mono; [|apply Hcalc, after_nil]. intros [pct|e] s1 h1 Hg1; [|done]. cbn beta iota.
  destruct (eqb pct (of_Z 0)); [done|].
  rewrite wp_bind, wp_of_result. destruct (calculatePartialAmount _ pct) as [fa|e]; [|done].
  rewrite wp_bind, wp_of_result. destruct (calculatePartialAmount _ pct) as [ta|e]; [|done].
  rewrite wp_bind.
  assert (holds (fun (_ : RState) h => after (escrow_locked order) is_told h)
            (getCurrentFillPercentage (id order))) as Hcur by asks (escrow_locked order).
  eapply wp_mono; [|apply Hcur, Hg1]. intros [cur|e] s2 h2 Hg2; [|done]. cbn beta iota zeta.
  rewrite wp_bind. eapply wp_mono; [|by apply createPartialEscrows_after].
  intros [[]|e] s3 h3 Hg3; [|done]. cbn beta iota.
  destruct (ltb _ _); [|done]. chain_norm. by apply after_snoc.
Qed.
End Announce.

(** ** Two answers of the outside *)

(** Everything answers, except that the Aptos node is down. *)
Definition aptos_down : Oracle ChainI := {|
  answer := fun (_ : list (Ev ChainI)) (r : ChainReq) =>
    match r as r0 return result (chain_ans r0) with
    | EthSend _ _ _ _ _ => Ok "0xtx"
    | EthWait hash => Ok hash
    | EthView _ _ _ => Ok 0
    | EthBalance _ => Ok 0
    | EthFeeData => Ok None
    | EthBlockNumber => Ok 0
    | EthQueryEscrows _ _ _ _ => Ok []
    | Sleep _ => Ok tt
    | HttpGetFilled _ => Ok None
    | HttpPostFill _ _ => Ok None
    | HttpPatchFill _ _ _ _ => Ok tt
    | _ => Throw (Error "connect ECONNREFUSED")
    end;
  clock := fun _ => 0
|}.

(** Everything answers, except that balances cannot be read. *)
Definition balances_down : Oracle ChainI := {|
  answer := fun (h : list (Ev ChainI)) (r : ChainReq) =>
    match r as r0 return result (chain_ans r0) with
    | EthBalance _ => Throw (Error "timeout")
    | r0 => answer aptos_down h r0
    end;
  clock := fun _ => 0
|}.

(** The receipt of an Ethereum transaction was seen. *)
Definition eth_confirmed (e : Ev ChainI) : bool :=
  match e with Called (EthWait _) (Ok _) => true | _ => false end.

Definition says (name : string) (e : Ev ChainI) : bool :=
  match e with Told (Emit m) => String.eqb (event m) name | _ => false end.

Definition patches (st : string) (e : Ev ChainI) : bool :=
  match e with Called (HttpPatchFill _ _ s _) (Ok _) => String.eqb s st | _ => false end.

(** ** Properties *)

Section Properties.
Context `{Ethers, AptosSdk, EthersBytes} (cfg : RConfig).

(** C13. A partial fill of an order that pays on Aptos is announced only once
    it is backed: whatever the nodes and the engine answer, no socket message
    leaves [handlePartialFillOrder] before the creation of an escrow for the
    order's receiver, locked with the order's secret hash, was submitted and
    seen executed with success. *)
Theorem partial_fill_backed (order : Order) (s : RState) (Hto : toChain order = APTOS) :
  wp (handlePartialFillOrder cfg order)
     (fun _ _ h' => after (escrow_locked cfg order) is_told h') s [].
Proof. by apply handlePartial_after. Qed.

(** The resolver never has the secret that its escrow poll needs: from
    any fields with no stored secret (whatever orders, fills and pending swaps
    they hold), along any interleaving of the handlers [fillSecrets] stays
    empty, because no handler stores into it. *)
Theorem fill_secrets_never_stored `{SignatureParts, EthersUnits, AptosCodec} (s0 : RState) (w : Pool ChainI RState unit)
    (H0s : fillSecrets s0 = [])
    (Hrun : rtc (step_of (handler cfg)) {| handlers := []; fields := s0; log := [] |} w) :
  forall fill, getSecretForFill fill (fields w) = None.
Proof.
  intros fill. unfold getSecretForFill.
  assert (no_secrets (fields w)) as ->; [|done].
  eapply pool_invariant; [apply (handlers_no_secrets cfg)|exact Hrun|done|by constructor].
Qed.

(** Consequence for an escrow found by the poll: with no stored secret,
    [handleSourceEscrowCreated] never sends a withdrawal, whatever is
    answered, and unless the fill was already done it asks the engine to mark
    the fill FAILED. *)
Theorem detected_escrow_fails (fill : RFill) (source : string) (s : RState)
    (Hs : getSecretForFill fill s = None) (Hnew : already_done fill = false) :
  wp (handleSourceEscrowCreated cfg fill source) (fun r s' h' =>
    s' = s /\ sent_values h' = [] /\ submits h' = 0%nat /\
    (r = Ok tt -> existsb (patches "FAILED") h' = true)) s [].
Proof.
  unfold handleSourceEscrowCreated, updateFillStatus. rewrite wp_try, Hnew.
  assert (forall h (x : result unit), sent_values h = [] -> submits h = 0%nat ->
    let h' := (h ++ [Called (I := ChainI)
                       (HttpPatchFill (f_orderId fill) (f_id fill) "FAILED" []) x])%list in
    s = s /\ sent_values h' = [] /\ submits h' = 0%nat /\
    (x = Ok tt -> existsb (patches "FAILED") h' = true)) as Hend.
  { intros h x Hv Hn h'. subst h'. rewrite sent_values_app, submits_app, Hv, Hn. split_and!; try done.
    intros ->. rewrite existsb_app. simpl. by rewrite orb_true_r. }
  chain_call u e; [chain_call u' e; [rewrite Hs; chain_norm|]|];
    intros [[]|e']; chain_norm; by apply Hend.
Qed.

(** The poll does not repeat itself: a log whose block and transaction
    index were already seen is skipped without a request or a message, also
    when it is another escrow of the same transaction. *)
Theorem seen_log_skipped (log : EscrowLog) (s : RState) (h : list (Ev ChainI))
    (Hseen : event_key log ∈ processedEvents s) :
  wp (process_log cfg log) (fun r s' h' => r = Ok tt /\ s' = s /\ h' = h) s h.
Proof.
  unfold process_log. chain_norm. destruct (log_hasArgs log); [|done]. cbn [negb].
  by rewrite (proj2 (JsSet.set_has_spec _ _) Hseen).
Qed.
End Properties.

#[local] Existing Instance range_sdk.
#[local] Existing Instance hex_bytes.
#[local] Existing Instance no_signatures.
#[local] Existing Instance plain_units.
#[local] Existing Instance no_codec.

Section Histories.

(** The completion message does not imply that the user was paid: there
    are answers (the Aptos node is down) for which [completeSwap] withdraws
    the source escrow for the resolver, submits nothing on Aptos, and still
    marks the fill COMPLETED and announces [swap:completed]. *)
Theorem completion_without_payment :
  let '(r, _, h) := run aptos_down
    (completeSwap sample_rconfig full_order sample_fill
       "0x5ec" "0xsrc" "0xdst") initial_state [] in
  r = Ok tt /\ existsb eth_confirmed h = true /\ submits h = 0%nat /\
  existsb (patches "COMPLETED") h = true /\ existsb (says "swap:completed") h = true.
Proof. vm_compute. repeat split. Qed.

(** A failed balance read after the source withdrawal aborts the swap:
    there are answers for which the resolver has withdrawn the source escrow,
    never tries to pay the user, and marks the fill FAILED. *)
Theorem balance_read_aborts_payment :
  let '(r, _, h) := run balances_down
    (completeSwap sample_rconfig full_order sample_fill
       "0x5ec" "0xsrc" "0xdst") initial_state [] in
  r = Throw (Error "timeout") /\ existsb eth_confirmed h = true /\ submits h = 0%nat /\
  existsb (patches "FAILED") h = true /\ existsb (says "escrow:source:withdrawn") h = false.
Proof. vm_compute. repeat split. Qed.
End Histories.

(** ** Witnesses *)

Lemma partial_fill_backed_witness :
  wp (handlePartialFillOrder sample_rconfig full_order)
     (fun _ _ h' => after (escrow_locked sample_rconfig full_order) is_told h') initial_state [].
Proof.
  apply (partial_fill_backed sample_rconfig full_order
           initial_state). reflexivity.
Defined.

Lemma fill_secrets_never_stored_witness :
  getSecretForFill sample_fill pending_state = None.
Proof.
  apply (fill_secrets_never_stored sample_rconfig pending_state
           {| handlers := []; fields := pending_state; log := [] |});
    [reflexivity|apply rtc_refl].
Defined.

Lemma detected_escrow_fails_witness :
  wp (handleSourceEscrowCreated sample_rconfig sample_fill "0xsrc")
    (fun r s' h' => s' = initial_state /\ sent_values h' = [] /\ submits h' = 0%nat /\
       (r = Ok tt -> existsb (patches "FAILED") h' = true)) initial_state [].
Proof.
  apply (detected_escrow_fails sample_rconfig sample_fill "0xsrc"
           initial_state); reflexivity.
Defined.

Definition sample_log : EscrowLog :=
  {| log_hasArgs := true; log_escrowId := "0xsrc"; log_hashlock := "0xhash"; log_blockNumber := 7;
     log_transactionIndex := 1 |}.

Definition seen_state : RState := set_processedEvents (fun _ => ["7-1"]) initial_state.

Lemma seen_log_skipped_witness :
  wp (process_log sample_rconfig sample_log)
    (fun r s' h' => r = Ok tt /\ s' = seen_state /\ h' = []) seen_state [].
Proof.
  apply (seen_log_skipped sample_rconfig sample_log seen_state []).
  by left.
Defined.
