(* ===== verification/Htlc.v ===== *)
(** * Hash-locked escrows: the specification

    What the services of both chains promise to a swap: an escrow is opened
    once, and an open escrow is either claimed with a secret that its hash lock
    accepts or returned after its time lock, once and for good. [cell_step] is
    what one transaction may do to one escrow; [HtlcChain] is the interface of a
    chain with an escrow contract and [HtlcLaws] its contract. The instances
    are in [EscrowV2], [GaslessEscrow] and [MoveEscrow]; their clients are in
    [AtomicSwap]. *)

From Stdlib Require Import ZArith Lia.
From stdpp Require Import base numbers list strings relations.
From S2P Require Import Prelude.

Local Open Scope Z_scope.

(** The terms of an escrow. *)
Record Lock := {
  lk_depositor : string;
  lk_beneficiary : string;
  lk_asset : string;
  lk_amount : Z;
  lk_hashlock : string;
  lk_timelock : Z
}.

Inductive Cell := Open (l : Lock) | Claimed (l : Lock) | Returned (l : Lock).

(** What a transaction at the time [now] that presents the secret [shown] may do
    to an escrow. *)
Inductive cell_step (unlocks : string -> string -> bool) (now : Z) (shown : option string)
    : option Cell -> option Cell -> Prop :=
  | cell_same c : cell_step unlocks now shown c c
  | cell_lock l :
      0 <= lk_amount l -> now < lk_timelock l ->
      cell_step unlocks now shown None (Some (Open l))
  | cell_claim l secret :
      shown = Some secret -> unlocks (lk_hashlock l) secret = true ->
      cell_step unlocks now shown (Some (Open l)) (Some (Claimed l))
  | cell_return l :
      lk_timelock l <= now ->
      cell_step unlocks now shown (Some (Open l)) (Some (Returned l)).

(** A chain [W] with the transactions [C] on its escrow contract. A transaction
    that reverts has no result. [hc_env] is what everybody else may do in
    between: it leaves the contract's storage alone and takes nothing from it. *)
Class HtlcChain (W C : Type) := {
  hc_cell : W -> string -> option Cell;
  hc_exec : Z -> C -> W -> option W;
  hc_env : W -> W -> Prop;
  hc_shows : C -> string -> option string;
  hc_unlocks : string -> string -> bool;
  hc_claim : string -> string -> string -> C;
  hc_refund : string -> string -> C;
  hc_asset_ok : string -> bool;
  hc_accepts : string -> bool;
  hc_balance : W -> string -> string -> Z;
  hc_ready : W -> Prop
}.

(** Escrows change as specified; a sound chain stays sound; on a sound chain
    anyone who can be paid can claim an open escrow of a well-behaved asset with
    the secret, and its beneficiary then has its amount more, and after the
    time lock can return it to its depositor. *)
Class HtlcLaws (W C : Type) `{HtlcChain W C} := {
  exec_cell : forall t c w w' k, hc_ready w -> hc_exec t c w = Some w' ->
    cell_step hc_unlocks t (hc_shows c k) (hc_cell w k) (hc_cell w' k);
  exec_ready : forall t c w w', hc_ready w -> hc_exec t c w = Some w' -> hc_ready w';
  env_cell : forall w w' k, hc_env w w' -> hc_cell w' k = hc_cell w k;
  env_ready : forall w w', hc_ready w -> hc_env w w' -> hc_ready w';
  claim_shows : forall who k secret, hc_shows (hc_claim who k secret) k = Some secret;
  claim_pays : forall t who k secret l w,
    hc_ready w -> hc_cell w k = Some (Open l) -> hc_unlocks (lk_hashlock l) secret = true ->
    hc_asset_ok (lk_asset l) = true -> hc_accepts (lk_beneficiary l) = true ->
    hc_accepts who = true ->
    exists w', hc_exec t (hc_claim who k secret) w = Some w' /\ hc_cell w' k = Some (Claimed l) /\
      hc_balance w (lk_asset l) (lk_beneficiary l) + lk_amount l <=
      hc_balance w' (lk_asset l) (lk_beneficiary l);
  refund_shows : forall who k k', hc_shows (hc_refund who k) k' = None;
  refund_pays : forall t who k l w,
    hc_ready w -> hc_cell w k = Some (Open l) -> lk_timelock l <= t ->
    hc_asset_ok (lk_asset l) = true -> hc_accepts (lk_depositor l) = true ->
    hc_accepts who = true ->
    exists w', hc_exec t (hc_refund who k) w = Some w' /\ hc_cell w' k = Some (Returned l) /\
      hc_balance w (lk_asset l) (lk_depositor l) + lk_amount l <=
      hc_balance w' (lk_asset l) (lk_depositor l)
}.

(** ** Histories of a chain *)

(** Transactions executed so far, with their times in order. *)
Section History.
Context {W C : Type} `{HtlcLaws W C}.

Inductive history : Z -> W -> list (Z * C) -> Z -> W -> Prop :=
  | history_nil t w : history t w [] t w
  | history_cons t t' t'' c w w' w'' l :
      t <= t' -> hc_exec t' c w = Some w' -> history t' w' l t'' w'' ->
      history t w ((t', c) :: l) t'' w''
  | history_env t t' w w' l t'' w'' :
      t <= t' -> hc_env w w' -> history t' w' l t'' w'' -> history t w l t'' w''.

Lemma history_time t w l t' w' : history t w l t' w' -> t <= t'.
Proof. induction 1; lia. Qed.

Lemma history_ready t w l t' w' : hc_ready w -> history t w l t' w' -> hc_ready w'.
Proof. intros Hr Hh. induction Hh; eauto using exec_ready, env_ready. Qed.

(** A secret was presented for the escrow [k] in the history. *)
Definition disclosed (k secret : string) (l : list (Z * C)) : Prop :=
  exists t c, (t, c) ∈ l /\ hc_shows c k = Some secret.

Lemma disclosed_cons k secret x l : disclosed k secret l -> disclosed k secret (x :: l).
Proof. intros (t & c & Hin & Hs). exists t, c. split; [by right|done]. Qed.

(** A closed escrow stays as it is. *)
Lemma closed_stays t w l t' w' k c :
  history t w l t' w' -> hc_ready w ->
  hc_cell w k = Some c -> (forall lk, c <> Open lk) -> hc_cell w' k = Some c.
Proof.
  intros Hh. induction Hh as [|t0 t1 t2 x w0 w1 w2 l0 Ht He Hh IH|t0 t1 w0 w1 l0 t2 w2 Ht He Hh IH];
    auto; intros Hr Hc Hn.
  2: { apply IH; [by eapply env_ready|by rewrite (env_cell _ _ _ He)|done]. }
  apply IH; [by eapply exec_ready| |done].
  pose proof (exec_cell _ _ _ _ k Hr He) as Hs. rewrite Hc in Hs.
  inversion Hs; subst; auto; by edestruct Hn.
Qed.

(** The fate of an open escrow: still open on the same terms, claimed with a
    secret that was presented and fits, or returned after its time lock. *)
Lemma open_fate t w l t' w' k lk :
  history t w l t' w' -> hc_ready w -> hc_cell w k = Some (Open lk) ->
  hc_cell w' k = Some (Open lk) \/
  (hc_cell w' k = Some (Claimed lk) /\
   exists secret, disclosed k secret l /\ hc_unlocks (lk_hashlock lk) secret = true) \/
  (hc_cell w' k = Some (Returned lk) /\ lk_timelock lk <= t').
Proof.
  intros Hh. induction Hh as [|t0 t1 t2 x w0 w1 w2 l0 Ht He Hh IH|t0 t1 w0 w1 l0 t2 w2 Ht He Hh IH];
    auto; intros Hr Hc.
  2: { apply IH; [by eapply env_ready|by rewrite (env_cell _ _ _ He)]. }
  pose proof (exec_cell _ _ _ _ k Hr He) as Hs. rewrite Hc in Hs.
  pose proof (exec_ready _ _ _ _ Hr He) as Hr'.
  destruct (hc_cell w1 k) as [[lk'|lk'|lk']|] eqn:E1; inversion Hs; subst.
  - destruct IH as [?|[(? & s & Hd & ?)|?]]; auto.
    right; left. split; [done|]. exists s. split; [by apply disclosed_cons|done].
  - right; left. split; [by apply (closed_stays _ _ _ _ _ _ _ Hh Hr')|].
    eexists; split; [|done]. exists t1, x. split; [by left|done].
  - right; right. pose proof (history_time _ _ _ _ _ Hh).
    split; [by apply (closed_stays _ _ _ _ _ _ _ Hh Hr')|lia].
Qed.

(** What an open escrow is worth in the world [w]: anybody can claim it with the
    secret, and return it after the time lock. *)
Definition payable_escrow (w : W) (k : string) (lk : Lock) : Prop :=
  forall now who,
    hc_asset_ok (lk_asset lk) = true -> hc_accepts who = true ->
    (forall secret, hc_unlocks (lk_hashlock lk) secret = true ->
       hc_accepts (lk_beneficiary lk) = true ->
       exists w', hc_exec now (hc_claim who k secret) w = Some w' /\
         hc_cell w' k = Some (Claimed lk) /\
         hc_balance w (lk_asset lk) (lk_beneficiary lk) + lk_amount lk <=
         hc_balance w' (lk_asset lk) (lk_beneficiary lk)) /\
    (lk_timelock lk <= now -> hc_accepts (lk_depositor lk) = true ->
       exists w', hc_exec now (hc_refund who k) w = Some w' /\
         hc_cell w' k = Some (Returned lk) /\
         hc_balance w (lk_asset lk) (lk_depositor lk) + lk_amount lk <=
         hc_balance w' (lk_asset lk) (lk_depositor lk)).

Lemma open_payable w k lk : hc_ready w -> hc_cell w k = Some (Open lk) -> payable_escrow w k lk.
Proof.
  intros Hr Hc now who Ha Hw. split; [intros secret Hu Hb; by apply claim_pays|].
  intros Ht Hd. by apply refund_pays.
Qed.
End History.
