(* ===== verification/Evm.v ===== *)
(** * Transactions of the Ethereum contracts

    The machine the Solidity contracts of [contracts/ethereum/contracts] run on,
    as far as they use it: a transaction has a sender, a value and a block time;
    it changes the contract's storage, the native balances, the token ledger and
    the logs, or it reverts and changes nothing. Integers are [uint256]:
    arithmetic that leaves the range reverts. The ERC-20 tokens are other
    contracts: the class [ERC20] is what is called on them, [TokenLaws] what a
    well-behaved token does. A called token does not call the escrow back, and
    [address.transfer] leaves its receiver too little gas to do so. *)

From Stdlib Require Import ZArith Lia.
From stdpp Require Import base numbers list strings gmap.
From S2P Require Import Prelude.
From S2P Require Import ChainService.

Local Open Scope string_scope.
Local Open Scope Z_scope.

(** 20-byte addresses and 32-byte words, by their hex texts. *)
Abbreviation address := string.
Abbreviation bytes32 := string.

Record Msg := { sender : address; value : Z; timestamp : Z }.

Inductive outcome (A : Type) := Success (a : A) | Revert (reason : string).
Arguments Success {A} a.
Arguments Revert {A} reason.

(** ** Tokens *)

(** A call of [transfer] or [transferFrom] by [caller] on a token reverts or
    returns a boolean. *)
Class ERC20 (T : Type) := {
  balanceOf : T -> address -> address -> Z;
  allowance : T -> address -> address -> address -> Z;
  transfer : address -> address -> address -> Z -> T -> option (bool * T);
  transferFrom : address -> address -> address -> address -> Z -> T -> option (bool * T)
}.

(** Balances after [n] units moved. *)
Definition moved (from to a : address) (n : Z) : Z :=
  (if decide (a = to) then n else 0) - (if decide (a = from) then n else 0).

Lemma moved_out from to n : 0 <= n -> - n <= moved from to from n.
Proof. intros Hn. unfold moved. rewrite (decide_True (P := from = from)) by done. case_decide; lia. Qed.

(** The tokens [good]: a transfer of what one has, and a [transferFrom] of what
    was allowed, succeeds and returns true; one that does not revert moves
    exactly its amount, and no call on another token takes from [self]. *)
Class TokenLaws {T : Type} `{ERC20 T} (self : address) (good : address -> bool) := {
  balance_nonneg : forall L t a, 0 <= balanceOf L t a;
  transfer_succeeds : forall t to n L, good t = true -> 0 <= n <= balanceOf L t self ->
    exists L', transfer t self to n L = Some (true, L');
  transfer_moves : forall t to n L b L', good t = true -> transfer t self to n L = Some (b, L') ->
    b = true /\ forall a, balanceOf L' t a = balanceOf L t a + moved self to a n;
  transferFrom_moves : forall t from n L b L', good t = true ->
    transferFrom t self from self n L = Some (b, L') ->
    b = true /\ 0 <= n <= balanceOf L t from /\
    forall a, balanceOf L' t a = balanceOf L t a + moved from self a n;
  transferFrom_succeeds : forall t from n L, good t = true ->
    0 <= n <= balanceOf L t from -> n <= allowance L t from self ->
    exists L', transferFrom t self from self n L = Some (true, L');
  transfer_frame : forall t t' to n L b L', good t = true -> t <> t' ->
    transfer t' self to n L = Some (b, L') -> balanceOf L t self <= balanceOf L' t self;
  transferFrom_frame : forall t t' from n L b L', good t = true -> t <> t' ->
    transferFrom t' self from self n L = Some (b, L') -> balanceOf L t self <= balanceOf L' t self
}.

(** ** The state of a transaction *)

(** An [EscrowCreated], [EscrowWithdrawn] or [EscrowRefunded] event, that of a
    partial-fill order, or one of the permit contract. *)
Inductive Log :=
  | EscrowCreated (escrowId : bytes32) (depositor beneficiary token : address) (amount : Z)
      (hashlock : bytes32) (timelock : Z)
  | EscrowWithdrawn (escrowId secret : bytes32)
  | EscrowRefunded (escrowId : bytes32)
  | PartialFillOrderCreated (baseOrderId : bytes32) (depositor beneficiary : address)
      (totalAmount : Z) (merkleRoot : bytes32) (numFills : Z)
  | PermitUsed (owner spender : address) (value nonce : Z)
  | TransferWithPermit (from to token : address) (amount : Z).

Record Evm (T C : Type) := {
  storage : C;
  eth : gmap address Z;
  ledger : T;
  logs : list Log
}.
Arguments storage {T C}.
Arguments eth {T C}.
Arguments ledger {T C}.
Arguments logs {T C}.

Definition ethOf {T C} (a : address) (w : Evm T C) : Z := default 0 (eth w !! a).

Definition move_eth (from to : address) (n : Z) (m : gmap address Z) : gmap address Z :=
  let m1 := <[from := default 0 (m !! from) - n]> m in
  <[to := default 0 (m1 !! to) + n]> m1.

Lemma move_eth_spec from to n m a :
  default 0 (move_eth from to n m !! a) = default 0 (m !! a) + moved from to a n.
Proof.
  unfold move_eth, moved. destruct (decide (a = to)) as [->|Hto].
  - rewrite lookup_insert_eq. destruct (decide (to = from)) as [->|Hf].
    + rewrite lookup_insert_eq. simpl. lia.
    + rewrite lookup_insert_ne by done. simpl. lia.
  - rewrite lookup_insert_ne by done. destruct (decide (a = from)) as [->|Hf].
    + rewrite lookup_insert_eq. simpl. lia.
    + rewrite lookup_insert_ne by done. lia.
Qed.

Section Calls.
Context {T C : Type} `{ERC20 T}.

(** A step of a transaction. *)
Definition evm (A : Type) := Evm T C -> outcome (A * Evm T C).

Definition eret {A} (a : A) : evm A := fun w => Success (a, w).

Definition ebind {A B} (m : evm A) (k : A -> evm B) : evm B := fun w =>
  match m w with
  | Success (a, w') => k a w'
  | Revert reason => Revert reason
  end.

Definition revert {A} (reason : string) : evm A := fun _ => Revert reason.

Definition require (b : bool) (reason : string) : evm unit :=
  if b then eret tt else revert reason.

(** [if (b) revert E();] *)
Definition revert_if (b : bool) (error : string) : evm unit := require (negb b) error.

Definition load : evm C := fun w => Success (storage w, w).

Definition save (c : C) : evm unit := fun w =>
  Success (tt, {| storage := c; eth := eth w; ledger := ledger w; logs := logs w |}).

Definition emit (l : Log) : evm unit := fun w =>
  Success (tt, {| storage := storage w; eth := eth w; ledger := ledger w;
                  logs := (logs w ++ [l])%list |}).

(** Checked [uint256] arithmetic. *)
Definition uint256 (z : Z) : evm Z :=
  if (0 <=? z) && (z <? 2 ^ 256) then eret z else revert "Panic(0x11)".

Section Transfers.
Context (self : address) (accepts : address -> bool).

(** [payable(to).transfer(n)]: reverts without funds or when the receiver
    refuses. *)
Definition send_eth (to : address) (n : Z) : evm unit := fun w =>
  if (n <=? ethOf self w) && accepts to
  then Success (tt, {| storage := storage w; eth := move_eth self to n (eth w);
                       ledger := ledger w; logs := logs w |})
  else Revert "transfer failed".

(** The value of a transaction arrives before the body runs. *)
Definition payable (m : Msg) : evm unit := fun w =>
  if (0 <=? value m) && (value m <=? ethOf (sender m) w)
  then Success (tt, {| storage := storage w; eth := move_eth (sender m) self (value m) (eth w);
                       ledger := ledger w; logs := logs w |})
  else Revert "insufficient funds".

(** A function that is not [payable] refuses value. *)
Definition nonpayable (m : Msg) : evm unit := require (value m =? 0) "non-payable function".

Definition on_ledger (f : T -> option (bool * T)) : evm bool := fun w =>
  match f (ledger w) with
  | Some (b, L) => Success (b, {| storage := storage w; eth := eth w; ledger := L;
                                  logs := logs w |})
  | None => Revert "token call reverted"
  end.

Definition token_balance (token : address) : evm Z := fun w =>
  Success (balanceOf (ledger w) token self, w).

(** [IERC20(token).transfer(to, n)], its result ignored or, by [SafeERC20],
    required. *)
Definition token_transfer (token to : address) (n : Z) : evm bool :=
  on_ledger (transfer token self to n).

Definition token_transferFrom (token from : address) (n : Z) : evm bool :=
  on_ledger (transferFrom token self from self n).
End Transfers.
End Calls.

Declare Scope evm_scope.
Delimit Scope evm_scope with evm.
Notation "x <-- m ; k" := (ebind m (fun x => k))
  (at level 100, m at next level, right associativity) : evm_scope.
Notation "m ,, k" := (ebind m (fun _ => k))
  (at level 100, right associativity) : evm_scope.

(** The world after a transaction, if it does not revert. *)
Definition world_after {T C A} (r : outcome (A * Evm T C)) : option (Evm T C) :=
  match r with Success (_, w) => Some w | Revert _ => None end.

(** ** Inversion of a successful step *)

Section Inversion.
Context {T C : Type} `{ERC20 T}.
Implicit Types (w : Evm T C).

Lemma ebind_success {A B} (m : evm A) (k : A -> evm B) w r :
  ebind m k w = Success r -> exists a w1, m w = Success (a, w1) /\ k a w1 = Success r.
Proof. unfold ebind. destruct (m w) as [[a w1]|]; [eauto|done]. Qed.

Lemma require_success b reason w u w' :
  require (T := T) (C := C) b reason w = Success (u, w') -> b = true /\ w' = w.
Proof. unfold require. destruct b; [by intros [= _ ->]|done]. Qed.

Lemma uint256_success z w a w' :
  uint256 (T := T) (C := C) z w = Success (a, w') -> a = z /\ w' = w /\ 0 <= z < 2 ^ 256.
Proof.
  unfold uint256. destruct ((0 <=? z) && (z <? 2 ^ 256)) eqn:E; [|done].
  apply andb_true_iff in E as [??]. intros [= -> ->]. zbool. auto.
Qed.

Lemma send_eth_success self accepts to n w u w' :
  send_eth (T := T) (C := C) self accepts to n w = Success (u, w') ->
  n <= ethOf self w /\ storage w' = storage w /\ ledger w' = ledger w /\
  forall a, ethOf a w' = ethOf a w + moved self to a n.
Proof.
  unfold send_eth. destruct ((n <=? ethOf self w) && accepts to) eqn:E; [|done].
  apply andb_true_iff in E as [? _]. intros [= _ <-]. zbool. split_and!; [done..|].
  intros a. unfold ethOf. simpl. apply move_eth_spec.
Qed.

Lemma payable_success self m w u w' :
  payable (T := T) (C := C) self m w = Success (u, w') ->
  0 <= value m /\ storage w' = storage w /\ ledger w' = ledger w /\
  forall a, ethOf a w' = ethOf a w + moved (sender m) self a (value m).
Proof.
  unfold payable. destruct (_ && _) eqn:E; [|done].
  apply andb_true_iff in E as [? _]. intros [= _ <-]. zbool. split_and!; [done..|].
  intros a. unfold ethOf. simpl. apply move_eth_spec.
Qed.

Lemma on_ledger_success f w b w' :
  on_ledger (T := T) (C := C) f w = Success (b, w') ->
  storage w' = storage w /\ eth w' = eth w /\ f (ledger w) = Some (b, ledger w').
Proof. unfold on_ledger. destruct (f (ledger w)) as [[b0 L]|]; [|done]. by intros [= -> <-]. Qed.
End Inversion.

(** Takes a hypothesis [H : (x <-- m ; k) w = Success r] apart. *)
Ltac evm_inv H :=
  lazymatch type of H with
  | ebind _ _ _ = Success _ =>
      let a := fresh "x" in let w1 := fresh "w" in let H1 := fresh "Hx" in
      apply ebind_success in H as (a & w1 & H1 & H); evm_inv H1; evm_inv H
  | require _ _ _ = Success (_, _) =>
      let Hb := fresh "Hg" in apply require_success in H as [Hb ->]
  | revert_if _ _ _ = Success (_, _) =>
      let Hb := fresh "Hg" in unfold revert_if in H; apply require_success in H as [Hb ->];
      apply negb_true_iff in Hb
  | nonpayable _ _ = Success (_, _) =>
      let Hb := fresh "Hg" in unfold nonpayable in H; apply require_success in H as [Hb ->]
  | uint256 _ _ = Success (_, _) =>
      let Hb := fresh "Hu" in apply uint256_success in H as (-> & -> & Hb)
  | load _ = Success (_, _) => injection H as <- <-
  | eret _ _ = Success (_, _) => injection H as <- <-
  | save _ _ = Success (_, _) => injection H as _ <-
  | emit _ _ = Success (_, _) => injection H as _ <-
  | _ => idtac
  end.

(** ** A token ledger for concrete runs *)

(** Balances and allowances by token; [lenient] tokens let an owner move its
    own funds by [transferFrom] without an allowance. *)
Record Plain := {
  pl_balance : gmap (address * address) N;
  pl_allowance : gmap (address * address * address) Z
}.

Definition pl_of (L : Plain) (t a : address) : Z := Z.of_N (default 0%N (pl_balance L !! (t, a))).

Definition pl_put (t a : address) (n : Z) (L : Plain) : Plain :=
  {| pl_balance := <[(t, a) := Z.to_N n]> (pl_balance L); pl_allowance := pl_allowance L |}.

Definition pl_move (t from to : address) (n : Z) (L : Plain) : option (bool * Plain) :=
  if (0 <=? n) && (n <=? pl_of L t from) then
    let L1 := pl_put t from (pl_of L t from - n) L in
    Some (true, pl_put t to (pl_of L1 t to + n) L1)
  else None.

Definition pl_transferFrom (lenient : bool) (t caller from to : address) (n : Z) (L : Plain)
    : option (bool * Plain) :=
  if lenient && bool_decide (from = caller) then pl_move t from to n L
  else
    let a := default 0 (pl_allowance L !! (t, from, caller)) in
    if n <=? a then
      pl_move t from to n
        {| pl_balance := pl_balance L; pl_allowance := <[(t, from, caller) := a - n]> (pl_allowance L) |}
    else None.

Definition plain_token (lenient : bool) : ERC20 Plain := {|
  balanceOf := pl_of;
  allowance := fun L t o s => default 0 (pl_allowance L !! (t, o, s));
  transfer := pl_move;
  transferFrom := pl_transferFrom lenient
|}.

Lemma pl_of_put t a n L t' a' :
  0 <= n -> pl_of (pl_put t a n L) t' a' = if decide ((t', a') = (t, a)) then n else pl_of L t' a'.
Proof.
  intros Hn. unfold pl_of, pl_put. simpl. destruct (decide ((t', a') = (t, a))) as [[= -> ->]|Hne].
  - rewrite lookup_insert_eq. simpl. lia.
  - by rewrite lookup_insert_ne by congruence.
Qed.

Lemma pl_of_nonneg L t a : 0 <= pl_of L t a.
Proof. unfold pl_of. lia. Qed.

Lemma pl_move_spec t from to n L b L' :
  pl_move t from to n L = Some (b, L') ->
  b = true /\ 0 <= n <= pl_of L t from /\
  forall t' a, pl_of L' t' a = pl_of L t' a + if decide (t' = t) then moved from to a n else 0.
Proof.
  unfold pl_move. destruct (_ && _) eqn:E; [|done]. apply andb_true_iff in E as [E1 E2].
  intros [= <- <-]. zbool. split; [done|]. split; [done|]. intros t' a.
  pose proof (pl_of_nonneg (pl_put t from (pl_of L t from - n) L) t to).
  rewrite !pl_of_put by lia. unfold moved. rewrite pl_of_put in * by lia.
  repeat case_decide; simplify_eq; try lia; naive_solver lia.
Qed.

(** These tokens are well-behaved, lenient or not. *)
Lemma plain_token_laws (lenient : bool) (self : address) (good : address -> bool) :
  @TokenLaws Plain (plain_token lenient) self good.
Proof.
  assert (forall t caller from to n L b L',
    pl_transferFrom lenient t caller from to n L = Some (b, L') ->
    b = true /\ 0 <= n <= pl_of L t from /\
    forall t' a, pl_of L' t' a = pl_of L t' a + if decide (t' = t) then moved from to a n else 0)
    as Hfrom.
  { intros t caller from to n L b L'. unfold pl_transferFrom.
    destruct (lenient && _); [apply pl_move_spec|]. destruct (n <=? _); [|done].
    intros Hm. by apply pl_move_spec in Hm. }
  split; simpl.
  - apply pl_of_nonneg.
  - intros t to n L _ [H0 H1]. unfold pl_move.
    apply Z.leb_le in H0, H1. rewrite H0, H1. by eexists.
  - intros t to n L b L' _ Hm. apply pl_move_spec in Hm as (-> & _ & Hm). split; [done|].
    intros a. rewrite Hm. by rewrite decide_True.
  - intros t from n L b L' _ Hm. apply Hfrom in Hm as (-> & Hn & Hm). split_and!; [done|apply Hn..|].
    intros a. rewrite Hm. by rewrite decide_True.
  - intros t from n L _ [H0 H1] Ha. unfold pl_transferFrom, pl_move.
    apply Z.leb_le in H0, H1, Ha. rewrite Ha.
    destruct (lenient && _); [rewrite H0, H1; by eexists|].
    change (pl_of {| pl_balance := pl_balance L; pl_allowance := _ |} t from) with (pl_of L t from).
    rewrite H0, H1. by eexists.
  - intros t t' to n L b L' _ Hne Hm. apply pl_move_spec in Hm as (_ & _ & Hm).
    rewrite Hm, decide_False by congruence. lia.
  - intros t t' from n L b L' _ Hne Hm. apply Hfrom in Hm as (_ & _ & Hm).
    rewrite Hm, decide_False by congruence. lia.
Qed.
