(* ===== verification/SolEscrow.v ===== *)
(** * Escrows of the Solidity contracts

    The [Escrow] struct that [FusionPlusEscrowV2.sol] and
    [FusionPlusGaslessEscrowV2.sol] share, [withdraw] and [refund] up to the
    payment, in which the two contracts differ, what the contract owes, and how
    its storage refines the specification of [Htlc]. *)

From Stdlib Require Import ZArith Lia.
From stdpp Require Import base numbers list strings gmap.
From S2P Require Import Prelude.
From S2P Require Import PartialFill.
From S2P Require Import ChainService.
From S2P Require Import Htlc.
From S2P Require Import Evm.

Local Open Scope string_scope.
Local Open Scope Z_scope.
Local Open Scope evm_scope.

Record Escrow := {
  e_depositor : address;
  e_beneficiary : address;
  e_token : address;
  e_amount : Z;
  e_hashlock : bytes32;
  e_timelock : Z;
  e_withdrawn : bool;
  e_refunded : bool;
  e_safetyDeposit : Z
}.

(** What a mapping holds where nothing was stored. *)
Definition no_escrow : Escrow :=
  {| e_depositor := ZeroAddress; e_beneficiary := ZeroAddress; e_token := ZeroAddress;
     e_amount := 0; e_hashlock := ZeroAddress; e_timelock := 0; e_withdrawn := false;
     e_refunded := false; e_safetyDeposit := 0 |}.

Abbreviation Escrows := (gmap bytes32 Escrow).

Definition escrow_at (k : bytes32) (m : Escrows) : Escrow := default no_escrow (m !! k).

(** [escrows[k].depositor != address(0)] *)
Definition stored (e : Escrow) : bool := negb (String.eqb (e_depositor e) ZeroAddress).

Definition mark_withdrawn (e : Escrow) : Escrow :=
  {| e_depositor := e_depositor e; e_beneficiary := e_beneficiary e; e_token := e_token e;
     e_amount := e_amount e; e_hashlock := e_hashlock e; e_timelock := e_timelock e;
     e_withdrawn := true; e_refunded := e_refunded e; e_safetyDeposit := e_safetyDeposit e |}.

Definition mark_refunded (e : Escrow) : Escrow :=
  {| e_depositor := e_depositor e; e_beneficiary := e_beneficiary e; e_token := e_token e;
     e_amount := e_amount e; e_hashlock := e_hashlock e; e_timelock := e_timelock e;
     e_withdrawn := e_withdrawn e; e_refunded := true; e_safetyDeposit := e_safetyDeposit e |}.

(** Storage with a mapping of escrows. *)
Class HasEscrows (C : Type) := {
  escrows : C -> Escrows;
  set_escrows : Escrows -> C -> C
}.

Class HasEscrowsLaws (C : Type) `{HasEscrows C} := {
  escrows_set : forall m c, escrows (set_escrows m c) = m
}.

Section Contract.
Context `{Ethers} {T C : Type} `{ERC20 T, HasEscrows C}.
Context (self : address) (accepts : address -> bool).
(** How the contract pays an escrow out. *)
Context (pay : Escrow -> address -> evm (T := T) (C := C) unit).

Definition pay_deposit (m : Msg) (escrow : Escrow) : evm (T := T) (C := C) unit :=
  if 0 <? e_safetyDeposit escrow
  then send_eth self accepts (sender m) (e_safetyDeposit escrow) else eret tt.

(** The requirements that [withdraw] and [refund] share. *)
Definition require_open (escrow : Escrow) : evm (T := T) (C := C) unit :=
  require (stored escrow) "Escrow does not exist",,
  require (negb (e_withdrawn escrow)) "Already withdrawn",,
  require (negb (e_refunded escrow)) "Already refunded".

Definition withdraw_with (m : Msg) (escrowId secret : bytes32) : evm (T := T) (C := C) unit :=
  nonpayable m,,
  c <-- load;
  let escrow := escrow_at escrowId (escrows c) in
  require_open escrow,,
  require (String.eqb (keccak256 secret) (e_hashlock escrow)) "Invalid secret",,
  save (set_escrows (<[escrowId := mark_withdrawn escrow]> (escrows c)) c),,
  pay escrow (e_beneficiary escrow),,
  pay_deposit m escrow,,
  emit (EscrowWithdrawn escrowId secret).

Definition refund_with (m : Msg) (escrowId : bytes32) : evm (T := T) (C := C) unit :=
  nonpayable m,,
  c <-- load;
  let escrow := escrow_at escrowId (escrows c) in
  require_open escrow,,
  require (e_timelock escrow <=? timestamp m) "Timelock not expired",,
  save (set_escrows (<[escrowId := mark_refunded escrow]> (escrows c)) c),,
  pay escrow (e_depositor escrow),,
  pay_deposit m escrow,,
  emit (EscrowRefunded escrowId).
End Contract.

(** ** The specification an escrow refines *)

Definition lock_of (e : Escrow) : Lock :=
  {| lk_depositor := e_depositor e; lk_beneficiary := e_beneficiary e; lk_asset := e_token e;
     lk_amount := e_amount e; lk_hashlock := e_hashlock e; lk_timelock := e_timelock e |}.

Definition cell_of (e : Escrow) : option Cell :=
  if stored e then
    Some (if e_withdrawn e then Claimed (lock_of e)
          else if e_refunded e then Returned (lock_of e) else Open (lock_of e))
  else None.

Definition cell_at (m : Escrows) (k : bytes32) : option Cell := cell_of (escrow_at k m).

Definition is_open (e : Escrow) : bool := stored e && negb (e_withdrawn e) && negb (e_refunded e).

Lemma escrow_at_insert k e m k' :
  escrow_at k' (<[k := e]> m) = if decide (k' = k) then e else escrow_at k' m.
Proof.
  unfold escrow_at. destruct (decide (k' = k)) as [->|Hk].
  - by rewrite lookup_insert_eq.
  - by rewrite lookup_insert_ne by done.
Qed.

Lemma cell_open m k l :
  cell_at m k = Some (Open l) <-> is_open (escrow_at k m) = true /\ l = lock_of (escrow_at k m).
Proof.
  unfold cell_at, cell_of, is_open. destruct (stored _), (e_withdrawn _), (e_refunded _); simpl;
    split; naive_solver.
Qed.

(** Storing an open escrow where there was none is a step of the specification. *)
Lemma open_cell unlocks now m k e :
  stored (escrow_at k m) = false -> e_withdrawn e = false -> e_refunded e = false ->
  0 <= e_amount e -> now < e_timelock e ->
  forall k' shown, cell_step unlocks now shown (cell_at m k') (cell_at (<[k := e]> m) k').
Proof.
  intros Hnew Hw Hr Ha Ht k' shown. unfold cell_at. rewrite escrow_at_insert.
  destruct (decide (k' = k)) as [->|Hne]; [|apply cell_same].
  unfold cell_of at 1. rewrite Hnew. unfold cell_of. destruct (stored e); [|apply cell_same].
  rewrite Hw, Hr. by apply cell_lock.
Qed.

(** ** What the contract owes *)

Section Owed.
Context (native : address -> bool).

(** Units of the token [t], and wei, that the contract owes for an escrow. *)
Definition owed_token (t : address) (e : Escrow) : Z :=
  if is_open e && negb (native (e_token e)) && bool_decide (e_token e = t) then e_amount e else 0.

Definition owed_eth (e : Escrow) : Z :=
  if is_open e then e_safetyDeposit e + (if native (e_token e) then e_amount e else 0) else 0.

Definition sane (e : Escrow) : Prop := 0 <= e_amount e /\ 0 <= e_safetyDeposit e.

Lemma owed_token_nonneg t e : sane e -> 0 <= owed_token t e.
Proof. intros [??]. unfold owed_token. case_match; lia. Qed.

Lemma owed_eth_nonneg e : sane e -> 0 <= owed_eth e.
Proof. intros [??]. unfold owed_eth. repeat case_match; lia. Qed.

Section Solvent.
Context {T C : Type} `{ERC20 T, HasEscrows C} (self : address) (good : address -> bool).

Record solvent (w : Evm T C) : Prop := {
  sv_sane : forall k e, escrows (storage w) !! k = Some e -> sane e;
  sv_token : forall t, good t = true ->
    map_sum (owed_token t) (escrows (storage w)) <= balanceOf (ledger w) t self;
  sv_eth : map_sum owed_eth (escrows (storage w)) <= ethOf self w
}.

Lemma solvent_at w k : solvent w -> sane (escrow_at k (escrows (storage w))).
Proof.
  intros Hs. unfold escrow_at. destruct (_ !! k) as [e|] eqn:E; [by apply (sv_sane w Hs k)|].
  split; simpl; lia.
Qed.

(** Storing an escrow changes what is owed by the difference. *)
Lemma owed_insert (f : Escrow -> Z) (m : Escrows) k e :
  f no_escrow = 0 ->
  map_sum f (<[k := e]> m) = map_sum f m + f e - f (escrow_at k m).
Proof. intros Hf. rewrite map_sum_insert. unfold escrow_at. destruct (m !! k); simpl; lia. Qed.

Lemma owed_token_none t : owed_token t no_escrow = 0.
Proof. reflexivity. Qed.

Lemma owed_eth_none : owed_eth no_escrow = 0.
Proof. reflexivity. Qed.

(** What is owed for one escrow is covered. *)
Lemma solvent_covers w k :
  solvent w -> let e := escrow_at k (escrows (storage w)) in
  (forall t, good t = true -> owed_token t e <= balanceOf (ledger w) t self) /\
  owed_eth e <= ethOf self w.
Proof.
  intros Hs e. assert (forall f, f no_escrow = 0 -> (forall x, sane x -> 0 <= f x) ->
    f e <= map_sum f (escrows (storage w))) as Hf.
  { intros f Hz Hpos. subst e. unfold escrow_at. destruct (_ !! k) as [x|] eqn:E; simpl.
    - apply (map_sum_lookup f _ k); [|done]. intros k' x' Hk. apply Hpos. by apply (sv_sane w Hs k').
    - rewrite Hz. apply map_sum_nonneg. intros k' x' Hk. apply Hpos. by apply (sv_sane w Hs k'). }
  split.
  - intros t Ht. etrans; [apply Hf|by apply sv_token]; [done|]. intros x. apply owed_token_nonneg.
  - etrans; [apply Hf|by apply sv_eth]; [done|]. apply owed_eth_nonneg.
Qed.

(** Storing a funded escrow where there was none keeps the contract solvent. *)
Lemma open_solvent w0 w1 k e :
  solvent w0 -> stored (escrow_at k (escrows (storage w0))) = false ->
  escrows (storage w1) = <[k := e]> (escrows (storage w0)) -> sane e ->
  (forall t, good t = true ->
     balanceOf (ledger w0) t self +
       (if negb (native (e_token e)) && bool_decide (e_token e = t) then e_amount e else 0)
     <= balanceOf (ledger w1) t self) ->
  ethOf self w0 + (if native (e_token e) then e_amount e else 0) + e_safetyDeposit e
    <= ethOf self w1 ->
  solvent w1.
Proof.
  intros Hs Hnew Hm [Hamt Hdep] Ht He.
  assert (is_open (escrow_at k (escrows (storage w0))) = false) as Hno
    by (unfold is_open; by rewrite Hnew).
  split; rewrite Hm.
  - intros k0 e0. rewrite lookup_insert_Some. intros [[<- <-]|[_ Hk]]; [done|].
    by apply (sv_sane w0 Hs k0).
  - intros t Hg. rewrite owed_insert by done. specialize (Ht t Hg).
    pose proof (sv_token w0 Hs t Hg) as Hold. unfold owed_token at 2 3. rewrite Hno. simpl.
    destruct (is_open e); simpl; [lia|]. destruct (_ && _) in Ht; lia.
  - rewrite owed_insert by done. pose proof (sv_eth w0 Hs) as Hold.
    unfold owed_eth at 2 3. rewrite Hno. destruct (is_open e), (native (e_token e)); lia.
Qed.
End Solvent.
End Owed.

(** ** Withdrawals and refunds *)

Section Closing.
Context `{Ethers} {T C : Type} `{ERC20 T} `{HasEscrowsLaws C}.
Context (self : address) (accepts good native : address -> bool).
Context (pay : Escrow -> address -> evm (T := T) (C := C) unit).
(** A property of the ledger that payments keep. *)
Context (keeps : T -> Prop).

Definition asset_balance (w : Evm T C) (t a : address) : Z :=
  if native t then ethOf a w else balanceOf (ledger w) t a.

(** A payment leaves the storage, costs what is owed for the escrow, gives it to
    the receiver, and succeeds when it is covered. *)
Record payment : Prop := {
  pay_cost : forall e to w w' u, sane e -> pay e to w = Success (u, w') ->
    storage w' = storage w /\ (keeps (ledger w) -> keeps (ledger w')) /\
    (forall t, good t = true ->
       balanceOf (ledger w) t self -
         (if negb (native (e_token e)) && bool_decide (e_token e = t) then e_amount e else 0)
       <= balanceOf (ledger w') t self) /\
    ethOf self w - (if native (e_token e) then e_amount e else 0) <= ethOf self w';
  pay_gives : forall e to w w' u, sane e -> to <> self ->
    native (e_token e) || good (e_token e) = true -> pay e to w = Success (u, w') ->
    asset_balance w (e_token e) to + e_amount e <= asset_balance w' (e_token e) to;
  pay_works : forall e to w, sane e -> accepts to = true ->
    native (e_token e) || good (e_token e) = true ->
    (native (e_token e) = false -> e_amount e <= balanceOf (ledger w) (e_token e) self) ->
    (if native (e_token e) then e_amount e else 0) <= ethOf self w ->
    exists w', pay e to w = Success (tt, w')
}.
Context (Hpay : payment).

Lemma pay_deposit_cost m e (w : Evm T C) u w' :
  sane e -> pay_deposit self accepts m e w = Success (u, w') ->
  storage w' = storage w /\ ledger w' = ledger w /\
  ethOf self w - e_safetyDeposit e <= ethOf self w'.
Proof.
  intros [_ Hd]. unfold pay_deposit. destruct (0 <? e_safetyDeposit e).
  - intros Hs. apply send_eth_success in Hs as (_ & -> & -> & ->). split_and!; [done..|].
    pose proof (moved_out self (sender m) _ Hd). lia.
  - intros [= _ <-]. split_and!; [done..|lia].
Qed.

Lemma pay_deposit_gives m e (w : Evm T C) u w' t a :
  sane e -> a <> self -> pay_deposit self accepts m e w = Success (u, w') ->
  asset_balance w t a <= asset_balance w' t a.
Proof.
  intros [_ Hd] Ha. unfold pay_deposit, asset_balance. destruct (0 <? e_safetyDeposit e).
  - intros Hs. apply send_eth_success in Hs as (_ & _ & -> & ->). unfold moved.
    rewrite (decide_False (P := a = self)) by done. destruct (native t); [case_decide; lia|lia].
  - intros [= _ <-]. lia.
Qed.

Lemma require_open_success e (w : Evm T C) u w' :
  require_open e w = Success (u, w') -> is_open e = true /\ w' = w.
Proof.
  unfold require_open. intros Hr. evm_inv Hr. unfold is_open. rewrite Hg, Hg0, Hg1. done.
Qed.

(** The part of [withdraw] and [refund] after the requirements: [e] is replaced
    by its closed version and paid out. *)
Definition close_with (m : Msg) (k : bytes32) (e e' : Escrow) (to : address) (l : Log)
    (c : C) : evm unit :=
  save (set_escrows (<[k := e']> (escrows c)) c),, pay e to,,
  pay_deposit self accepts m e,, emit l.

Lemma close_storage m k e e' to l c (w : Evm T C) u w' :
  sane e -> close_with m k e e' to l c w = Success (u, w') ->
  storage w' = set_escrows (<[k := e']> (escrows c)) c.
Proof.
  intros Hse Hc. unfold close_with in Hc.
  apply ebind_success in Hc as (? & w1 & Hsv & Hc). evm_inv Hsv.
  apply ebind_success in Hc as (? & wp & Hp & Hc).
  apply ebind_success in Hc as (? & wd & Hd & Hc). evm_inv Hc.
  apply (pay_cost Hpay) in Hp as (S1 & _); [|done].
  apply pay_deposit_cost in Hd as (S2 & _); [|done]. simpl in *. congruence.
Qed.

Lemma close_solvent m k e' to l (w : Evm T C) u w' :
  let e := escrow_at k (escrows (storage w)) in
  solvent native self good w -> is_open e = true -> is_open e' = false -> sane e' ->
  close_with m k e e' to l (storage w) w = Success (u, w') ->
  solvent native self good w' /\ (keeps (ledger w) -> keeps (ledger w')) /\
  escrows (storage w') = <[k := e']> (escrows (storage w)).
Proof.
  intros e Hs Ho Ho' Hse' Hc. pose proof (solvent_at _ _ _ w k Hs) as Hse. fold e in Hse.
  unfold close_with in Hc. apply ebind_success in Hc as (? & w1 & Hsv & Hc). evm_inv Hsv.
  apply ebind_success in Hc as (? & wp & Hp & Hc).
  apply ebind_success in Hc as (? & wd & Hd & Hc). evm_inv Hc.
  apply (pay_cost Hpay) in Hp as (S1 & K1 & T1 & E1); [|done].
  apply pay_deposit_cost in Hd as (S2 & L2 & E2); [|done].
  simpl in *. rewrite S1 in S2. clear S1.
  assert (escrows (storage wd) = <[k := e']> (escrows (storage w))) as Hm
    by (rewrite S2; apply escrows_set).
  split_and!; [split; simpl; rewrite ?Hm|by rewrite L2|done].
  - intros k0 e0. rewrite lookup_insert_Some. intros [[<- <-]|[_ Hk]]; [done|].
    by apply (sv_sane _ _ _ w Hs k0).
  - intros t Ht. rewrite owed_insert by done. fold e. rewrite L2.
    specialize (T1 t Ht). pose proof (sv_token _ _ _ w Hs t Ht) as Hsum.
    assert (owed_token native t e' = 0) as -> by (unfold owed_token; by rewrite Ho').
    unfold owed_token at 2. rewrite Ho. simpl. lia.
  - rewrite owed_insert by done. fold e.
    assert (owed_eth native e' = 0) as -> by (unfold owed_eth; by rewrite Ho').
    unfold owed_eth at 2. rewrite Ho. pose proof (sv_eth _ _ _ w Hs) as Hsum.
    unfold ethOf in *. simpl in *. lia.
Qed.

(** The payment reaches its receiver. *)
Lemma close_gives m k e e' to l c (w : Evm T C) u w' :
  sane e -> to <> self -> native (e_token e) || good (e_token e) = true ->
  close_with m k e e' to l c w = Success (u, w') ->
  asset_balance w (e_token e) to + e_amount e <= asset_balance w' (e_token e) to.
Proof.
  intros Hse Hto Hgood Hc. unfold close_with in Hc.
  apply ebind_success in Hc as (? & w1 & Hsv & Hc). evm_inv Hsv.
  apply ebind_success in Hc as (? & wp & Hp & Hc).
  apply ebind_success in Hc as (? & wd & Hd & Hc). evm_inv Hc.
  apply (pay_gives Hpay) in Hp; [|done..].
  apply (pay_deposit_gives _ _ _ _ _ (e_token e) to) in Hd; [|done..].
  unfold asset_balance, ethOf in *. simpl in *. lia.
Qed.

Lemma withdraw_success m k secret (w : Evm T C) u w' :
  withdraw_with self accepts pay m k secret w = Success (u, w') ->
  let e := escrow_at k (escrows (storage w)) in
  is_open e = true /\ keccak256 secret = e_hashlock e /\
  close_with m k e (mark_withdrawn e) (e_beneficiary e) (EscrowWithdrawn k secret) (storage w) w
    = Success (u, w').
Proof.
  unfold withdraw_with. intros Hw. apply ebind_success in Hw as (? & ? & Hn & Hw). evm_inv Hn.
  apply ebind_success in Hw as (? & ? & Hl & Hw). evm_inv Hl. simpl.
  apply ebind_success in Hw as (? & ? & Ho & Hw). apply require_open_success in Ho as [Ho ->].
  apply ebind_success in Hw as (? & ? & Hk & Hw). evm_inv Hk. apply String.eqb_eq in Hg0. done.
Qed.

Lemma refund_success m k (w : Evm T C) u w' :
  refund_with self accepts pay m k w = Success (u, w') ->
  let e := escrow_at k (escrows (storage w)) in
  is_open e = true /\ e_timelock e <= timestamp m /\
  close_with m k e (mark_refunded e) (e_depositor e) (EscrowRefunded k) (storage w) w
    = Success (u, w').
Proof.
  unfold refund_with. intros Hw. apply ebind_success in Hw as (? & ? & Hn & Hw). evm_inv Hn.
  apply ebind_success in Hw as (? & ? & Hl & Hw). evm_inv Hl. simpl.
  apply ebind_success in Hw as (? & ? & Ho & Hw). apply require_open_success in Ho as [Ho ->].
  apply ebind_success in Hw as (? & ? & Hk & Hw). evm_inv Hk. zbool. done.
Qed.

Lemma mark_withdrawn_closed e : is_open (mark_withdrawn e) = false.
Proof. unfold is_open. simpl. by rewrite andb_false_r. Qed.

Lemma mark_refunded_closed e : is_open (mark_refunded e) = false.
Proof. unfold is_open. simpl. by rewrite !andb_false_r. Qed.

(** The unlocking test of the contracts. *)
Definition keccak_unlocks (hashlock secret : bytes32) : bool :=
  String.eqb (keccak256 secret) hashlock.

Lemma withdraw_step m k secret (w : Evm T C) u w' :
  solvent native self good w -> withdraw_with self accepts pay m k secret w = Success (u, w') ->
  solvent native self good w' /\ (keeps (ledger w) -> keeps (ledger w')) /\
  forall k', cell_step keccak_unlocks (timestamp m) (if decide (k' = k) then Some secret else None)
    (cell_at (escrows (storage w)) k') (cell_at (escrows (storage w')) k').
Proof.
  intros Hs Hw. apply withdraw_success in Hw as (Ho & Hh & Hc).
  pose proof (solvent_at _ _ _ w k Hs) as Hse.
  apply close_solvent in Hc as (Hs' & Hk & Hm); [|done..|apply mark_withdrawn_closed|done].
  split_and!; [done..|]. intros k'. rewrite Hm. unfold cell_at. rewrite escrow_at_insert.
  destruct (decide (k' = k)) as [->|Hne]; [|apply cell_same].
  set (e := escrow_at k _) in *. unfold is_open in Ho. rewrite !andb_true_iff, !negb_true_iff in Ho.
  destruct Ho as [[Ho1 Ho2] Ho3]. unfold cell_of.
  change (stored (mark_withdrawn e)) with (stored e). rewrite Ho1, Ho2, Ho3. simpl.
  apply (cell_claim _ _ _ (lock_of e) secret); [done|]. by apply String.eqb_eq.
Qed.

Lemma refund_step m k (w : Evm T C) u w' :
  solvent native self good w -> refund_with self accepts pay m k w = Success (u, w') ->
  solvent native self good w' /\ (keeps (ledger w) -> keeps (ledger w')) /\
  forall k' shown, cell_step keccak_unlocks (timestamp m) shown
    (cell_at (escrows (storage w)) k') (cell_at (escrows (storage w')) k').
Proof.
  intros Hs Hw. apply refund_success in Hw as (Ho & Hh & Hc).
  pose proof (solvent_at _ _ _ w k Hs) as Hse.
  apply close_solvent in Hc as (Hs' & Hk & Hm); [|done..|apply mark_refunded_closed|done].
  split_and!; [done..|]. intros k' shown. rewrite Hm. unfold cell_at. rewrite escrow_at_insert.
  destruct (decide (k' = k)) as [->|Hne]; [|apply cell_same].
  set (e := escrow_at k _) in *. unfold is_open in Ho. rewrite !andb_true_iff, !negb_true_iff in Ho.
  destruct Ho as [[Ho1 Ho2] Ho3]. unfold cell_of.
  change (stored (mark_refunded e)) with (stored e).
  change (e_withdrawn (mark_refunded e)) with (e_withdrawn e). rewrite Ho1, Ho2, Ho3. simpl.
  by apply (cell_return _ _ _ (lock_of e)).
Qed.

(** On a solvent contract an open escrow can be paid out. *)
Lemma close_works m k e' to l (w : Evm T C) :
  let e := escrow_at k (escrows (storage w)) in
  solvent native self good w -> is_open e = true ->
  native (e_token e) || good (e_token e) = true ->
  accepts to = true -> accepts (sender m) = true ->
  exists w', close_with m k e e' to l (storage w) w = Success (tt, w').
Proof.
  intros e Hs Ho Hgood Hb Ha. pose proof (solvent_at _ _ _ w k Hs) as Hse. fold e in Hse.
  destruct (solvent_covers _ _ _ w k Hs) as [Ht He]. fold e in Ht, He.
  unfold owed_eth in He. rewrite Ho in He. destruct Hse as [Hamt Hdep].
  unfold close_with, ebind. cbn [save]. set (w1 := {| storage := set_escrows _ _ |}).
  destruct (pay_works Hpay e to w1) as [w2 Hw2]; [done|done|done|..].
  { intros Hnat. rewrite Hnat in Hgood. simpl in Hgood. specialize (Ht _ Hgood).
    unfold owed_token in Ht. rewrite Ho, Hnat, bool_decide_true in Ht by done. exact Ht. }
  { unfold ethOf in *. simpl. lia. }
  rewrite Hw2. apply (pay_cost Hpay) in Hw2 as (_ & _ & _ & E2); [|done].
  assert (ethOf self w1 = ethOf self w) as Ew by done. rewrite Ew in E2.
  unfold pay_deposit. destruct (0 <? e_safetyDeposit e); [|by eexists].
  unfold send_eth. rewrite Ha.
  assert ((e_safetyDeposit e <=? ethOf self w2) = true) as -> by (apply Z.leb_le; lia).
  by eexists.
Qed.

Lemma require_open_works e (w : Evm T C) : is_open e = true -> require_open e w = Success (tt, w).
Proof.
  unfold is_open. rewrite !andb_true_iff. intros [[Ho1 Ho2] Ho3].
  unfold require_open, ebind. by rewrite Ho1, Ho2, Ho3.
Qed.

Lemma withdraw_is_close m k secret (w : Evm T C) :
  let e := escrow_at k (escrows (storage w)) in
  is_open e = true -> keccak256 secret = e_hashlock e -> value m = 0 ->
  withdraw_with self accepts pay m k secret w =
  close_with m k e (mark_withdrawn e) (e_beneficiary e) (EscrowWithdrawn k secret) (storage w) w.
Proof.
  intros e Ho Hh Hv. unfold withdraw_with, nonpayable. unfold ebind at 1. rewrite Hv. simpl.
  unfold ebind at 1. cbn [load]. fold e. unfold ebind at 1. rewrite require_open_works by done.
  unfold ebind at 1. rewrite Hh, String.eqb_refl. reflexivity.
Qed.

Lemma refund_is_close m k (w : Evm T C) :
  let e := escrow_at k (escrows (storage w)) in
  is_open e = true -> e_timelock e <= timestamp m -> value m = 0 ->
  refund_with self accepts pay m k w =
  close_with m k e (mark_refunded e) (e_depositor e) (EscrowRefunded k) (storage w) w.
Proof.
  intros e Ho Ht Hv. unfold refund_with, nonpayable. unfold ebind at 1. rewrite Hv. simpl.
  unfold ebind at 1. cbn [load]. fold e. unfold ebind at 1. rewrite require_open_works by done.
  unfold ebind at 1. apply Z.leb_le in Ht. rewrite Ht. reflexivity.
Qed.

(** An open escrow is claimed with its secret and pays its beneficiary. *)
Lemma withdraw_pays m k secret (w : Evm T C) :
  let e := escrow_at k (escrows (storage w)) in
  solvent native self good w -> is_open e = true -> keccak256 secret = e_hashlock e ->
  native (e_token e) || good (e_token e) = true -> value m = 0 ->
  accepts (e_beneficiary e) = true -> e_beneficiary e <> self -> accepts (sender m) = true ->
  exists w', withdraw_with self accepts pay m k secret w = Success (tt, w') /\
    cell_at (escrows (storage w')) k = Some (Claimed (lock_of e)) /\
    asset_balance w (e_token e) (e_beneficiary e) + e_amount e <=
    asset_balance w' (e_token e) (e_beneficiary e).
Proof.
  intros e Hs Ho Hh Hgood Hv Hb Hbs Ha. pose proof (solvent_at _ _ _ w k Hs) as Hse.
  destruct (close_works m k (mark_withdrawn e) (e_beneficiary e) (EscrowWithdrawn k secret) w)
    as [w' Hw']; [done..|].
  exists w'. rewrite withdraw_is_close by done. split; [exact Hw'|].
  split; [|by eapply close_gives in Hw'].
  apply close_solvent in Hw' as (_ & _ & ->); [|done..|apply mark_withdrawn_closed|done].
  unfold cell_at. rewrite escrow_at_insert, decide_True by done. unfold cell_of.
  unfold is_open in Ho. rewrite !andb_true_iff in Ho. destruct Ho as [[Ho _] _].
  change (stored (mark_withdrawn e)) with (stored e). by rewrite Ho.
Qed.

(** An open escrow is returned after its time lock. *)
Lemma refund_pays_back m k (w : Evm T C) :
  let e := escrow_at k (escrows (storage w)) in
  solvent native self good w -> is_open e = true -> e_timelock e <= timestamp m ->
  native (e_token e) || good (e_token e) = true -> value m = 0 ->
  accepts (e_depositor e) = true -> e_depositor e <> self -> accepts (sender m) = true ->
  exists w', refund_with self accepts pay m k w = Success (tt, w') /\
    cell_at (escrows (storage w')) k = Some (Returned (lock_of e)) /\
    asset_balance w (e_token e) (e_depositor e) + e_amount e <=
    asset_balance w' (e_token e) (e_depositor e).
Proof.
  intros e Hs Ho Ht Hgood Hv Hb Hbs Ha. pose proof (solvent_at _ _ _ w k Hs) as Hse.
  destruct (close_works m k (mark_refunded e) (e_depositor e) (EscrowRefunded k) w)
    as [w' Hw']; [done..|].
  exists w'. rewrite refund_is_close by done. split; [exact Hw'|].
  split; [|by eapply close_gives in Hw'].
  apply close_solvent in Hw' as (_ & _ & ->); [|done..|apply mark_refunded_closed|done].
  unfold cell_at. rewrite escrow_at_insert, decide_True by done. unfold cell_of.
  unfold is_open in Ho. rewrite !andb_true_iff, !negb_true_iff in Ho. destruct Ho as [[Ho Ho2] Ho3].
  change (stored (mark_refunded e)) with (stored e).
  change (e_withdrawn (mark_refunded e)) with (e_withdrawn e). by rewrite Ho, Ho2.
Qed.
End Closing.
