(* ===== verification/EscrowV2.v ===== *)
(** * The escrow contract [FusionPlusEscrowV2]

    [contracts/ethereum/contracts/FusionPlusEscrowV2.sol]: the contract at
    [ETHEREUM_ESCROW_ADDRESS], whose [createEscrow], [createEscrowFor] and
    [withdraw] the resolver calls. The storage is the mapping [escrows]. *)

From Stdlib Require Import ZArith Lia.
From stdpp Require Import base numbers list strings gmap.
From S2P Require Import Prelude.
From S2P Require Import PartialFill.
From S2P Require Import ChainService.
From S2P Require Import WebServices.
From S2P Require Import Htlc.
From S2P Require Import Evm.
From S2P Require Import SolEscrow.

Local Open Scope string_scope.
Local Open Scope Z_scope.
Local Open Scope evm_scope.

#[export] Instance escrows_mapping : HasEscrows Escrows :=
  {| escrows := fun m => m; set_escrows := fun m _ => m |}.

#[export] Instance escrows_mapping_laws : HasEscrowsLaws Escrows.
Proof. by split. Qed.

(** [_token == address(0)] *)
Definition is_native (token : address) : bool := String.eqb token ZeroAddress.

(** An escrow as it is first stored. *)
Definition fresh_escrow (depositor beneficiary token : address) (amount : Z) (hashlock : bytes32)
    (timelock safetyDeposit : Z) : Escrow :=
  {| e_depositor := depositor; e_beneficiary := beneficiary; e_token := token;
     e_amount := amount; e_hashlock := hashlock; e_timelock := timelock;
     e_withdrawn := false; e_refunded := false; e_safetyDeposit := safetyDeposit |}.

(** ** The contract *)

Section Contract.
Context `{Ethers} {T : Type} `{ERC20 T} (self : address) (accepts : address -> bool).
Local Abbreviation call := (evm (T := T) (C := Escrows)).

Definition createEscrowInternal (m : Msg) (escrowId : bytes32)
    (depositor beneficiary token : address) (amount : Z) (hashlock : bytes32) (timelock : Z)
    : call unit :=
  c <-- load;
  require (negb (stored (escrow_at escrowId c))) "Escrow already exists",,
  require (0 <? amount) "Amount must be greater than 0",,
  require (timestamp m <? timelock) "Timelock must be in the future",,
  (if is_native token then
     require (amount <=? value m) "Insufficient ETH sent",,
     save (<[escrowId := fresh_escrow depositor beneficiary token amount hashlock timelock
                           (value m - amount)]> c)
   else
     token_transferFrom self token depositor amount,,
     save (<[escrowId := fresh_escrow depositor beneficiary token amount hashlock timelock
                           (value m)]> c)),,
  emit (EscrowCreated escrowId depositor beneficiary token amount hashlock timelock).

Definition createEscrow (m : Msg) (escrowId : bytes32) (beneficiary token : address) (amount : Z)
    (hashlock : bytes32) (timelock : Z) : call unit :=
  payable self m,,
  createEscrowInternal m escrowId (sender m) beneficiary token amount hashlock timelock.

Definition createEscrowFor (m : Msg) (escrowId : bytes32) (depositor beneficiary token : address)
    (amount : Z) (hashlock : bytes32) (timelock : Z) : call unit :=
  payable self m,,
  createEscrowInternal m escrowId depositor beneficiary token amount hashlock timelock.

(** Native escrows are sent, tokens transferred with the result ignored. *)
Definition pay_out (escrow : Escrow) (to : address) : call unit :=
  if is_native (e_token escrow) then send_eth self accepts to (e_amount escrow)
  else token_transfer self (e_token escrow) to (e_amount escrow),, eret tt.

Definition withdraw (m : Msg) (escrowId secret : bytes32) : call unit :=
  withdraw_with self accepts pay_out m escrowId secret.

Definition refund (m : Msg) (escrowId : bytes32) : call unit :=
  refund_with self accepts pay_out m escrowId.

Definition getEscrow (escrowId : bytes32) (c : Escrows) : Escrow := escrow_at escrowId c.
End Contract.

(** ** Transactions *)

Inductive V2Op :=
  | CreateEscrow (escrowId : bytes32) (beneficiary token : address) (amount : Z)
      (hashlock : bytes32) (timelock : Z)
  | CreateEscrowFor (escrowId : bytes32) (depositor beneficiary token : address) (amount : Z)
      (hashlock : bytes32) (timelock : Z)
  | Withdraw (escrowId secret : bytes32)
  | Refund (escrowId : bytes32).

Record V2Tx := { v2_sender : address; v2_value : Z; v2_op : V2Op }.

Section Transactions.
Context `{Ethers} {T : Type} `{ERC20 T} (self : address) (accepts : address -> bool).

Definition v2_run (t : Z) (x : V2Tx) : evm (T := T) (C := Escrows) unit :=
  let m := {| sender := v2_sender x; value := v2_value x; timestamp := t |} in
  match v2_op x with
  | CreateEscrow k b tok a h tl => createEscrow self m k b tok a h tl
  | CreateEscrowFor k d b tok a h tl => createEscrowFor self m k d b tok a h tl
  | Withdraw k secret => withdraw self accepts m k secret
  | Refund k => refund self accepts m k
  end.

(** The contract never sends a transaction to itself. *)
Definition v2_exec (t : Z) (x : V2Tx) (w : Evm T Escrows) : option (Evm T Escrows) :=
  if String.eqb (v2_sender x) self then None else world_after (v2_run t x w).

Definition v2_shows (x : V2Tx) (k : bytes32) : option bytes32 :=
  match v2_op x with
  | Withdraw k' secret => if decide (k = k') then Some secret else None
  | _ => None
  end.
End Transactions.

(** ** Refinement of the specification *)

(** Tokens for which [transferFrom] always needs an allowance, and allowances of
    the contract for itself, which nobody can give. *)
Class StrictTokens {T : Type} `{ERC20 T} (self : address) (good : address -> bool) := {
  strict_from : forall t from n L b L', good t = true ->
    transferFrom t self from self n L = Some (b, L') -> n <= allowance L t from self;
  transfer_allowance : forall t t' to n L b L', good t = true ->
    transfer t' self to n L = Some (b, L') -> allowance L' t self self <= allowance L t self self;
  transferFrom_allowance : forall t t' from n L b L', good t = true ->
    transferFrom t' self from self n L = Some (b, L') ->
    allowance L' t self self <= allowance L t self self
}.

Section Refinement.
Context `{Ethers} {T : Type} `{ERC20 T} (self : address) (accepts good : address -> bool).
Context `{!TokenLaws self good, !StrictTokens self good}.

Definition no_self_allowance (L : T) : Prop :=
  forall t, good t = true -> allowance L t self self <= 0.

Definition v2_ready (w : Evm T Escrows) : Prop :=
  solvent is_native self good w /\ no_self_allowance (ledger w).

Lemma v2_pay_out_payment :
  payment self accepts good is_native (pay_out (T := T) self accepts) no_self_allowance.
Proof.
  split.
  - intros e to w w' u [Ha Hd]. unfold pay_out. destruct (is_native (e_token e)) eqn:Hn.
    + intros Hs. apply send_eth_success in Hs as (_ & -> & -> & Hm). split_and!; auto.
      * intros t _. simpl. lia.
      * rewrite Hm. pose proof (moved_out self to _ Ha). lia.
    + intros Hs. evm_inv Hs. apply on_ledger_success in Hx as (S1 & E1 & L1).
      split_and!; [done|..].
      * intros Hk t Ht. pose proof (transfer_allowance _ _ _ _ _ _ _ Ht L1) as Hal.
        specialize (Hk t Ht). lia.
      * intros t Ht. destruct (decide (e_token e = t)) as [<-|Hne].
        -- rewrite bool_decide_true by done. simpl.
           apply transfer_moves in L1 as [_ ->]; [|done]. pose proof (moved_out self to _ Ha). lia.
        -- rewrite bool_decide_false by done. simpl. apply transfer_frame with (t := t) in L1; auto.
           lia.
      * unfold ethOf. rewrite E1. lia.
  - intros e to w w' u [Ha Hd] Hto Hgood. unfold pay_out, asset_balance.
    destruct (is_native (e_token e)) eqn:Hn.
    + intros Hs. apply send_eth_success in Hs as (_ & _ & _ & ->). unfold moved.
      rewrite decide_True, decide_False by done. lia.
    + intros Hs. evm_inv Hs. apply on_ledger_success in Hx as (_ & _ & L1). simpl in Hgood.
      apply transfer_moves in L1 as [_ ->]; [|done]. unfold moved.
      rewrite decide_True, decide_False by done. lia.
  - intros e to w [Ha Hd] Hto Hgood Hb He. unfold pay_out.
    destruct (is_native (e_token e)) eqn:Hn.
    + unfold send_eth. rewrite Hto. apply Z.leb_le in He. rewrite He. by eexists.
    + simpl in Hgood. specialize (Hb eq_refl).
      destruct (transfer_succeeds (e_token e) to (e_amount e) (ledger w) Hgood (conj Ha Hb))
        as [L' HL].
      unfold ebind, token_transfer, on_ledger. rewrite HL. by eexists.
Qed.

(** Creating an escrow: the contract stays solvent and the escrow, if any, is
    open on its terms. *)
Lemma create_internal_step m k d b tok a h tl (w0 w w' : Evm T Escrows) u :
  solvent is_native self good w0 -> no_self_allowance (ledger w0) ->
  storage w = storage w0 -> ledger w = ledger w0 -> ethOf self w = ethOf self w0 + value m ->
  0 <= value m ->
  createEscrowInternal self m k d b tok a h tl w = Success (u, w') ->
  v2_ready w' /\ forall k' shown,
    cell_step keccak_unlocks (timestamp m) shown
      (cell_at (storage w0) k') (cell_at (storage w') k').
Proof.
  intros Hs Hall Hst Hl He Hv. unfold createEscrowInternal. intros Hc.
  apply ebind_success in Hc as (? & ? & Hx & Hc). evm_inv Hx.
  apply ebind_success in Hc as (? & ? & Hx & Hc). evm_inv Hx. rename Hg into Hnew.
  apply ebind_success in Hc as (? & ? & Hx & Hc). evm_inv Hx. rename Hg into Hamt.
  apply ebind_success in Hc as (? & ? & Hx & Hc). evm_inv Hx. rename Hg into Htl.
  apply ebind_success in Hc as (? & w1 & Hx & Hc). evm_inv Hc. zbool.
  rewrite Hst in *. apply negb_true_iff in Hnew.
  assert (exists dep, storage w1 = <[k := fresh_escrow d b tok a h tl dep]> (storage w0) /\
    0 <= dep /\ no_self_allowance (ledger w1) /\
    (if is_native tok then a else 0) + dep + ethOf self w0 <= ethOf self w1 /\
    forall t, good t = true ->
      balanceOf (ledger w0) t self +
        (if negb (is_native tok) && bool_decide (tok = t) then a else 0)
      <= balanceOf (ledger w1) t self) as (dep & S1 & Hd & Hal & E1 & T1).
  { destruct (is_native tok) eqn:Hn.
    - apply ebind_success in Hx as (? & ? & Hy & Hx). evm_inv Hy. evm_inv Hx. zbool.
      exists (value m - a). simpl. rewrite Hl. split_and!; [done|lia|done| |].
      + unfold ethOf in *. simpl. rewrite He. lia.
      + intros t Ht. lia.
    - apply ebind_success in Hx as (ok & w2 & Hy & Hx). evm_inv Hx.
      apply on_ledger_success in Hy as (S2 & E2 & L2). rewrite Hl in L2.
      exists (value m). simpl. split_and!; [done|done|..].
      + intros t Ht. pose proof (transferFrom_allowance _ _ _ _ _ _ _ Ht L2) as Hle.
        specialize (Hall t Ht). lia.
      + unfold ethOf in *. simpl. rewrite E2, He. lia.
      + intros t Ht. destruct (decide (tok = t)) as [<-|Hne].
        * rewrite bool_decide_true by done. simpl.
          pose proof (strict_from _ _ _ _ _ _ Ht L2) as Hlow.
          apply transferFrom_moves in L2 as (_ & _ & ->); [|done]. unfold moved.
          rewrite decide_True by done. case_decide as Hself; [|lia].
          subst d. specialize (Hall tok Ht). lia.
        * rewrite bool_decide_false by done. simpl.
          apply transferFrom_frame with (t := t) in L2; auto. lia. }
  split.
  - split; [|done]. apply (open_solvent is_native self good w0 _ k (fresh_escrow d b tok a h tl dep));
      [done|done|done|by split; simpl; lia|done|unfold ethOf in *; simpl; lia].
  - simpl. rewrite S1. apply open_cell; simpl; [done|done|done|lia|done].
Qed.

Lemma create_step m k d b tok a h tl (w w' : Evm T Escrows) u :
  sender m <> self -> v2_ready w ->
  (payable self m,, createEscrowInternal self m k d b tok a h tl) w = Success (u, w') ->
  v2_ready w' /\ forall k' shown,
    cell_step keccak_unlocks (timestamp m) shown
      (cell_at (storage w) k') (cell_at (storage w') k').
Proof.
  intros Hm [Hs Ha] Hc. apply ebind_success in Hc as (? & w1 & Hp & Hc).
  apply payable_success in Hp as (Hv & S1 & L1 & E1).
  eapply create_internal_step; try eassumption.
  rewrite E1. unfold moved. rewrite decide_True, decide_False by congruence. lia.
Qed.

Lemma v2_exec_step t x (w w' : Evm T Escrows) :
  v2_ready w -> v2_exec self accepts t x w = Some w' ->
  v2_ready w' /\ forall k, cell_step keccak_unlocks t (v2_shows x k)
    (cell_at (storage w) k) (cell_at (storage w') k).
Proof.
  intros [Hs Ha]. unfold v2_exec. destruct (String.eqb_spec (v2_sender x) self) as [|Hne]; [done|].
  destruct (v2_run _ _ _ _ _) as [[[] w1]|] eqn:Hr; [|done]. intros [= <-].
  destruct x as [who v op]. unfold v2_run, v2_shows in *. simpl in *. destruct op.
  - apply create_step in Hr as [? ?]; [by split; auto|done|by split].
  - apply create_step in Hr as [? ?]; [by split; auto|done|by split].
  - apply (withdraw_step _ _ _ _ _ _ v2_pay_out_payment) in Hr as (Hs' & Hk & Hc); [|done].
    split; [split; auto|]. intros k. apply Hc.
  - apply (refund_step _ _ _ _ _ _ v2_pay_out_payment) in Hr as (Hs' & Hk & Hc); [|done].
    split; [split; auto|]. intros k. apply Hc.
Qed.

#[export] Instance v2_chain : HtlcChain (Evm T Escrows) V2Tx := {|
  hc_cell := fun w k => cell_at (storage w) k;
  hc_exec := v2_exec self accepts;
  hc_env := fun w w' =>
    storage w' = storage w /\ ethOf self w <= ethOf self w' /\
    no_self_allowance (ledger w') /\
    forall t, good t = true -> balanceOf (ledger w) t self <= balanceOf (ledger w') t self;
  hc_shows := v2_shows;
  hc_unlocks := keccak_unlocks;
  hc_claim := fun who k secret => {| v2_sender := who; v2_value := 0; v2_op := Withdraw k secret |};
  hc_refund := fun who k => {| v2_sender := who; v2_value := 0; v2_op := Refund k |};
  hc_asset_ok := fun t => is_native t || good t;
  hc_accepts := fun a => accepts a && negb (String.eqb a self);
  hc_balance := asset_balance is_native;
  hc_ready := v2_ready
|}.

#[export] Instance v2_laws : HtlcLaws (Evm T Escrows) V2Tx.
Proof.
  split.
  - intros t c w w' k Hr He. by apply (v2_exec_step t c w w').
  - intros t c w w' Hr He. by apply (v2_exec_step t c w w').
  - intros w w' k (Hst & _). simpl. by rewrite Hst.
  - intros w w' [Hs Ha] (Hst & He & Hal & Hb). split; [split|done].
    + rewrite Hst. apply (sv_sane _ _ _ w Hs).
    + intros t Ht. rewrite Hst. etrans; [by apply (sv_token _ _ _ w Hs)|by apply Hb].
    + rewrite Hst. etrans; [by apply (sv_eth _ _ _ w Hs)|done].
  - intros who k secret. simpl. unfold v2_shows. simpl. by rewrite decide_True.
  - intros t who k secret l w [Hs Ha] Hc Hu Hasset Hb Hw. simpl in *.
    rewrite !andb_true_iff, !negb_true_iff in *. destruct Hb as [Hb Hbs], Hw as [Hw Hne].
    apply String.eqb_neq in Hbs. apply cell_open in Hc as [Ho ->].
    destruct (withdraw_pays _ _ _ _ _ _ v2_pay_out_payment
                {| sender := who; value := 0; timestamp := t |} k secret w Hs Ho
                (proj1 (String.eqb_eq _ _) Hu) Hasset eq_refl Hb Hbs Hw) as (w' & Hw' & Hrest).
    exists w'. split; [|exact Hrest].
    unfold v2_exec, v2_run, withdraw. simpl. by rewrite Hne, Hw'.
  - done.
  - intros t who k l w [Hs Ha] Hc Ht Hasset Hb Hw. simpl in *.
    rewrite !andb_true_iff, !negb_true_iff in *. destruct Hb as [Hb Hbs], Hw as [Hw Hne].
    apply String.eqb_neq in Hbs. apply cell_open in Hc as [Ho ->].
    destruct (refund_pays_back _ _ _ _ _ _ v2_pay_out_payment
                {| sender := who; value := 0; timestamp := t |} k w Hs Ho Ht
                Hasset eq_refl Hb Hbs Hw) as (w' & Hw' & Hrest).
    exists w'. split; [|exact Hrest].
    unfold v2_exec, v2_run, refund. simpl. by rewrite Hne, Hw'.
Qed.

(** A newly deployed contract owes nothing. *)
Lemma v2_deployed (w : Evm T Escrows) :
  storage w = ∅ -> 0 <= ethOf self w -> no_self_allowance (ledger w) -> v2_ready w.
Proof.
  intros Hst He Ha. split; [split|done]; rewrite Hst; simpl.
  - by intros k e.
  - intros t Ht. rewrite map_sum_empty. apply (balance_nonneg (good := good)).
  - by rewrite map_sum_empty.
Qed.
End Refinement.

(** The concrete tokens that insist on allowances. *)
Lemma plain_token_strict (self : address) (good : address -> bool) :
  @StrictTokens Plain (plain_token false) self good.
Proof.
  assert (forall t from to n L b L', pl_move t from to n L = Some (b, L') ->
    pl_allowance L' = pl_allowance L) as Hm.
  { intros t from to n L b L'. unfold pl_move. destruct (_ && _); [by intros [= _ <-]|done]. }
  split; simpl.
  - intros t from n L b L' _. unfold pl_transferFrom. simpl. case_match eqn:E; [|done].
    intros _. by zbool.
  - intros t t' to n L b L' _ H. apply Hm in H. by rewrite H.
  - intros t t' from n L b L' _. unfold pl_transferFrom. simpl. case_match eqn:E; [|done].
    intros H. pose proof H as Hn. apply pl_move_spec in Hn as (_ & Hn & _).
    apply Hm in H. rewrite H. simpl. destruct (decide ((t, self, self) = (t', from, self))) as [[= -> ->]|Hne].
    + rewrite lookup_insert_eq. simpl. lia.
    + by rewrite lookup_insert_ne by congruence.
Qed.

(** ** What the contract promises, and to whom *)

Section Promise.
Context `{Ethers} {T : Type} `{ERC20 T} (self : address) (accepts good : address -> bool).
Context `{!TokenLaws self good, !StrictTokens self good}.
Local Existing Instance v2_chain.
Local Abbreviation history := (@history _ _ (v2_chain self accepts good)).

(** C17. From the deployment of [FusionPlusEscrowV2] on, whatever transactions
    are sent to it: an open escrow keeps its terms, and it stays open, or it was
    withdrawn with a secret that hashes to its hash lock and was presented in a
    transaction, or it was refunded at or after its time lock. While it is open
    the contract can pay it: [withdraw] with the secret and, after the time
    lock, [refund] succeed from any account that accepts ether and leave the
    beneficiary, or the depositor, with the amount more. *)
Theorem v2_escrow_promise (w0 w1 w2 : Evm T Escrows) t0 t1 t2 l1 l2 k lk :
  storage w0 = ∅ -> 0 <= ethOf self w0 -> no_self_allowance self good (ledger w0) ->
  history t0 w0 l1 t1 w1 -> cell_at (storage w1) k = Some (Open lk) -> history t1 w1 l2 t2 w2 ->
  0 <= lk_amount lk /\
  ((cell_at (storage w2) k = Some (Open lk) /\
    @payable_escrow _ _ (v2_chain self accepts good) w2 k lk) \/
   (cell_at (storage w2) k = Some (Claimed lk) /\
    exists t x secret, (t, x) ∈ l2 /\ v2_op x = Withdraw k secret /\
      keccak256 secret = lk_hashlock lk) \/
   (cell_at (storage w2) k = Some (Returned lk) /\ lk_timelock lk <= t2)).
Proof.
  intros Hst He Ha Hh1 Ho Hh2.
  pose proof (v2_deployed self good w0 Hst He Ha) as Hr0.
  pose proof (history_ready (H0 := v2_laws self accepts good) _ _ _ _ _ Hr0 Hh1) as Hr1.
  pose proof (history_ready (H0 := v2_laws self accepts good) _ _ _ _ _ Hr1 Hh2) as Hr2.
  split.
  { apply cell_open in Ho as [_ ->]. apply (solvent_at is_native self good w1 k (proj1 Hr1)). }
  destruct (open_fate (H0 := v2_laws self accepts good) _ _ _ _ _ _ _ Hh2 Hr1 Ho)
    as [Ho2|[(Hc & secret & (t & x & Hin & Hs) & Hu)|Hret]].
  - left. split; [done|]. by apply (open_payable (H0 := v2_laws self accepts good)).
  - right; left. split; [done|]. exists t, x, secret. split; [done|]. simpl in Hs, Hu.
    unfold v2_shows in Hs. destruct (v2_op x); try done. case_decide; simplify_eq.
    by apply String.eqb_eq in Hu.
  - by right; right.
Qed.

(** An attacker's two transactions: an escrow in its own favour, paid for by
    [from], and its withdrawal. *)
Definition pull_and_take (attacker from token : address) (amount : Z) (k secret : bytes32) (t : Z)
    : evm (T := T) (C := Escrows) unit :=
  let m := {| sender := attacker; value := 0; timestamp := t |} in
  createEscrowFor self m k from attacker token amount (keccak256 secret) (t + 1),,
  withdraw self accepts m k secret.

(** A token escrow that the ledger lets it fund is created. *)
Lemma createEscrowFor_token m k from b token amount h tl (w : Evm T Escrows) ok L1 :
  is_native token = false -> value m = 0 -> 0 <= ethOf (sender m) w -> 0 < amount ->
  timestamp m < tl -> stored (escrow_at k (storage w)) = false ->
  transferFrom token self from self amount (ledger w) = Some (ok, L1) ->
  exists w', createEscrowFor self m k from b token amount h tl w = Success (tt, w') /\
    storage w' = <[k := fresh_escrow from b token amount h tl 0]> (storage w) /\
    ledger w' = L1 /\ forall a, ethOf a w' = ethOf a w.
Proof.
  intros Hn Hv He Ha Ht Hk HL1. eexists. split; [|split_and!].
  - unfold createEscrowFor, createEscrowInternal. unfold ebind at 1, payable. rewrite Hv.
    apply Z.leb_le in He. apply Z.ltb_lt in Ha, Ht. rewrite He. simpl.
    unfold ebind at 1. cbn [load storage]. unfold ebind at 1. rewrite Hk. simpl.
    unfold ebind at 1. rewrite Ha. simpl. unfold ebind at 1. rewrite Ht, Hn. simpl.
    unfold ebind, token_transferFrom, on_ledger. cbn [ledger]. rewrite HL1. reflexivity.
  - done.
  - done.
  - intros a. unfold ethOf. cbn [eth]. rewrite move_eth_spec. unfold moved.
    repeat case_decide; lia.
Qed.

Lemma pull_and_take_pays attacker from token amount k secret t (w : Evm T Escrows) L1 :
  good token = true -> is_native token = false ->
  from <> ZeroAddress -> 0 < amount -> 0 <= ethOf attacker w ->
  stored (escrow_at k (storage w)) = false ->
  transferFrom token self from self amount (ledger w) = Some (true, L1) ->
  amount <= balanceOf L1 token self ->
  exists w', pull_and_take attacker from token amount k secret t w = Success (tt, w') /\
    (forall a, balanceOf (ledger w') token a = balanceOf L1 token a + moved self attacker a amount) /\
    forall a, ethOf a w' = ethOf a w.
Proof.
  intros Hg Hn Hf Ha He Hk HL1 Hb. set (m := {| sender := attacker; value := 0; timestamp := t |}).
  destruct (createEscrowFor_token m k from attacker token amount (keccak256 secret) (t + 1) w
              true L1) as (w1 & Hw1 & S1 & <- & E1); [done..|simpl; lia|done|done|].
  destruct (transfer_succeeds (good := good) token attacker amount (ledger w1) Hg) as [L2 HL2];
    [lia|].
  pose proof (transfer_moves (good := good) _ _ _ _ _ _ Hg HL2) as [_ Hmoved].
  assert (escrow_at k (escrows (storage w1)) =
    fresh_escrow from attacker token amount (keccak256 secret) (t + 1) 0) as Hat.
  { simpl. rewrite S1, escrow_at_insert. by rewrite decide_True. }
  eexists. unfold pull_and_take. fold m. unfold ebind at 1. rewrite Hw1. split.
  - unfold withdraw. rewrite withdraw_is_close; rewrite ?Hat; [|by unfold is_open, stored; simpl;
      rewrite (proj2 (String.eqb_neq _ _) Hf)|done..].
    unfold close_with, ebind, pay_out. cbn [save e_token fresh_escrow]. rewrite Hn.
    unfold ebind, token_transfer, on_ledger. cbn [ledger e_amount e_beneficiary fresh_escrow].
    rewrite HL2. reflexivity.
  - split; [done|]. intros a. rewrite <- E1. done.
Qed.

(** C40. Nobody signs for the depositor of [createEscrowFor]: of whatever an
    account has approved to the contract for a token, anybody can take any
    amount for himself, with one escrow in his own favour and its withdrawal,
    under a secret of his own. *)
Theorem v2_approval_theft (w : Evm T Escrows) attacker victim token amount k secret t :
  good token = true -> is_native token = false ->
  attacker <> self -> victim <> self -> attacker <> victim -> victim <> ZeroAddress ->
  0 < amount <= balanceOf (ledger w) token victim ->
  amount <= allowance (ledger w) token victim self ->
  0 <= ethOf attacker w -> stored (escrow_at k (storage w)) = false ->
  exists w', pull_and_take attacker victim token amount k secret t w = Success (tt, w') /\
    balanceOf (ledger w') token victim = balanceOf (ledger w) token victim - amount /\
    balanceOf (ledger w') token attacker = balanceOf (ledger w) token attacker + amount /\
    ethOf attacker w' = ethOf attacker w.
Proof.
  intros Hg Hn Has Hvs Hav Hvz [Ha Hb] Hal He Hk.
  destruct (transferFrom_succeeds (good := good) token victim amount (ledger w) Hg) as [L1 HL1];
    [lia|done|].
  pose proof (transferFrom_moves (good := good) _ _ _ _ _ _ Hg HL1) as (_ & _ & Hm).
  destruct (pull_and_take_pays attacker victim token amount k secret t w L1)
    as (w' & Hw' & Hl' & He'); try done.
  { rewrite Hm. unfold moved. rewrite decide_True, decide_False by done.
    pose proof (balance_nonneg (good := good) (ledger w) token self). lia. }
  exists w'. split; [done|]. rewrite !Hl', !Hm. unfold moved.
  split_and!; [repeat case_decide; try congruence; lia..|done].
Qed.

(** A token that lets an account move its own balance by [transferFrom]
    without an allowance, as WETH9 does, is not safe in the contract: with the
    contract itself as the depositor an escrow is created from nothing, and its
    withdrawal hands the whole balance, which belongs to the open escrows of
    others, to whoever sends the two transactions. *)
Theorem v2_self_deposit_drains (w : Evm T Escrows) attacker token k secret t :
  let all := balanceOf (ledger w) token self in
  good token = true -> is_native token = false -> self <> ZeroAddress -> attacker <> self ->
  (forall n L, 0 <= n <= balanceOf L token self ->
     exists L', transferFrom token self self self n L = Some (true, L')) ->
  0 < all -> 0 <= ethOf attacker w -> stored (escrow_at k (storage w)) = false ->
  exists w', pull_and_take attacker self token all k secret t w = Success (tt, w') /\
    balanceOf (ledger w') token self = 0 /\
    balanceOf (ledger w') token attacker = balanceOf (ledger w) token attacker + all.
Proof.
  intros all Hg Hn Hz Hat Hown Ha He Hk.
  destruct (Hown all (ledger w)) as [L1 HL1]; [lia|].
  pose proof (transferFrom_moves (good := good) _ _ _ _ _ _ Hg HL1) as (_ & _ & Hm).
  assert (forall a, balanceOf L1 token a = balanceOf (ledger w) token a) as Hsame.
  { intros a. rewrite Hm. unfold moved. case_decide; lia. }
  destruct (pull_and_take_pays attacker self token all k secret t w L1)
    as (w' & Hw' & Hl' & He'); try done.
  { by rewrite Hsame. }
  exists w'. split; [done|]. rewrite !Hl', !Hsame. unfold moved.
  unfold all. repeat case_decide; try congruence; lia.
Qed.
End Promise.

(** ** Concrete runs *)

Module Example.
Definition contract : address := "0xescrow".
Definition weth : address := "0xweth".
Definition everyone (_ : address) : bool := true.

(** The maker has 5 units and approved all of them to the contract. *)
Definition w0 : Evm Plain Escrows :=
  {| storage := ∅; eth := ∅; logs := [];
     ledger := {| pl_balance := {[ (weth, "0xmaker") := 5%N ]};
                  pl_allowance := {[ (weth, "0xmaker", contract) := MaxUint256 ]} |} |}.

Definition lock_tx : V2Tx :=
  {| v2_sender := "0xmaker"; v2_value := 0;
     v2_op := CreateEscrow "0xid" "0xresolver" weth 5 (keccak256 "0xs") 1000 |}.

Definition claim_tx : V2Tx :=
  {| v2_sender := "0xanyone"; v2_value := 0; v2_op := Withdraw "0xid" "0xs" |}.

Section Run.
Local Instance tokens : ERC20 Plain := plain_token false.

Definition w1 : Evm Plain Escrows := default w0 (v2_exec contract everyone 10 lock_tx w0).
Definition w2 : Evm Plain Escrows := default w0 (v2_exec contract everyone 20 claim_tx w1).
End Run.
End Example.

(** The maker locks 5 units and the resolver is paid. *)
Lemma v2_escrow_promise_witness :
  let lk := {| lk_depositor := "0xmaker"; lk_beneficiary := "0xresolver"; lk_asset := Example.weth;
               lk_amount := 5; lk_hashlock := keccak256 "0xs"; lk_timelock := 1000 |} in
  0 <= lk_amount lk /\ cell_at (storage Example.w2) "0xid" = Some (Claimed lk).
Proof.
  intros lk.
  assert (forall c : Cell, cell_at (storage Example.w2) "0xid" = Some c -> c = Claimed lk) as Hc
    by (vm_compute; intros c [= <-]; reflexivity).
  pose proof (plain_token_laws false Example.contract (fun _ => true)) as Hlaws.
  pose proof (plain_token_strict Example.contract (fun _ => true)) as Hstrict.
  destruct (v2_escrow_promise (T := Plain) (H0 := plain_token false)
    Example.contract Example.everyone (fun _ => true)
    Example.w0 Example.w1 Example.w2 0 10 20 [(10, Example.lock_tx)] [(20, Example.claim_tx)]
    "0xid" lk) as (Hpos & Hfate).
  - reflexivity.
  - vm_compute; discriminate.
  - intros t _. cbn. rewrite lookup_singleton_ne by (intros [= ? ?]; discriminate). done.
  - eapply (history_cons (H := v2_chain Example.contract Example.everyone (fun _ => true))
              0 10 10 _ Example.w0 Example.w1 Example.w1);
      [lia|apply (some_default Example.w0); vm_compute; reflexivity|apply history_nil].
  - vm_compute; reflexivity.
  - eapply (history_cons (H := v2_chain Example.contract Example.everyone (fun _ => true))
              10 20 20 _ Example.w1 Example.w2 Example.w2);
      [lia|apply (some_default Example.w0); vm_compute; reflexivity|apply history_nil].
  - split; [exact Hpos|].
    destruct Hfate as [[Ho _]|[[Hcl _]|[Hr _]]]; [apply Hc in Ho; discriminate|exact Hcl|].
    apply Hc in Hr; discriminate.
Defined.

(** The page's unlimited approval is taken by a stranger. *)
Lemma v2_approval_theft_witness :
  exists w', pull_and_take (H0 := plain_token false) Example.contract Example.everyone
      "0xmallory" "0xmaker" Example.weth 5 "0xid" "0xs" 10 Example.w0 = Success (tt, w') /\
    pl_of (ledger w') Example.weth "0xmaker" = 0 /\ pl_of (ledger w') Example.weth "0xmallory" = 5.
Proof.
  pose proof (plain_token_laws false Example.contract (fun _ => true)) as Hlaws.
  destruct (v2_approval_theft (T := Plain) (H0 := plain_token false)
    Example.contract Example.everyone (fun _ => true)
    Example.w0 "0xmallory" "0xmaker" Example.weth 5 "0xid" "0xs" 10) as (w' & Hrun & Hv & Ha & _);
    [reflexivity|reflexivity|discriminate|discriminate|discriminate|discriminate
    |split; vm_compute; [reflexivity|discriminate]|vm_compute; discriminate
    |vm_compute; discriminate|vm_compute; reflexivity|].
  exists w'. split; [exact Hrun|]. cbn in Hv, Ha. split; [rewrite Hv|rewrite Ha]; vm_compute; reflexivity.
Defined.

(** The maker's open escrow is emptied by a stranger. *)
Lemma v2_self_deposit_drains_witness :
  exists w', pull_and_take (H0 := plain_token true) Example.contract Example.everyone
      "0xmallory" Example.contract Example.weth (pl_of (ledger Example.w1) Example.weth Example.contract)
      "0xother" "0xs" 20 Example.w1 = Success (tt, w') /\
    pl_of (ledger w') Example.weth Example.contract = 0 /\
    pl_of (ledger w') Example.weth "0xmallory" = 5.
Proof.
  pose proof (plain_token_laws true Example.contract (fun _ => true)) as Hlaws.
  destruct (v2_self_deposit_drains (T := Plain) (H0 := plain_token true)
    Example.contract Example.everyone (fun _ => true)
    Example.w1 "0xmallory" Example.weth "0xother" "0xs" 20) as (w' & Hrun & Hv & Ha);
    [reflexivity|reflexivity|discriminate|discriminate| |vm_compute; reflexivity
    |vm_compute; discriminate|vm_compute; reflexivity|].
  - intros n L [Hn0 Hn1]. cbn in *. unfold pl_transferFrom. rewrite bool_decide_true by done.
    unfold pl_move. apply Z.leb_le in Hn0, Hn1. rewrite Hn0, Hn1. by eexists.
  - exists w'. split; [exact Hrun|]. split; [exact Hv|]. cbn in Ha. rewrite Ha.
    vm_compute; reflexivity.
Defined.
