(* ===== verification/GaslessEscrow.v ===== *)
(** * The escrow contract [FusionPlusGaslessEscrowV2]

    [contracts/ethereum/contracts/FusionPlusGaslessEscrowV2.sol]: escrows that a
    resolver creates for a depositor who signed for them, one by one or, for
    partial fills, once for a Merkle tree of hash locks. EIP-712 hashing, ECDSA
    recovery and the packed encoding are the class [Solidity]; re-entrancy is
    excluded as in [Evm]. *)

From Stdlib Require Import ZArith Lia.
From stdpp Require Import base numbers list strings gmap.
From S2P Require Import Prelude.
From S2P Require Import JsNumber.
From S2P Require Import JsString.
From S2P Require Import PartialFill.
From S2P Require Import Merkle.
From S2P Require Import Signature.
From S2P Require Import ChainService.
From S2P Require Import Htlc.
From S2P Require Import Evm.
From S2P Require Import SolEscrow.

Local Open Scope string_scope.
Local Open Scope Z_scope.
Local Open Scope evm_scope.

(** ** Storage *)

Record PartialFillOrder := {
  po_baseOrderId : bytes32;
  po_depositor : address;
  po_beneficiary : address;
  po_totalAmount : Z;
  po_filledAmount : Z;
  po_merkleRoot : bytes32;
  po_numFills : Z
}.

(** Where nothing was stored. *)
Definition no_order : PartialFillOrder :=
  {| po_baseOrderId := ZeroAddress; po_depositor := ZeroAddress; po_beneficiary := ZeroAddress;
     po_totalAmount := 0; po_filledAmount := 0; po_merkleRoot := ZeroAddress; po_numFills := 0 |}.

Record Gasless := {
  g_escrows : Escrows;
  partialFillOrders : gmap bytes32 PartialFillOrder;
  nonces : gmap address Z;
  usedMerkleIndices : gset (bytes32 * Z)
}.

#[export] Instance gasless_escrows : HasEscrows Gasless := {|
  escrows := g_escrows;
  set_escrows := fun m c =>
    {| g_escrows := m; partialFillOrders := partialFillOrders c; nonces := nonces c;
       usedMerkleIndices := usedMerkleIndices c |}
|}.

#[export] Instance gasless_escrows_laws : HasEscrowsLaws Gasless.
Proof. by split. Qed.

Definition order_at (base : bytes32) (c : Gasless) : PartialFillOrder :=
  default no_order (partialFillOrders c !! base).

Definition nonce_of (user : address) (c : Gasless) : Z := default 0 (nonces c !! user).

Definition set_order (base : bytes32) (o : PartialFillOrder) (c : Gasless) : Gasless :=
  {| g_escrows := g_escrows c; partialFillOrders := <[base := o]> (partialFillOrders c);
     nonces := nonces c; usedMerkleIndices := usedMerkleIndices c |}.

Definition set_nonce (user : address) (n : Z) (c : Gasless) : Gasless :=
  {| g_escrows := g_escrows c; partialFillOrders := partialFillOrders c;
     nonces := <[user := n]> (nonces c); usedMerkleIndices := usedMerkleIndices c |}.

Definition use_index (base : bytes32) (i : Z) (c : Gasless) : Gasless :=
  {| g_escrows := g_escrows c; partialFillOrders := partialFillOrders c; nonces := nonces c;
     usedMerkleIndices := {[ (base, i) ]} ∪ usedMerkleIndices c |}.

Record MetaTxParams := {
  mp_escrowId : bytes32;
  mp_depositor : address;
  mp_beneficiary : address;
  mp_token : address;
  mp_amount : Z;
  mp_hashlock : bytes32;
  mp_timelock : Z;
  mp_deadline : Z
}.

Record PartialFillMetaTxParams := {
  pp_baseOrderId : bytes32;
  pp_depositor : address;
  pp_beneficiary : address;
  pp_token : address;
  pp_totalAmount : Z;
  pp_merkleRoot : bytes32;
  pp_numFills : Z;
  pp_timelock : Z;
  pp_deadline : Z
}.

(** ** Signatures *)

(** [_hashTypedDataV4] with [ECDSA.recover], which reverts on a malformed
    signature; and [keccak256(abi.encodePacked(baseOrderId, fillIndex))]. *)
Class Solidity := {
  recoverTyped : Domain -> FieldTypes -> Signature.Message -> Z -> bytes32 -> bytes32 ->
    option address;
  fillEscrowId : bytes32 -> Z -> bytes32
}.

(** A value of a typed message stands for what it encodes: an unsigned integer
    by its decimal text or, up to 2^53, by its number. *)
Inductive same_value : SolValue -> SolValue -> Prop :=
  | same_refl v : same_value v v
  | same_uint z : 0 <= z <= 2 ^ 53 -> same_value (VString (toString z)) (VNumber (of_Z z)).

Definition same_message : Signature.Message -> Signature.Message -> Prop :=
  Forall2 (fun a b => a.1 = b.1 /\ same_value a.2 b.2).

(** [ECDSA.recover] never returns the zero address, and typed data are hashed by
    their values. *)
Class SolidityLaws `{Solidity} := {
  recover_nonzero : forall d ty m v r s a, recoverTyped d ty m v r s = Some a -> a <> ZeroAddress;
  recover_values : forall d ty m m' v r s, same_message m m' ->
    recoverTyped d ty m v r s = recoverTyped d ty m' v r s
}.

Definition CREATE_PARTIAL_FILL_ORDER_TYPE : FieldTypes :=
  ("CreatePartialFillOrder",
   [("baseOrderId", "bytes32"); ("depositor", "address"); ("beneficiary", "address");
    ("token", "address"); ("totalAmount", "uint256"); ("merkleRoot", "bytes32");
    ("numFills", "uint256"); ("timelock", "uint256"); ("nonce", "uint256");
    ("deadline", "uint256")]).

(** The type of [createEscrowWithMetaTx] and [_verifySignatureAndUpdateNonce]. *)
Definition CREATE_ESCROW_TYPEHASH : FieldTypes :=
  ("CreateEscrow",
   [("escrowId", "bytes32"); ("depositor", "address"); ("beneficiary", "address");
    ("token", "address"); ("amount", "uint256"); ("hashlock", "bytes32");
    ("timelock", "uint256"); ("nonce", "uint256"); ("deadline", "uint256")]).

(** [encodeType] of EIP-712, for a struct of elementary types: the text that a
    type hash is the hash of. *)
Definition encodeType (ty : FieldTypes) : string :=
  ty.1 ++ "(" ++ String.concat "," ((fun f => f.2 ++ " " ++ f.1) <$> ty.2) ++ ")".

(** The texts of the source. *)
Example create_escrow_type_text :
  encodeType CREATE_ESCROW_TYPEHASH =
  "CreateEscrow(bytes32 escrowId,address depositor,address beneficiary,address token,uint256 amount,bytes32 hashlock,uint256 timelock,uint256 nonce,uint256 deadline)".
Proof. reflexivity. Qed.

Example create_partial_fill_order_type_text :
  encodeType CREATE_PARTIAL_FILL_ORDER_TYPE =
  "CreatePartialFillOrder(bytes32 baseOrderId,address depositor,address beneficiary,address token,uint256 totalAmount,bytes32 merkleRoot,uint256 numFills,uint256 timelock,uint256 nonce,uint256 deadline)".
Proof. reflexivity. Qed.

Definition order_struct (p : PartialFillMetaTxParams) (nonce : Z) : Signature.Message :=
  [("baseOrderId", VString (pp_baseOrderId p)); ("depositor", VString (pp_depositor p));
   ("beneficiary", VString (pp_beneficiary p)); ("token", VString (pp_token p));
   ("totalAmount", VString (toString (pp_totalAmount p)));
   ("merkleRoot", VString (pp_merkleRoot p)); ("numFills", VString (toString (pp_numFills p)));
   ("timelock", VString (toString (pp_timelock p))); ("nonce", VString (toString nonce));
   ("deadline", VString (toString (pp_deadline p)))].

Definition escrow_struct (p : MetaTxParams) (nonce : Z) : Signature.Message :=
  [("escrowId", VString (mp_escrowId p)); ("depositor", VString (mp_depositor p));
   ("beneficiary", VString (mp_beneficiary p)); ("token", VString (mp_token p));
   ("amount", VString (toString (mp_amount p))); ("hashlock", VString (mp_hashlock p));
   ("timelock", VString (toString (mp_timelock p))); ("nonce", VString (toString nonce));
   ("deadline", VString (toString (mp_deadline p)))].

(** [WETH] *)
Definition WETH : address := "0xfFf9976782d46CC05630D1f6eBAb18b2324d6B14".

(** ** The contract *)

Section Contract.
Context `{Ethers, Solidity} {T : Type} `{ERC20 T}.
Context (self : address) (chainId : Z) (accepts : address -> bool).
Local Abbreviation call := (evm (T := T) (C := Gasless)).

(** The domain of [EIP712("FusionPlusGaslessEscrowV2", "1")]. *)
Definition own_domain : Domain :=
  {| domain_name := "FusionPlusGaslessEscrowV2"; domain_version := "1";
     domain_chainId := chainId; domain_contract := Some self |}.

(** [ECDSA.recover] of the typed data and [signer != depositor] *)
Definition require_signer (ty : FieldTypes) (data : Signature.Message) (depositor : address)
    (sig : Z * bytes32 * bytes32) : call unit :=
  match recoverTyped own_domain ty data sig.1.1 sig.1.2 sig.2 with
  | Some signer => revert_if (negb (String.eqb signer depositor)) "InvalidSignature"
  | None => revert "ECDSAInvalidSignature"
  end.

(** [nonces[user]++] *)
Definition increment_nonce (user : address) : call unit :=
  c <-- load;
  n <-- uint256 (nonce_of user c + 1);
  save (set_nonce user n c).

Definition verifySignatureAndUpdateNonce (p : MetaTxParams) (sig : Z * bytes32 * bytes32)
    : call unit :=
  c <-- load;
  let currentNonce := nonce_of (mp_depositor p) c in
  require_signer CREATE_ESCROW_TYPEHASH (escrow_struct p currentNonce)
    (mp_depositor p) sig,,
  increment_nonce (mp_depositor p).

Definition createEscrowInternal (escrowId : bytes32) (depositor beneficiary token : address)
    (amount : Z) (hashlock : bytes32) (timelock safetyDeposit : Z) : call unit :=
  c <-- load;
  revert_if (stored (escrow_at escrowId (g_escrows c))) "EscrowAlreadyExists",,
  balanceBefore <-- token_balance self token;
  ok <-- token_transferFrom self token depositor amount;
  require ok "SafeERC20FailedOperation",,
  balanceAfter <-- token_balance self token;
  received <-- uint256 (balanceAfter - balanceBefore);
  require (amount <=? received) "Insufficient transfer",,
  save (set_escrows
    (<[escrowId := {| e_depositor := depositor; e_beneficiary := beneficiary; e_token := token;
                      e_amount := amount; e_hashlock := hashlock; e_timelock := timelock;
                      e_withdrawn := false; e_refunded := false;
                      e_safetyDeposit := safetyDeposit |}]> (g_escrows c)) c),,
  emit (EscrowCreated escrowId depositor beneficiary token amount hashlock timelock).

Definition createPartialFillOrder (m : Msg) (p : PartialFillMetaTxParams)
    (sig : Z * bytes32 * bytes32) : call unit :=
  nonpayable m,,
  revert_if (pp_totalAmount p =? 0) "InvalidAmount",,
  revert_if (pp_timelock p <=? timestamp m) "InvalidTimelock",,
  revert_if (pp_deadline p <? timestamp m) "PermitExpired",,
  c <-- load;
  revert_if (negb (String.eqb (po_depositor (order_at (pp_baseOrderId p) c)) ZeroAddress))
    "EscrowAlreadyExists",,
  let currentNonce := nonce_of (pp_depositor p) c in
  require_signer CREATE_PARTIAL_FILL_ORDER_TYPE (order_struct p currentNonce) (pp_depositor p) sig,,
  increment_nonce (pp_depositor p),,
  c1 <-- load;
  save (set_order (pp_baseOrderId p)
    {| po_baseOrderId := pp_baseOrderId p; po_depositor := pp_depositor p;
       po_beneficiary := pp_beneficiary p; po_totalAmount := pp_totalAmount p;
       po_filledAmount := 0; po_merkleRoot := pp_merkleRoot p;
       po_numFills := pp_numFills p |} c1),,
  emit (PartialFillOrderCreated (pp_baseOrderId p) (pp_depositor p) (pp_beneficiary p)
    (pp_totalAmount p) (pp_merkleRoot p) (pp_numFills p)).

Definition add_filled (amount : Z) (o : PartialFillOrder) : PartialFillOrder :=
  {| po_baseOrderId := po_baseOrderId o; po_depositor := po_depositor o;
     po_beneficiary := po_beneficiary o; po_totalAmount := po_totalAmount o;
     po_filledAmount := po_filledAmount o + amount; po_merkleRoot := po_merkleRoot o;
     po_numFills := po_numFills o |}.

Definition createPartialFillEscrow (m : Msg) (baseOrderId : bytes32) (fillIndex amount : Z)
    (hashlock : bytes32) (merkleProof : list bytes32) : call unit :=
  payable self m,,
  c <-- load;
  let order := order_at baseOrderId c in
  revert_if (String.eqb (po_depositor order) ZeroAddress) "OrderDoesNotExist",,
  revert_if (po_numFills order <=? fillIndex) "InvalidMerkleIndex",,
  revert_if (bool_decide ((baseOrderId, fillIndex) ∈ usedMerkleIndices c)) "MerkleIndexAlreadyUsed",,
  total <-- uint256 (po_filledAmount order + amount);
  revert_if (po_totalAmount order <? total) "ExceedsTotalAmount",,
  require (verifyMerkleProof merkleProof (po_merkleRoot order) hashlock (Z.to_nat fillIndex))
    "Invalid Merkle proof",,
  save (set_order baseOrderId (add_filled amount order) (use_index baseOrderId fillIndex c)),,
  require (0 <? value m) "Safety deposit required",,
  timelock <-- uint256 (timestamp m + 3600);
  createEscrowInternal (fillEscrowId baseOrderId fillIndex) (po_depositor order) (sender m) WETH
    amount hashlock timelock (value m).

(** The checks of the meta-transaction, then the escrow under its own id. *)
Definition createEscrowWithMetaTx (m : Msg) (p : MetaTxParams) (sig : Z * bytes32 * bytes32)
    : call unit :=
  payable self m,,
  revert_if (mp_amount p =? 0) "InvalidAmount",,
  revert_if (mp_timelock p <=? timestamp m) "InvalidTimelock",,
  revert_if (mp_deadline p <? timestamp m) "PermitExpired",,
  c <-- load;
  revert_if (stored (escrow_at (mp_escrowId p) (g_escrows c))) "EscrowAlreadyExists",,
  verifySignatureAndUpdateNonce p sig,,
  createEscrowInternal (mp_escrowId p) (mp_depositor p) (mp_beneficiary p) (mp_token p)
    (mp_amount p) (mp_hashlock p) (mp_timelock p) (value m).

Definition createGaslessPartialFillEscrow (m : Msg) (p : MetaTxParams) (baseOrderId : bytes32)
    (fillIndex : Z) (sig : Z * bytes32 * bytes32) : call unit :=
  payable self m,,
  revert_if (mp_amount p =? 0) "InvalidAmount",,
  revert_if (mp_timelock p <=? timestamp m) "InvalidTimelock",,
  revert_if (mp_deadline p <? timestamp m) "PermitExpired",,
  let actualEscrowId := fillEscrowId baseOrderId fillIndex in
  c <-- load;
  revert_if (stored (escrow_at actualEscrowId (g_escrows c))) "EscrowAlreadyExists",,
  verifySignatureAndUpdateNonce p sig,,
  createEscrowInternal actualEscrowId (mp_depositor p) (mp_beneficiary p) (mp_token p)
    (mp_amount p) (mp_hashlock p) (mp_timelock p) (value m),,
  emit (EscrowCreated actualEscrowId (mp_depositor p) (mp_beneficiary p) (mp_token p)
    (mp_amount p) (mp_hashlock p) (mp_timelock p)).

(** [safeTransfer]; there is no native escrow. *)
Definition pay_out (escrow : Escrow) (to : address) : call unit :=
  ok <-- token_transfer self (e_token escrow) to (e_amount escrow);
  require ok "SafeERC20FailedOperation".

Definition withdraw (m : Msg) (escrowId secret : bytes32) : call unit :=
  withdraw_with self accepts pay_out m escrowId secret.

Definition refund (m : Msg) (escrowId : bytes32) : call unit :=
  refund_with self accepts pay_out m escrowId.

Definition getEscrow (escrowId : bytes32) (c : Gasless) : Escrow := escrow_at escrowId (g_escrows c).

Definition getPartialFillOrder (baseOrderId : bytes32) (c : Gasless) : Z * Z * bytes32 * Z :=
  let order := order_at baseOrderId c in
  (po_totalAmount order, po_filledAmount order, po_merkleRoot order, po_numFills order).

Definition getNonce (user : address) (c : Gasless) : Z := nonce_of user c.
End Contract.

(** ** Transactions *)

Inductive GOp :=
  | GCreateOrder (p : PartialFillMetaTxParams) (sig : Z * bytes32 * bytes32)
  | GCreateFill (baseOrderId : bytes32) (fillIndex amount : Z) (hashlock : bytes32)
      (merkleProof : list bytes32)
  | GCreateEscrow (p : MetaTxParams) (sig : Z * bytes32 * bytes32)
  | GCreateFillEscrow (p : MetaTxParams) (baseOrderId : bytes32) (fillIndex : Z)
      (sig : Z * bytes32 * bytes32)
  | GWithdraw (escrowId secret : bytes32)
  | GRefund (escrowId : bytes32).

Record GTx := { g_sender : address; g_value : Z; g_op : GOp }.

(** The integers of the call data. *)
Definition g_uints (op : GOp) : list Z :=
  match op with
  | GCreateOrder p _ => [pp_totalAmount p; pp_numFills p; pp_timelock p; pp_deadline p]
  | GCreateFill _ i a _ _ => [i; a]
  | GCreateEscrow p _ => [mp_amount p; mp_timelock p; mp_deadline p]
  | GCreateFillEscrow p _ i _ => [mp_amount p; mp_timelock p; mp_deadline p; i]
  | GWithdraw _ _ | GRefund _ => []
  end.

Section Transactions.
Context `{Ethers, Solidity} {T : Type} `{ERC20 T}.
Context (self : address) (chainId : Z) (accepts : address -> bool).

Definition g_run (t : Z) (x : GTx) : evm (T := T) (C := Gasless) unit :=
  let m := {| sender := g_sender x; value := g_value x; timestamp := t |} in
  match g_op x with
  | GCreateOrder p sig => createPartialFillOrder self chainId m p sig
  | GCreateFill base i a h proof => createPartialFillEscrow self m base i a h proof
  | GCreateEscrow p sig => createEscrowWithMetaTx self chainId m p sig
  | GCreateFillEscrow p base i sig => createGaslessPartialFillEscrow self chainId m p base i sig
  | GWithdraw k secret => withdraw self accepts m k secret
  | GRefund k => refund self accepts m k
  end.

(** Call data are [uint256]s, and the contract never sends a transaction to
    itself. *)
Definition g_exec (t : Z) (x : GTx) (w : Evm T Gasless) : option (Evm T Gasless) :=
  if String.eqb (g_sender x) self
     || negb (forallb (fun z => (0 <=? z) && (z <? 2 ^ 256)) (g_uints (g_op x)))
  then None else world_after (g_run t x w).

Definition g_shows (x : GTx) (k : bytes32) : option bytes32 :=
  match g_op x with
  | GWithdraw k' secret => if decide (k = k') then Some secret else None
  | _ => None
  end.
End Transactions.

(** ** What a successful call did *)

(** No escrow of the contract is native. *)
Definition never (_ : address) : bool := false.

Section Effects.
Context `{Ethers, Solidity} {T : Type} `{ERC20 T}.
Context (self : address) (chainId : Z) (accepts good : address -> bool).
Context `{!TokenLaws self good}.
Implicit Types (w : Evm T Gasless).

Definition same_assets w w' : Prop := eth w' = eth w /\ ledger w' = ledger w.

(** The escrow [k] was created, funded and stored as [e]. *)
Definition funded (k : bytes32) (e : Escrow) w w' : Prop :=
  stored (escrow_at k (g_escrows (storage w))) = false /\
  storage w' = set_escrows (<[k := e]> (g_escrows (storage w))) (storage w) /\
  eth w' = eth w /\
  transferFrom (e_token e) self (e_depositor e) self (e_amount e) (ledger w)
    = Some (true, ledger w') /\
  balanceOf (ledger w) (e_token e) self + e_amount e <= balanceOf (ledger w') (e_token e) self.

Lemma create_internal_success k d b tok a h tl sd w u w' :
  createEscrowInternal self k d b tok a h tl sd w = Success (u, w') ->
  funded k {| e_depositor := d; e_beneficiary := b; e_token := tok; e_amount := a;
              e_hashlock := h; e_timelock := tl; e_withdrawn := false; e_refunded := false;
              e_safetyDeposit := sd |} w w'.
Proof.
  unfold createEscrowInternal. intros Hc. evm_inv Hc.
  unfold token_balance in *. simplify_eq.
  apply on_ledger_success in Hx0 as (S1 & E1 & L1). zbool.
  unfold funded. simpl. split_and!; [done|done|done|done|lia].
Qed.

Lemma require_signer_success ty data d sig w u w' :
  require_signer self chainId ty data d sig w = Success (u, w') ->
  w' = w /\ recoverTyped (own_domain self chainId) ty data sig.1.1 sig.1.2 sig.2 = Some d.
Proof.
  unfold require_signer. destruct (recoverTyped _ _ _ _ _ _) as [a|]; [|done].
  intros Hr. evm_inv Hr. apply negb_false_iff, String.eqb_eq in Hg as ->. done.
Qed.

Lemma increment_nonce_success user w u w' :
  increment_nonce user w = Success (u, w') ->
  same_assets w w' /\ storage w' = set_nonce user (nonce_of user (storage w) + 1) (storage w).
Proof. unfold increment_nonce. intros Hi. evm_inv Hi. done. Qed.

(** The depositor signed for the parameters and the current nonce, which is then
    used up. *)
Definition authorized (p : MetaTxParams) (sig : Z * bytes32 * bytes32) (c : Gasless) : Prop :=
  recoverTyped (own_domain self chainId) CREATE_ESCROW_TYPEHASH
    (escrow_struct p (nonce_of (mp_depositor p) c)) sig.1.1 sig.1.2 sig.2 = Some (mp_depositor p).

Lemma verify_success p sig w u w' :
  verifySignatureAndUpdateNonce self chainId p sig w = Success (u, w') ->
  authorized p sig (storage w) /\ same_assets w w' /\
  storage w' = set_nonce (mp_depositor p) (nonce_of (mp_depositor p) (storage w) + 1) (storage w).
Proof.
  unfold verifySignatureAndUpdateNonce. intros Hv.
  apply ebind_success in Hv as (? & ? & Hl & Hv). evm_inv Hl.
  apply ebind_success in Hv as (? & ? & Hs & Hv). apply require_signer_success in Hs as [-> Hs].
  apply increment_nonce_success in Hv as [Ha Hst]. done.
Qed.

(** The escrow that the parameters of a meta-transaction ask for. *)
Definition escrow_for (p : MetaTxParams) (deposit : Z) : Escrow :=
  {| e_depositor := mp_depositor p; e_beneficiary := mp_beneficiary p; e_token := mp_token p;
     e_amount := mp_amount p; e_hashlock := mp_hashlock p; e_timelock := mp_timelock p;
     e_withdrawn := false; e_refunded := false; e_safetyDeposit := deposit |}.

(** The escrow [k] was created, and nothing else but events happened after it. *)
Definition creates (k : bytes32) (e : Escrow) w w' : Prop :=
  exists w1, funded k e w w1 /\ storage w' = storage w1 /\ eth w' = eth w1 /\ ledger w' = ledger w1.

(** What both meta-transactions do: the escrow is stored under [k]. *)
Definition meta_effect (t v : Z) (p : MetaTxParams) (sig : Z * bytes32 * bytes32) (k : bytes32)
    w w' : Prop :=
  mp_amount p <> 0 /\ t < mp_timelock p /\ t <= mp_deadline p /\
  authorized p sig (storage w) /\
  exists w1,
    storage w1 = set_nonce (mp_depositor p) (nonce_of (mp_depositor p) (storage w) + 1) (storage w) /\
    ledger w1 = ledger w /\ 0 <= v /\ ethOf self w1 = ethOf self w + v /\
    creates k (escrow_for p v) w1 w'.

Lemma payable_self m w u w' :
  sender m <> self -> payable self m w = Success (u, w') ->
  0 <= value m /\ storage w' = storage w /\ ledger w' = ledger w /\
  ethOf self w' = ethOf self w + value m.
Proof.
  intros Hs Hp. apply payable_success in Hp as (Hv & S1 & L1 & E1). split_and!; try done.
  rewrite E1. unfold moved. rewrite decide_True, decide_False by congruence. lia.
Qed.

Lemma meta_steps (m : Msg) (p : MetaTxParams) sig k (body : evm (T := T) (C := Gasless) unit) w u w' :
  sender m <> self ->
  (forall w1 u1 w2, body w1 = Success (u1, w2) -> creates k (escrow_for p (value m)) w1 w2) ->
  (payable self m,,
   revert_if (mp_amount p =? 0) "InvalidAmount",,
   revert_if (mp_timelock p <=? timestamp m) "InvalidTimelock",,
   revert_if (mp_deadline p <? timestamp m) "PermitExpired",,
   c <-- load;
   revert_if (stored (escrow_at k (g_escrows c))) "EscrowAlreadyExists",,
   verifySignatureAndUpdateNonce self chainId p sig,, body) w = Success (u, w') ->
  meta_effect (timestamp m) (value m) p sig k w w'.
Proof.
  intros Hs Hbody Hc. apply ebind_success in Hc as (? & wp & Hp & Hc).
  apply (payable_self _ _ _ _ Hs) in Hp as (Hv & S1 & L1 & E1).
  apply ebind_success in Hc as (? & ? & Hx & Hc). evm_inv Hx. rename Hg into Hamt.
  apply ebind_success in Hc as (? & ? & Hx & Hc). evm_inv Hx. rename Hg into Htl.
  apply ebind_success in Hc as (? & ? & Hx & Hc). evm_inv Hx. rename Hg into Hdl.
  apply ebind_success in Hc as (? & ? & Hx & Hc). evm_inv Hx.
  apply ebind_success in Hc as (? & ? & Hx & Hc). evm_inv Hx.
  apply ebind_success in Hc as (? & w1 & Hx & Hc). apply verify_success in Hx as (Ha & [E2 L2] & S2).
  apply Hbody in Hc. zbool. rewrite S1 in *. unfold meta_effect. split_and!; [done|lia|lia|done|].
  exists w1. unfold ethOf in *. rewrite E2. split_and!; [done|congruence|done|done|done].
Qed.

Lemma createEscrowWithMetaTx_success m p sig w u w' :
  sender m <> self -> createEscrowWithMetaTx self chainId m p sig w = Success (u, w') ->
  meta_effect (timestamp m) (value m) p sig (mp_escrowId p) w w'.
Proof.
  intros Hs. apply meta_steps; [done|]. intros w1 u1 w2 Hb.
  apply create_internal_success in Hb. by exists w2.
Qed.

Lemma createGaslessPartialFillEscrow_success m p base i sig w u w' :
  sender m <> self -> createGaslessPartialFillEscrow self chainId m p base i sig w = Success (u, w') ->
  meta_effect (timestamp m) (value m) p sig (fillEscrowId base i) w w'.
Proof.
  intros Hs. apply meta_steps; [done|]. intros w1 u1 w2 Hb.
  apply ebind_success in Hb as (? & w3 & Hb & He). apply create_internal_success in Hb.
  evm_inv He. by exists w3.
Qed.

(** A partial fill of the signed order [order]. *)
Definition fill_effect (t v : Z) (who : address) (base : bytes32) (i a : Z) (h : bytes32)
    (proof : list bytes32) w w' : Prop :=
  let order := order_at base (storage w) in
  po_depositor order <> ZeroAddress /\ i < po_numFills order /\
  ~ (base, i) ∈ usedMerkleIndices (storage w) /\
  po_filledAmount order + a <= po_totalAmount order /\
  verifyMerkleProof proof (po_merkleRoot order) h (Z.to_nat i) = true /\
  exists w1,
    storage w1 = set_order base (add_filled a order) (use_index base i (storage w)) /\
    ledger w1 = ledger w /\ 0 < v /\ ethOf self w1 = ethOf self w + v /\
    creates (fillEscrowId base i)
      {| e_depositor := po_depositor order; e_beneficiary := who; e_token := WETH; e_amount := a;
         e_hashlock := h; e_timelock := t + 3600; e_withdrawn := false; e_refunded := false;
         e_safetyDeposit := v |} w1 w'.

Lemma createPartialFillEscrow_success m base i a h proof w u w' :
  sender m <> self -> createPartialFillEscrow self m base i a h proof w = Success (u, w') ->
  fill_effect (timestamp m) (value m) (sender m) base i a h proof w w'.
Proof.
  intros Hs Hc. unfold createPartialFillEscrow in Hc. apply ebind_success in Hc as (? & wp & Hp & Hc).
  apply (payable_self _ _ _ _ Hs) in Hp as (Hv & S1 & L1 & E1).
  apply ebind_success in Hc as (? & ? & Hx & Hc). evm_inv Hx.
  apply ebind_success in Hc as (? & ? & Hx & Hc). evm_inv Hx. rename Hg into Hd.
  apply ebind_success in Hc as (? & ? & Hx & Hc). evm_inv Hx. rename Hg into Hi.
  apply ebind_success in Hc as (? & ? & Hx & Hc). evm_inv Hx. rename Hg into Hused.
  apply ebind_success in Hc as (? & ? & Hx & Hc). evm_inv Hx.
  apply ebind_success in Hc as (? & ? & Hx & Hc). evm_inv Hx. rename Hg into Htot.
  apply ebind_success in Hc as (? & ? & Hx & Hc). evm_inv Hx. rename Hg into Hproof.
  apply ebind_success in Hc as (? & ? & Hx & Hc). evm_inv Hx.
  apply ebind_success in Hc as (? & ? & Hx & Hc). evm_inv Hx. rename Hg into Hdep.
  apply ebind_success in Hc as (? & ? & Hx & Hc). evm_inv Hx.
  apply create_internal_success in Hc. rewrite S1 in *. zbool. apply String.eqb_neq in Hd.
  apply bool_decide_eq_false in Hused. unfold fill_effect. split_and!; [done|lia|done|lia|done|].
  match type of Hc with funded _ _ ?w1 _ => exists w1 end.
  split_and!; [reflexivity|exact L1|done|exact E1|]. by exists w'.
Qed.

(** A partial-fill order, signed by its depositor for the current nonce. *)
Definition order_effect (t : Z) (p : PartialFillMetaTxParams) (sig : Z * bytes32 * bytes32)
    w w' : Prop :=
  pp_totalAmount p <> 0 /\ t < pp_timelock p /\ t <= pp_deadline p /\
  po_depositor (order_at (pp_baseOrderId p) (storage w)) = ZeroAddress /\
  recoverTyped (own_domain self chainId) CREATE_PARTIAL_FILL_ORDER_TYPE
    (order_struct p (nonce_of (pp_depositor p) (storage w))) sig.1.1 sig.1.2 sig.2
    = Some (pp_depositor p) /\
  same_assets w w' /\
  storage w' = set_order (pp_baseOrderId p)
    {| po_baseOrderId := pp_baseOrderId p; po_depositor := pp_depositor p;
       po_beneficiary := pp_beneficiary p; po_totalAmount := pp_totalAmount p;
       po_filledAmount := 0; po_merkleRoot := pp_merkleRoot p; po_numFills := pp_numFills p |}
    (set_nonce (pp_depositor p) (nonce_of (pp_depositor p) (storage w) + 1) (storage w)).

Lemma createPartialFillOrder_success m p sig w u w' :
  createPartialFillOrder self chainId m p sig w = Success (u, w') ->
  order_effect (timestamp m) p sig w w'.
Proof.
  intros Hc. unfold createPartialFillOrder in Hc.
  apply ebind_success in Hc as (? & ? & Hx & Hc). evm_inv Hx.
  apply ebind_success in Hc as (? & ? & Hx & Hc). evm_inv Hx. rename Hg0 into Hamt.
  apply ebind_success in Hc as (? & ? & Hx & Hc). evm_inv Hx. rename Hg0 into Htl.
  apply ebind_success in Hc as (? & ? & Hx & Hc). evm_inv Hx. rename Hg0 into Hdl.
  apply ebind_success in Hc as (? & ? & Hx & Hc). evm_inv Hx.
  apply ebind_success in Hc as (? & ? & Hx & Hc). evm_inv Hx. rename Hg0 into Hnew.
  apply ebind_success in Hc as (? & ? & Hx & Hc). apply require_signer_success in Hx as [-> Hs].
  apply ebind_success in Hc as (? & w1 & Hx & Hc). apply increment_nonce_success in Hx as [[E1 L1] S1].
  evm_inv Hc. zbool. apply negb_false_iff, String.eqb_eq in Hnew.
  unfold order_effect, same_assets. simpl. rewrite S1. split_and!; [done|lia|lia|done|done|done|done|done].
Qed.
End Effects.

(** ** Refinement of the specification *)

Section Refinement.
Context `{Ethers, Solidity} {T : Type} `{ERC20 T}.
Context (self : address) (chainId : Z) (accepts good : address -> bool).
Context `{!TokenLaws self good}.
Implicit Types (w : Evm T Gasless).

Definition g_ready w : Prop := solvent never self good w.

Lemma gasless_pay_out_payment :
  payment self accepts good never (pay_out (T := T) self) (fun _ => True).
Proof.
  split.
  - intros e to w w' u [Ha Hd] Hs. unfold pay_out in Hs. evm_inv Hs.
    apply on_ledger_success in Hx as (S1 & E1 & L1). split_and!; [done|done| |].
    + intros t Ht. simpl. destruct (decide (e_token e = t)) as [<-|Hne].
      * rewrite bool_decide_true by done. apply transfer_moves in L1 as [_ ->]; [|done].
        pose proof (moved_out self to _ Ha). lia.
      * rewrite bool_decide_false by done. apply transfer_frame with (t := t) in L1; auto. lia.
    + unfold ethOf. rewrite E1. simpl. lia.
  - intros e to w w' u [Ha Hd] Hto Hgood Hs. simpl in Hgood. unfold pay_out in Hs. evm_inv Hs.
    apply on_ledger_success in Hx as (_ & _ & L1). unfold asset_balance. simpl.
    apply transfer_moves in L1 as [_ ->]; [|done]. unfold moved.
    rewrite decide_True, decide_False by done. lia.
  - intros e to w [Ha Hd] Hto Hgood Hb He. simpl in Hgood. specialize (Hb eq_refl).
    destruct (transfer_succeeds (e_token e) to (e_amount e) (ledger w) Hgood (conj Ha Hb)) as [L' HL].
    unfold pay_out, ebind, token_transfer, on_ledger. rewrite HL. by eexists.
Qed.

(** An escrow that was created and funded leaves the contract solvent. *)
Lemma creates_step k e (t v : Z) w w1 w' :
  g_ready w -> g_escrows (storage w1) = g_escrows (storage w) -> ledger w1 = ledger w ->
  ethOf self w1 = ethOf self w + v -> e_safetyDeposit e = v -> 0 <= v -> 0 <= e_amount e ->
  t < e_timelock e -> e_withdrawn e = false -> e_refunded e = false -> creates self k e w1 w' ->
  g_ready w' /\ forall k' shown, cell_step keccak_unlocks t shown
    (cell_at (g_escrows (storage w)) k') (cell_at (g_escrows (storage w')) k').
Proof.
  intros Hs Hm Hl He Hd Hv Ha Ht Hw Hr (w2 & (Hnew & S2 & E2 & L2 & B2) & S3 & E3 & L3).
  rewrite Hm in *. split.
  - apply (open_solvent never self good w w' k e); [done|done| |by split; lia| |].
    + simpl. by rewrite S3, S2.
    + intros t' Ht'. rewrite L3, <- Hl. simpl. destruct (decide (e_token e = t')) as [<-|Hne].
      * rewrite bool_decide_true by done. lia.
      * rewrite bool_decide_false by done. apply transferFrom_frame with (t := t') in L2; auto. lia.
    + unfold ethOf in *. rewrite E3, E2. simpl. lia.
  - rewrite S3, S2. simpl. by apply open_cell.
Qed.

Lemma g_exec_step t x w w' :
  g_ready w -> g_exec self chainId accepts t x w = Some w' ->
  g_ready w' /\ forall k, cell_step keccak_unlocks t (g_shows x k)
    (cell_at (g_escrows (storage w)) k) (cell_at (g_escrows (storage w')) k).
Proof.
  intros Hs. unfold g_exec. destruct (String.eqb_spec (g_sender x) self) as [|Hne]; [done|]. simpl.
  destruct (forallb _ _) eqn:Hu; [|done]. simpl.
  destruct (g_run _ _ _ _ _ _) as [[[] w1]|] eqn:Hr; [|done]. intros [= <-].
  destruct x as [who v op]. unfold g_run, g_shows in *. simpl in *.
  destruct op as [p sig|base i a h proof|p sig|p base i sig|k secret|k]; simpl in Hu, Hr;
    rewrite ?andb_true_iff in Hu.
  - apply createPartialFillOrder_success in Hr as (_ & _ & _ & _ & _ & [E1 L1] & S1).
    split; [|intros k; rewrite S1; apply cell_same]. destruct Hs as [H1' H2' H3'].
    split; simpl in *; rewrite ?S1, ?L1; try done. unfold ethOf. by rewrite E1.
  - apply createPartialFillEscrow_success in Hr
      as (_ & _ & _ & _ & _ & w2 & S2 & L2 & Hv & E2 & Hcr); [|done].
    apply (creates_step _ _ t v w) in Hcr as [? ?]; simpl in *; try done; try lia.
    by rewrite S2.
  - apply createEscrowWithMetaTx_success in Hr
      as (_ & Htl & _ & _ & w2 & S2 & L2 & Hv & E2 & Hcr); [|done].
    apply (creates_step _ _ t v w) in Hcr as [? ?]; simpl in *; try done; try lia.
    by rewrite S2.
  - apply createGaslessPartialFillEscrow_success in Hr
      as (_ & Htl & _ & _ & w2 & S2 & L2 & Hv & E2 & Hcr); [|done].
    apply (creates_step _ _ t v w) in Hcr as [? ?]; simpl in *; try done; try lia.
    by rewrite S2.
  - apply (withdraw_step _ _ _ _ _ _ gasless_pay_out_payment) in Hr as (Hs' & _ & Hc); [|done].
    split; [done|]. intros k'. apply Hc.
  - apply (refund_step _ _ _ _ _ _ gasless_pay_out_payment) in Hr as (Hs' & _ & Hc); [|done].
    split; [done|]. intros k'. apply Hc.
Qed.

#[export] Instance g_chain : HtlcChain (Evm T Gasless) GTx := {|
  hc_cell := fun w k => cell_at (g_escrows (storage w)) k;
  hc_exec := g_exec self chainId accepts;
  hc_env := fun w w' =>
    storage w' = storage w /\ ethOf self w <= ethOf self w' /\
    forall t, good t = true -> balanceOf (ledger w) t self <= balanceOf (ledger w') t self;
  hc_shows := g_shows;
  hc_unlocks := keccak_unlocks;
  hc_claim := fun who k secret => {| g_sender := who; g_value := 0; g_op := GWithdraw k secret |};
  hc_refund := fun who k => {| g_sender := who; g_value := 0; g_op := GRefund k |};
  hc_asset_ok := good;
  hc_accepts := fun a => accepts a && negb (String.eqb a self);
  hc_balance := asset_balance never;
  hc_ready := g_ready
|}.

#[export] Instance g_laws : HtlcLaws (Evm T Gasless) GTx.
Proof.
  split.
  - intros t c w w' k Hr He. by apply (g_exec_step t c w w').
  - intros t c w w' Hr He. by apply (g_exec_step t c w w').
  - intros w w' k (Hst & _). simpl. by rewrite Hst.
  - intros w w' Hs (Hst & He & Hb). split; rewrite Hst.
    + apply (sv_sane _ _ _ w Hs).
    + intros t Ht. etrans; [by apply (sv_token _ _ _ w Hs)|by apply Hb].
    + etrans; [by apply (sv_eth _ _ _ w Hs)|done].
  - intros who k secret. simpl. unfold g_shows. simpl. by rewrite decide_True.
  - intros t who k secret l w Hs Hc Hu Hasset Hb Hw. simpl in *.
    rewrite !andb_true_iff, !negb_true_iff in *. destruct Hb as [Hb Hbs], Hw as [Hw Hne].
    apply String.eqb_neq in Hbs. apply cell_open in Hc as [Ho ->].
    destruct (withdraw_pays _ _ _ _ _ _ gasless_pay_out_payment
                {| sender := who; value := 0; timestamp := t |} k secret w Hs Ho
                (proj1 (String.eqb_eq _ _) Hu) Hasset eq_refl Hb Hbs Hw) as (w' & Hw' & Hrest).
    exists w'. split; [|exact Hrest].
    unfold g_exec, g_run, withdraw. simpl. by rewrite Hne, Hw'.
  - done.
  - intros t who k l w Hs Hc Ht Hasset Hb Hw. simpl in *.
    rewrite !andb_true_iff, !negb_true_iff in *. destruct Hb as [Hb Hbs], Hw as [Hw Hne].
    apply String.eqb_neq in Hbs. apply cell_open in Hc as [Ho ->].
    destruct (refund_pays_back _ _ _ _ _ _ gasless_pay_out_payment
                {| sender := who; value := 0; timestamp := t |} k w Hs Ho Ht
                Hasset eq_refl Hb Hbs Hw) as (w' & Hw' & Hrest).
    exists w'. split; [|exact Hrest].
    unfold g_exec, g_run, refund. simpl. by rewrite Hne, Hw'.
Qed.
End Refinement.
