(* ===== verification/GaslessSafety.v ===== *)
(** * What the gasless contract guarantees to depositors

    Traces of [FusionPlusGaslessEscrowV2] from its deployment: every escrow goes
    back to a signature of its depositor, a nonce is used once, the partial fills
    of an order stay within what was signed, and the meta-transaction that the
    page signs and the resolver submits is accepted. *)

From Stdlib Require Import ZArith Lia.
From stdpp Require Import base numbers list strings gmap.
From S2P Require Import Prelude.
From S2P Require Import JsNumber.
From S2P Require Import JsString.
From S2P Require Import PartialFill.
From S2P Require Import JsFormat.
From S2P Require Import Merkle.
From S2P Require Import Signature.
From S2P Require Import ChainService.
From S2P Require Import WebServices.
From S2P Require Import Chain.
From S2P Require Import EscrowEvents.
From S2P Require Import Htlc.
From S2P Require Import Evm.
From S2P Require Import SolEscrow.
From S2P Require Import GaslessEscrow.

Local Open Scope string_scope.
Local Open Scope Z_scope.

Section Traces.
Context `{Ethers, Solidity, !SolidityLaws} {T : Type} `{ERC20 T}.
Context (self : address) (chainId : Z) (accepts good : address -> bool).
Context `{!TokenLaws self good}.
Implicit Types (w : Evm T Gasless).

(** A transaction with its time and the world it was executed in. *)
Record Step := { st_time : Z; st_tx : GTx; st_world : Evm T Gasless }.

Inductive g_trace (w0 : Evm T Gasless) : list Step -> Evm T Gasless -> Prop :=
  | trace_nil : g_trace w0 [] w0
  | trace_tx l w t x w' :
      g_trace w0 l w -> g_exec self chainId accepts t x w = Some w' ->
      g_trace w0 (l ++ [{| st_time := t; st_tx := x; st_world := w |}]) w'
  | trace_env l w w' :
      g_trace w0 l w -> hc_env (HtlcChain := g_chain self chainId accepts good) w w' ->
      g_trace w0 l w'.

(** A contract as it is deployed. *)
Definition deployed w : Prop :=
  storage w = {| g_escrows := ∅; partialFillOrders := ∅; nonces := ∅; usedMerkleIndices := ∅ |} /\
  0 <= ethOf self w.

Lemma deployed_ready w : deployed w -> g_ready self good w.
Proof.
  intros [Hst He]. split; rewrite Hst; simpl.
  - by intros k e.
  - intros t Ht. rewrite map_sum_empty. apply (balance_nonneg (good := good)).
  - by rewrite map_sum_empty.
Qed.

Lemma trace_ready w0 l w : deployed w0 -> g_trace w0 l w -> g_ready self good w.
Proof.
  intros Hd Ht. induction Ht as [|l w t x w' Ht IH He|l w w' Ht IH He].
  - by apply deployed_ready.
  - by eapply (exec_ready (HtlcLaws := g_laws self chainId accepts good)) in He.
  - by eapply (env_ready (HtlcLaws := g_laws self chainId accepts good)) in He.
Qed.

(** What one transaction does to the storage. *)
Inductive storage_step (t : Z) (x : GTx) w : Gasless -> Prop :=
  | step_order p sig w' :
      g_op x = GCreateOrder p sig -> order_effect self chainId t p sig w w' ->
      0 <= pp_totalAmount p ->
      storage_step t x w (storage w')
  | step_fill base i a h proof w' :
      g_op x = GCreateFill base i a h proof -> 0 <= i -> 0 <= a ->
      fill_effect self t (g_value x) (g_sender x) base i a h proof w w' ->
      storage_step t x w (storage w')
  | step_meta p sig k w' :
      (g_op x = GCreateEscrow p sig /\ k = mp_escrowId p \/
       exists base i, g_op x = GCreateFillEscrow p base i sig /\ k = fillEscrowId base i) ->
      meta_effect self chainId t (g_value x) p sig k w w' ->
      storage_step t x w (storage w')
  | step_close k e' :
      (exists secret, g_op x = GWithdraw k secret) \/ g_op x = GRefund k ->
      let e := escrow_at k (g_escrows (storage w)) in
      is_open e = true -> lock_of e' = lock_of e -> stored e' = true ->
      storage_step t x w (set_escrows (<[k := e']> (g_escrows (storage w))) (storage w)).

Lemma g_exec_storage t x w w' :
  g_ready self good w -> g_exec self chainId accepts t x w = Some w' ->
  storage_step t x w (storage w').
Proof.
  intros Hs. unfold g_exec. destruct (String.eqb_spec (g_sender x) self) as [|Hne]; [done|]. simpl.
  destruct (forallb _ _) eqn:Hu; [|done]. simpl.
  destruct (g_run _ _ _ _ _ _) as [[[] w1]|] eqn:Hr; [|done]. intros [= <-].
  unfold g_run in Hr. destruct (g_op x) as [p sig|base i a h proof|p sig|p base i sig|k secret|k]
    eqn:Hop; simpl in Hu; rewrite ?andb_true_iff in Hu.
  - apply createPartialFillOrder_success in Hr. eapply step_order; [done|done|lia].
  - apply createPartialFillEscrow_success in Hr; [|done]. eapply step_fill; [done|lia|lia|done].
  - apply createEscrowWithMetaTx_success in Hr; [|done]. eapply step_meta; [by left|done].
  - apply createGaslessPartialFillEscrow_success in Hr; [|done].
    eapply step_meta; [right; by exists base, i|done].
  - apply withdraw_success in Hr as (Ho & Hh & Hc).
    apply (close_storage _ _ _ _ _ _ (gasless_pay_out_payment self accepts good)) in Hc as ->;
      [|by apply (solvent_at _ _ _ w k Hs)].
    eapply step_close; [by left; exists secret|done|done|].
    unfold is_open in Ho. by destruct (stored _).
  - apply refund_success in Hr as (Ho & Hh & Hc).
    apply (close_storage _ _ _ _ _ _ (gasless_pay_out_payment self accepts good)) in Hc as ->;
      [|by apply (solvent_at _ _ _ w k Hs)].
    eapply step_close; [by right|done|done|].
    unfold is_open in Ho. by destruct (stored _).
Qed.

(** A property of the trace and the storage holds if it holds at the deployment
    and every transaction keeps it. *)
Lemma trace_invariant (P : list Step -> Gasless -> Prop) w0 l w :
  deployed w0 -> g_trace w0 l w -> P [] (storage w0) ->
  (forall l w t x c, P l (storage w) -> storage_step t x w c ->
     P (l ++ [{| st_time := t; st_tx := x; st_world := w |}])%list c) ->
  P l (storage w).
Proof.
  intros Hd Ht Hinit Hstep. induction Ht as [|l w t x w' Ht IH He|l w w' Ht IH He]; [done| |].
  - apply Hstep; [done|]. apply g_exec_storage; [by eapply trace_ready|done].
  - destruct He as (-> & _). done.
Qed.

(** The nonce that a transaction uses up, and for whom. *)
Definition auth_of (s : Step) : option (address * Z) :=
  let n d := (d, nonce_of d (storage (st_world s))) in
  match g_op (st_tx s) with
  | GCreateOrder p _ => Some (n (pp_depositor p))
  | GCreateEscrow p _ | GCreateFillEscrow p _ _ _ => Some (n (mp_depositor p))
  | _ => None
  end.

Lemma nonce_of_set user n c user' :
  nonce_of user' (set_nonce user n c) = if decide (user' = user) then n else nonce_of user' c.
Proof.
  unfold nonce_of. simpl. case_decide as Hu.
  - subst. by rewrite lookup_insert_eq.
  - by rewrite lookup_insert_ne by done.
Qed.

(** The nonces after a transaction. *)
Lemma storage_step_nonce t x w c user :
  storage_step t x w c ->
  nonce_of user c = nonce_of user (storage w) +
    match auth_of {| st_time := t; st_tx := x; st_world := w |} with
    | Some (d, _) => if decide (user = d) then 1 else 0
    | None => 0
    end.
Proof.
  assert (forall d, nonce_of user (set_nonce d (nonce_of d (storage w) + 1) (storage w)) =
    nonce_of user (storage w) + if decide (user = d) then 1 else 0) as Hset.
  { intros d. rewrite nonce_of_set. case_decide; subst; lia. }
  intros Hst. unfold auth_of. simpl.
  destruct Hst as [p sig w' Hop Heff _|base i a h proof w' Hop _ _ Heff|p sig k w' Hop Heff|k e' Hop e Ho _ _].
  - destruct Heff as (_ & _ & _ & _ & _ & _ & ->). rewrite Hop. apply Hset.
  - destruct Heff as (_ & _ & _ & _ & _ & w1 & S1 & _ & _ & _ & w2 & (_ & S2 & _) & -> & _).
    rewrite Hop, S2. change (nonce_of user (set_escrows ?m ?c)) with (nonce_of user c).
    rewrite S1. unfold nonce_of. simpl. lia.
  - destruct Heff as (_ & _ & _ & _ & w1 & S1 & _ & _ & _ & w2 & (_ & S2 & _) & -> & _).
    rewrite S2. change (nonce_of user (set_escrows ?m ?c)) with (nonce_of user c).
    rewrite S1. destruct Hop as [[-> _]|(base & i & -> & _)]; apply Hset.
  - change (nonce_of user (set_escrows ?m ?c)) with (nonce_of user c).
    destruct Hop as [[secret ->]| ->]; lia.
Qed.

(** Every nonce is used at most once. *)
Lemma nonces_used_once w0 l w :
  deployed w0 -> g_trace w0 l w ->
  NoDup (omap auth_of l) /\
  forall d n, (d, n) ∈ omap auth_of l -> n < nonce_of d (storage w).
Proof.
  intros Hd Ht. apply (trace_invariant (fun l c => NoDup (omap auth_of l) /\
    forall d n, (d, n) ∈ omap auth_of l -> n < nonce_of d c) w0 l w Hd Ht).
  { split; [apply NoDup_nil_2|]. intros d n Hin. by apply elem_of_nil in Hin. }
  clear. intros l w t x c [Hnd Hlt] Hst.
  pose proof (fun user => storage_step_nonce t x w c user Hst) as Hn.
  rewrite omap_app. cbn [omap list_omap]. set (s := {| st_time := t |}) in *.
  assert (forall d n, auth_of s = Some (d, n) -> n = nonce_of d (storage w)) as Hs.
  { intros d n. unfold auth_of, s. simpl. destruct (g_op x); intros [= <- <-]; done. }
  destruct (auth_of s) as [[d n]|] eqn:Ha; simpl.
  - rewrite (Hs d n eq_refl). split.
    + apply NoDup_app. split_and!; [done| |apply NoDup_singleton].
      intros y Hy. rewrite list_elem_of_singleton. intros ->. apply Hlt in Hy. lia.
    + intros d' n'. rewrite elem_of_app, list_elem_of_singleton. rewrite Hn.
      intros [Hin|[= -> ->]]; [|rewrite decide_True by done; lia].
      apply Hlt in Hin. case_decide; lia.
  - rewrite app_nil_r. split; [done|]. intros d' n' Hin. apply Hlt in Hin. rewrite Hn. lia.
Qed.

(** The depositor of [p] signed for a partial-fill order in the step [s]. *)
Definition order_signed (p : PartialFillMetaTxParams) (sig : Z * bytes32 * bytes32) (s : Step)
    : Prop :=
  recoverTyped (own_domain self chainId) CREATE_PARTIAL_FILL_ORDER_TYPE
    (order_struct p (nonce_of (pp_depositor p) (storage (st_world s)))) sig.1.1 sig.1.2 sig.2
    = Some (pp_depositor p).

(** The order [o] stored for [base] was signed by its depositor. *)
Definition order_origin (l : list Step) (base : bytes32) (o : PartialFillOrder) : Prop :=
  exists s p sig, s ∈ l /\ g_op (st_tx s) = GCreateOrder p sig /\ order_signed p sig s /\
    pp_baseOrderId p = base /\ pp_depositor p = po_depositor o /\
    pp_beneficiary p = po_beneficiary o /\ pp_totalAmount p = po_totalAmount o /\
    pp_merkleRoot p = po_merkleRoot o /\ pp_numFills p = po_numFills o.

(** The escrow [k] on the terms [lk] was signed by its depositor: on its own, or
    as a fill of a signed order. *)
Definition origin (l : list Step) (k : bytes32) (lk : Lock) : Prop :=
  exists s, s ∈ l /\
    match g_op (st_tx s) with
    | GCreateEscrow p sig =>
        authorized self chainId p sig (storage (st_world s)) /\ k = mp_escrowId p /\
        lk = lock_of (escrow_for p 0)
    | GCreateFillEscrow p base i sig =>
        authorized self chainId p sig (storage (st_world s)) /\ k = fillEscrowId base i /\
        lk = lock_of (escrow_for p 0)
    | GCreateFill base i a h proof =>
        let o := order_at base (storage (st_world s)) in
        order_origin l base o /\ k = fillEscrowId base i /\ i < po_numFills o /\
        verifyMerkleProof proof (po_merkleRoot o) h (Z.to_nat i) = true /\
        lk = {| lk_depositor := po_depositor o; lk_beneficiary := g_sender (st_tx s);
                lk_asset := WETH; lk_amount := a; lk_hashlock := h;
                lk_timelock := st_time s + 3600 |}
    | _ => False
    end.

Lemma order_origin_app l l' base o : order_origin l base o -> order_origin (l ++ l') base o.
Proof.
  intros (s & p & sig & Hin & Hrest). exists s, p, sig. split; [|done]. apply elem_of_app. by left.
Qed.

Lemma origin_app l l' k lk : origin l k lk -> origin (l ++ l') k lk.
Proof.
  intros (s & Hin & Hrest). exists s. split; [apply elem_of_app; by left|].
  destruct (g_op (st_tx s)); try done. destruct Hrest as [Ho Hrest].
  split; [by apply order_origin_app|done].
Qed.

Lemma order_at_set base o c base' :
  order_at base' (set_order base o c) = if decide (base' = base) then o else order_at base' c.
Proof.
  unfold order_at. simpl. case_decide as Hb.
  - subst. by rewrite lookup_insert_eq.
  - by rewrite lookup_insert_ne by done.
Qed.

(** Origins survive a step that stores one escrow with an origin. *)
Lemma origin_insert l m k e :
  (forall k', stored (escrow_at k' m) = true -> origin l k' (lock_of (escrow_at k' m))) ->
  origin l k (lock_of e) ->
  forall k', stored (escrow_at k' (<[k := e]> m)) = true ->
    origin l k' (lock_of (escrow_at k' (<[k := e]> m))).
Proof.
  intros Hm He k'. rewrite escrow_at_insert. case_decide as Hk; [by subst|apply Hm].
Qed.

Definition origins (l : list Step) (c : Gasless) : Prop :=
  (forall k, stored (escrow_at k (g_escrows c)) = true ->
     origin l k (lock_of (escrow_at k (g_escrows c)))) /\
  (forall base, po_depositor (order_at base c) <> ZeroAddress -> order_origin l base (order_at base c)).

Lemma origins_step l w t x c :
  origins l (storage w) -> storage_step t x w c ->
  origins (l ++ [{| st_time := t; st_tx := x; st_world := w |}]) c.
Proof.
  intros [He Ho] Hst. set (s := {| st_time := t |}).
  assert (s ∈ (l ++ [s])%list) as Hin by (apply elem_of_app; right; by left).
  assert (forall k, stored (escrow_at k (g_escrows (storage w))) = true ->
    origin (l ++ [s])%list k (lock_of (escrow_at k (g_escrows (storage w))))) as He'
    by (intros k Hk; by apply origin_app, He).
  assert (forall base, po_depositor (order_at base (storage w)) <> ZeroAddress ->
    order_origin (l ++ [s])%list base (order_at base (storage w))) as Ho'
    by (intros base Hb; by apply order_origin_app, Ho).
  destruct Hst as [p sig w' Hop Heff _|base i a h proof w' Hop _ _ Heff|p sig k w' Hop Heff|k e' Hop e Hopen Hl Hs'].
  - destruct Heff as (_ & _ & _ & _ & Hsig & _ & ->). split; [done|].
    intros base. rewrite order_at_set. case_decide as Hb; [|by apply Ho'].
    intros _. exists s, p, sig. split_and!; [done|done|exact Hsig|done..].
  - destruct Heff as (Hd & Hi & _ & _ & Hp & w1 & S1 & _ & _ & _ & w2 & (_ & S2 & _) & -> & _).
    rewrite S2. split; [simpl; rewrite S1; simpl|].
    + apply origin_insert; [done|]. exists s. split; [done|]. simpl. rewrite Hop.
      split_and!; [by apply Ho'|done..].
    + intros base'. change (order_at base' (set_escrows ?m ?c)) with (order_at base' c).
      rewrite S1, order_at_set. case_decide as Hb; [|by apply Ho'].
      subst. simpl. intros Hnz. destruct (Ho' base Hnz) as (s0 & p0 & sig0 & Hrest).
      by exists s0, p0, sig0.
  - destruct Heff as (_ & _ & _ & Ha & w1 & S1 & _ & _ & _ & w2 & (_ & S2 & _) & -> & _).
    rewrite S2. split; simpl.
    + rewrite S1. simpl. apply origin_insert; [done|]. exists s. split; [done|]. simpl.
      destruct Hop as [[-> ->]|(base & i & -> & ->)]; split_and!; done.
    + intros base'. change (order_at base' (set_escrows ?m ?c)) with (order_at base' c).
      rewrite S1. change (order_at base' (set_nonce ?u ?n ?c)) with (order_at base' c). apply Ho'.
  - split; simpl; [|exact Ho']. apply origin_insert; [done|]. rewrite Hl. apply He'.
    unfold e, is_open in Hopen. by destruct (stored _).
Qed.

(** The fill of the order [base] that a step makes: its index and amount. *)
Definition fill_of (base : bytes32) (s : Step) : option (Z * Z) :=
  match g_op (st_tx s) with
  | GCreateFill base' i a _ _ => if decide (base' = base) then Some (i, a) else None
  | _ => None
  end.

Definition fills_of (base : bytes32) (l : list Step) : list (Z * Z) := omap (fill_of base) l.

Definition sum_amounts (l : list (Z * Z)) : Z := foldr (fun f acc => f.2 + acc) 0 l.

Lemma sum_amounts_snoc l i a : sum_amounts (l ++ [(i, a)]) = sum_amounts l + a.
Proof. induction l as [|[j b] l IH]; simpl in *; lia. Qed.

(** The fills of an order so far are those it was charged for. *)
Record budget (base : bytes32) (l : list Step) (c : Gasless) : Prop := {
  bu_once : NoDup (fills_of base l).*1;
  bu_used : forall i, (base, i) ∈ usedMerkleIndices c <-> i ∈ (fills_of base l).*1;
  bu_sum : sum_amounts (fills_of base l) = po_filledAmount (order_at base c);
  bu_none : po_depositor (order_at base c) = ZeroAddress -> fills_of base l = [];
  bu_within : 0 <= po_filledAmount (order_at base c) <= po_totalAmount (order_at base c);
  bu_index : Forall (fun i => 0 <= i < po_numFills (order_at base c)) (fills_of base l).*1
}.

Lemma budget_step base l w t x c :
  budget base l (storage w) -> storage_step t x w c ->
  budget base (l ++ [{| st_time := t; st_tx := x; st_world := w |}]) c.
Proof.
  intros Hb Hst. set (s := {| st_time := t |}).
  assert (fills_of base (l ++ [s]) = (fills_of base l ++ option_list (fill_of base s))%list) as Hl.
  { unfold fills_of. rewrite omap_app. f_equal. }
  assert (forall c', fill_of base s = None -> order_at base c' = order_at base (storage w) ->
    usedMerkleIndices c' = usedMerkleIndices (storage w) -> budget base (l ++ [s]) c') as Hsame.
  { intros c' Hnone Hor Hu. destruct Hb. split; rewrite ?Hl, ?Hnone, ?Hor, ?Hu; simpl;
      rewrite ?app_nil_r; done. }
  destruct Hst as [p sig w' Hop Heff Hpos|base' i a h proof w' Hop Hi0 Ha0 Heff|p sig k w' Hop Heff|k e' Hop e Hopen Hle Hs'].
  - destruct Heff as (_ & _ & _ & Hnew & Hsig & _ & ->).
    assert (fill_of base s = None) as Hnone by (unfold fill_of; simpl; by rewrite Hop).
    destruct (decide (base = pp_baseOrderId p)) as [->|Hne].
    + apply recover_nonzero in Hsig. pose proof (bu_none _ _ _ Hb Hnew) as Hnil.
      pose proof (bu_used _ _ _ Hb) as Hused. rewrite Hnil in Hused.
      split; rewrite ?Hl, ?Hnone, ?Hnil, ?order_at_set, ?decide_True by done; simpl; try done.
      apply NoDup_nil_2.
    + apply Hsame; [done| |done]. rewrite order_at_set, decide_False by done. done.
  - destruct Heff as (Hd & Hi & Hnu & Htot & _ & w1 & S1 & _ & _ & _ & w2 & (_ & S2 & _) & -> & _).
    assert (forall b, order_at b (storage w2) =
      if decide (b = base') then add_filled a (order_at base' (storage w))
      else order_at b (storage w)) as Hor.
    { intros b. rewrite S2. change (order_at b (set_escrows ?m ?c)) with (order_at b c).
      by rewrite S1, order_at_set. }
    assert (usedMerkleIndices (storage w2) = {[ (base', i) ]} ∪ usedMerkleIndices (storage w)) as Hus
      by (rewrite S2; simpl; by rewrite S1).
    destruct Hb as [Hnd Hused Hsum Hnil Hw Hidx].
    assert (fill_of base s = if decide (base' = base) then Some (i, a) else None) as Hf
      by (unfold fill_of; simpl; by rewrite Hop).
    destruct (decide (base' = base)) as [->|Hne].
    + split; rewrite ?Hl, ?Hf, ?Hor, ?decide_True by done; simpl; rewrite ?fmap_app; simpl.
      * apply NoDup_app. split_and!; [done| |apply NoDup_singleton].
        intros j Hj. rewrite list_elem_of_singleton. intros ->. by apply Hnu, Hused.
      * intros j. rewrite Hus, elem_of_union, elem_of_singleton, elem_of_app,
          list_elem_of_singleton, Hused. naive_solver.
      * rewrite sum_amounts_snoc. lia.
      * done.
      * lia.
      * apply Forall_app. split; [done|]. by repeat constructor.
    + split; rewrite ?Hl, ?Hf, ?Hor, ?(decide_False (P := base = base')) by congruence; simpl;
        rewrite ?app_nil_r; try done.
      intros j. rewrite Hus, elem_of_union, elem_of_singleton, Hused. naive_solver.
  - destruct Heff as (_ & _ & _ & Ha & w1 & S1 & _ & _ & _ & w2 & (_ & S2 & _) & -> & _).
    apply Hsame; [|by rewrite S2; unfold order_at; simpl; rewrite S1|by rewrite S2; simpl; rewrite S1].
    unfold fill_of. simpl. by destruct Hop as [[-> _]|(? & ? & -> & _)].
  - apply Hsame; [|done|done]. unfold fill_of. simpl. by destruct Hop as [[? ->]| ->].
Qed.
End Traces.

(** ** The meta-transaction of the page *)

(** A [uint256] argument given as a text, and a [uint8] given as a number. *)
Definition abi_uint (s : string) : option Z :=
  match BigInt s with Ok z => Some z | Throw _ => None end.

Definition abi_uint8 (n : number) : option Z :=
  match n with Finite m => Some (m / scale) | _ => None end.

(** The call data of [createEscrowWithMetaTx] from the resolver's arguments. *)
Definition meta_call (args : list Arg) : option (MetaTxParams * (Z * bytes32 * bytes32)) :=
  match args with
  | [AString k; AString d; AString b; AString tok; AString a; AString h; AString tl; AString dl;
     ANumber v; AString r; AString s] =>
      a ← abi_uint a; tl ← abi_uint tl; dl ← abi_uint dl; v ← abi_uint8 v;
      Some ({| mp_escrowId := k; mp_depositor := d; mp_beneficiary := b; mp_token := tok;
               mp_amount := a; mp_hashlock := h; mp_timelock := tl; mp_deadline := dl |}, (v, r, s))
  | _ => None
  end.

Lemma abi_uint_toString (z : Z) : abi_uint (toString z) = Some z.
Proof. unfold abi_uint. by rewrite BigInt_toString. Qed.

(** A whole number of seconds reads back from its text. *)
Lemma abi_uint_number (z : Z) : 0 <= z < 2 ^ 53 -> abi_uint (number_toString (of_Z z)) = Some z.
Proof.
  intros Hz. assert (small z) as Hsm by (unfold small; lia).
  destruct (whole_toString z) as (z' & Hz' & HB & Hof); [lia|by apply small_double|].
  unfold abi_uint. rewrite of_Z_small, HB by done. f_equal.
  destruct (Z.le_gt_cases z' (2 ^ 53)) as [Hle|Hgt].
  - rewrite of_Z_small in Hof by (unfold small; lia). injection Hof as Hof.
    apply Z.mul_reg_r in Hof; [done|]. pose proof scale_pos. lia.
  - exfalso. assert (leb (of_Z (2 ^ 53)) (of_Z z') = true) as Hm.
    { apply round_mono; [lia|lia|]. pose proof scale_pos. nia. }
    rewrite Hof, of_Z_small in Hm by (unfold small; lia). cbn [leb] in Hm. zbool.
    pose proof scale_pos. nia.
Qed.

Section Page.
Context `{Ethers, EthersBytes, Solidity, !SolidityLaws} {T : Type} `{ERC20 T}.
Context (self : address) (chainId : Z) (good : address -> bool) `{!TokenLaws self good}.
Implicit Types (w : Evm T Gasless).

(** The page's message is the contract's struct. *)
Lemma page_struct (params : GaslessEscrowParams) p n :
  mp_escrowId p = hexlify (ge_escrowId params) -> mp_depositor p = ge_depositor params ->
  mp_beneficiary p = ge_beneficiary params -> mp_token p = ge_token params ->
  toString (mp_amount p) = ge_amount params -> mp_hashlock p = hexlify (ge_hashlock params) ->
  of_Z (mp_timelock p) = ge_timelock params ->
  0 <= mp_timelock p < 2 ^ 53 -> 0 <= mp_deadline p < 2 ^ 53 -> 0 <= n < 2 ^ 53 ->
  same_message (escrow_struct p n)
    (GaslessWETHTransaction.meta_message params (of_Z n) (of_Z (mp_deadline p))).
Proof.
  intros E1 E2 E3 E4 E5 E6 E7 Ht Hd Hn. unfold escrow_struct, GaslessWETHTransaction.meta_message.
  rewrite E1, E2, E3, E4, E5, E6, <- E7.
  repeat constructor; simpl; lia.
Qed.

(** An escrow that the ledger funds exactly is created. *)
Lemma create_internal_works k d b tok a h tl sd w L1 :
  stored (escrow_at k (g_escrows (storage w))) = false -> good tok = true -> d <> self ->
  0 <= a < 2 ^ 256 -> transferFrom tok self d self a (ledger w) = Some (true, L1) ->
  exists w', createEscrowInternal self k d b tok a h tl sd w = Success (tt, w') /\
    storage w' = set_escrows
      (<[k := {| e_depositor := d; e_beneficiary := b; e_token := tok; e_amount := a;
                 e_hashlock := h; e_timelock := tl; e_withdrawn := false; e_refunded := false;
                 e_safetyDeposit := sd |}]> (g_escrows (storage w))) (storage w) /\
    ledger w' = L1.
Proof.
  intros Hnew Hg Hd Ha HL. pose proof (transferFrom_moves _ _ _ _ _ _ Hg HL) as (_ & _ & Hm).
  assert (balanceOf L1 tok self - balanceOf (ledger w) tok self = a) as Hrec.
  { rewrite Hm. unfold moved. rewrite decide_True, decide_False by congruence. lia. }
  eexists. split.
  - unfold createEscrowInternal. unfold ebind at 1. cbn [load]. unfold ebind at 1. rewrite Hnew. simpl.
    unfold ebind at 1, token_balance. unfold ebind at 1, token_transferFrom, on_ledger. rewrite HL.
    unfold ebind at 1. simpl. unfold ebind at 1. cbn [ledger].
    unfold ebind at 1, uint256. rewrite Hrec.
    rewrite (proj2 (Z.leb_le 0 a)), (proj2 (Z.ltb_lt a (2 ^ 256))) by lia. simpl.
    unfold ebind at 1. rewrite Z.leb_refl. reflexivity.
  - done.
Qed.

(** A meta-transaction with a good signature and enough funds is executed. *)
Lemma meta_tx_works m p sig w L1 :
  mp_amount p <> 0 -> 0 <= mp_amount p < 2 ^ 256 -> timestamp m < mp_timelock p ->
  timestamp m <= mp_deadline p -> value m = 0 -> 0 <= ethOf (sender m) w ->
  good (mp_token p) = true -> mp_depositor p <> self ->
  0 <= nonce_of (mp_depositor p) (storage w) < 2 ^ 53 ->
  stored (escrow_at (mp_escrowId p) (g_escrows (storage w))) = false ->
  authorized self chainId p sig (storage w) ->
  transferFrom (mp_token p) self (mp_depositor p) self (mp_amount p) (ledger w) = Some (true, L1) ->
  exists w', createEscrowWithMetaTx self chainId m p sig w = Success (tt, w') /\
    storage w' = set_escrows (<[mp_escrowId p := escrow_for p 0]> (g_escrows (storage w)))
      (set_nonce (mp_depositor p) (nonce_of (mp_depositor p) (storage w) + 1) (storage w)) /\
    ledger w' = L1.
Proof.
  intros Ha0 Ha Ht Hd Hv Hg Hgood Hself Hn Hnew Hauth HL.
  destruct (create_internal_works (mp_escrowId p) (mp_depositor p) (mp_beneficiary p) (mp_token p)
    (mp_amount p) (mp_hashlock p) (mp_timelock p) (value m)
    {| storage := set_nonce (mp_depositor p) (nonce_of (mp_depositor p) (storage w) + 1) (storage w);
       eth := move_eth (sender m) self (value m) (eth w); ledger := ledger w; logs := logs w |} L1)
    as (w' & Hw' & S' & L'); [done..|].
  exists w'. rewrite Hv in *. split; [|done]. rewrite <- Hw'.
  unfold createEscrowWithMetaTx. unfold ebind at 1, payable. rewrite Hv.
  rewrite (proj2 (Z.leb_le 0 _) Hg). simpl.
  unfold ebind at 1. rewrite (proj2 (Z.eqb_neq _ _) Ha0). simpl.
  unfold ebind at 1. rewrite (proj2 (Z.leb_gt _ _) Ht). simpl.
  unfold ebind at 1. rewrite (proj2 (Z.ltb_ge _ _) Hd). simpl.
  unfold ebind at 1. cbn [load]. unfold ebind at 1. cbn [storage]. rewrite Hnew. simpl.
  unfold ebind at 1, verifySignatureAndUpdateNonce. unfold ebind at 1. cbn [load storage].
  unfold ebind at 1, require_signer. unfold authorized in Hauth. rewrite Hauth, String.eqb_refl. simpl.
  unfold increment_nonce. unfold ebind at 1. cbn [load storage].
  unfold ebind at 1, uint256. rewrite (proj2 (Z.leb_le 0 _)) by lia.
  rewrite (proj2 (Z.ltb_lt _ (2 ^ 256))) by lia. reflexivity.
Qed.

(** C18. Round trip from the page through the resolver to the contract: the
    meta-transaction that [signMetaTx] has the wallet sign for the contract's
    current nonce, handed to the resolver by [prepareGaslessEscrowData] and
    submitted with [executeGaslessWETHEscrow]'s arguments, is accepted by
    [createEscrowWithMetaTx], which hashes it with the type and the domain that
    the contract has of its own: it decodes to the terms of the page, the
    signature is recovered as the depositor's, the tokens are pulled, and the
    escrow is open on exactly those terms with the nonce used up. *)
Theorem page_meta_tx_accepted (params : GaslessEscrowParams) (amount timelock n deadline : Z)
    (v : Z) (r s : bytes32) (m : Msg) w :
  ge_amount params = toString amount -> 0 < amount < 2 ^ 256 ->
  ge_timelock params = of_Z timelock -> 0 <= timelock < 2 ^ 53 -> 0 <= deadline < 2 ^ 53 ->
  0 <= v < 256 -> 0 <= n < 2 ^ 53 -> n = nonce_of (ge_depositor params) (storage w) ->
  recoverTyped (GaslessWETHTransaction.meta_domain self chainId)
    GaslessWETHTransaction.CREATE_ESCROW_TYPE
    (GaslessWETHTransaction.meta_message params (of_Z n) (of_Z deadline)) v r s
    = Some (ge_depositor params) ->
  timestamp m < timelock -> timestamp m <= deadline -> value m = 0 -> 0 <= ethOf (sender m) w ->
  good (ge_token params) = true -> ge_depositor params <> self ->
  amount <= balanceOf (ledger w) (ge_token params) (ge_depositor params) ->
  amount <= allowance (ledger w) (ge_token params) (ge_depositor params) self ->
  stored (escrow_at (hexlify (ge_escrowId params)) (g_escrows (storage w))) = false ->
  let g := GaslessWETHTransaction.prepareGaslessEscrowData params (v, r, s) (of_Z deadline) in
  exists p w', meta_call (meta_tx_args g) = Some (p, (v, r, s)) /\
    createEscrowWithMetaTx self chainId m p (v, r, s) w = Success (tt, w') /\
    cell_at (g_escrows (storage w')) (hexlify (ge_escrowId params)) =
      Some (Open {| lk_depositor := ge_depositor params; lk_beneficiary := ge_beneficiary params;
                    lk_asset := ge_token params; lk_amount := amount;
                    lk_hashlock := hexlify (ge_hashlock params); lk_timelock := timelock |}) /\
    nonce_of (ge_depositor params) (storage w') = n + 1 /\
    balanceOf (ledger w') (ge_token params) (ge_depositor params) =
      balanceOf (ledger w) (ge_token params) (ge_depositor params) - amount.
Proof.
  intros Eam Ham Etl Htl Hdl Hv Hn En Hrec Ht1 Ht2 Hval Hgas Hgood Hself Hbal Hal Hnew g.
  set (p := {| mp_escrowId := hexlify (ge_escrowId params); mp_depositor := ge_depositor params;
               mp_beneficiary := ge_beneficiary params; mp_token := ge_token params;
               mp_amount := amount; mp_hashlock := hexlify (ge_hashlock params);
               mp_timelock := timelock; mp_deadline := deadline |}).
  destruct (transferFrom_succeeds (ge_token params) (ge_depositor params) amount (ledger w) Hgood)
    as [L1 HL1]; [lia|done|].
  pose proof (transferFrom_moves _ _ _ _ _ _ Hgood HL1) as (_ & _ & Hmoved).
  exists p.
  assert (meta_call (meta_tx_args g) = Some (p, (v, r, s))) as Hcall.
  { unfold meta_call, meta_tx_args, g. simpl. rewrite Eam, Etl.
    rewrite abi_uint_toString, !abi_uint_number by done. simpl. rewrite of_Z_small by (unfold small; lia). simpl.
    rewrite Z.div_mul by (pose proof scale_pos; lia). done. }
  pose proof (recover_nonzero _ _ _ _ _ _ _ Hrec) as Hnz.
  rewrite <- (recover_values _ _ _ _ v r s (page_struct params p n eq_refl eq_refl eq_refl eq_refl
    (eq_sym Eam) eq_refl (eq_sym Etl) Htl Hdl Hn)) in Hrec.
  rewrite En in Hrec. destruct (meta_tx_works m p (v, r, s) w L1)
    as (w' & Hw' & S' & L'); simpl; try done; try lia.
  exists w'. split_and!; [done|done| | |].
  - rewrite S'. simpl. unfold cell_at. rewrite escrow_at_insert, decide_True by done.
    unfold cell_of, stored. simpl. by rewrite (proj2 (String.eqb_neq _ _) Hnz).
  - rewrite S'. change (nonce_of ?u (set_escrows ?e ?c)) with (nonce_of u c).
    rewrite nonce_of_set, decide_True by done. simpl. lia.
  - rewrite L', Hmoved. unfold moved. rewrite decide_False, decide_True by congruence. lia.
Qed.
End Page.

(** ** What a trace guarantees *)

Section Guarantees.
Context `{Ethers, Solidity, !SolidityLaws} {T : Type} `{ERC20 T}.
Context (self : address) (chainId : Z) (accepts good : address -> bool).
Context `{!TokenLaws self good}.
Implicit Types (w : Evm T Gasless).

(** C9. No escrow without a signature, and no signature twice: whatever
    transactions were sent to the deployed contract, every stored escrow was
    created on the terms its depositor signed in a meta-transaction, or is a fill
    with a valid Merkle proof of an order its depositor signed; and over all
    meta-transactions no nonce of a depositor was accepted twice. *)
Theorem gasless_escrow_signed w0 w l :
  deployed self w0 -> g_trace self chainId accepts good w0 l w ->
  NoDup (omap auth_of l) /\
  forall k, stored (escrow_at k (g_escrows (storage w))) = true ->
    origin self chainId l k (lock_of (escrow_at k (g_escrows (storage w)))).
Proof.
  intros Hd Ht. split; [by eapply nonces_used_once|].
  apply (trace_invariant self chainId accepts good (origins self chainId) w0 l w Hd Ht).
  - destruct Hd as [-> _]. split; [by intros k|]. intros base Hb. by destruct Hb.
  - intros l' w' t x c Ho Hs. by eapply origins_step.
Qed.

(** C8. A partial-fill order is spent as signed: in any trace of the deployed
    contract the escrows that [createPartialFillEscrow] made for a stored order
    have distinct Merkle indices below the signed number of fills, their amounts
    add up to [filledAmount], which never exceeds the signed [totalAmount], and
    the order's depositor, total, root and number of fills are those of one
    signed message. *)
Theorem partial_fill_budget w0 w l base :
  deployed self w0 -> g_trace self chainId accepts good w0 l w ->
  let o := order_at base (storage w) in
  po_depositor o <> ZeroAddress ->
  order_origin self chainId l base o /\
  NoDup (fills_of base l).*1 /\
  Forall (fun i => 0 <= i < po_numFills o) (fills_of base l).*1 /\
  (forall i, (base, i) ∈ usedMerkleIndices (storage w) <-> i ∈ (fills_of base l).*1) /\
  sum_amounts (fills_of base l) = po_filledAmount o /\
  po_filledAmount o <= po_totalAmount o.
Proof.
  intros Hd Ht o Ho.
  assert (origins self chainId l (storage w)) as [_ Hor].
  { apply (trace_invariant self chainId accepts good (origins self chainId) w0 l w Hd Ht).
    - destruct Hd as [-> _]. split; [by intros k|]. intros base' Hb. by destruct Hb.
    - intros l' w' t x c Hb Hs. by eapply origins_step. }
  assert (budget base l (storage w)) as [].
  { apply (trace_invariant self chainId accepts good (budget base) w0 l w Hd Ht).
    - destruct Hd as [-> _]. split; simpl; try done; first [apply NoDup_nil_2|set_solver|constructor].
    - intros l' w' t x c Hb Hs. by eapply budget_step. }
  split_and!; [by apply Hor|done..|apply bu_within0].
Qed.

(** C4. The gasless contract refines the escrow specification for every
    well-behaved token, also for one that lets an account move its own balance
    without an allowance: from the deployment on an open escrow keeps its terms
    and stays open, or was withdrawn with a presented secret that hashes to its
    hash lock, or was refunded at or after its time lock; while it is open,
    [withdraw] with the secret and, after the time lock, [refund] succeed and
    pay its amount. *)
Theorem gasless_promise w0 w1 w2 t0 t1 t2 l1 l2 k lk :
  deployed self w0 ->
  history (H := g_chain self chainId accepts good) t0 w0 l1 t1 w1 ->
  cell_at (g_escrows (storage w1)) k = Some (Open lk) ->
  history (H := g_chain self chainId accepts good) t1 w1 l2 t2 w2 ->
  (cell_at (g_escrows (storage w2)) k = Some (Open lk) /\
   payable_escrow (H := g_chain self chainId accepts good) w2 k lk) \/
  (cell_at (g_escrows (storage w2)) k = Some (Claimed lk) /\
   exists t x secret, (t, x) ∈ l2 /\ g_op x = GWithdraw k secret /\
     keccak256 secret = lk_hashlock lk) \/
  (cell_at (g_escrows (storage w2)) k = Some (Returned lk) /\ lk_timelock lk <= t2).
Proof.
  intros Hd Hh1 Ho Hh2. pose proof (deployed_ready self good w0 Hd) as Hr0.
  pose proof (history_ready (H0 := g_laws self chainId accepts good) _ _ _ _ _ Hr0 Hh1) as Hr1.
  pose proof (history_ready (H0 := g_laws self chainId accepts good) _ _ _ _ _ Hr1 Hh2) as Hr2.
  destruct (open_fate (H0 := g_laws self chainId accepts good) _ _ _ _ _ _ _ Hh2 Hr1 Ho)
    as [Ho2|[(Hc & secret & (t & x & Hin & Hs) & Hu)|Hret]].
  - left. split; [done|]. by apply (open_payable (H0 := g_laws self chainId accepts good)).
  - right; left. split; [done|]. exists t, x, secret. split; [done|]. simpl in Hs, Hu.
    unfold g_shows in Hs. destruct (g_op x); try done. case_decide; simplify_eq.
    by apply String.eqb_eq in Hu.
  - by right; right.
Qed.
End Guarantees.

(** ** Concrete runs *)

Module GaslessExample.
(** Signatures that name their signer. *)
#[export] Instance named_signer : Solidity := {|
  recoverTyped := fun _ _ _ _ r _ => if String.eqb r ZeroAddress then None else Some r;
  fillEscrowId := fun base i => "F(" ++ base ++ "," ++ toString i ++ ")"
|}.

#[export] Instance named_signer_laws : SolidityLaws.
Proof.
  split; [|done]. intros d ty m v r s a. simpl. destruct (String.eqb_spec r ZeroAddress); [done|].
  by intros [= <-].
Qed.

#[export] Instance tokens : ERC20 Plain := plain_token true.
#[export] Instance tokens_laws : TokenLaws "0xgasless" (fun _ => true) :=
  plain_token_laws true "0xgasless" (fun _ => true).

Definition everyone (_ : address) : bool := true.

(** The maker holds 10 WETH units and approved the contract; the resolver has
    some ether. *)
Definition w0 : Evm Plain Gasless :=
  {| storage := {| g_escrows := ∅; partialFillOrders := ∅; nonces := ∅; usedMerkleIndices := ∅ |};
     eth := {[ "0xresolver" := 100 ]}; logs := [];
     ledger := {| pl_balance := {[ (WETH, "0xmaker") := 10%N ]};
                  pl_allowance := {[ (WETH, "0xmaker", "0xgasless") := MaxUint256 ]} |} |}.

Definition order_tx : GTx :=
  {| g_sender := "0xresolver"; g_value := 0;
     g_op := GCreateOrder
       {| pp_baseOrderId := "0xbase"; pp_depositor := "0xmaker"; pp_beneficiary := "0xresolver";
          pp_token := WETH; pp_totalAmount := 10; pp_merkleRoot := hash_pair "h0" (keccak256 "s1");
          pp_numFills := 2; pp_timelock := 1000; pp_deadline := 500 |} (27, "0xmaker", "s") |}.

Definition fill_tx : GTx :=
  {| g_sender := "0xresolver"; g_value := 1; g_op := GCreateFill "0xbase" 1 4 (keccak256 "s1") ["h0"] |}.

Definition claim_tx : GTx :=
  {| g_sender := "0xanyone"; g_value := 0; g_op := GWithdraw "F(0xbase,1)" "s1" |}.

Definition exec (t : Z) (x : GTx) (w : Evm Plain Gasless) : Evm Plain Gasless :=
  default w0 (g_exec "0xgasless" 11155111 everyone t x w).

Definition w1 := exec 10 order_tx w0.
Definition w2 := exec 20 fill_tx w1.
Definition w3 := exec 30 claim_tx w2.

Definition steps : list Step :=
  [{| st_time := 10; st_tx := order_tx; st_world := w0 |};
   {| st_time := 20; st_tx := fill_tx; st_world := w1 |}].

Lemma run_deployed : deployed "0xgasless" w0.
Proof. split; [done|vm_compute; discriminate]. Qed.

Lemma run_trace : g_trace "0xgasless" 11155111 everyone (fun _ => true) w0 steps w2.
Proof.
  apply (trace_tx _ _ _ _ _ [{| st_time := 10; st_tx := order_tx; st_world := w0 |}] w1 20 fill_tx w2);
    [|apply (some_default w0); vm_compute; reflexivity].
  apply (trace_tx _ _ _ _ _ [] w0 10 order_tx w1);
    [constructor|apply (some_default w0); vm_compute; reflexivity].
Qed.
End GaslessExample.
Import GaslessExample.

Lemma gasless_escrow_signed_witness :
  origin (T := Plain) "0xgasless" 11155111 GaslessExample.steps "F(0xbase,1)"
    {| lk_depositor := "0xmaker"; lk_beneficiary := "0xresolver"; lk_asset := WETH; lk_amount := 4;
       lk_hashlock := keccak256 "s1"; lk_timelock := 3620 |}.
Proof.
  pose proof (proj2 (gasless_escrow_signed "0xgasless" 11155111 GaslessExample.everyone (fun _ => true)
    GaslessExample.w0 GaslessExample.w2 GaslessExample.steps
    GaslessExample.run_deployed GaslessExample.run_trace) "F(0xbase,1)") as Ho.
  assert (lock_of (escrow_at "F(0xbase,1)" (g_escrows (storage GaslessExample.w2))) =
    {| lk_depositor := "0xmaker"; lk_beneficiary := "0xresolver"; lk_asset := WETH; lk_amount := 4;
       lk_hashlock := keccak256 "s1"; lk_timelock := 3620 |}) as E by (vm_compute; reflexivity).
  rewrite E in Ho. apply Ho. vm_compute; reflexivity.
Defined.

Lemma partial_fill_budget_witness :
  sum_amounts (fills_of "0xbase" GaslessExample.steps) = 4 /\
  po_filledAmount (order_at "0xbase" (storage GaslessExample.w2)) <= 10.
Proof.
  destruct (partial_fill_budget "0xgasless" 11155111 GaslessExample.everyone (fun _ => true)
    GaslessExample.w0 GaslessExample.w2 GaslessExample.steps "0xbase"
    GaslessExample.run_deployed GaslessExample.run_trace) as (_ & _ & _ & _ & Hsum & Hle).
  - vm_compute; discriminate.
  - split; [rewrite Hsum; vm_compute; reflexivity|].
    assert (po_totalAmount (order_at "0xbase" (storage GaslessExample.w2)) = 10) as E
      by (vm_compute; reflexivity).
    rewrite E in Hle. exact Hle.
Defined.

Lemma gasless_promise_witness :
  cell_at (g_escrows (storage GaslessExample.w3)) "F(0xbase,1)" =
  Some (Claimed {| lk_depositor := "0xmaker"; lk_beneficiary := "0xresolver"; lk_asset := WETH;
                   lk_amount := 4; lk_hashlock := keccak256 "s1"; lk_timelock := 3620 |}).
Proof.
  set (lk := {| lk_depositor := "0xmaker"; lk_beneficiary := "0xresolver"; lk_asset := WETH;
                lk_amount := 4; lk_hashlock := keccak256 "s1"; lk_timelock := 3620 |}).
  assert (forall c, cell_at (g_escrows (storage GaslessExample.w3)) "F(0xbase,1)" = Some c ->
    c = Claimed lk) as Hc by (vm_compute; intros c [= <-]; reflexivity).
  destruct (gasless_promise "0xgasless" 11155111 GaslessExample.everyone (fun _ => true)
    GaslessExample.w0 GaslessExample.w2 GaslessExample.w3 0 20 30
    [(10, GaslessExample.order_tx); (20, GaslessExample.fill_tx)] [(30, GaslessExample.claim_tx)]
    "F(0xbase,1)" lk) as [[Ho _]|[[Hcl _]|[Hr _]]].
  - exact GaslessExample.run_deployed.
  - apply (history_cons (H := g_chain "0xgasless" 11155111 GaslessExample.everyone (fun _ => true))
      0 10 20 _ GaslessExample.w0 GaslessExample.w1 GaslessExample.w2);
      [lia|apply (some_default GaslessExample.w0); vm_compute; reflexivity|].
    apply (history_cons (H := g_chain "0xgasless" 11155111 GaslessExample.everyone (fun _ => true))
      10 20 20 _ GaslessExample.w1 GaslessExample.w2 GaslessExample.w2);
      [lia|apply (some_default GaslessExample.w0); vm_compute; reflexivity|apply history_nil].
  - vm_compute; reflexivity.
  - apply (history_cons (H := g_chain "0xgasless" 11155111 GaslessExample.everyone (fun _ => true))
      20 30 30 _ GaslessExample.w2 GaslessExample.w3 GaslessExample.w3);
      [lia|apply (some_default GaslessExample.w0); vm_compute; reflexivity|apply history_nil].
  - apply Hc in Ho; discriminate.
  - exact Hcl.
  - apply Hc in Hr; discriminate.
Defined.

Lemma page_meta_tx_accepted_witness :
  let params := {| ge_escrowId := "0xid"; ge_depositor := "0xmaker"; ge_beneficiary := "0xresolver";
                   ge_token := WETH; ge_amount := "7"; ge_hashlock := "0xhash";
                   ge_timelock := of_Z 1000 |} in
  exists p w', meta_call (meta_tx_args
      (GaslessWETHTransaction.prepareGaslessEscrowData (H := hex_bytes) params (27, "0xmaker", "s")
         (of_Z 500))) = Some (p, (27, "0xmaker", "s")) /\
    createEscrowWithMetaTx "0xgasless" 11155111 {| sender := "0xresolver"; value := 0; timestamp := 10 |}
      p (27, "0xmaker", "s") GaslessExample.w0 = Success (tt, w') /\
    nonce_of "0xmaker" (storage w') = 1.
Proof.
  intros params.
  destruct (page_meta_tx_accepted (H0 := hex_bytes) "0xgasless" 11155111 (fun _ => true)
    params 7 1000 0 500 27 "0xmaker" "s"
    {| sender := "0xresolver"; value := 0; timestamp := 10 |} GaslessExample.w0)
    as (p & w' & Hcall & Hrun & _ & Hn & _);
    [vm_compute; reflexivity|lia|reflexivity|lia|lia|lia|lia|vm_compute; reflexivity|reflexivity
    |cbn; lia|cbn; lia|reflexivity|vm_compute; discriminate|reflexivity|discriminate
    |vm_compute; discriminate|vm_compute; discriminate|vm_compute; reflexivity|].
  exists p, w'. split; [exact Hcall|]. split; [exact Hrun|exact Hn].
Defined.
