(* ===== verification/MoveEscrow.v ===== *)
(** * The Aptos module [escrow_v3]

    [contracts/aptos/sources/fusion_plus_escrow_v3.move], the module whose
    [create_escrow_delegated], [create_escrow_user_funded], [escrow_exists] and
    [withdraw] the services call. The state is the global storage of the module
    and the coin stores of the accounts; a function aborts with a code and then
    changes nothing. A [vector<u8>] is a string of bytes, a [u64] an integer
    whose addition aborts at 2^64. [coin], [table] and [timestamp] of the
    framework are modelled as far as they are called. *)

From Stdlib Require Import ZArith Lia.
From stdpp Require Import base numbers list strings gmap.
From S2P Require Import Prelude.
From S2P Require Import Htlc.

Local Open Scope string_scope.
Local Open Scope Z_scope.

Abbreviation account := string.

Record Escrow := {
  depositor : account;
  beneficiary : account;
  amount : Z;
  hashlock : string;
  timelock : Z;
  withdrawn : bool;
  refunded : bool;
  safety_deposit : Z;
  escrowed_coin : Z
}.

Record EscrowStore := {
  escrows : gmap string Escrow;
  safety_deposits : gmap string Z
}.

Record ResolverRegistry := {
  authorized_resolvers : gmap account bool;
  user_nonces : gmap account Z
}.

(** Global storage by account, and the registered coin stores. *)
Record World := {
  stores : gmap account EscrowStore;
  registries : gmap account ResolverRegistry;
  coins : gmap account Z
}.

Inductive Code :=
  | E_ESCROW_ALREADY_EXISTS | E_ESCROW_NOT_FOUND | E_INVALID_SECRET | E_ALREADY_WITHDRAWN
  | E_ALREADY_REFUNDED | E_TIMELOCK_NOT_EXPIRED | E_INVALID_AMOUNT | E_INVALID_TIMELOCK
  | E_NOT_AUTHORIZED_RESOLVER | E_EXPIRED_SIGNATURE | E_INVALID_NONCE | E_INSUFFICIENT_BALANCE
  (** aborts of the virtual machine and the framework *)
  | MISSING_DATA | RESOURCE_ALREADY_EXISTS | EALREADY_EXISTS | ECOIN_STORE_NOT_PUBLISHED
  | EINSUFFICIENT_COINS | ARITHMETIC_ERROR | E_WRONG_PUBKEY_SIZE | E_WRONG_SIGNATURE_SIZE.

(** ** The machine *)

Definition move (A : Type) := World -> Code + (A * World).

Definition mret {A} (a : A) : move A := fun w => inr (a, w).

Definition mbind {A B} (m : move A) (k : A -> move B) : move B := fun w =>
  match m w with
  | inr (a, w') => k a w'
  | inl code => inl code
  end.

Definition mabort {A} (code : Code) : move A := fun _ => inl code.

Declare Scope move_scope.
Delimit Scope move_scope with move.
Notation "x <-- m ; k" := (mbind m (fun x => k))
  (at level 100, m at next level, right associativity) : move_scope.
Notation "m ,, k" := (mbind m (fun _ => k))
  (at level 100, right associativity) : move_scope.
Local Open Scope move_scope.

Definition assert_ (b : bool) (code : Code) : move unit := if b then mret tt else mabort code.

Definition of_option {A} (o : option A) (code : Code) : move A :=
  match o with Some a => mret a | None => mabort code end.

(** [coin::withdraw], [coin::deposit], [coin::balance] and [coin::register] *)
Definition set_coins (c : gmap account Z) (w : World) : World :=
  {| stores := stores w; registries := registries w; coins := c |}.

Definition withdraw_coin (a : account) (n : Z) : move Z := fun w =>
  match coins w !! a with
  | None => inl ECOIN_STORE_NOT_PUBLISHED
  | Some b => if n <=? b then inr (n, set_coins (<[a := b - n]> (coins w)) w)
              else inl EINSUFFICIENT_COINS
  end.

Definition deposit_coin (a : account) (n : Z) : move unit := fun w =>
  match coins w !! a with
  | None => inl ECOIN_STORE_NOT_PUBLISHED
  | Some b => if b + n <? 2 ^ 64 then inr (tt, set_coins (<[a := b + n]> (coins w)) w)
              else inl ARITHMETIC_ERROR
  end.

Definition coin_balance (a : account) : move Z := fun w => inr (default 0 (coins w !! a), w).

Definition register_coin (a : account) : move unit := fun w =>
  match coins w !! a with
  | Some _ => inr (tt, w)
  | None => inr (tt, set_coins (<[a := 0]> (coins w)) w)
  end.

(** ** The module *)

Section Module.
Context (fusion_plus : account).

Definition borrow_store : move EscrowStore := fun w =>
  match stores w !! fusion_plus with Some s => inr (s, w) | None => inl MISSING_DATA end.

Definition put_store (s : EscrowStore) : move unit := fun w =>
  inr (tt, {| stores := <[fusion_plus := s]> (stores w); registries := registries w;
              coins := coins w |}).

Definition borrow_registry : move ResolverRegistry := fun w =>
  match registries w !! fusion_plus with Some r => inr (r, w) | None => inl MISSING_DATA end.

Definition put_registry (r : ResolverRegistry) : move unit := fun w =>
  inr (tt, {| stores := stores w; registries := <[fusion_plus := r]> (registries w);
              coins := coins w |}).

Definition initialize (signer : account) : move unit := fun w =>
  match stores w !! signer, registries w !! signer with
  | None, None =>
      inr (tt, {| stores := <[signer := {| escrows := ∅; safety_deposits := ∅ |}]> (stores w);
                  registries := <[signer := {| authorized_resolvers := ∅; user_nonces := ∅ |}]>
                                  (registries w);
                  coins := coins w |})
  | _, _ => inl RESOURCE_ALREADY_EXISTS
  end.

Definition add_authorized_resolver (admin resolver : account) : move unit :=
  assert_ (String.eqb admin fusion_plus) E_NOT_AUTHORIZED_RESOLVER,,
  registry <-- borrow_registry;
  match authorized_resolvers registry !! resolver with
  | Some _ => mabort EALREADY_EXISTS
  | None => put_registry {| authorized_resolvers := <[resolver := true]> (authorized_resolvers registry);
                            user_nonces := user_nonces registry |}
  end.

Definition contains {A} (k : string) (m : gmap string A) : bool := bool_decide (is_Some (m !! k)).

(** The escrow and its safety deposit are added to their tables. *)
Definition add_escrow (escrow_id : string) (escrow : Escrow) (deposit : Z) : move unit :=
  s <-- borrow_store;
  assert_ (negb (contains escrow_id (escrows s))) EALREADY_EXISTS,,
  assert_ (negb (contains escrow_id (safety_deposits s))) EALREADY_EXISTS,,
  put_store {| escrows := <[escrow_id := escrow]> (escrows s);
               safety_deposits := <[escrow_id := deposit]> (safety_deposits s) |}.

Definition new_escrow (dep ben : account) (n : Z) (hash : string) (tl sd coin : Z) : Escrow :=
  {| depositor := dep; beneficiary := ben; amount := n; hashlock := hash; timelock := tl;
     withdrawn := false; refunded := false; safety_deposit := sd; escrowed_coin := coin |}.

(** [coin::withdraw] of a safety deposit, or [coin::zero]. *)
Definition optional_deposit (payer : account) (n : Z) : move Z :=
  if 0 <? n then withdraw_coin payer n else mret 0.

(** The checks on a new escrow. *)
Definition assert_new (now : Z) (escrow_id : string) (n tl : Z) : move unit :=
  s <-- borrow_store;
  assert_ (negb (contains escrow_id (escrows s))) E_ESCROW_ALREADY_EXISTS,,
  assert_ (0 <? n) E_INVALID_AMOUNT,,
  assert_ (now <? tl) E_INVALID_TIMELOCK.

(** [exists<EscrowStore>(@fusion_plus)] *)
Definition assert_store : move unit := fun w =>
  match stores w !! fusion_plus with Some _ => inr (tt, w) | None => inl E_ESCROW_NOT_FOUND end.

Definition create_escrow_user_funded (now : Z) (signer : account) (escrow_id : string)
    (ben : account) (n : Z) (hash : string) (tl safety_deposit_amount : Z)
    (resolver_address : account) : move unit :=
  registry <-- borrow_registry;
  assert_ (contains resolver_address (authorized_resolvers registry)) E_NOT_AUTHORIZED_RESOLVER,,
  assert_store,,
  assert_new now escrow_id n tl,,
  coin <-- withdraw_coin signer n;
  deposit <-- optional_deposit signer safety_deposit_amount;
  add_escrow escrow_id (new_escrow signer ben n hash tl safety_deposit_amount coin) deposit.

Definition create_escrow_multi_agent (now : Z) (signer resolver : account) (escrow_id : string)
    (ben : account) (n : Z) (hash : string) (tl safety_deposit_amount : Z) : move unit :=
  registry <-- borrow_registry;
  assert_ (contains resolver (authorized_resolvers registry)) E_NOT_AUTHORIZED_RESOLVER,,
  assert_store,,
  assert_new now escrow_id n tl,,
  coin <-- withdraw_coin signer n;
  deposit <-- optional_deposit resolver safety_deposit_amount;
  add_escrow escrow_id (new_escrow signer ben n hash tl safety_deposit_amount coin) deposit.

(** The same body. *)
Definition create_escrow_gasless (now : Z) (signer resolver : account) (escrow_id : string)
    (ben : account) (n : Z) (hash : string) (tl safety_deposit_amount : Z) : move unit :=
  create_escrow_multi_agent now signer resolver escrow_id ben n hash tl safety_deposit_amount.

(** The part that [create_escrow_delegated] and [create_escrow_from_user_intent]
    share: the resolver, the expiry, the nonce and, of key and signature, the
    lengths. *)
Definition use_intent (now : Z) (resolver dep : account) (nonce expiry : Z)
    (depositor_pubkey signature : string) : move unit :=
  registry <-- borrow_registry;
  assert_ (contains resolver (authorized_resolvers registry)) E_NOT_AUTHORIZED_RESOLVER,,
  assert_ (now <=? expiry) E_EXPIRED_SIGNATURE,,
  (match user_nonces registry !! dep with
   | Some current_nonce => assert_ (current_nonce <? nonce) E_INVALID_NONCE
   | None => mret tt
   end),,
  assert_ (String.length depositor_pubkey =? 32)%nat E_WRONG_PUBKEY_SIZE,,
  assert_ (String.length signature =? 64)%nat E_WRONG_SIGNATURE_SIZE,,
  put_registry {| authorized_resolvers := authorized_resolvers registry;
                  user_nonces := <[dep := nonce]> (user_nonces registry) |}.

Definition create_escrow_delegated (now : Z) (resolver : account) (escrow_id : string)
    (dep ben : account) (n : Z) (hash : string) (tl nonce expiry safety_deposit_amount : Z)
    (depositor_pubkey signature : string) : move unit :=
  use_intent now resolver dep nonce expiry depositor_pubkey signature,,
  assert_new now escrow_id n tl,,
  b <-- coin_balance dep;
  assert_ (n <=? b) E_INSUFFICIENT_BALANCE,,
  register_coin resolver,,
  coin <-- withdraw_coin resolver n;
  deposit <-- withdraw_coin resolver safety_deposit_amount;
  add_escrow escrow_id (new_escrow dep ben n hash tl safety_deposit_amount coin) deposit.

Definition create_escrow_from_user_intent (now : Z) (resolver : account) (escrow_id : string)
    (dep ben : account) (n : Z) (hash : string) (tl nonce expiry safety_deposit_amount : Z)
    (depositor_pubkey signature : string) : move unit :=
  use_intent now resolver dep nonce expiry depositor_pubkey signature,,
  assert_new now escrow_id n tl,,
  b <-- coin_balance dep;
  assert_ (n <=? b) E_INSUFFICIENT_BALANCE,,
  coin <-- withdraw_coin resolver n;
  deposit <-- optional_deposit resolver safety_deposit_amount;
  add_escrow escrow_id (new_escrow dep ben n hash tl safety_deposit_amount coin) deposit.

(** An escrow as [withdraw] and [refund] leave it: its coin without the amount. *)
Definition close (w r : bool) (e : Escrow) : Escrow :=
  {| depositor := depositor e; beneficiary := beneficiary e; amount := amount e;
     hashlock := hashlock e; timelock := timelock e; withdrawn := w; refunded := r;
     safety_deposit := safety_deposit e; escrowed_coin := escrowed_coin e - amount e |}.

(** [coin::extract] of the amount, the payment, and the safety deposit, if any,
    to the caller. *)
Definition pay_out (caller : account) (escrow_id : string) (to : account) (closed e : Escrow)
    : move unit :=
  assert_ (amount e <=? escrowed_coin e) EINSUFFICIENT_COINS,,
  s <-- borrow_store;
  put_store {| escrows := <[escrow_id := closed]> (escrows s);
               safety_deposits := safety_deposits s |},,
  deposit_coin to (amount e),,
  s1 <-- borrow_store;
  match safety_deposits s1 !! escrow_id with
  | Some deposit =>
      put_store {| escrows := escrows s1; safety_deposits := delete escrow_id (safety_deposits s1) |},,
      deposit_coin caller deposit
  | None => mret tt
  end.

Definition withdraw (caller : account) (escrow_id secret : string) : move unit :=
  s <-- borrow_store;
  e <-- of_option (escrows s !! escrow_id) E_ESCROW_NOT_FOUND;
  assert_ (negb (withdrawn e)) E_ALREADY_WITHDRAWN,,
  assert_ (negb (refunded e)) E_ALREADY_REFUNDED,,
  assert_ (String.length secret =? 32)%nat E_INVALID_SECRET,,
  pay_out caller escrow_id (beneficiary e) (close true (refunded e) e) e.

Definition refund (now : Z) (caller : account) (escrow_id : string) : move unit :=
  s <-- borrow_store;
  e <-- of_option (escrows s !! escrow_id) E_ESCROW_NOT_FOUND;
  assert_ (negb (withdrawn e)) E_ALREADY_WITHDRAWN,,
  assert_ (negb (refunded e)) E_ALREADY_REFUNDED,,
  assert_ (timelock e <=? now) E_TIMELOCK_NOT_EXPIRED,,
  pay_out caller escrow_id (depositor e) (close (withdrawn e) true e) e.

Definition escrow_exists (escrow_id : string) (w : World) : bool :=
  match stores w !! fusion_plus with
  | None => false
  | Some s => contains escrow_id (escrows s)
  end.
End Module.

(** ** Transactions *)

Inductive MTx :=
  | Initialize (signer : account)
  | AddResolver (admin resolver : account)
  | CreateUserFunded (signer : account) (escrow_id : string) (ben : account) (n : Z)
      (hash : string) (tl sd : Z) (resolver : account)
  | CreateMultiAgent (signer resolver : account) (escrow_id : string) (ben : account) (n : Z)
      (hash : string) (tl sd : Z)
  | CreateGasless (signer resolver : account) (escrow_id : string) (ben : account) (n : Z)
      (hash : string) (tl sd : Z)
  | CreateDelegated (resolver : account) (escrow_id : string) (dep ben : account) (n : Z)
      (hash : string) (tl nonce expiry sd : Z) (pubkey signature : string)
  | CreateFromIntent (resolver : account) (escrow_id : string) (dep ben : account) (n : Z)
      (hash : string) (tl nonce expiry sd : Z) (pubkey signature : string)
  | Withdraw (caller : account) (escrow_id secret : string)
  | Refund (caller : account) (escrow_id : string).

Section Transactions.
Context (fusion_plus : account).

Definition m_run (t : Z) (x : MTx) : move unit :=
  match x with
  | Initialize a => initialize a
  | AddResolver a r => add_authorized_resolver fusion_plus a r
  | CreateUserFunded a k b n h tl sd r => create_escrow_user_funded fusion_plus t a k b n h tl sd r
  | CreateMultiAgent a r k b n h tl sd => create_escrow_multi_agent fusion_plus t a r k b n h tl sd
  | CreateGasless a r k b n h tl sd => create_escrow_gasless fusion_plus t a r k b n h tl sd
  | CreateDelegated r k d b n h tl nc ex sd pk sg =>
      create_escrow_delegated fusion_plus t r k d b n h tl nc ex sd pk sg
  | CreateFromIntent r k d b n h tl nc ex sd pk sg =>
      create_escrow_from_user_intent fusion_plus t r k d b n h tl nc ex sd pk sg
  | Withdraw a k s => withdraw fusion_plus a k s
  | Refund a k => refund fusion_plus t a k
  end.

(** The safety deposit of a transaction, a [u64]. *)
Definition m_deposit (x : MTx) : Z :=
  match x with
  | CreateUserFunded _ _ _ _ _ _ sd _ | CreateMultiAgent _ _ _ _ _ _ _ sd
  | CreateGasless _ _ _ _ _ _ _ sd | CreateDelegated _ _ _ _ _ _ _ _ _ sd _ _
  | CreateFromIntent _ _ _ _ _ _ _ _ _ sd _ _ => sd
  | _ => 0
  end.

Definition m_exec (t : Z) (x : MTx) (w : World) : option World :=
  if 0 <=? m_deposit x then
    match m_run t x w with inr (_, w') => Some w' | inl _ => None end
  else None.

Definition m_shows (x : MTx) (k : string) : option string :=
  match x with
  | Withdraw _ k' secret => if decide (k = k') then Some secret else None
  | _ => None
  end.
End Transactions.

(** ** Inversion of a successful step *)

Lemma mbind_success {A B} (m : move A) (k : A -> move B) w r :
  mbind m k w = inr r -> exists a w1, m w = inr (a, w1) /\ k a w1 = inr r.
Proof. unfold mbind. destruct (m w) as [|[a w1]]; [done|eauto]. Qed.

Lemma assert_success b code w u w' : assert_ b code w = inr (u, w') -> b = true /\ w' = w.
Proof. unfold assert_. destruct b; [by intros [= _ ->]|done]. Qed.

Lemma contains_false {A} k (m : gmap string A) : negb (contains k m) = true -> m !! k = None.
Proof.
  unfold contains. rewrite negb_true_iff, bool_decide_eq_false. apply eq_None_not_Some.
Qed.

(** Takes a hypothesis [H : (x <-- m ; k) w = inr r] apart. *)
Ltac move_inv H :=
  lazymatch type of H with
  | mbind _ _ _ = inr _ =>
      let a := fresh "x" in let w1 := fresh "w" in let H1 := fresh "Hx" in
      apply mbind_success in H as (a & w1 & H1 & H); move_inv H1; move_inv H
  | assert_ _ _ _ = inr (_, _) =>
      let Hb := fresh "Hg" in apply assert_success in H as [Hb ->]
  | mret _ _ = inr (_, _) => injection H as <- <-
  | _ => idtac
  end.

(** ** Coins *)

Definition coin_sum (m : gmap string Z) : Z := map_sum (fun z => z) m.

(** The coin stores change by [d] in all; none is closed or overdrawn. *)
Definition coin_effect (d : Z) (w w' : World) : Prop :=
  stores w' = stores w /\ coin_sum (coins w') = coin_sum (coins w) + d /\
  ((forall a b, coins w !! a = Some b -> 0 <= b) -> forall a b, coins w' !! a = Some b -> 0 <= b) /\
  (forall a, is_Some (coins w !! a) -> is_Some (coins w' !! a)).

Lemma coin_effect_refl w : coin_effect 0 w w.
Proof. split_and!; [done|lia|done|done]. Qed.

Lemma coin_effect_trans d1 d2 w1 w2 w3 :
  coin_effect d1 w1 w2 -> coin_effect d2 w2 w3 -> coin_effect (d1 + d2) w1 w3.
Proof.
  intros (S1 & C1 & N1 & R1) (S2 & C2 & N2 & R2). split_and!; [congruence|lia| |].
  - intros Hn. by apply N2, N1.
  - intros a Ha. by apply R2, R1.
Qed.

Lemma coin_insert (m : gmap string Z) a b z :
  m !! a = Some b -> coin_sum (<[a := z]> m) = coin_sum m + z - b.
Proof. intros Ha. unfold coin_sum. rewrite map_sum_insert, Ha. simpl. lia. Qed.

Lemma set_coin_effect w a b z :
  coins w !! a = Some b -> 0 <= z ->
  coin_effect (z - b) w (set_coins (<[a := z]> (coins w)) w).
Proof.
  intros Ha Hz. split_and!; simpl; [done|rewrite (coin_insert _ _ b) by done; lia| |].
  - intros Hn a' b'. rewrite lookup_insert_Some. intros [[_ <-]|[_ ?]]; eauto.
  - intros a' Hs. destruct (decide (a = a')) as [->|Hne].
    + by rewrite lookup_insert_eq.
    + by rewrite lookup_insert_ne.
Qed.

Lemma withdraw_coin_success a n w x w' :
  withdraw_coin a n w = inr (x, w') -> x = n /\ coin_effect (- n) w w'.
Proof.
  unfold withdraw_coin. destruct (coins w !! a) as [b|] eqn:Ha; [|done].
  destruct (Z.leb_spec n b); [|done]. intros [= -> <-]. split; [done|].
  replace (- x) with (b - x - b) by lia. apply set_coin_effect; [done|lia].
Qed.

Lemma deposit_coin_success a n w u w' :
  0 <= n -> (forall a b, coins w !! a = Some b -> 0 <= b) ->
  deposit_coin a n w = inr (u, w') -> coin_effect n w w'.
Proof.
  intros Hn Hpos. unfold deposit_coin. destruct (coins w !! a) as [b|] eqn:Ha; [|done].
  destruct (_ <? _); [|done]. intros [= _ <-]. replace n with (b + n - b) at 1 by lia.
  apply set_coin_effect; [done|]. apply Hpos in Ha. lia.
Qed.

Lemma register_coin_success a w u w' : register_coin a w = inr (u, w') -> coin_effect 0 w w'.
Proof.
  unfold register_coin. destruct (coins w !! a) as [b|] eqn:Ha; intros [= _ <-];
    [apply coin_effect_refl|].
  split_and!; simpl; [done|unfold coin_sum; rewrite map_sum_insert, Ha; simpl; lia| |].
  - intros Hn a' b'. rewrite lookup_insert_Some. intros [[_ <-]|[_ ?]]; [lia|eauto].
  - intros a' Hs. destruct (decide (a = a')) as [->|Hne].
    + by rewrite lookup_insert_eq.
    + by rewrite lookup_insert_ne.
Qed.

Lemma optional_deposit_success a n w x w' :
  0 <= n -> optional_deposit a n w = inr (x, w') -> x = n /\ coin_effect (- n) w w'.
Proof.
  intros Hn. unfold optional_deposit. destruct (Z.ltb_spec 0 n); [apply withdraw_coin_success|].
  intros [= <- <-]. replace n with 0 by lia. split; [done|apply coin_effect_refl].
Qed.

(** ** Refinement of the specification *)

Definition APT : string := "0x1::aptos_coin::AptosCoin".

Definition lock_of (e : Escrow) : Lock :=
  {| lk_depositor := depositor e; lk_beneficiary := beneficiary e; lk_asset := APT;
     lk_amount := amount e; lk_hashlock := hashlock e; lk_timelock := timelock e |}.

Definition cell_of (e : Escrow) : Cell :=
  if withdrawn e then Claimed (lock_of e)
  else if refunded e then Returned (lock_of e) else Open (lock_of e).

Definition is_open (e : Escrow) : bool := negb (withdrawn e) && negb (refunded e).

(** The only test of a secret. *)
Definition length_unlocks (_ secret : string) : bool := (String.length secret =? 32)%nat.

Section Refinement.
Context (fusion_plus : account) (users : account -> bool).

Definition the_store (w : World) : EscrowStore :=
  default {| escrows := ∅; safety_deposits := ∅ |} (stores w !! fusion_plus).

Definition cell_at (w : World) (k : string) : option Cell := cell_of <$> escrows (the_store w) !! k.

(** All coins: in the stores of the accounts, in escrow and in deposit. *)
Definition all_coins (w : World) : Z :=
  coin_sum (coins w) + map_sum escrowed_coin (escrows (the_store w)) +
  coin_sum (safety_deposits (the_store w)).

(** An open escrow holds exactly its amount, a closed one nothing; the deposits
    are those of stored escrows; the coins fit a [u64]; the accounts [users]
    have coin stores. *)
Definition holds (e : Escrow) : Prop :=
  0 < amount e /\ escrowed_coin e = if is_open e then amount e else 0.

Record m_ready (w : World) : Prop := {
  mr_coins : forall a b, coins w !! a = Some b -> 0 <= b;
  mr_escrows : forall k e, escrows (the_store w) !! k = Some e -> holds e;
  mr_deposits : forall k d, safety_deposits (the_store w) !! k = Some d -> 0 <= d;
  mr_supply : all_coins w < 2 ^ 64;
  mr_users : forall a, users a = true -> is_Some (coins w !! a)
}.

Lemma holds_nonneg e : holds e -> 0 <= escrowed_coin e.
Proof. intros [? ->]. destruct (is_open e); lia. Qed.

(** ** Creation *)

Lemma assert_new_success now k n tl w u w' :
  assert_new fusion_plus now k n tl w = inr (u, w') ->
  w' = w /\ 0 < n /\ now < tl.
Proof.
  unfold assert_new, borrow_store. intros Hx. apply mbind_success in Hx as (s & w1 & Hs & Hx).
  destruct (stores w !! fusion_plus); [|done]. injection Hs as <- <-. move_inv Hx. zbool. done.
Qed.

Lemma borrow_store_success w s w' :
  borrow_store fusion_plus w = inr (s, w') -> w' = w /\ s = the_store w /\ is_Some (stores w !! fusion_plus).
Proof.
  unfold borrow_store, the_store. destruct (stores w !! fusion_plus) as [s0|]; [|done].
  intros [= -> ->]. simpl. eauto.
Qed.

Lemma the_store_put s w : forall u w', put_store fusion_plus s w = inr (u, w') ->
  the_store w' = s /\ coins w' = coins w /\ is_Some (stores w' !! fusion_plus).
Proof.
  intros u w' [= _ <-]. unfold the_store. simpl. rewrite lookup_insert_eq. simpl. eauto.
Qed.

Lemma add_escrow_success k e d w u w' :
  add_escrow fusion_plus k e d w = inr (u, w') ->
  escrows (the_store w) !! k = None /\ safety_deposits (the_store w) !! k = None /\
  coins w' = coins w /\
  the_store w' = {| escrows := <[k := e]> (escrows (the_store w));
                    safety_deposits := <[k := d]> (safety_deposits (the_store w)) |}.
Proof.
  unfold add_escrow. intros Hx. apply mbind_success in Hx as (s & w1 & Hs & Hx).
  apply borrow_store_success in Hs as (-> & -> & _). move_inv Hx.
  apply contains_false in Hg, Hg0. apply the_store_put in Hx as (E1 & E2 & _). done.
Qed.

(** The coins are taken and the escrow is stored. *)
Lemma create_tail (p1 : account) (m2 : move Z) k d b n h tl sd now (w0 w w' : World) u :
  m_ready w0 -> coin_effect 0 w0 w -> 0 < n -> now < tl -> 0 <= sd ->
  (forall w1 x w2, m2 w1 = inr (x, w2) -> x = sd /\ coin_effect (- sd) w1 w2) ->
  (coin <-- withdraw_coin p1 n; deposit <-- m2;
   add_escrow fusion_plus k (new_escrow d b n h tl sd coin) deposit) w = inr (u, w') ->
  m_ready w' /\ all_coins w' = all_coins w0 /\ forall k' shown,
    cell_step length_unlocks now shown (cell_at w0 k') (cell_at w' k').
Proof.
  intros Hr He0 Hn Htl Hsd Hm2 Hx.
  apply mbind_success in Hx as (x1 & w1 & H1 & Hx). apply withdraw_coin_success in H1 as [-> H1].
  apply mbind_success in Hx as (x2 & w2 & H2 & Hx). apply Hm2 in H2 as [-> H2].
  apply add_escrow_success in Hx as (Hk & Hkd & Hc & Hst).
  pose proof (coin_effect_trans _ _ _ _ _ He0 (coin_effect_trans _ _ _ _ _ H1 H2))
    as (S3 & C3 & N3 & R3).
  assert (the_store w2 = the_store w0) as Hs2 by (unfold the_store; by rewrite S3).
  rewrite Hs2 in *.
  assert (all_coins w' = all_coins w0) as Hall.
  { unfold all_coins, coin_sum. rewrite Hst, Hc. simpl. rewrite !map_sum_fresh by done. simpl.
    unfold coin_sum in *. lia. }
  destruct Hr as [Hr1 Hr2 Hr3 Hr4 Hr5]. split_and!; [split|done|].
  - rewrite Hc. by apply N3.
  - rewrite Hst. simpl. intros k' e. rewrite lookup_insert_Some.
    intros [[_ <-]|[_ Hk']]; [by split|by apply (Hr2 k')].
  - rewrite Hst. simpl. intros k' z. rewrite lookup_insert_Some.
    intros [[_ <-]|[_ Hk']]; [done|by apply (Hr3 k')].
  - by rewrite Hall.
  - intros a Ha. rewrite Hc. by apply R3, Hr5.
  - intros k' shown. unfold cell_at. rewrite Hst. simpl. destruct (decide (k' = k)) as [->|Hne].
    + rewrite Hk, lookup_insert_eq. simpl. apply cell_lock; simpl; lia.
    + rewrite lookup_insert_ne by done. apply cell_same.
Qed.

(** ** Withdrawal and refund *)

Lemma coin_sum_delete (m : gmap string Z) k d :
  m !! k = Some d -> coin_sum (delete k m) = coin_sum m - d.
Proof.
  intros Hk. unfold coin_sum. rewrite <- (insert_delete_id m k d Hk) at 2.
  rewrite map_sum_fresh by apply lookup_delete_eq. lia.
Qed.

(** What a payment does: the escrow is closed, its deposit is gone, the coins are
    in the stores of the accounts. *)
Lemma pay_out_success caller k to closed e w u w' :
  m_ready w -> escrows (the_store w) !! k = Some e -> is_open e = true ->
  is_open closed = false -> amount closed = amount e -> escrowed_coin closed = escrowed_coin e - amount e ->
  pay_out fusion_plus caller k to closed e w = inr (u, w') ->
  m_ready w' /\ all_coins w' = all_coins w /\
  escrows (the_store w') = <[k := closed]> (escrows (the_store w)).
Proof.
  intros [Hr1 Hr2 Hr3 Hr4 Hr5] Hk Ho Hcl Ham Hec Hx. pose proof (Hr2 k e Hk) as [Hpos Hcoin].
  rewrite Ho in Hcoin. unfold pay_out in Hx.
  apply mbind_success in Hx as (? & ? & Hs & Hx). move_inv Hs.
  apply mbind_success in Hx as (? & ? & Hs & Hx). apply borrow_store_success in Hs as (-> & -> & Hsome).
  apply mbind_success in Hx as (? & w1 & Hs & Hx). apply the_store_put in Hs as (S1 & C1 & Hsome1).
  apply mbind_success in Hx as (? & w2 & Hs & Hx).
  apply deposit_coin_success in Hs as (S2 & C2 & N2 & R2); [|lia|by rewrite C1].
  apply mbind_success in Hx as (s & ? & Hs & Hx). apply borrow_store_success in Hs as (-> & -> & _).
  assert (the_store w2 = the_store w1) as E2 by (unfold the_store; by rewrite S2).
  rewrite E2, S1 in Hx. simpl in Hx. rewrite C1 in *.
  assert (exists d, coin_sum (safety_deposits (the_store w')) = coin_sum (safety_deposits (the_store w)) - d
    /\ escrows (the_store w') = <[k := closed]> (escrows (the_store w)) /\
    coin_sum (coins w') = coin_sum (coins w2) + d /\
    (forall a b, coins w' !! a = Some b -> 0 <= b) /\
    (forall a, is_Some (coins w2 !! a) -> is_Some (coins w' !! a)) /\
    (forall k' d', safety_deposits (the_store w') !! k' = Some d' -> 0 <= d'))
    as (d & D1 & M1 & C3 & N3 & R3 & P3).
  { destruct (safety_deposits (the_store w) !! k) as [d|] eqn:Hd.
    - apply mbind_success in Hx as (? & w3 & Hs & Hx). apply the_store_put in Hs as (S3 & C3 & _).
      apply deposit_coin_success in Hx as (S4 & C4 & N4 & R4);
        [|by apply (Hr3 k)|rewrite C3; by apply N2].
      assert (the_store w' = the_store w3) as E4 by (unfold the_store; by rewrite S4).
      exists d. rewrite E4, S3, C4, C3 in *. simpl. split_and!.
      + by apply coin_sum_delete.
      + done.
      + done.
      + by apply N4, N2.
      + intros a Ha. by apply R4.
      + intros k' d' Hl. apply lookup_delete_Some in Hl as [_ Hl]. by apply (Hr3 k').
    - injection Hx as _ <-. exists 0. rewrite E2, S1. simpl. split_and!; [lia|done|lia|by apply N2|done|done]. }
  assert (all_coins w' = all_coins w) as Hall.
  { unfold all_coins. rewrite M1, map_sum_insert, Hk, D1, C3, C2. lia. }
  split_and!; [split|done|done].
  - done.
  - intros k' e'. rewrite M1, lookup_insert_Some. intros [[_ <-]|[_ Hk']]; [|by apply (Hr2 k')].
    split; [lia|]. rewrite Hcl. lia.
  - done.
  - by rewrite Hall.
  - intros a Ha. by apply R3, R2, Hr5.
Qed.

(** With coin stores for the receiver and the caller it succeeds. *)
Lemma pay_out_works caller k to closed e w :
  m_ready w -> is_Some (stores w !! fusion_plus) -> escrows (the_store w) !! k = Some e ->
  is_open e = true -> users to = true -> users caller = true ->
  exists w', pay_out fusion_plus caller k to closed e w = inr (tt, w') /\
    default 0 (coins w !! to) + amount e <= default 0 (coins w' !! to).
Proof.
  intros [Hr1 Hr2 Hr3 Hr4 Hr5] [s Hs] Hk Ho Hto Hc. pose proof (Hr2 k e Hk) as Hh.
  pose proof Hh as [Hpos Hcoin]. rewrite Ho in Hcoin.
  destruct (Hr5 to Hto) as [bt Hbt], (Hr5 caller Hc) as [bc Hbc].
  assert (amount e <= map_sum escrowed_coin (escrows (the_store w))) as Hin.
  { rewrite <- Hcoin. apply (map_sum_lookup _ _ k); [|done]. intros k' e' Hk'.
    by apply holds_nonneg, (Hr2 k'). }
  assert (0 <= coin_sum (safety_deposits (the_store w))) as Hdn
    by (apply map_sum_nonneg; intros k' d' Hd; by apply (Hr3 k')).
  assert (forall a b, coins w !! a = Some b -> b <= coin_sum (coins w)) as Hle.
  { intros a b Ha. apply (map_sum_lookup (fun z => z) _ a); done. }
  pose proof (Hle _ _ Hbt). unfold all_coins in Hr4.
  assert (the_store w = s) as Est by (unfold the_store; by rewrite Hs).
  unfold pay_out. unfold mbind at 1. rewrite Hcoin, Z.leb_refl. simpl.
  unfold mbind at 1, borrow_store. rewrite Hs. unfold mbind at 1. cbn [put_store].
  unfold mbind at 1, deposit_coin. simpl. rewrite Hbt.
  rewrite (proj2 (Z.ltb_lt (bt + amount e) (2 ^ 64))) by lia.
  unfold mbind at 1. simpl. rewrite lookup_insert_eq. rewrite Est in *. simpl.
  destruct (safety_deposits s !! k) as [d|] eqn:Hd.
  - pose proof (Hr3 k d Hd) as Hd0.
    assert (d <= coin_sum (safety_deposits s)) as Hdle
      by (apply (map_sum_lookup (fun z => z) _ k); done).
    unfold mbind, put_store. simpl. destruct (decide (caller = to)) as [->|Hne].
    + rewrite lookup_insert_eq. rewrite (proj2 (Z.ltb_lt _ (2 ^ 64))) by lia.
      eexists. split; [reflexivity|]. simpl. rewrite !lookup_insert_eq. simpl. lia.
    + rewrite lookup_insert_ne, Hbc by done.
      assert (bt + bc <= coin_sum (coins w)) as Hboth.
      { unfold coin_sum. rewrite <- (insert_delete_id (coins w) to bt Hbt), map_sum_fresh
          by apply lookup_delete_eq.
        assert (bc <= map_sum (fun z => z) (delete to (coins w))); [|lia].
        apply (map_sum_lookup (fun z => z) _ caller).
        - intros k' x' Hx. apply lookup_delete_Some in Hx as [_ Hx]. by apply (Hr1 k').
        - by rewrite lookup_delete_ne. }
      pose proof (Hr1 _ _ Hbt). rewrite (proj2 (Z.ltb_lt _ (2 ^ 64))) by lia.
      eexists. split; [reflexivity|]. simpl. rewrite lookup_insert_ne, lookup_insert_eq by done.
      simpl. lia.
  - eexists. split; [reflexivity|]. simpl. rewrite lookup_insert_eq. simpl. lia.
Qed.

Lemma move_withdraw_success caller k secret w u w' :
  withdraw fusion_plus caller k secret w = inr (u, w') ->
  exists e, escrows (the_store w) !! k = Some e /\ is_open e = true /\
    length_unlocks (hashlock e) secret = true /\
    pay_out fusion_plus caller k (beneficiary e) (close true (refunded e) e) e w = inr (u, w').
Proof.
  unfold withdraw. intros Hx. apply mbind_success in Hx as (? & ? & Hs & Hx).
  apply borrow_store_success in Hs as (-> & -> & _).
  destruct (escrows (the_store w) !! k) as [e|] eqn:Hk; [|done].
  apply mbind_success in Hx as (? & ? & Hs & Hx). injection Hs as <- <-.
  apply mbind_success in Hx as (? & ? & Hs & Hx). move_inv Hs.
  apply mbind_success in Hx as (? & ? & Hs & Hx). move_inv Hs.
  apply mbind_success in Hx as (? & ? & Hs & Hx). move_inv Hs.
  exists e. unfold is_open. rewrite Hg, Hg0. done.
Qed.

Lemma move_refund_success now caller k w u w' :
  refund fusion_plus now caller k w = inr (u, w') ->
  exists e, escrows (the_store w) !! k = Some e /\ is_open e = true /\ timelock e <= now /\
    pay_out fusion_plus caller k (depositor e) (close (withdrawn e) true e) e w = inr (u, w').
Proof.
  unfold refund. intros Hx. apply mbind_success in Hx as (? & ? & Hs & Hx).
  apply borrow_store_success in Hs as (-> & -> & _).
  destruct (escrows (the_store w) !! k) as [e|] eqn:Hk; [|done].
  apply mbind_success in Hx as (? & ? & Hs & Hx). injection Hs as <- <-.
  apply mbind_success in Hx as (? & ? & Hs & Hx). move_inv Hs.
  apply mbind_success in Hx as (? & ? & Hs & Hx). move_inv Hs.
  apply mbind_success in Hx as (? & ? & Hs & Hx). move_inv Hs. zbool.
  exists e. unfold is_open. rewrite Hg, Hg0. done.
Qed.

Lemma withdraw_works caller k secret e w :
  m_ready w -> escrows (the_store w) !! k = Some e -> is_open e = true ->
  length_unlocks (hashlock e) secret = true -> users (beneficiary e) = true -> users caller = true ->
  exists w', withdraw fusion_plus caller k secret w = inr (tt, w') /\
    cell_at w' k = Some (Claimed (lock_of e)) /\
    default 0 (coins w !! beneficiary e) + amount e <= default 0 (coins w' !! beneficiary e).
Proof.
  intros Hr Hk Ho Hu Hb Hc. assert (is_Some (stores w !! fusion_plus)) as Hs.
  { unfold the_store in Hk. destruct (stores w !! fusion_plus); [eauto|done]. }
  destruct (pay_out_works caller k (beneficiary e) (close true (refunded e) e) e w)
    as (w' & Hw' & Hpaid); [done..|].
  exists w'. split; [|split; [|exact Hpaid]].
  - destruct Hs as [s Hs]. unfold the_store in Hk. rewrite Hs in Hk. simpl in Hk.
    unfold withdraw, borrow_store. unfold mbind at 1. rewrite Hs. unfold mbind at 1. rewrite Hk. simpl.
    unfold is_open in Ho. apply andb_true_iff in Ho as [Ho1 Ho2].
    unfold mbind at 1. rewrite Ho1. simpl. unfold mbind at 1. rewrite Ho2. simpl.
    unfold mbind at 1. unfold length_unlocks in Hu. rewrite Hu. simpl. exact Hw'.
  - apply pay_out_success in Hw' as (_ & _ & Hm); [|done..]. unfold cell_at.
    rewrite Hm, lookup_insert_eq. done.
Qed.

Lemma refund_works now caller k e w :
  m_ready w -> escrows (the_store w) !! k = Some e -> is_open e = true ->
  timelock e <= now -> users (depositor e) = true -> users caller = true ->
  exists w', refund fusion_plus now caller k w = inr (tt, w') /\
    cell_at w' k = Some (Returned (lock_of e)) /\
    default 0 (coins w !! depositor e) + amount e <= default 0 (coins w' !! depositor e).
Proof.
  intros Hr Hk Ho Ht Hb Hc. assert (is_Some (stores w !! fusion_plus)) as Hs.
  { unfold the_store in Hk. destruct (stores w !! fusion_plus); [eauto|done]. }
  destruct (pay_out_works caller k (depositor e) (close (withdrawn e) true e) e w)
    as (w' & Hw' & Hpaid); [done..|].
  pose proof Ho as Ho'. unfold is_open in Ho'. apply andb_true_iff in Ho' as [Ho1 Ho2].
  exists w'. split; [|split; [|exact Hpaid]].
  - destruct Hs as [s Hs]. unfold the_store in Hk. rewrite Hs in Hk. simpl in Hk.
    unfold refund, borrow_store. unfold mbind at 1. rewrite Hs. unfold mbind at 1. rewrite Hk. simpl.
    unfold mbind at 1. rewrite Ho1. simpl. unfold mbind at 1. rewrite Ho2. simpl.
    unfold mbind at 1. rewrite (proj2 (Z.leb_le _ _) Ht). simpl. exact Hw'.
  - apply pay_out_success in Hw' as (_ & _ & Hm); [|done..|by unfold is_open; simpl; rewrite andb_false_r|done|done].
    unfold cell_at. rewrite Hm, lookup_insert_eq. simpl. unfold cell_of. simpl.
    apply negb_true_iff in Ho1. by rewrite Ho1.
Qed.

(** ** Every transaction *)

Lemma use_intent_success now r d nc ex pk sg w u w' :
  use_intent fusion_plus now r d nc ex pk sg w = inr (u, w') -> coin_effect 0 w w'.
Proof.
  unfold use_intent. intros Hx. apply mbind_success in Hx as (reg & ? & Hs & Hx).
  assert (x = w) as ->.
  { unfold borrow_registry in Hs. destruct (registries w !! fusion_plus); [|done]. by injection Hs. }
  apply mbind_success in Hx as (? & ? & Hy & Hx). move_inv Hy.
  apply mbind_success in Hx as (? & ? & Hy & Hx). move_inv Hy.
  apply mbind_success in Hx as (? & w1 & Hn & Hx).
  assert (w1 = w) as ->.
  { destruct (user_nonces reg !! d); [by move_inv Hn|by injection Hn]. }
  apply mbind_success in Hx as (? & ? & Hy & Hx). move_inv Hy.
  apply mbind_success in Hx as (? & ? & Hy & Hx). move_inv Hy.
  injection Hx as _ <-. split_and!; simpl; [done|lia|done|done].
Qed.

Lemma borrow_registry_success w r w' : borrow_registry fusion_plus w = inr (r, w') -> w' = w.
Proof. unfold borrow_registry. destruct (registries w !! fusion_plus); [|done]. by intros [= _ ->]. Qed.

Lemma assert_store_success w u w' : assert_store fusion_plus w = inr (u, w') -> w' = w.
Proof. unfold assert_store. destruct (stores w !! fusion_plus); [|done]. by intros [= _ ->]. Qed.

(** A transaction keeps the invariant and the coins, and does to each escrow what
    the specification allows. *)
Definition fine (t : Z) (shows : string -> option string) (w w' : World) : Prop :=
  m_ready w' /\ all_coins w' = all_coins w /\
  forall k, cell_step length_unlocks t (shows k) (cell_at w k) (cell_at w' k).

Lemma same_store_fine t shows w w' :
  m_ready w -> the_store w' = the_store w -> coins w' = coins w -> fine t shows w w'.
Proof.
  intros [Hr1 Hr2 Hr3 Hr4 Hr5] Hs Hc. assert (all_coins w' = all_coins w) as Hall
    by (unfold all_coins; by rewrite Hs, Hc).
  split_and!; [split; rewrite ?Hs, ?Hc, ?Hall; done|done|].
  intros k. unfold cell_at. rewrite Hs. apply cell_same.
Qed.

Lemma user_funded_fine t a k b n h tl sd r shows w u w' :
  m_ready w -> 0 <= sd ->
  create_escrow_user_funded fusion_plus t a k b n h tl sd r w = inr (u, w') -> fine t shows w w'.
Proof.
  intros Hr Hsd. unfold create_escrow_user_funded. intros Hx.
  apply mbind_success in Hx as (? & ? & Hy & Hx). apply borrow_registry_success in Hy as ->.
  apply mbind_success in Hx as (? & ? & Hy & Hx). move_inv Hy.
  apply mbind_success in Hx as (? & ? & Hy & Hx). apply assert_store_success in Hy as ->.
  apply mbind_success in Hx as (? & ? & Hy & Hx). apply assert_new_success in Hy as (-> & Hn & Htl).
  apply (create_tail a (optional_deposit a sd) k a b n h tl sd t w) in Hx as (? & ? & ?);
    [split_and!; auto|done|apply coin_effect_refl|done|done|done|].
  intros w1 y w2. by apply optional_deposit_success.
Qed.

Lemma multi_agent_fine t a r k b n h tl sd shows w u w' :
  m_ready w -> 0 <= sd ->
  create_escrow_multi_agent fusion_plus t a r k b n h tl sd w = inr (u, w') -> fine t shows w w'.
Proof.
  intros Hr Hsd. unfold create_escrow_multi_agent. intros Hx.
  apply mbind_success in Hx as (? & ? & Hy & Hx). apply borrow_registry_success in Hy as ->.
  apply mbind_success in Hx as (? & ? & Hy & Hx). move_inv Hy.
  apply mbind_success in Hx as (? & ? & Hy & Hx). apply assert_store_success in Hy as ->.
  apply mbind_success in Hx as (? & ? & Hy & Hx). apply assert_new_success in Hy as (-> & Hn & Htl).
  apply (create_tail a (optional_deposit r sd) k a b n h tl sd t w) in Hx as (? & ? & ?);
    [split_and!; auto|done|apply coin_effect_refl|done|done|done|].
  intros w1 y w2. by apply optional_deposit_success.
Qed.

Lemma delegated_fine t r k d b n h tl nc ex sd pk sg shows w u w' :
  m_ready w -> 0 <= sd ->
  create_escrow_delegated fusion_plus t r k d b n h tl nc ex sd pk sg w = inr (u, w') ->
  fine t shows w w'.
Proof.
  intros Hr Hsd. unfold create_escrow_delegated. intros Hx.
  apply mbind_success in Hx as (? & w1 & Hy & Hx). apply use_intent_success in Hy as He1.
  apply mbind_success in Hx as (? & ? & Hz & Hx). apply assert_new_success in Hz as (-> & Hn & Htl).
  apply mbind_success in Hx as (? & ? & Hz & Hx). injection Hz as <- <-.
  apply mbind_success in Hx as (? & ? & Hz & Hx). move_inv Hz.
  apply mbind_success in Hx as (? & w2 & Hz & Hx). apply register_coin_success in Hz as He2.
  apply (create_tail r (withdraw_coin r sd) k d b n h tl sd t w) in Hx as (? & ? & ?);
    [split_and!; auto|done| |done|done|done|].
  - apply (coin_effect_trans 0 0 _ _ _ He1 He2).
  - intros w3 x3 w4. apply withdraw_coin_success.
Qed.

Lemma intent_fine t r k d b n h tl nc ex sd pk sg shows w u w' :
  m_ready w -> 0 <= sd ->
  create_escrow_from_user_intent fusion_plus t r k d b n h tl nc ex sd pk sg w = inr (u, w') ->
  fine t shows w w'.
Proof.
  intros Hr Hsd. unfold create_escrow_from_user_intent. intros Hx.
  apply mbind_success in Hx as (? & w1 & Hy & Hx). apply use_intent_success in Hy as He1.
  apply mbind_success in Hx as (? & ? & Hz & Hx). apply assert_new_success in Hz as (-> & Hn & Htl).
  apply mbind_success in Hx as (? & ? & Hz & Hx). injection Hz as <- <-.
  apply mbind_success in Hx as (? & ? & Hz & Hx). move_inv Hz.
  apply (create_tail r (optional_deposit r sd) k d b n h tl sd t w) in Hx as (? & ? & ?);
    [split_and!; auto|done|done|done|done|done|].
  intros w3 x3 w4. by apply optional_deposit_success.
Qed.

(** A payment that closes the open escrow [k]. *)
Lemma close_fine t caller k to closed e shows w u w' :
  m_ready w -> escrows (the_store w) !! k = Some e -> is_open e = true -> is_open closed = false ->
  amount closed = amount e -> escrowed_coin closed = escrowed_coin e - amount e ->
  cell_step length_unlocks t (shows k) (Some (cell_of e)) (Some (cell_of closed)) ->
  pay_out fusion_plus caller k to closed e w = inr (u, w') -> fine t shows w w'.
Proof.
  intros Hr Hk Ho Hcl Ham Hec Hstep Hp.
  apply pay_out_success in Hp as (Hr' & Hall & Hm); [|done..]. split_and!; [done|done|].
  intros k'. unfold cell_at. rewrite Hm. destruct (decide (k' = k)) as [->|Hne].
  - rewrite Hk, lookup_insert_eq. exact Hstep.
  - rewrite lookup_insert_ne by done. apply cell_same.
Qed.

Lemma m_exec_fine t x w w' :
  m_ready w -> m_exec fusion_plus t x w = Some w' -> fine t (m_shows x) w w'.
Proof.
  intros Hr. unfold m_exec. destruct (Z.leb_spec 0 (m_deposit x)) as [Hsd|]; [|done].
  destruct (m_run fusion_plus t x w) as [|[u w1]] eqn:Hx; [done|]. intros [= ->].
  destruct x; simpl in Hsd, Hx; eauto using user_funded_fine, multi_agent_fine, delegated_fine, intent_fine.
  - unfold initialize in Hx. destruct (stores w !! signer) eqn:E1; [done|].
    destruct (registries w !! signer); [done|]. injection Hx as _ <-.
    apply same_store_fine; [done| |done]. unfold the_store. simpl.
    destruct (decide (signer = fusion_plus)) as [->|Hne].
    + by rewrite lookup_insert_eq, E1.
    + by rewrite lookup_insert_ne.
  - unfold add_authorized_resolver in Hx. apply mbind_success in Hx as (? & ? & Hy & Hx). move_inv Hy.
    apply mbind_success in Hx as (? & ? & Hy & Hx). apply borrow_registry_success in Hy as ->.
    destruct (authorized_resolvers x0 !! resolver); [done|]. injection Hx as _ <-.
    by apply same_store_fine.
  - apply move_withdraw_success in Hx as (e & Hk & Ho & Hu & Hp).
    eapply close_fine in Hp; [exact Hp|done|done|done|done|done|done|].
    pose proof Ho as Ho'. unfold is_open in Ho'. rewrite andb_true_iff, !negb_true_iff in Ho'.
    unfold cell_of. simpl. rewrite (proj1 Ho'), (proj2 Ho'), decide_True by done.
    by apply (cell_claim _ _ _ (lock_of e) secret).
  - apply move_refund_success in Hx as (e & Hk & Ho & Hu & Hp).
    eapply close_fine in Hp; [exact Hp|done|done|done| |done|done|].
    + unfold is_open. simpl. by rewrite andb_false_r.
    + pose proof Ho as Ho'. unfold is_open in Ho'. rewrite andb_true_iff, !negb_true_iff in Ho'.
      unfold cell_of. simpl. rewrite (proj1 Ho'), (proj2 Ho').
      by apply (cell_return _ _ _ (lock_of e)).
Qed.

#[export] Instance m_chain : HtlcChain World MTx := {|
  hc_cell := cell_at;
  hc_exec := m_exec fusion_plus;
  hc_env := fun w w' =>
    the_store w' = the_store w /\ m_ready w';
  hc_shows := m_shows;
  hc_unlocks := length_unlocks;
  hc_claim := fun who k secret => Withdraw who k secret;
  hc_refund := fun who k => Refund who k;
  hc_asset_ok := fun t => String.eqb t APT;
  hc_accepts := users;
  hc_balance := fun w _ a => default 0 (coins w !! a);
  hc_ready := m_ready
|}.

Lemma cell_at_open w k l :
  cell_at w k = Some (Open l) ->
  exists e, escrows (the_store w) !! k = Some e /\ is_open e = true /\ l = lock_of e.
Proof.
  unfold cell_at. destruct (escrows (the_store w) !! k) as [e|]; [|done]. simpl. unfold cell_of.
  destruct (withdrawn e) eqn:E1; [done|]. destruct (refunded e) eqn:E2; [done|].
  intros [= <-]. exists e. unfold is_open. by rewrite E1, E2.
Qed.

#[export] Instance m_laws : HtlcLaws World MTx.
Proof.
  split.
  - intros t c w w' k Hr He. by apply (m_exec_fine t c w w').
  - intros t c w w' Hr He. by apply (m_exec_fine t c w w').
  - intros w w' k [Hst _]. simpl. unfold cell_at. by rewrite Hst.
  - by intros w w' _ [_ Hr].
  - intros who k secret. simpl. by rewrite decide_True.
  - intros t who k secret l w Hr Hc Hu _ Hb Hw. simpl in *.
    apply cell_at_open in Hc as (e & Hk & Ho & ->).
    destruct (withdraw_works who k secret e w) as (w' & Hw' & Hrest); [done..|].
    exists w'. split; [|exact Hrest]. unfold m_exec. simpl. by rewrite Hw'.
  - done.
  - intros t who k l w Hr Hc Ht _ Hb Hw. simpl in *.
    apply cell_at_open in Hc as (e & Hk & Ho & ->).
    destruct (refund_works t who k e w) as (w' & Hw' & Hrest); [done..|].
    exists w'. split; [|exact Hrest]. unfold m_exec. simpl. by rewrite Hw'.
Qed.
End Refinement.

(** ** What the module promises *)

Section Promise.
Context (fusion_plus : account) (users : account -> bool).
Local Abbreviation history := (history (H := m_chain fusion_plus users)).

(** Before the module is initialised. *)
Definition published (w : World) : Prop :=
  stores w = ∅ /\ (forall a b, coins w !! a = Some b -> 0 <= b) /\ coin_sum (coins w) < 2 ^ 64 /\
  forall a, users a = true -> is_Some (coins w !! a).

Lemma published_ready w : published w -> m_ready fusion_plus users w.
Proof.
  intros (Hs & Hp & Hsum & Hu).
  assert (the_store fusion_plus w = {| escrows := ∅; safety_deposits := ∅ |}) as E
    by (unfold the_store; by rewrite Hs).
  split; rewrite ?E; try done. unfold all_coins. rewrite E. simpl. unfold coin_sum.
  rewrite !map_sum_empty. unfold coin_sum in Hsum. lia.
Qed.

(** C7. No coin is lost or made: in every world that transactions lead to from
    the publication of the module, an open escrow holds exactly its amount and a
    closed one nothing, and the next transaction, whatever it is, leaves the sum
    of the coins in accounts, escrows and safety deposits as it was and changes
    each escrow only as the specification allows, with the length of the secret
    as the only test. *)
Theorem move_coins_conserved w0 w w' t0 t t' l x k :
  published w0 -> history t0 w0 l t w -> m_exec fusion_plus t' x w = Some w' ->
  all_coins fusion_plus w' = all_coins fusion_plus w /\
  (forall e, escrows (the_store fusion_plus w') !! k = Some e ->
     escrowed_coin e = if is_open e then amount e else 0) /\
  cell_step length_unlocks t' (m_shows x k) (cell_at fusion_plus w k) (cell_at fusion_plus w' k).
Proof.
  intros Hp Hh Hx. pose proof (published_ready w0 Hp) as Hr0.
  pose proof (history_ready (H0 := m_laws fusion_plus users) _ _ _ _ _ Hr0 Hh) as Hr.
  destruct (m_exec_fine fusion_plus users t' x w w' Hr Hx) as (Hr' & Hall & Hc).
  split_and!; [done| |apply Hc]. intros e He. apply (mr_escrows _ _ _ Hr' k e He).
Qed.

(** The hash lock protects nothing on Aptos: in every world reached from the
    publication of the module an open escrow is withdrawn, in favour of its
    beneficiary, by anybody with any 32 bytes, whatever its hash lock is, at any
    time, before its maker has revealed anything. *)
Theorem move_any_secret_withdraws w0 w t0 t l k lk who secret :
  published w0 -> history t0 w0 l t w -> cell_at fusion_plus w k = Some (Open lk) ->
  String.length secret = 32%nat -> users (lk_beneficiary lk) = true -> users who = true ->
  exists w', withdraw fusion_plus who k secret w = inr (tt, w') /\
    cell_at fusion_plus w' k = Some (Claimed lk) /\
    default 0 (coins w !! lk_beneficiary lk) + lk_amount lk
      <= default 0 (coins w' !! lk_beneficiary lk).
Proof.
  intros Hp Hh Hc Hs Hb Hw. pose proof (published_ready w0 Hp) as Hr0.
  pose proof (history_ready (H0 := m_laws fusion_plus users) _ _ _ _ _ Hr0 Hh) as Hr.
  apply cell_at_open in Hc as (e & Hk & Ho & ->).
  apply (withdraw_works fusion_plus users who k secret e w); try done.
  unfold length_unlocks. by rewrite Hs.
Qed.

(** The nonces of depositors. *)
Definition nonce_at (d : account) (w : World) : option Z :=
  r ← registries w !! fusion_plus; user_nonces r !! d.

Definition at_least (n : Z) (o : option Z) : Prop := exists m, o = Some m /\ n <= m.

(** Steps that never lower a nonce. *)
Definition monotone {A} (m : move A) : Prop :=
  forall w x w' d n, m w = inr (x, w') -> at_least n (nonce_at d w) -> at_least n (nonce_at d w').

Lemma monotone_bind {A B} (m : move A) (k : A -> move B) :
  monotone m -> (forall a, monotone (k a)) -> monotone (mbind m k).
Proof.
  intros Hm Hk w x w' d n Hx Hn. apply mbind_success in Hx as (a & w1 & H1 & H2).
  eapply Hk; [exact H2|]. by eapply Hm.
Qed.

Lemma monotone_registries {A} (m : move A) :
  (forall w x w', m w = inr (x, w') -> registries w' = registries w) -> monotone m.
Proof. intros Hm w x w' d n Hx. apply Hm in Hx. unfold nonce_at. by rewrite Hx. Qed.

Lemma monotone_basic :
  (forall A (a : A), monotone (mret a)) /\ (forall b code, monotone (assert_ b code)) /\
  (forall A (o : option A) code, monotone (of_option o code)) /\
  (forall a n, monotone (withdraw_coin a n)) /\ (forall a n, monotone (deposit_coin a n)) /\
  (forall a, monotone (register_coin a)) /\ (forall a, monotone (coin_balance a)) /\
  monotone (borrow_store fusion_plus) /\ (forall s, monotone (put_store fusion_plus s)) /\
  monotone (assert_store fusion_plus) /\ monotone (borrow_registry fusion_plus).
Proof.
  split_and!; intros; apply monotone_registries; intros w x w'; unfold assert_, of_option,
    withdraw_coin, deposit_coin, register_coin, coin_balance, borrow_store, put_store, assert_store,
    borrow_registry, mret, mabort; repeat case_match; intros ?; simplify_eq; done.
Qed.

Lemma monotone_intent now r d nc ex pk sg :
  monotone (use_intent fusion_plus now r d nc ex pk sg) /\
  forall w u w', use_intent fusion_plus now r d nc ex pk sg w = inr (u, w') ->
    nonce_at d w' = Some nc.
Proof.
  assert (forall w u w', use_intent fusion_plus now r d nc ex pk sg w = inr (u, w') ->
    nonce_at d w' = Some nc /\ forall d' n, at_least n (nonce_at d' w) -> at_least n (nonce_at d' w'))
    as Hall; [|split; [intros w x w' d' n Hx; apply Hall in Hx; apply Hx|intros w u w' Hx; apply Hall in Hx; apply Hx]].
  intros w u w'. unfold use_intent. intros Hx. apply mbind_success in Hx as (reg & ? & Hs & Hx).
  unfold borrow_registry in Hs. destruct (registries w !! fusion_plus) as [r0|] eqn:Hr; [|done].
  injection Hs as <- <-.
  apply mbind_success in Hx as (? & ? & Hy & Hx). move_inv Hy.
  apply mbind_success in Hx as (? & ? & Hy & Hx). move_inv Hy.
  apply mbind_success in Hx as (? & w1 & Hn & Hx).
  assert (w1 = w /\ forall m, user_nonces r0 !! d = Some m -> m < nc) as [-> Hlt].
  { destruct (user_nonces r0 !! d); [|by injection Hn as _ <-].
    move_inv Hn. zbool. split; [done|]. by intros m [= <-]. }
  apply mbind_success in Hx as (? & ? & Hy & Hx). move_inv Hy.
  apply mbind_success in Hx as (? & ? & Hy & Hx). move_inv Hy. injection Hx as _ <-.
  unfold nonce_at. simpl. rewrite lookup_insert_eq, Hr. simpl. split; [by rewrite lookup_insert_eq|].
  intros d' n (m & Hm & Hle). destruct (decide (d' = d)) as [->|Hne].
  - rewrite lookup_insert_eq. exists nc. apply Hlt in Hm. split; [done|lia].
  - rewrite lookup_insert_ne by done. by exists m.
Qed.

Lemma monotone_admin a r :
  monotone (initialize a) /\ monotone (add_authorized_resolver fusion_plus a r).
Proof.
  split; intros w x w' d n Hx Hn.
  - unfold initialize in Hx. destruct (stores w !! a); [done|].
    destruct (registries w !! a) eqn:E; [done|]. injection Hx as _ <-.
    destruct (decide (a = fusion_plus)) as [->|Hne].
    + destruct Hn as (m & Hm & _). unfold nonce_at in Hm. by rewrite E in Hm.
    + unfold nonce_at. simpl. by rewrite lookup_insert_ne.
  - unfold add_authorized_resolver in Hx. apply mbind_success in Hx as (? & ? & Hy & Hx). move_inv Hy.
    apply mbind_success in Hx as (r0 & ? & Hy & Hx). unfold borrow_registry in Hy.
    destruct (registries w !! fusion_plus) as [r1|] eqn:E; [|done]. injection Hy as <- <-.
    destruct (authorized_resolvers r1 !! r); [done|]. injection Hx as _ <-.
    unfold nonce_at in *. simpl. rewrite lookup_insert_eq. rewrite E in Hn. done.
Qed.

Lemma m_exec_monotone t x w w' d n :
  m_exec fusion_plus t x w = Some w' -> at_least n (nonce_at d w) -> at_least n (nonce_at d w').
Proof.
  unfold m_exec. destruct (_ <=? _); [|done].
  destruct (m_run fusion_plus t x w) as [|[u w1]] eqn:Hx; [done|]. intros [= ->].
  revert d n. enough (monotone (m_run fusion_plus t x)) as Hm by (intros d n; by eapply Hm).
  destruct monotone_basic as (? & ? & ? & ? & ? & ? & ? & ? & ? & ? & ?).
  destruct x; simpl; try apply monotone_admin;
    unfold create_escrow_user_funded, create_escrow_gasless, create_escrow_multi_agent,
      create_escrow_delegated, create_escrow_from_user_intent, withdraw, refund, pay_out, assert_new,
      add_escrow, optional_deposit;
    repeat first [apply monotone_intent | solve [auto] | apply monotone_bind; [|intros ?] | case_match].
Qed.

(** The services' delegated escrows work once for each depositor:
    [createEscrowDelegated] always passes the nonce 0, which the module stores
    and which every later nonce has to exceed; so after one delegated escrow for
    a depositor and any transactions since then, another one with the nonce 0
    aborts with [E_INVALID_NONCE], or earlier, and creates nothing. *)
Theorem delegated_once (w w1 w2 : World) t r k d b n h tl ex sd pk sg
    t' r' k' b' n' h' tl' ex' sd' pk' sg' :
  create_escrow_delegated fusion_plus t r k d b n h tl 0 ex sd pk sg w = inr (tt, w1) ->
  rtc (fun v v' => exists now x, m_exec fusion_plus now x v = Some v') w1 w2 ->
  exists code, create_escrow_delegated fusion_plus t' r' k' d b' n' h' tl' 0 ex' sd' pk' sg' w2
               = inl code /\
    (code = E_INVALID_NONCE \/ code = E_NOT_AUTHORIZED_RESOLVER \/ code = E_EXPIRED_SIGNATURE).
Proof.
  intros Hx Hrun.
  assert (at_least 0 (nonce_at d w1)) as Hn.
  { unfold create_escrow_delegated in Hx. apply mbind_success in Hx as ([] & v & H1 & Hx).
    pose proof (proj2 (monotone_intent _ _ _ _ _ _ _) _ _ _ H1) as Hv.
    assert (at_least 0 (nonce_at d v)) as Hn0 by (exists 0; split; [done|lia]).
    revert Hx Hn0. destruct monotone_basic as (? & ? & ? & ? & ? & ? & ? & ? & ? & ? & ?).
    match goal with |- ?m v = inr (?u, w1) -> _ =>
      assert (monotone m) as Hm; [|intros Hx Hn0; by apply (Hm v u w1)] end.
    unfold assert_new, add_escrow. repeat first [apply monotone_bind; [|intros ?] | solve [auto]]. }
  assert (at_least 0 (nonce_at d w2)) as (m & Hm & Hle).
  { clear Hx. induction Hrun as [|v1 v2 v3 (now & x & Hs) _ IH]; [done|]. apply IH.
    by eapply m_exec_monotone. }
  unfold nonce_at in Hm. destruct (registries w2 !! fusion_plus) as [reg|] eqn:Hr; [|done].
  unfold create_escrow_delegated, use_intent. unfold mbind at 1 2, borrow_registry. rewrite Hr.
  unfold mbind at 1. destruct (contains _ _); simpl; [|by eauto].
  unfold mbind at 1. destruct (t' <=? ex'); simpl; [|by eauto].
  unfold mbind at 1. simpl in Hm. rewrite Hm, (proj2 (Z.ltb_ge m 0)) by lia. simpl. by eauto.
Qed.

Lemma withdraw_coin_balance a n w x w' a' :
  withdraw_coin a n w = inr (x, w') ->
  default 0 (coins w' !! a') = default 0 (coins w !! a') - if decide (a' = a) then n else 0.
Proof.
  unfold withdraw_coin. destruct (coins w !! a) as [b|] eqn:Ha; [|done].
  destruct (n <=? b); [|done]. intros [= _ <-]. simpl. case_decide as Hd.
  - subst. rewrite lookup_insert_eq, Ha. done.
  - rewrite lookup_insert_ne by done. lia.
Qed.

Lemma use_intent_coins now r d nc ex pk sg w u w' :
  use_intent fusion_plus now r d nc ex pk sg w = inr (u, w') -> coins w' = coins w.
Proof.
  unfold use_intent, borrow_registry, assert_, mbind, mret, mabort, put_registry. intros Hx.
  repeat (case_match; simplify_eq); done.
Qed.

(** What [create_escrow_delegated] takes, and what it stores. *)
Lemma delegated_success t r k d b n h tl nc ex sd pk sg w u w' :
  create_escrow_delegated fusion_plus t r k d b n h tl nc ex sd pk sg w = inr (u, w') ->
  escrows (the_store fusion_plus w') !! k = Some (new_escrow d b n h tl sd n) /\
  forall a, default 0 (coins w' !! a) = default 0 (coins w !! a) - if decide (a = r) then n + sd else 0.
Proof.
  unfold create_escrow_delegated. intros Hx.
  apply mbind_success in Hx as (? & w1 & Hy & Hx). apply use_intent_coins in Hy as C1.
  apply mbind_success in Hx as (? & ? & Hz & Hx). apply assert_new_success in Hz as (-> & _).
  apply mbind_success in Hx as (? & ? & Hz & Hx). injection Hz as <- <-.
  apply mbind_success in Hx as (? & ? & Hz & Hx). move_inv Hz.
  apply mbind_success in Hx as (? & w2 & Hz & Hx).
  assert (forall a, default 0 (coins w2 !! a) = default 0 (coins w !! a)) as C2.
  { intros a. rewrite <- C1. unfold register_coin in Hz.
    destruct (coins w1 !! r) eqn:E; injection Hz as _ <-; [done|]. simpl.
    destruct (decide (r = a)) as [->|Hne]; [by rewrite lookup_insert_eq, E|by rewrite lookup_insert_ne]. }
  apply mbind_success in Hx as (c & w3 & Ha & Hx). pose proof (withdraw_coin_success _ _ _ _ _ Ha) as [-> _].
  apply mbind_success in Hx as (c2 & w4 & Hb & Hx).
  apply add_escrow_success in Hx as (_ & _ & C5 & S5). split.
  - rewrite S5. simpl. by rewrite lookup_insert_eq.
  - intros a. rewrite C5, (withdraw_coin_balance _ _ _ _ _ a Hb), (withdraw_coin_balance _ _ _ _ _ a Ha), C2.
    case_decide; lia.
Qed.

(** A delegated escrow is funded by the resolver and refunded to the named
    depositor: [create_escrow_delegated] takes the amount and the safety deposit
    from the resolver and nothing from the depositor, and after the time lock
    anybody's [refund] pays the amount to the depositor. *)
Theorem delegated_refund_gift (w w1 : World) t r k d b n h tl nc ex sd pk sg t2 who :
  m_ready fusion_plus users w -> 0 <= sd -> r <> d ->
  create_escrow_delegated fusion_plus t r k d b n h tl nc ex sd pk sg w = inr (tt, w1) ->
  tl <= t2 -> users d = true -> users who = true ->
  default 0 (coins w1 !! d) = default 0 (coins w !! d) /\
  default 0 (coins w1 !! r) = default 0 (coins w !! r) - n - sd /\
  exists w2, refund fusion_plus t2 who k w1 = inr (tt, w2) /\
    default 0 (coins w !! d) + n <= default 0 (coins w2 !! d).
Proof.
  intros Hr Hsd Hne Hx Ht Hd Hw.
  destruct (delegated_fine fusion_plus users t r k d b n h tl nc ex sd pk sg (fun _ => None) w tt w1 Hr Hsd Hx)
    as (Hr1 & _ & _).
  apply delegated_success in Hx as [Hk Hc]. rewrite (Hc d), (Hc r), decide_False, decide_True by congruence.
  split; [lia|split; [lia|]].
  destruct (refund_works fusion_plus users t2 who k _ w1 Hr1 Hk) as (w2 & Hw2 & _ & Hp); [done..|].
  exists w2. split; [done|]. simpl in Hp. rewrite (Hc d), decide_False in Hp by congruence. lia.
Qed.
End Promise.

(** ** Concrete runs *)

Module MoveExample.
Definition fp : account := "0xfusion".
Definition users (a : account) : bool :=
  String.eqb a "0xresolver" || String.eqb a "0xmaker" || String.eqb a "0xanyone".

Definition zeros32 : string := "00000000000000000000000000000000".
Definition zeros64 : string := zeros32 ++ zeros32.

Definition w0 : World :=
  {| stores := ∅; registries := ∅;
     coins := {[ "0xresolver" := 100; "0xmaker" := 50; "0xanyone" := 0 ]} |}.

Definition exec (t : Z) (x : MTx) (w : World) : World := default w0 (m_exec fp t x w).

(** The resolver locks 40 for the maker under a hash nobody looks at. *)
Definition lock_tx : MTx := CreateUserFunded "0xresolver" "k" "0xmaker" 40 "hash" 1000 0 "0xresolver".

Definition w1 : World := exec 1 (Initialize fp) w0.
Definition w2 : World := exec 2 (AddResolver fp "0xresolver") w1.
Definition w3 : World := exec 3 lock_tx w2.
Definition w4 : World := exec 4 (Withdraw "0xanyone" "k" zeros32) w3.

Lemma w0_published : published users w0.
Proof.
  split; [done|]. split; [|split; [vm_compute; reflexivity|]].
  - intros a b. unfold w0. simpl. rewrite !lookup_insert_Some, lookup_singleton_Some.
    intros [[_ <-]|[_ [[_ <-]|[_ [_ <-]]]]]; lia.
  - intros a. unfold users. rewrite !orb_true_iff, !String.eqb_eq.
    intros [[->| ->]| ->]; vm_compute; eauto.
Qed.

Lemma run : history (H := m_chain fp users) 0 w0
  [(1, Initialize fp); (2, AddResolver fp "0xresolver"); (3, lock_tx)] 3 w3.
Proof.
  eapply (history_cons (H := m_chain fp users) 0 1 3 _ w0 w1);
    [lia|apply (some_default w0); vm_compute; reflexivity|].
  eapply (history_cons (H := m_chain fp users) 1 2 3 _ w1 w2);
    [lia|apply (some_default w0); vm_compute; reflexivity|].
  eapply (history_cons (H := m_chain fp users) 2 3 3 _ w2 w3);
    [lia|apply (some_default w0); vm_compute; reflexivity|constructor].
Qed.

Lemma w2_ready : m_ready fp users w2.
Proof.
  apply (history_ready (H0 := m_laws fp users) 0 w0
    [(1, Initialize fp); (2, AddResolver fp "0xresolver")] 2); [by apply published_ready, w0_published|].
  eapply (history_cons (H := m_chain fp users) 0 1 2 _ w0 w1);
    [lia|apply (some_default w0); vm_compute; reflexivity|].
  eapply (history_cons (H := m_chain fp users) 1 2 2 _ w1 w2);
    [lia|apply (some_default w0); vm_compute; reflexivity|constructor].
Qed.

Definition delegate (t : Z) (k : string) (w : World) : Code + (unit * World) :=
  create_escrow_delegated fp t "0xresolver" k "0xmaker" "0xresolver" 30 "hash" 1000 0 500 5
    zeros32 zeros64 w.

Definition after (r : Code + (unit * World)) : World :=
  match r with inr (_, w) => w | inl _ => w0 end.

Lemma delegate_ok : delegate 3 "d" w2 = inr (tt, after (delegate 3 "d" w2)).
Proof. vm_compute. reflexivity. Qed.
End MoveExample.

Lemma move_coins_conserved_witness :
  all_coins MoveExample.fp MoveExample.w4 = 150 /\
  cell_at MoveExample.fp MoveExample.w4 "k" =
    Some (Claimed {| lk_depositor := "0xresolver"; lk_beneficiary := "0xmaker"; lk_asset := APT;
                     lk_amount := 40; lk_hashlock := "hash"; lk_timelock := 1000 |}).
Proof.
  destruct (move_coins_conserved MoveExample.fp MoveExample.users MoveExample.w0 MoveExample.w3
    MoveExample.w4 0 3 4 [(1, Initialize MoveExample.fp); (2, AddResolver MoveExample.fp "0xresolver");
      (3, MoveExample.lock_tx)] (Withdraw "0xanyone" "k" MoveExample.zeros32) "k"
    MoveExample.w0_published MoveExample.run) as (Hall & _ & _).
  - apply (some_default MoveExample.w0). vm_compute. reflexivity.
  - rewrite Hall. split; vm_compute; reflexivity.
Defined.

Lemma move_any_secret_withdraws_witness :
  exists w', withdraw MoveExample.fp "0xanyone" "k" MoveExample.zeros32 MoveExample.w3 = inr (tt, w') /\
    90 <= default 0 (coins w' !! "0xmaker").
Proof.
  destruct (move_any_secret_withdraws MoveExample.fp MoveExample.users MoveExample.w0 MoveExample.w3
    0 3 [(1, Initialize MoveExample.fp); (2, AddResolver MoveExample.fp "0xresolver");
      (3, MoveExample.lock_tx)] "k"
    {| lk_depositor := "0xresolver"; lk_beneficiary := "0xmaker"; lk_asset := APT;
       lk_amount := 40; lk_hashlock := "hash"; lk_timelock := 1000 |} "0xanyone" MoveExample.zeros32
    MoveExample.w0_published MoveExample.run) as (w' & Hw' & _ & Hp);
    [vm_compute; reflexivity|reflexivity|reflexivity|reflexivity|].
  exists w'. split; [exact Hw'|].
  assert (default 0 (coins MoveExample.w3 !! "0xmaker") = 50) as E by (vm_compute; reflexivity).
  simpl in Hp. rewrite E in Hp. exact Hp.
Defined.

Lemma delegated_once_witness :
  exists code, MoveExample.delegate 4 "d2" (MoveExample.after (MoveExample.delegate 3 "d" MoveExample.w2))
    = inl code.
Proof.
  destruct (delegated_once MoveExample.fp MoveExample.w2
    (MoveExample.after (MoveExample.delegate 3 "d" MoveExample.w2))
    (MoveExample.after (MoveExample.delegate 3 "d" MoveExample.w2))
    3 "0xresolver" "d" "0xmaker" "0xresolver" 30 "hash" 1000 500 5 MoveExample.zeros32 MoveExample.zeros64
    4 "0xresolver" "d2" "0xresolver" 30 "hash" 1000 500 5 MoveExample.zeros32 MoveExample.zeros64
    MoveExample.delegate_ok) as (code & Hc & _); [apply rtc_refl|].
  exists code. exact Hc.
Defined.

Lemma delegated_refund_gift_witness :
  exists w2, refund MoveExample.fp 1000 "0xanyone" "d"
      (MoveExample.after (MoveExample.delegate 3 "d" MoveExample.w2)) = inr (tt, w2) /\
    80 <= default 0 (coins w2 !! "0xmaker").
Proof.
  destruct (delegated_refund_gift MoveExample.fp MoveExample.users MoveExample.w2
    (MoveExample.after (MoveExample.delegate 3 "d" MoveExample.w2))
    3 "0xresolver" "d" "0xmaker" "0xresolver" 30 "hash" 1000 0 500 5 MoveExample.zeros32 MoveExample.zeros64
    1000 "0xanyone" MoveExample.w2_ready) as (_ & _ & w2 & Hw & Hp);
    [lia|discriminate|exact MoveExample.delegate_ok|lia|reflexivity|reflexivity|].
  exists w2. split; [exact Hw|].
  assert (default 0 (coins MoveExample.w2 !! "0xmaker") = 50) as E by (vm_compute; reflexivity).
  rewrite E in Hp. exact Hp.
Defined.
