(* ===== verification/MovePartialFill.v ===== *)
(** * The Aptos module for partial fills

    [contracts/aptos/sources/fusion_plus_partial_fill.move], which
    [createPartialFillOrder] and [createPartialFillEscrow] of the Aptos service
    call: orders with a Merkle root, fills with a proof, and their withdrawal.
    A [vector<u8>] is a string of bytes, a [u64] an integer below 2^64. The
    state is the registry at the module's address, the coin stores and the
    events; a function aborts with a code and then changes nothing, so the
    writes to the registry are gathered at the end. *)

From Stdlib Require Import ZArith Lia.
From stdpp Require Import base numbers list strings gmap relations.
From S2P Require Import Prelude.
From S2P Require Import PartialFill.
From S2P Require Import Merkle.

Local Open Scope string_scope.
Local Open Scope Z_scope.

Abbreviation account := string.

(** ** Storage *)

Record FillOrder := {
  base_order_id : string;
  o_depositor : account;
  o_beneficiary : account;
  total_amount : Z;
  filled_amount : Z;
  merkle_root_bytes : string;
  num_fills : Z;
  o_timelock : Z;
  used_indices : gset Z
}.

Record FillEscrow := {
  x_depositor : account;
  x_beneficiary : account;
  x_amount : Z;
  x_hashlock : string;
  x_timelock : Z;
  x_withdrawn : bool;
  x_refunded : bool;
  x_safety_deposit : Z
}.

Record PartialFillRegistry := {
  orders : gmap string FillOrder;
  fill_escrows : gmap string FillEscrow;
  nonce_table : gmap account Z
}.

Inductive FillEvent :=
  | OrderCreated (base : string) (dep ben : account) (total : Z) (root : string) (n : Z)
  | FillCreated (escrow_id : string) (dep ben : account) (n : Z) (hash : string) (tl : Z)
  | FillWithdrawn (escrow_id secret : string).

Record FWorld := {
  registry : option PartialFillRegistry;
  apt : gmap account Z;
  events : list FillEvent
}.

Inductive FCode :=
  | E_ESCROW_ALREADY_EXISTS | E_ESCROW_NOT_FOUND | E_ALREADY_WITHDRAWN | E_ALREADY_REFUNDED
  | E_INVALID_SECRET | E_INVALID_AMOUNT | E_INVALID_TIMELOCK | E_ORDER_NOT_FOUND
  | E_INVALID_MERKLE_INDEX | E_MERKLE_INDEX_ALREADY_USED | E_EXCEEDS_TOTAL_AMOUNT
  | E_EXPIRED_SIGNATURE | E_INVALID_NONCE | E_INVALID_MERKLE_PROOF
  (** aborts of the virtual machine and the framework *)
  | MISSING_DATA | RESOURCE_ALREADY_EXISTS | EALREADY_EXISTS | ECOIN_STORE_NOT_PUBLISHED
  | EINSUFFICIENT_COINS | ARITHMETIC_ERROR.

(** ** The machine *)

Definition fmove (A : Type) := FWorld -> FCode + (A * FWorld).

Definition fret {A} (a : A) : fmove A := fun w => inr (a, w).

Definition fbind {A B} (m : fmove A) (k : A -> fmove B) : fmove B := fun w =>
  match m w with
  | inr (a, w') => k a w'
  | inl code => inl code
  end.

Declare Scope fmove_scope.
Delimit Scope fmove_scope with fmove.
Notation "x <-- m ; k" := (fbind m (fun x => k))
  (at level 100, m at next level, right associativity) : fmove_scope.
Notation "m ,, k" := (fbind m (fun _ => k))
  (at level 100, right associativity) : fmove_scope.
Local Open Scope fmove_scope.

Definition check (b : bool) (code : FCode) : fmove unit := fun w =>
  if b then inr (tt, w) else inl code.

Definition some_or {A} (o : option A) (code : FCode) : fmove A := fun w =>
  match o with Some a => inr (a, w) | None => inl code end.

Definition borrow : fmove PartialFillRegistry := fun w =>
  match registry w with Some r => inr (r, w) | None => inl MISSING_DATA end.

Definition put (r : PartialFillRegistry) : fmove unit := fun w =>
  inr (tt, {| registry := Some r; apt := apt w; events := events w |}).

Definition emit_event (e : FillEvent) : fmove unit := fun w =>
  inr (tt, {| registry := registry w; apt := apt w; events := (events w ++ [e])%list |}).

(** [coin::withdraw] and [coin::deposit] *)
Definition take_coin (a : account) (n : Z) : fmove unit := fun w =>
  match apt w !! a with
  | None => inl ECOIN_STORE_NOT_PUBLISHED
  | Some b => if n <=? b
              then inr (tt, {| registry := registry w; apt := <[a := b - n]> (apt w); events := events w |})
              else inl EINSUFFICIENT_COINS
  end.

Definition give_coin (a : account) (n : Z) : fmove unit := fun w =>
  match apt w !! a with
  | None => inl ECOIN_STORE_NOT_PUBLISHED
  | Some b => if b + n <? 2 ^ 64
              then inr (tt, {| registry := registry w; apt := <[a := b + n]> (apt w); events := events w |})
              else inl ARITHMETIC_ERROR
  end.

Definition has {A} (k : string) (m : gmap string A) : bool := bool_decide (is_Some (m !! k)).

(** ** The module *)

(** [hash::sha3_256] and [bcs::to_bytes] of a [u64]. *)
Class MoveHash := {
  sha3_256 : string -> string;
  bcs_u64 : Z -> string
}.

Section Module.
Context `{MoveHash}.

Definition init_module : fmove unit := fun w =>
  match registry w with
  | Some _ => inl RESOURCE_ALREADY_EXISTS
  | None => inr (tt, {| registry := Some {| orders := ∅; fill_escrows := ∅; nonce_table := ∅ |};
                        apt := apt w; events := events w |})
  end.

(** The signature and the key are not looked at. *)
Definition create_partial_fill_order (now : Z) (resolver : account) (base : string)
    (dep ben : account) (total : Z) (root : string) (n tl nonce expiry : Z) : fmove unit :=
  r <-- borrow;
  check (negb (has base (orders r))) E_ESCROW_ALREADY_EXISTS,,
  check (0 <? total) E_INVALID_AMOUNT,,
  check (now <? tl) E_INVALID_TIMELOCK,,
  check (now <=? expiry) E_EXPIRED_SIGNATURE,,
  check (match nonce_table r !! dep with Some current => current <? nonce | None => true end)
    E_INVALID_NONCE,,
  put {| orders := <[base := {| base_order_id := base; o_depositor := dep; o_beneficiary := ben;
                                total_amount := total; filled_amount := 0; merkle_root_bytes := root;
                                num_fills := n; o_timelock := tl; used_indices := ∅ |}]> (orders r);
         fill_escrows := fill_escrows r; nonce_table := <[dep := nonce]> (nonce_table r) |},,
  emit_event (OrderCreated base dep ben total root n).

(** The loop of [verify_merkle_proof]. *)
Fixpoint computed_hash (hash : string) (proof : list string) (index : nat) : string :=
  match proof with
  | [] => hash
  | element :: rest =>
      computed_hash (if Nat.even index then sha3_256 (hash ++ element) else sha3_256 (element ++ hash))
        rest (Nat.div2 index)
  end.

Definition verify_merkle_proof (proof : list string) (root leaf : string) (index : Z) : bool :=
  String.eqb (computed_hash leaf proof (Z.to_nat index)) root.

Definition generate_escrow_id (base : string) (fill_index : Z) : string :=
  sha3_256 (base ++ bcs_u64 fill_index).

Definition mark_fill (i n : Z) (o : FillOrder) : FillOrder :=
  {| base_order_id := base_order_id o; o_depositor := o_depositor o; o_beneficiary := o_beneficiary o;
     total_amount := total_amount o; filled_amount := filled_amount o + n;
     merkle_root_bytes := merkle_root_bytes o; num_fills := num_fills o; o_timelock := o_timelock o;
     used_indices := {[ i ]} ∪ used_indices o |}.

Definition create_partial_fill_escrow (resolver : account) (base : string) (fill_index n : Z)
    (hash : string) (proof : list string) (safety_deposit_amount : Z) : fmove unit :=
  r <-- borrow;
  order <-- some_or (orders r !! base) E_ORDER_NOT_FOUND;
  check (fill_index <? num_fills order) E_INVALID_MERKLE_INDEX,,
  check (negb (bool_decide (fill_index ∈ used_indices order))) E_MERKLE_INDEX_ALREADY_USED,,
  check (filled_amount order + n <? 2 ^ 64) ARITHMETIC_ERROR,,
  check (filled_amount order + n <=? total_amount order) E_EXCEEDS_TOTAL_AMOUNT,,
  check (verify_merkle_proof proof (merkle_root_bytes order) (sha3_256 hash) fill_index)
    E_INVALID_MERKLE_PROOF,,
  let escrow_id := generate_escrow_id base fill_index in
  take_coin resolver safety_deposit_amount,,
  take_coin resolver n,,
  give_coin resolver n,,
  check (negb (has escrow_id (fill_escrows r))) EALREADY_EXISTS,,
  put {| orders := <[base := mark_fill fill_index n order]> (orders r);
         fill_escrows := <[escrow_id := {| x_depositor := o_depositor order;
                                           x_beneficiary := o_beneficiary order; x_amount := n;
                                           x_hashlock := hash; x_timelock := o_timelock order;
                                           x_withdrawn := false; x_refunded := false;
                                           x_safety_deposit := safety_deposit_amount |}]> (fill_escrows r);
         nonce_table := nonce_table r |},,
  emit_event (FillCreated escrow_id (o_depositor order) (o_beneficiary order) n hash (o_timelock order)).

(** A withdrawn escrow, its safety deposit taken out. *)
Definition mark_paid (e : FillEscrow) : FillEscrow :=
  {| x_depositor := x_depositor e; x_beneficiary := x_beneficiary e; x_amount := x_amount e;
     x_hashlock := x_hashlock e; x_timelock := x_timelock e; x_withdrawn := true;
     x_refunded := x_refunded e; x_safety_deposit := 0 |}.

Definition withdraw_fill (withdrawer : account) (escrow_id secret : string) : fmove unit :=
  r <-- borrow;
  e <-- some_or (fill_escrows r !! escrow_id) E_ESCROW_NOT_FOUND;
  check (negb (x_withdrawn e)) E_ALREADY_WITHDRAWN,,
  check (negb (x_refunded e)) E_ALREADY_REFUNDED,,
  check (String.eqb (sha3_256 secret) (x_hashlock e)) E_INVALID_SECRET,,
  take_coin withdrawer (x_amount e),,
  give_coin (x_beneficiary e) (x_amount e),,
  give_coin withdrawer (x_safety_deposit e),,
  put {| orders := orders r; fill_escrows := <[escrow_id := mark_paid e]> (fill_escrows r);
         nonce_table := nonce_table r |},,
  emit_event (FillWithdrawn escrow_id secret).

Definition get_partial_fill_order (base : string) (r : PartialFillRegistry) : Z * Z * string * Z :=
  match orders r !! base with
  | Some o => (total_amount o, filled_amount o, merkle_root_bytes o, num_fills o)
  | None => (0, 0, "", 0)
  end.

(** ** Transactions *)

Inductive FTx :=
  | FInit
  | FOrder (resolver : account) (base : string) (dep ben : account) (total : Z) (root : string)
      (n tl nonce expiry : Z)
  | FEscrow (resolver : account) (base : string) (i n : Z) (hash : string) (proof : list string) (sd : Z)
  | FWithdraw (withdrawer : account) (escrow_id secret : string).

Definition f_run (t : Z) (x : FTx) : fmove unit :=
  match x with
  | FInit => init_module
  | FOrder r base d b total root n tl nonce expiry =>
      create_partial_fill_order t r base d b total root n tl nonce expiry
  | FEscrow r base i n h p sd => create_partial_fill_escrow r base i n h p sd
  | FWithdraw a k s => withdraw_fill a k s
  end.

(** The numbers of a transaction are [u64]. *)
Definition f_numbers (x : FTx) : list Z :=
  match x with
  | FOrder _ _ _ _ total _ n tl nonce expiry => [total; n; tl; nonce; expiry]
  | FEscrow _ _ i n _ _ sd => [i; n; sd]
  | _ => []
  end.

Definition f_exec (t : Z) (x : FTx) (w : FWorld) : option FWorld :=
  if forallb (fun z => (0 <=? z) && (z <? 2 ^ 64)) (f_numbers x) then
    match f_run t x w with inr (_, w') => Some w' | inl _ => None end
  else None.

Definition f_step (w w' : FWorld) : Prop := exists t x, f_exec t x w = Some w'.
End Module.

(** ** Inversion of a successful step *)

Lemma fbind_success {A B} (m : fmove A) (k : A -> fmove B) w r :
  fbind m k w = inr r -> exists a w1, m w = inr (a, w1) /\ k a w1 = inr r.
Proof. unfold fbind. destruct (m w) as [|[a w1]]; [done|eauto]. Qed.

Lemma check_success b code w u w' : check b code w = inr (u, w') -> b = true /\ w' = w.
Proof. unfold check. destruct b; [by intros [= _ ->]|done]. Qed.

Lemma some_or_success {A} (o : option A) code w a w' :
  some_or o code w = inr (a, w') -> o = Some a /\ w' = w.
Proof. unfold some_or. destruct o; [by intros [= -> ->]|done]. Qed.

Lemma borrow_success w r w' : borrow w = inr (r, w') -> registry w = Some r /\ w' = w.
Proof. unfold borrow. destruct (registry w); [by intros [= -> ->]|done]. Qed.

Lemma has_false {A} k (m : gmap string A) : negb (has k m) = true -> m !! k = None.
Proof. unfold has. rewrite negb_true_iff, bool_decide_eq_false. apply eq_None_not_Some. Qed.

Ltac fmove_inv H :=
  lazymatch type of H with
  | fbind _ _ _ = inr _ =>
      let a := fresh "x" in let w1 := fresh "w" in let H1 := fresh "Hx" in
      apply fbind_success in H as (a & w1 & H1 & H); fmove_inv H1; fmove_inv H
  | check _ _ _ = inr (_, _) =>
      let Hb := fresh "Hg" in apply check_success in H as [Hb ->]
  | some_or _ _ _ = inr (_, _) =>
      let Hb := fresh "Ho" in apply some_or_success in H as [Hb ->]
  | borrow _ = inr (_, _) => let Hb := fresh "Hr" in apply borrow_success in H as [Hb ->]
  | put _ _ = inr (_, _) => injection H as _ <-
  | emit_event _ _ = inr (_, _) => injection H as _ <-
  | _ => idtac
  end.

(** ** Coins *)

Definition balance (w : FWorld) (a : account) : Z := default 0 (apt w !! a).

Definition solid (w : FWorld) : Prop := forall a b, apt w !! a = Some b -> 0 <= b.

(** The coin stores change by [d] in all, that of [a] by [f a]. *)
Record coins_move (d : Z) (f : account -> Z) (w w' : FWorld) : Prop := {
  cm_registry : registry w' = registry w;
  cm_sum : map_sum (fun z => z) (apt w') = map_sum (fun z => z) (apt w) + d;
  cm_solid : solid w -> solid w';
  cm_balance : forall a, balance w' a = balance w a + f a
}.

(** [z] at one account. *)
Definition only (a : account) (z : Z) (x : account) : Z := if decide (x = a) then z else 0.

Lemma coins_move_trans d1 f1 d2 f2 w1 w2 w3 :
  coins_move d1 f1 w1 w2 -> coins_move d2 f2 w2 w3 ->
  coins_move (d1 + d2) (fun a => f1 a + f2 a) w1 w3.
Proof.
  intros [R1 S1 P1 B1] [R2 S2 P2 B2]. split; [congruence|lia|auto|]. intros a. rewrite B2, B1. lia.
Qed.

Lemma set_coin_move w w' a b z :
  apt w !! a = Some b -> 0 <= z -> registry w' = registry w -> apt w' = <[a := z]> (apt w) ->
  coins_move (z - b) (only a (z - b)) w w'.
Proof.
  intros Ha Hz Hr E. split; [done| | |].
  - rewrite E, map_sum_insert, Ha. simpl. lia.
  - intros Hs x y. rewrite E, lookup_insert_Some. intros [[_ <-]|[_ ?]]; eauto.
  - intros x. unfold balance, only. rewrite E. case_decide as Hx.
    + subst. rewrite lookup_insert_eq, Ha. simpl. lia.
    + rewrite lookup_insert_ne by done. lia.
Qed.

Lemma take_moves a n w u w' : take_coin a n w = inr (u, w') -> coins_move (- n) (only a (- n)) w w'.
Proof.
  unfold take_coin. destruct (apt w !! a) as [b|] eqn:Ha; [|done]. destruct (Z.leb_spec n b); [|done].
  intros [= _ <-]. replace (- n) with (b - n - b) by lia. apply set_coin_move; [done|lia|done|done].
Qed.

Lemma give_moves a n w u w' :
  solid w -> 0 <= n -> give_coin a n w = inr (u, w') -> coins_move n (only a n) w w'.
Proof.
  intros Hs Hn. unfold give_coin. destruct (apt w !! a) as [b|] eqn:Ha; [|done].
  destruct (_ <? _); [|done]. intros [= _ <-]. replace n with (b + n - b) at 1 2 by lia.
  apply set_coin_move; [done| |done|done]. apply Hs in Ha. lia.
Qed.

Section Effects.
Context `{MoveHash}.

(** What a new fill checked, stored and moved: the safety deposit is all that
    leaves the resolver. *)
Lemma create_fill_success resolver base i n hash proof sd w u w' :
  solid w -> 0 <= n -> create_partial_fill_escrow resolver base i n hash proof sd w = inr (u, w') ->
  exists r o, registry w = Some r /\ orders r !! base = Some o /\
    i < num_fills o /\ (i ∉ used_indices o) /\ filled_amount o + n <= total_amount o /\
    verify_merkle_proof proof (merkle_root_bytes o) (sha3_256 hash) i = true /\
    fill_escrows r !! generate_escrow_id base i = None /\
    registry w' = Some
      {| orders := <[base := mark_fill i n o]> (orders r);
         fill_escrows := <[generate_escrow_id base i :=
           {| x_depositor := o_depositor o; x_beneficiary := o_beneficiary o; x_amount := n;
              x_hashlock := hash; x_timelock := o_timelock o; x_withdrawn := false;
              x_refunded := false; x_safety_deposit := sd |}]> (fill_escrows r);
         nonce_table := nonce_table r |} /\
    map_sum (fun z => z) (apt w') = map_sum (fun z => z) (apt w) - sd /\ solid w' /\
    forall a, balance w' a = balance w a - only resolver sd a.
Proof.
  intros Hs Hn Hx. unfold create_partial_fill_escrow in Hx. fmove_inv Hx.
  match goal with Ht : take_coin _ sd _ = _ |- _ => apply take_moves in Ht as M1 end.
  match goal with Ht : take_coin _ n _ = _ |- _ => apply take_moves in Ht as M2 end.
  pose proof (coins_move_trans _ _ _ _ _ _ _ M1 M2) as M12.
  match goal with Ht : give_coin _ n _ = _ |- _ =>
    apply give_moves in Ht as M3; [|exact (cm_solid _ _ _ _ M12 Hs)|exact Hn] end.
  pose proof (coins_move_trans _ _ _ _ _ _ _ M12 M3) as [Hreg Hsum Hsol Hbal].
  zbool. rewrite negb_true_iff in *. rewrite ?bool_decide_eq_false in *.
  match goal with Hh : has _ _ = false |- _ => apply negb_true_iff, has_false in Hh end.
  do 2 eexists. split; [eassumption|]. split; [eassumption|]. simpl.
  split_and!; try done.
  - rewrite Hsum. lia.
  - by apply Hsol.
  - intros a. unfold balance in *. simpl. rewrite Hbal. unfold only. case_decide; lia.
Qed.

(** What a withdrawal checked, stored and moved: the withdrawer pays the amount
    and gets the safety deposit. *)
Lemma withdraw_fill_success who k secret w u w' :
  solid w -> (forall r e, registry w = Some r -> fill_escrows r !! k = Some e ->
                0 <= x_amount e /\ 0 <= x_safety_deposit e) ->
  withdraw_fill who k secret w = inr (u, w') ->
  exists r e, registry w = Some r /\ fill_escrows r !! k = Some e /\ x_withdrawn e = false /\
    sha3_256 secret = x_hashlock e /\
    registry w' = Some {| orders := orders r; fill_escrows := <[k := mark_paid e]> (fill_escrows r);
                          nonce_table := nonce_table r |} /\
    map_sum (fun z => z) (apt w') = map_sum (fun z => z) (apt w) + x_safety_deposit e /\ solid w' /\
    forall a, balance w' a = balance w a - only who (x_amount e) a + only (x_beneficiary e) (x_amount e) a +
                             only who (x_safety_deposit e) a.
Proof.
  intros Hs Hpos Hx. unfold withdraw_fill in Hx. fmove_inv Hx.
  match goal with Hr : registry w = Some ?r, He : fill_escrows ?r !! k = Some ?e |- _ =>
    destruct (Hpos r e Hr He) as [Hn Hd] end.
  match goal with Ht : take_coin _ _ _ = _ |- _ => apply take_moves in Ht as M1 end.
  match goal with Ht : give_coin (x_beneficiary _) _ _ = _ |- _ =>
    apply give_moves in Ht as M2; [|exact (cm_solid _ _ _ _ M1 Hs)|exact Hn] end.
  pose proof (coins_move_trans _ _ _ _ _ _ _ M1 M2) as M12.
  match goal with Ht : give_coin who _ _ = _ |- _ =>
    apply give_moves in Ht as M3; [|exact (cm_solid _ _ _ _ M12 Hs)|exact Hd] end.
  pose proof (coins_move_trans _ _ _ _ _ _ _ M12 M3) as [Hreg Hsum Hsol Hbal].
  match goal with Hh : String.eqb _ _ = true |- _ => apply String.eqb_eq in Hh end.
  rewrite !negb_true_iff in *.
  do 2 eexists. split; [eassumption|]. split; [eassumption|]. simpl. split_and!; try done.
  - rewrite Hsum. lia.
  - by apply Hsol.
  - intros a. unfold balance in *. simpl. rewrite Hbal. unfold only. repeat case_decide; lia.
Qed.
End Effects.

(** ** Properties *)

Section Guarantees.
Context `{MoveHash}.

(** The coins of the accounts and the safety deposits. *)
Definition held (w : FWorld) : Z :=
  match registry w with Some r => map_sum x_safety_deposit (fill_escrows r) | None => 0 end.

Definition all_apt (w : FWorld) : Z := map_sum (fun z => z) (apt w) + held w.

Definition order_ok (o : FillOrder) : Prop :=
  0 <= filled_amount o <= total_amount o /\ forall i, i ∈ used_indices o -> 0 <= i < num_fills o.

Definition fill_ok (e : FillEscrow) : Prop :=
  0 <= x_amount e /\ 0 <= x_safety_deposit e /\ (x_withdrawn e = true -> x_safety_deposit e = 0).

Record f_inv (w : FWorld) : Prop := {
  fi_solid : solid w;
  fi_orders : forall r base o, registry w = Some r -> orders r !! base = Some o -> order_ok o;
  fi_fills : forall r k e, registry w = Some r -> fill_escrows r !! k = Some e -> fill_ok e
}.

(** An account of worlds before and after a registry with one order and one
    escrow written. *)
Lemma f_inv_write w w' r base o k e nt :
  f_inv w -> registry w = Some r -> solid w' -> order_ok o -> fill_ok e ->
  registry w' = Some {| orders := <[base := o]> (orders r); fill_escrows := <[k := e]> (fill_escrows r);
                        nonce_table := nt |} -> f_inv w'.
Proof.
  intros [Hs Ho Hf] Hr Hs' Hok Hek E. split; [done| |].
  - intros r' b' o' E' Hl. rewrite E in E'. simplify_eq. simpl in Hl.
    apply lookup_insert_Some in Hl as [[_ <-]|[_ Hl]]; [done|]. by eapply Ho.
  - intros r' k' e' E' Hl. rewrite E in E'. simplify_eq. simpl in Hl.
    apply lookup_insert_Some in Hl as [[_ <-]|[_ Hl]]; [done|]. by eapply Hf.
Qed.

Lemma init_keeps w u w' : f_inv w -> init_module w = inr (u, w') -> f_inv w' /\ all_apt w' = all_apt w.
Proof.
  intros [Hs _ _]. unfold init_module, all_apt, held. destruct (registry w); [done|]. intros [= _ <-].
  split; [|done]. split; [done| |]; intros r ? ? [= <-]; simpl; by rewrite lookup_empty.
Qed.

Lemma order_keeps t a base d b total root n tl nonce expiry w u w' :
  f_inv w -> create_partial_fill_order t a base d b total root n tl nonce expiry w = inr (u, w') ->
  f_inv w' /\ all_apt w' = all_apt w.
Proof.
  intros [Hs Ho Hf] Hx. unfold create_partial_fill_order in Hx. fmove_inv Hx.
  unfold all_apt, held. simpl. rewrite Hr. split; [|done].
  split; [done| |]; simpl; intros r' k' y [= <-] Hl; simpl in Hl; [|by eapply Hf].
  apply lookup_insert_Some in Hl as [[_ <-]|[_ Hl]]; [|by eapply Ho]. zbool.
  split; simpl; [lia|set_solver].
Qed.

Lemma fill_keeps a base i n h p sd w u w' :
  f_inv w -> 0 <= i -> 0 <= n -> 0 <= sd ->
  create_partial_fill_escrow a base i n h p sd w = inr (u, w') ->
  f_inv w' /\ all_apt w' = all_apt w.
Proof.
  intros Hi Hi0 Hn Hsd Hx. pose proof (fi_solid _ Hi) as Hs.
  apply create_fill_success in Hx as (r & o & Hr & Ho & Hlt & _ & Hle & _ & Hnew & E & Hsum & Hs' & _);
    [|done|done].
  destruct (fi_orders _ Hi _ _ _ Hr Ho) as [Hf Hu]. split.
  - eapply f_inv_write; [exact Hi|exact Hr|exact Hs'| | |exact E].
    + split; simpl; [lia|]. intros j. rewrite elem_of_union, elem_of_singleton. intros [->|Hj]; [lia|auto].
    + split_and!; simpl; [done|done|done].
  - unfold all_apt, held. rewrite E, Hr, Hsum. simpl. rewrite map_sum_fresh by done. simpl. lia.
Qed.

Lemma withdraw_keeps a k s w u w' :
  f_inv w -> withdraw_fill a k s w = inr (u, w') -> f_inv w' /\ all_apt w' = all_apt w.
Proof.
  intros Hi Hx.
  apply withdraw_fill_success in Hx as (r & e & Hr & He & Ho & _ & E & Hsum & Hs' & _).
  - pose proof (fi_fills _ Hi _ _ _ Hr He) as (Ha & Hd & _). split.
    + destruct Hi as [Hs Hord Hf]. split; [done| |].
      * intros r' b' o' E' Hl. rewrite E in E'. simplify_eq. by eapply Hord.
      * intros r' k' e' E' Hl. rewrite E in E'. simplify_eq. simpl in Hl.
        apply lookup_insert_Some in Hl as [[_ <-]|[_ Hl]]; [by split_and!|by eapply Hf].
    + unfold all_apt, held. rewrite E, Hr, Hsum. simpl. rewrite map_sum_insert, He. simpl. lia.
  - apply (fi_solid _ Hi).
  - intros r e Hr He. destruct (fi_fills _ Hi _ _ _ Hr He) as (? & ? & _). done.
Qed.

Lemma step_keeps w w' : f_inv w -> f_step w w' -> f_inv w' /\ all_apt w' = all_apt w.
Proof.
  intros Hi (t & x & Hx). unfold f_exec in Hx. destruct (forallb _ _) eqn:Hn; [|done].
  destruct (f_run t x w) as [|[u w1]] eqn:Hr; [done|]. injection Hx as ->.
  destruct x as [|a base d b total root n tl nonce expiry|a base i n h p sd|a k s]; simpl in *.
  - by eapply init_keeps.
  - by eapply order_keeps.
  - rewrite !andb_true_iff in Hn. destruct Hn as ([? _] & [? _] & [? _] & _). zbool.
    apply (fill_keeps a base i n h p sd w u); done.
  - by eapply withdraw_keeps.
Qed.

(** Where the module starts: published, not yet initialised. *)
Definition f_published (w : FWorld) : Prop := registry w = None /\ solid w.

Lemma reachable_keeps w0 w :
  f_published w0 -> rtc f_step w0 w -> f_inv w /\ all_apt w = all_apt w0.
Proof.
  intros [Hr Hs] Hsteps. assert (f_inv w0) as Hi.
  { split; [done| |]; intros r ? ? E; rewrite Hr in E; done. }
  clear Hr Hs. induction Hsteps as [w|w1 w2 w3 Hstep _ IH]; [done|].
  destruct (step_keeps _ _ Hi Hstep) as [Hi2 E]. destruct (IH Hi2) as [Hi3 E3]. split; [done|lia].
Qed.

(** C36. Coins and budgets of the module: in every world that transactions lead
    to from its publication, the coins of all accounts and the safety deposits
    add up to what there was, no account is overdrawn, no order is filled beyond
    its total, its used indices are below its number of fills, and a withdrawn
    fill holds no deposit. *)
Theorem fills_within_budget w0 w :
  f_published w0 -> rtc f_step w0 w ->
  all_apt w = all_apt w0 /\ solid w /\
  (forall r base o, registry w = Some r -> orders r !! base = Some o -> order_ok o) /\
  (forall r k e, registry w = Some r -> fill_escrows r !! k = Some e -> fill_ok e).
Proof. intros Hp Hs. destruct (reachable_keeps _ _ Hp Hs) as [[??? ] ?]. by split_and!. Qed.

(** A fill is not funded: creating one takes nothing but the safety deposit
    of the resolver, and withdrawing it takes the amount from whoever withdraws
    and gives it to the beneficiary; no other account changes. So a party that
    reveals its secret here pays for its own claim. *)
Theorem fills_not_funded w0 w :
  f_published w0 -> rtc f_step w0 w ->
  (forall a base i n hash proof sd w', 0 <= n ->
     create_partial_fill_escrow a base i n hash proof sd w = inr (tt, w') ->
     forall x, balance w' x = balance w x - only a sd x) /\
  (forall a k secret w', withdraw_fill a k secret w = inr (tt, w') ->
     exists r e, registry w = Some r /\ fill_escrows r !! k = Some e /\
       forall x, balance w' x = balance w x - only a (x_amount e) x +
                                only (x_beneficiary e) (x_amount e) x + only a (x_safety_deposit e) x).
Proof.
  intros Hp Hs. destruct (reachable_keeps _ _ Hp Hs) as [Hi _]. pose proof (fi_solid _ Hi). split.
  - intros a base i n hash proof sd w' Hn Hx.
    apply create_fill_success in Hx as (r & o & _ & _ & _ & _ & _ & _ & _ & _ & _ & _ & Hb); done.
  - intros a k secret w' Hx.
    apply withdraw_fill_success in Hx as (r & e & Hr & He & _ & _ & _ & _ & _ & Hb); [eauto|done|].
    intros r e Hr He. destruct (fi_fills _ Hi _ _ _ Hr He) as (? & ? & _). done.
Qed.

(** ** Orders of the page *)

Section Page.
Context `{Ethers} (bytes_of : string -> string).

Definition is_keccak (h : string) : Prop := exists x, h = keccak256 x.

Lemma next_level_keccak l : Forall is_keccak l -> Forall is_keccak (next_level l).
Proof.
  induction l as [|a|a b l IH] using pair_ind; simpl; [done|done|].
  intros Hl. inversion Hl as [|? ? _ Hl']. inversion Hl'. constructor; [by eexists|auto].
Qed.

Lemma build_levels_keccak fuel l : Forall is_keccak l -> Forall (Forall is_keccak) (build_levels fuel l).
Proof.
  revert l. induction fuel as [|fuel IH]; intros l Hl; simpl; [by repeat constructor|].
  destruct (1 <? length l)%nat; constructor; auto. by apply IH, next_level_keccak.
Qed.

(** The root of the page's tree is a Keccak digest. *)
Lemma page_root_keccak parts rootSecret nonces root :
  merkleRoot (generateSecrets parts rootSecret nonces) = Some root -> is_keccak root.
Proof.
  cbn [generateSecrets merkleRoot]. unfold merkle_root, tree.
  set (leaves := keccak256 <$> secret_chain rootSecret nonces). intros Hroot. apply bind_Some in Hroot as (level & Hlast & Hhead).
  assert (Forall is_keccak leaves) as Hleaves.
  { apply Forall_fmap, Forall_true. intros x. by exists x. }
  apply (build_levels_keccak (length leaves)) in Hleaves.
  apply last_Some in Hlast as [l' E]. rewrite E in Hleaves. apply Forall_app in Hleaves as [_ Hl].
  apply Forall_cons_1 in Hl as [Hl _]. destruct level as [|h level]; [done|]. injection Hhead as <-.
  by apply Forall_cons_1 in Hl as [Hh _].
Qed.

(** The module compares the root with a SHA3 digest. *)
Lemma computed_sha3 proof : forall h index, exists x, computed_hash (sha3_256 h) proof index = sha3_256 x.
Proof. induction proof as [|e proof IH]; intros h index; simpl; [eauto|]. destruct (Nat.even index); auto. Qed.

Context (apart : forall x y, sha3_256 x <> bytes_of (keccak256 y)).

Lemma keccak_root_refused root h proof i :
  is_keccak root -> verify_merkle_proof proof (bytes_of root) (sha3_256 h) i = false.
Proof.
  intros [y ->]. unfold verify_merkle_proof. destruct (computed_sha3 proof h (Z.to_nat i)) as [x ->].
  apply String.eqb_neq, apart.
Qed.

(** Orders with a root of the page have no fill. *)
Definition unfilled (w : FWorld) : Prop := forall r base o root,
  registry w = Some r -> orders r !! base = Some o -> is_keccak root ->
  merkle_root_bytes o = bytes_of root -> filled_amount o = 0 /\ used_indices o = ∅.

(** What a step does to the orders: nothing, a new one, or a fill that was
    verified. *)
Lemma step_orders w w' r' base o :
  f_step w w' -> registry w' = Some r' -> orders r' !! base = Some o ->
  (exists r, registry w = Some r /\ orders r !! base = Some o) \/
  (filled_amount o = 0 /\ used_indices o = ∅) \/
  (exists proof h i, verify_merkle_proof proof (merkle_root_bytes o) (sha3_256 h) i = true).
Proof.
  intros (t & x & Hx) E Ho. unfold f_exec in Hx. destruct (forallb _ _); [|done].
  destruct (f_run t x w) as [|[u w1]] eqn:Hr; [done|]. injection Hx as ->.
  destruct x as [|a b d c total root n tl nonce expiry|a b i n h p sd|a k s]; simpl in Hr.
  - unfold init_module in Hr. destruct (registry w); [done|]. injection Hr as _ <-. simpl in E. simplify_eq.
  - unfold create_partial_fill_order in Hr. fmove_inv Hr. simpl in E. simplify_eq. simpl in Ho.
    apply lookup_insert_Some in Ho as [[_ <-]|[_ Ho]]; [right; left; done|eauto].
  - unfold create_partial_fill_escrow in Hr. fmove_inv Hr. simpl in E. simplify_eq. simpl in Ho.
    apply lookup_insert_Some in Ho as [[_ <-]|[_ Ho]]; [right; right; simpl; eauto|eauto].
  - unfold withdraw_fill in Hr. fmove_inv Hr. simpl in E. simplify_eq. simpl in Ho. eauto.
Qed.

Lemma reachable_unfilled w0 w : f_published w0 -> rtc f_step w0 w -> unfilled w.
Proof.
  intros [Hr0 _] Hs. assert (unfilled w0) as Hu by (intros r ? ? ? E; rewrite Hr0 in E; done).
  clear Hr0. induction Hs as [w|w1 w2 w3 Hstep _ IH]; [done|]. apply IH.
  intros r base o root Hr Ho Hk Hm.
  destruct (step_orders _ _ _ _ _ Hstep Hr Ho) as [(r1 & Hr1 & Ho1)|[?|(p & h & i & Hv)]]; [|done|].
  - by eapply Hu.
  - by rewrite Hm, keccak_root_refused in Hv.
Qed.

(** The page's secrets do not fit the module: the page builds its tree with
    Keccak over the secret hashes, the module checks a proof with SHA3 over the
    digest of the hash lock. As long as no SHA3 digest is a Keccak digest, an
    order with a root that [generateSecrets] made has no fill in any reachable
    world, and every attempt to create one aborts, whatever proof and hash lock
    are presented. *)
Theorem page_order_never_filled parts rootSecret nonces root w0 w r base o :
  merkleRoot (generateSecrets parts rootSecret nonces) = Some root ->
  f_published w0 -> rtc f_step w0 w -> registry w = Some r -> orders r !! base = Some o ->
  merkle_root_bytes o = bytes_of root ->
  filled_amount o = 0 /\ used_indices o = ∅ /\
  forall a i n hash proof sd, exists code, create_partial_fill_escrow a base i n hash proof sd w = inl code.
Proof.
  intros Hroot Hp Hs Hr Ho Hm. apply page_root_keccak in Hroot.
  destruct (reachable_unfilled _ _ Hp Hs _ _ _ _ Hr Ho Hroot Hm) as [Hf Hu]. split_and!; [done|done|].
  intros a i n hash proof sd.
  destruct (create_partial_fill_escrow a base i n hash proof sd w) as [code|[u w']] eqn:Hx; [by eexists|].
  exfalso. unfold create_partial_fill_escrow in Hx. fmove_inv Hx. simplify_eq.
  match goal with Hv : verify_merkle_proof _ _ _ _ = true |- _ =>
    by rewrite Hm, keccak_root_refused in Hv end.
Qed.
End Page.
End Guarantees.

(** ** Examples *)

Module FillExample.

(** Digests that carry the name of their function. *)
#[export] Instance named_hash : MoveHash := {|
  sha3_256 := fun s => "S" ++ s;
  bcs_u64 := fun z => String (Ascii.ascii_of_nat (Z.to_nat z)) ""
|}.

Definition named_ethers : Ethers := {|
  keccak256 := fun s => "K" ++ s; concat := fun l => List.fold_right String.append "" l;
  PartialFill.id := fun s => s; getBigInt := fun _ => JsString.Ok 0
|}.

Local Existing Instance named_ethers.

Definition f0 : FWorld :=
  {| registry := None; apt := {[ "0xresolver" := 100; "0xuser" := 5; "0xmaker" := 0 ]}; events := [] |}.

Lemma f0_published : f_published f0.
Proof.
  split; [done|]. intros a b Hl. unfold f0 in Hl. simpl in Hl.
  rewrite !lookup_insert_Some, lookup_singleton_Some in Hl. naive_solver lia.
Qed.

Definition go (t : Z) (x : FTx) (w : FWorld) : FWorld := default w (f_exec t x w).

(** One order for two fills, the first of them created and withdrawn. *)
Definition root2 : string := "SSSxe".
Definition f1 := go 1 FInit f0.
Definition f2 := go 2 (FOrder "0xresolver" "b" "0xuser" "0xmaker" 10 root2 2 100 1 50) f1.
Definition f3 := go 3 (FEscrow "0xresolver" "b" 0 4 "Sx" ["e"] 1) f2.

(** An order with a root of the page. *)
Definition page_root : string := default "" (merkleRoot (generateSecrets 1 "s" [])).
Definition g2 := go 2 (FOrder "0xresolver" "b" "0xuser" "0xmaker" 10 page_root 1 100 1 50) f1.

Lemma go_step t x w : (match f_exec t x w with Some _ => true | None => false end) = true -> f_step w (go t x w).
Proof. intros Hx. exists t, x. unfold go. by apply some_default. Qed.

Ltac runs_by d := unfold d; apply go_step; vm_compute; reflexivity.

Lemma f1_step : f_step f0 f1.
Proof. runs_by f1. Qed.

Lemma f2_step : f_step f1 f2.
Proof. runs_by f2. Qed.

Lemma f3_step : f_step f2 f3.
Proof. runs_by f3. Qed.

Lemma g2_step : f_step f1 g2.
Proof. runs_by g2. Qed.

Lemma f3_reached : rtc f_step f0 f3.
Proof.
  eapply rtc_l; [exact f1_step|]. eapply rtc_l; [exact f2_step|]. apply rtc_once. exact f3_step.
Qed.

Lemma g2_reached : rtc f_step f0 g2.
Proof. eapply rtc_l; [exact f1_step|]. apply rtc_once. exact g2_step. Qed.

Lemma fills_within_budget_witness :
  all_apt f3 = 105 /\ solid f3 /\ (match registry f3 with Some r => has "b" (orders r) | None => false end) = true.
Proof.
  destruct (fills_within_budget f0 f3 f0_published f3_reached) as (Ha & Hs & _).
  split; [rewrite Ha; vm_compute; reflexivity|]. split; [exact Hs|vm_compute; reflexivity].
Defined.

Lemma fills_not_funded_witness :
  exists w', withdraw_fill "0xresolver" (generate_escrow_id "b" 0) "x" f3 = inr (tt, w') /\
    balance w' "0xresolver" = 96.
Proof.
  destruct (fills_not_funded f0 f3 f0_published f3_reached) as [_ Hw].
  destruct (withdraw_fill "0xresolver" (generate_escrow_id "b" 0) "x" f3) as [c|[[] w']] eqn:E;
    [vm_compute in E; discriminate|].
  exists w'. split; [reflexivity|]. destruct (Hw _ _ _ _ E) as (r & e & Hr & He & Hb). rewrite Hb.
  vm_compute in Hr. injection Hr as <-. vm_compute in He. injection He as <-. vm_compute. reflexivity.
Defined.

Lemma page_order_never_filled_witness :
  exists r o, registry g2 = Some r /\ orders r !! "b" = Some o /\ filled_amount o = 0.
Proof.
  destruct (registry g2) as [r|] eqn:Hr; [|vm_compute in Hr; discriminate].
  destruct (orders r !! "b") as [o|] eqn:Ho;
    [|vm_compute in Hr; injection Hr as <-; vm_compute in Ho; discriminate].
  exists r, o. split; [reflexivity|]. split; [exact Ho|].
  refine (proj1 (page_order_never_filled (fun s => s) _ 1 "s" [] page_root f0 g2 r "b" o _ f0_published
                   g2_reached Hr Ho _)).
  - intros x y. simpl. discriminate.
  - reflexivity.
  - vm_compute in Hr. injection Hr as <-. vm_compute in Ho. injection Ho as <-. reflexivity.
Defined.
End FillExample.
