(* ===== verification/PermitContract.v ===== *)
(** * The permit contract

    [FusionPlusPermit.sol]: a transfer on behalf of an owner who signed a permit
    for the caller, with a nonce per owner. Its theorems cover every trace of
    the contract, and the permit of an order from the page through the
    resolver's check and call to the transfer. *)

From Stdlib Require Import ZArith Lia Ascii.
From stdpp Require Import base numbers list strings gmap countable.
From S2P Require Import Prelude.
From S2P Require Import JsNumber.
From S2P Require Import JsString.
From S2P Require Import JsFormat.
From S2P Require Import OrderTypes.
From S2P Require Import Signature.
From S2P Require Import Async.
From S2P Require Import Chain.
From S2P Require Import TokenServices.
From S2P Require Import ChainService.
From S2P Require Import Evm.
From S2P Require Import GaslessEscrow.
From S2P Require Import GaslessSafety.

Local Open Scope string_scope.
Local Open Scope Z_scope.
Local Open Scope evm_scope.

(** ** Storage and arguments *)

Record PermitStore := {
  p_nonces : gmap address Z;
  usedPermits : gset bytes32
}.

Definition p_nonce (owner : address) (c : PermitStore) : Z := default 0 (p_nonces c !! owner).

Record PermitCall := {
  pc_owner : address;
  pc_spender : address;
  pc_value : Z;
  pc_deadline : Z;
  pc_sig : Z * bytes32 * bytes32;
  pc_token : address;
  pc_to : address
}.

(** [_hashTypedDataV4] of a struct. *)
Class TypedHash := {
  hashTypedData : Domain -> FieldTypes -> Signature.Message -> bytes32
}.

Definition PERMIT_TYPEHASH : FieldTypes :=
  ("Permit",
   [("owner", "address"); ("spender", "address"); ("value", "uint256");
    ("nonce", "uint256"); ("deadline", "uint256")]).

Definition permit_struct (owner spender : address) (value nonce deadline : Z) : Signature.Message :=
  [("owner", VString owner); ("spender", VString spender); ("value", VString (toString value));
   ("nonce", VString (toString nonce)); ("deadline", VString (toString deadline))].

(** ** The contract *)

Section Contract.
Context `{Solidity, TypedHash} {T : Type} `{ERC20 T}.
Context (self : address) (chainId : Z) (accepts : address -> bool).
Local Abbreviation call := (evm (T := T) (C := PermitStore)).

(** [EIP712("Fusion+ Cross-Chain Swap", "1")] *)
Definition permit_own_domain : Domain :=
  {| domain_name := "Fusion+ Cross-Chain Swap"; domain_version := "1"; domain_chainId := chainId;
     domain_contract := Some self |}.

Definition call_struct (c : PermitCall) (nonce : Z) : Signature.Message :=
  permit_struct (pc_owner c) (pc_spender c) (pc_value c) nonce (pc_deadline c).

Definition call_hash (c : PermitCall) (nonce : Z) : bytes32 :=
  hashTypedData permit_own_domain PERMIT_TYPEHASH (call_struct c nonce).

Definition recovered (c : PermitCall) (nonce : Z) : option address :=
  recoverTyped permit_own_domain PERMIT_TYPEHASH (call_struct c nonce)
    (pc_sig c).1.1 (pc_sig c).1.2 (pc_sig c).2.

Definition use_permit (owner : address) (nonce : Z) (hash : bytes32) (c : PermitStore) : PermitStore :=
  {| p_nonces := <[owner := nonce]> (p_nonces c); usedPermits := {[ hash ]} ∪ usedPermits c |}.

(** Ether from the contract's own balance, or tokens of the owner. *)
Definition execute_transfer (c : PermitCall) : call unit :=
  if String.eqb (pc_token c) ZeroAddress then
    (fun w => revert_if (ethOf self w <? pc_value c) "InsufficientBalance" w),,
    send_eth self accepts (pc_to c) (pc_value c)
  else
    ok <-- on_ledger (transferFrom (pc_token c) self (pc_owner c) (pc_to c) (pc_value c));
    require ok "SafeERC20FailedOperation".

Definition transferWithPermit (m : Msg) (c : PermitCall) : call unit :=
  nonpayable m,,
  revert_if (pc_deadline c <? timestamp m) "PermitExpired",,
  require (String.eqb (pc_spender c) (sender m)) "Spender must be msg.sender",,
  st <-- load;
  let currentNonce := p_nonce (pc_owner c) st in
  let hash := call_hash c currentNonce in
  revert_if (bool_decide (hash ∈ usedPermits st)) "PermitAlreadyUsed",,
  require (bool_decide (is_Some (recovered c currentNonce))) "ECDSAInvalidSignature",,
  revert_if (negb (bool_decide (recovered c currentNonce = Some (pc_owner c)))) "InvalidSignature",,
  n <-- uint256 (currentNonce + 1);
  save (use_permit (pc_owner c) n hash st),,
  emit (PermitUsed (pc_owner c) (pc_spender c) (pc_value c) currentNonce),,
  execute_transfer c,,
  emit (TransferWithPermit (pc_owner c) (pc_to c) (pc_token c) (pc_value c)).

Definition permit_getNonce (owner : address) (c : PermitStore) : Z := p_nonce owner c.

Definition isPermitUsed (owner spender : address) (value nonce deadline : Z) (c : PermitStore) : bool :=
  bool_decide (hashTypedData permit_own_domain PERMIT_TYPEHASH
                 (permit_struct owner spender value nonce deadline) ∈ usedPermits c).

(** [receive()] *)
Definition receive_ether (m : Msg) : call unit := payable self m.

(** ** Traces *)

(** A successful transaction: a payment to the contract, or a permit. *)
Inductive PermitTx := Receive (m : Msg) | Spend (m : Msg) (c : PermitCall).

Definition permit_run (x : PermitTx) : call unit :=
  match x with Receive m => receive_ether m | Spend m c => transferWithPermit m c end.

Inductive permit_trace (w0 : Evm T PermitStore) : list PermitTx -> Evm T PermitStore -> Prop :=
  | permit_start : permit_trace w0 [] w0
  | permit_more l w x w' :
      permit_trace w0 l w -> permit_run x w = Success (tt, w') -> permit_trace w0 (l ++ [x]) w'.

(** The permits of an owner in a trace. *)
Definition spent_by (owner : address) (x : PermitTx) : option PermitCall :=
  match x with
  | Spend _ c => if String.eqb (pc_owner c) owner then Some c else None
  | Receive _ => None
  end.

Definition permits_of (owner : address) (l : list PermitTx) : list PermitCall := omap (spent_by owner) l.

Definition spent_count (owner : address) (l : list PermitTx) : Z := Z.of_nat (length (permits_of owner l)).

Lemma permits_snoc owner l x :
  permits_of owner (l ++ [x])%list = (permits_of owner l ++ omap (spent_by owner) [x])%list.
Proof. unfold permits_of. by rewrite omap_app. Qed.

Lemma execute_transfer_keeps c w u w' : execute_transfer c w = Success (u, w') -> storage w' = storage w.
Proof.
  unfold execute_transfer. destruct (String.eqb _ _); intros Hx.
  - apply ebind_success in Hx as (a & w1 & Hc & Hs). unfold revert_if in Hc.
    apply require_success in Hc as [_ ->]. by apply send_eth_success in Hs as (_ & -> & _).
  - apply ebind_success in Hx as (a & w1 & Hc & Hs). apply on_ledger_success in Hc as (<- & _).
    apply require_success in Hs as [_ ->]. done.
Qed.

(** What a successful call checked and stored. *)
Lemma transferWithPermit_success m c w u w' :
  transferWithPermit m c w = Success (u, w') ->
  let n := p_nonce (pc_owner c) (storage w) in
  timestamp m <= pc_deadline c /\ pc_spender c = sender m /\
  recovered c n = Some (pc_owner c) /\ (call_hash c n ∉ usedPermits (storage w)) /\
  storage w' = use_permit (pc_owner c) (n + 1) (call_hash c n) (storage w).
Proof.
  intros Hx. unfold transferWithPermit in Hx. evm_inv Hx.
  match goal with Ht : execute_transfer c _ = Success _ |- _ => apply execute_transfer_keeps in Ht end.
  zbool. rewrite bool_decide_eq_false in *. rewrite negb_false_iff, bool_decide_eq_true in *.
  match goal with Hs : String.eqb _ _ = true |- _ => apply String.eqb_eq in Hs end.
  split_and!; done.
Qed.

(** Where the contract starts. *)
Definition permit_deployed (w : Evm T PermitStore) : Prop :=
  p_nonces (storage w) = ∅ /\ usedPermits (storage w) = ∅.

Lemma p_nonce_use owner o n h c :
  p_nonce owner (use_permit o n h c) = if String.eqb o owner then n else p_nonce owner c.
Proof.
  unfold p_nonce, use_permit. simpl. destruct (String.eqb_spec o owner) as [->|Hne].
  - by rewrite lookup_insert_eq.
  - by rewrite lookup_insert_ne.
Qed.

Lemma spent_count_snoc owner l x :
  spent_count owner (l ++ [x])%list =
  spent_count owner l + match spent_by owner x with Some _ => 1 | None => 0 end.
Proof.
  unfold spent_count. rewrite permits_snoc, length_app. simpl.
  destruct (spent_by owner x); simpl; lia.
Qed.

(** What a trace has checked: the nonce of an owner counts his permits, each of
    them was signed with the count at its time, and the used hashes are those of
    earlier nonces. *)
Record permit_ledger (l : list PermitTx) (c : PermitStore) : Prop := {
  pl_nonce : forall owner, p_nonce owner c = spent_count owner l;
  pl_signed : forall i m p, l !! i = Some (Spend m p) ->
    recovered p (spent_count (pc_owner p) (take i l)) = Some (pc_owner p) /\
    pc_spender p = sender m /\ timestamp m <= pc_deadline p;
  pl_used : forall h, h ∈ usedPermits c ->
    exists p n, n < spent_count (pc_owner p) l /\ h = call_hash p n
}.

Lemma signed_snoc l x :
  (forall i m p, l !! i = Some (Spend m p) ->
     recovered p (spent_count (pc_owner p) (take i l)) = Some (pc_owner p) /\
     pc_spender p = sender m /\ timestamp m <= pc_deadline p) ->
  (forall m p, x = Spend m p -> recovered p (spent_count (pc_owner p) l) = Some (pc_owner p) /\
     pc_spender p = sender m /\ timestamp m <= pc_deadline p) ->
  forall i m p, (l ++ [x])%list !! i = Some (Spend m p) ->
    recovered p (spent_count (pc_owner p) (take i (l ++ [x])%list)) = Some (pc_owner p) /\
    pc_spender p = sender m /\ timestamp m <= pc_deadline p.
Proof.
  intros Hl Hx i m p Hi. apply lookup_snoc_Some in Hi as [[Hlt Hi]|[-> ->]].
  - rewrite take_app_le by lia. by eapply Hl.
  - rewrite take_app_length. by apply Hx.
Qed.

Lemma trace_ledger w0 l w : permit_deployed w0 -> permit_trace w0 l w -> permit_ledger l (storage w).
Proof.
  intros [Hn Hu]. induction 1 as [|l w x w' _ [IHn IHs IHu] Hx].
  - split.
    + intros owner. unfold p_nonce. by rewrite Hn.
    + intros i m p Hi. by rewrite lookup_nil in Hi.
    + intros h. rewrite Hu. set_solver.
  - destruct x as [m|m c]; simpl in Hx.
    + apply payable_success in Hx as (_ & E & _). rewrite E. split.
      * intros owner. rewrite spent_count_snoc. simpl. rewrite IHn. lia.
      * apply signed_snoc; [done|]. by intros ? ? [=].
      * intros h Hh. destruct (IHu h Hh) as (p & n & Hlt & ->). exists p, n.
        rewrite spent_count_snoc. simpl. split; [lia|done].
    + apply transferWithPermit_success in Hx as (Ht & Hs & Hr & Hfresh & E). rewrite E. split.
      * intros owner. rewrite p_nonce_use, spent_count_snoc. simpl.
        destruct (String.eqb_spec (pc_owner c) owner) as [<-|]; rewrite IHn; lia.
      * apply signed_snoc; [done|]. intros ? ? [= <- <-]. by rewrite <- IHn.
      * intros h. unfold use_permit. simpl. rewrite elem_of_union, elem_of_singleton.
        intros [->|Hh].
        -- exists c, (p_nonce (pc_owner c) (storage w)). split; [|done].
           rewrite spent_count_snoc, IHn. simpl. rewrite String.eqb_refl. lia.
        -- destruct (IHu h Hh) as (p & n & Hlt & ->). exists p, n. split; [|done].
           rewrite spent_count_snoc. destruct (spent_by _ _); lia.
Qed.
End Contract.

(** ** What the outside promises *)

(** The hash of a permit tells its owner and its nonce. *)
Class TypedHashLaws `{TypedHash} := {
  hash_tells : forall d o sp v n t o' sp' v' n' t',
    hashTypedData d PERMIT_TYPEHASH (permit_struct o sp v n t) =
    hashTypedData d PERMIT_TYPEHASH (permit_struct o' sp' v' n' t') -> o = o' /\ n = n'
}.

(** ethers and the contract recover the same signer, an address in the one
    spelling (of its checksum) that its lower-case form has. *)
Class SameSigner `{Signing, Solidity, SignatureParts} (canonical : address -> Prop) := {
  verify_recovers : forall d ty m sig v r s a, signature_from sig = Ok (v, r, s) ->
    verifyTypedData d ty m sig = Ok a -> recoverTyped d ty m v r s = Some a;
  recover_canonical : forall d ty m v r s a, recoverTyped d ty m v r s = Some a -> canonical a;
  canonical_unique : forall a b, canonical a -> canonical b -> toLowerCase a = toLowerCase b -> a = b
}.

(** A [transferFrom] by [self] of what was allowed to it moves exactly its
    amount, whoever receives it. *)
Class SpenderLaws {T : Type} `{ERC20 T} (self : address) (good : address -> bool) := {
  spend_works : forall t from to n L, good t = true -> 0 <= n <= balanceOf L t from ->
    n <= allowance L t from self ->
    exists L', transferFrom t self from to n L = Some (true, L') /\
      forall a, balanceOf L' t a = balanceOf L t a + moved from to a n
}.

(** A [uint256] given as a number. *)
Definition abi_number (x : number) : option Z :=
  match x with
  | Finite z => if (z mod scale =? 0) && (0 <=? z) then Some (z / scale) else None
  | _ => None
  end.

(** The call data of [transferWithPermit] from the resolver's arguments. *)
Definition transfer_call (args : list Arg) : option PermitCall :=
  match args with
  | [AString o; AString sp; AString v; ANumber d; AInt sv; AString r; AString s; AString t; AString to] =>
      v ← abi_uint v; d ← abi_number d;
      Some {| pc_owner := o; pc_spender := sp; pc_value := v; pc_deadline := d; pc_sig := (sv, r, s);
              pc_token := t; pc_to := to |}
  | _ => None
  end.

Lemma abi_number_of_Z (z : Z) : 0 <= z <= 2 ^ 53 -> abi_number (of_Z z) = Some z.
Proof.
  intros Hz. pose proof scale_pos. rewrite of_Z_small by (unfold small; lia). unfold abi_number.
  rewrite Z.mod_mul, Z.div_mul by lia. simpl. by rewrite (proj2 (Z.leb_le 0 _)) by nia.
Qed.

(** ** Properties *)

Section Guarantees.
Context `{Solidity, !SolidityLaws, TypedHash, !TypedHashLaws} {T : Type} `{ERC20 T}.
Context (self : address) (chainId : Z) (accepts : address -> bool).
Implicit Types (w : Evm T PermitStore).

Lemma current_nonce_fresh w0 l w o sp v d :
  permit_deployed w0 -> permit_trace self chainId accepts w0 l w ->
  hashTypedData (permit_own_domain self chainId) PERMIT_TYPEHASH
    (permit_struct o sp v (p_nonce o (storage w)) d) ∉ usedPermits (storage w).
Proof.
  intros Hd Ht Hin. destruct (trace_ledger _ _ _ _ _ _ Hd Ht) as [Hn _ Hu].
  destruct (Hu _ Hin) as (p & n & Hlt & E). apply hash_tells in E as [-> <-]. rewrite Hn in Hlt. lia.
Qed.

(** A permit that is due goes through if its transfer does. *)
Lemma permit_works w0 l m c w w1 :
  permit_deployed w0 -> permit_trace self chainId accepts w0 l w ->
  let n := p_nonce (pc_owner c) (storage w) in
  value m = 0 -> timestamp m <= pc_deadline c -> pc_spender c = sender m ->
  recovered self chainId c n = Some (pc_owner c) -> n < 2 ^ 256 - 1 ->
  execute_transfer self accepts c
    {| storage := use_permit (pc_owner c) (n + 1) (call_hash self chainId c n) (storage w);
       eth := eth w; ledger := ledger w;
       logs := (logs w ++ [PermitUsed (pc_owner c) (pc_spender c) (pc_value c) n])%list |}
    = Success (tt, w1) ->
  exists w', transferWithPermit self chainId accepts m c w = Success (tt, w') /\
    storage w' = storage w1 /\ eth w' = eth w1 /\ ledger w' = ledger w1.
Proof.
  intros Hd Htr n Hv Ht Hs Hr Hn He.
  assert (0 <= n) as Hn0.
  { unfold n. rewrite (pl_nonce _ _ _ _ (trace_ledger _ _ _ _ _ _ Hd Htr)). unfold spent_count. lia. }
  eexists. split.
  - unfold transferWithPermit. unfold ebind at 1, nonpayable. rewrite Hv. simpl.
    unfold ebind at 1. rewrite (proj2 (Z.ltb_ge _ _) Ht). simpl.
    unfold ebind at 1. rewrite Hs, String.eqb_refl. simpl.
    unfold ebind at 1. cbn [load]. fold n.
    unfold ebind at 1. rewrite (bool_decide_eq_false_2 (call_hash self chainId c n ∈ _))
      by (by eapply current_nonce_fresh). simpl.
    unfold ebind at 1. rewrite Hr. rewrite !bool_decide_eq_true_2 by done. simpl.
    unfold ebind at 1, uint256. rewrite (proj2 (Z.leb_le 0 _)), (proj2 (Z.ltb_lt _ (2 ^ 256))) by lia.
    simpl. unfold ebind. simpl. rewrite <- Hs, He. reflexivity.
  - done.
Qed.

(** Permits are spent in order and once: in any trace of the deployed
    contract the nonce of an owner is the number of his permits that were
    executed, and each of them carried his signature on exactly that count at
    its time, for the account that sent the transaction, not after its deadline;
    the permit with the current nonce is never among those marked as used, so
    that check of the contract cannot refuse a permit the nonce admits. *)
Theorem permits_in_order w0 l w :
  permit_deployed w0 -> permit_trace self chainId accepts w0 l w ->
  (forall owner, permit_getNonce owner (storage w) = spent_count owner l) /\
  (forall i m p, l !! i = Some (Spend m p) ->
     recovered self chainId p (spent_count (pc_owner p) (take i l)) = Some (pc_owner p) /\
     pc_spender p = sender m /\ timestamp m <= pc_deadline p) /\
  (forall owner spender value deadline,
     isPermitUsed self chainId owner spender value (permit_getNonce owner (storage w)) deadline
       (storage w) = false).
Proof.
  intros Hd Ht. destruct (trace_ledger _ _ _ _ _ _ Hd Ht) as [Hn Hs _]. split_and!; [done|done|].
  intros o sp v d. apply bool_decide_eq_false_2. by eapply current_nonce_fresh.
Qed.

(** The ether of the contract belongs to everybody: with a permit that he
    signs for himself, any account takes as much of it as he likes, in every
    reachable state. *)
Theorem permit_takes_ether w0 l w thief amount d sig t :
  permit_deployed w0 -> permit_trace self chainId accepts w0 l w ->
  let c := {| pc_owner := thief; pc_spender := thief; pc_value := amount; pc_deadline := d;
              pc_sig := sig; pc_token := ZeroAddress; pc_to := thief |} in
  let n := permit_getNonce thief (storage w) in
  recovered self chainId c n = Some thief -> n < 2 ^ 256 - 1 -> t <= d ->
  0 <= amount <= ethOf self w -> accepts thief = true -> thief <> self ->
  exists w', transferWithPermit self chainId accepts {| sender := thief; value := 0; timestamp := t |} c w
               = Success (tt, w') /\
    ethOf thief w' = ethOf thief w + amount /\ ethOf self w' = ethOf self w - amount.
Proof.
  intros Hd Htr c n Hr Hn Ht Ha Hacc Hne.
  edestruct (permit_works w0 l {| sender := thief; value := 0; timestamp := t |} c w)
    as (w' & Hw' & _ & E & _); [done..| |].
  - unfold execute_transfer, send_eth, ebind, revert_if, require. simpl. unfold ethOf in *. simpl.
    rewrite (proj2 (Z.ltb_ge _ _)) by lia. simpl. unfold ethOf. simpl.
    rewrite (proj2 (Z.leb_le _ _)), Hacc by lia. reflexivity.
  - exists w'. split; [done|]. unfold ethOf. rewrite E. simpl. rewrite !move_eth_spec. unfold moved.
    repeat case_decide; try congruence; lia.
Qed.

Section Order.
Context `{Ethers, Signing, SignatureParts} (canonical : address -> Prop) `{!SameSigner canonical}.
Context (good : address -> bool) `{!SpenderLaws self good}.

(** C29. The permit of an order pays: a permit that the resolver's [verifyPermit]
    accepts, made out to the resolver with the contract's current nonce, submitted
    with the arguments of [executePermitTransfer] before its deadline, goes
    through in every reachable state in which the owner has the amount and
    approved it to the contract; the amount moves from the owner to the
    recipient, nothing else moves, and the permit's nonce is used up. *)
Theorem order_permit_settles (p : Permit) (sigText token to : string) amount d v r s m w0 l w :
  let owner := permit_owner p in
  permit_deployed w0 -> permit_trace self chainId accepts w0 l w ->
  PermitService.verifyPermit self p sigText chainId = true -> canonical owner ->
  signature_from sigText = Ok (v, r, s) ->
  permit_value p = toString amount -> permit_deadline p = of_Z d -> 0 <= d <= 2 ^ 53 ->
  permit_nonce p = toString (permit_getNonce owner (storage w)) ->
  permit_getNonce owner (storage w) < 2 ^ 256 - 1 ->
  value m = 0 -> sender m = permit_spender p -> timestamp m <= d ->
  good token = true -> token <> ZeroAddress ->
  0 <= amount <= balanceOf (ledger w) token owner -> amount <= allowance (ledger w) token owner self ->
  exists c w',
    transfer_call (permit_call p (v, r, s) ++ [AString token; AString to])%list = Some c /\
    transferWithPermit self chainId accepts m c w = Success (tt, w') /\
    (forall a, balanceOf (ledger w') token a = balanceOf (ledger w) token a + moved owner to a amount) /\
    permit_getNonce owner (storage w') = permit_getNonce owner (storage w) + 1.
Proof.
  intros owner Hd Htr Hver Hcan Hsig Hval Hdl Hdr Hnon Hn Hv0 Hsnd Hts Hg Hz Hbal Hall.
  unfold PermitService.verifyPermit in Hver.
  destruct (verifyTypedData _ _ _ _) as [a|] eqn:Hr; [|done]. apply String.eqb_eq in Hver.
  pose proof (verify_recovers _ _ _ _ _ _ _ _ Hsig Hr) as Hrec.
  assert (a = owner) as -> by (eapply canonical_unique; [by eapply recover_canonical|done|done]).
  set (c := {| pc_owner := owner; pc_spender := permit_spender p; pc_value := amount; pc_deadline := d;
               pc_sig := (v, r, s); pc_token := token; pc_to := to |}).
  assert (recovered self chainId c (p_nonce owner (storage w)) = Some owner) as Hrec'.
  { rewrite <- Hrec. unfold recovered, c. cbn [pc_sig fst snd]. apply recover_values.
    unfold call_struct, permit_struct, PermitService.permit_message. simpl.
    rewrite Hval, Hdl, Hnon. repeat constructor; simpl; try constructor; lia. }
  destruct (spend_works token owner to amount (ledger w) Hg Hbal Hall) as (L' & HL & Hm).
  edestruct (permit_works w0 l m c w) as (w' & Hw' & S' & _ & L''); [done..| |].
  - unfold execute_transfer. simpl. rewrite (proj2 (String.eqb_neq _ _) Hz).
    unfold ebind, on_ledger. simpl. rewrite HL. reflexivity.
  - exists c, w'. split_and!; [|done| |].
    + unfold transfer_call, permit_call. simpl. rewrite Hval, Hdl, abi_uint_toString, abi_number_of_Z by done.
      reflexivity.
    + intros a. rewrite L''. apply Hm.
    + unfold permit_getNonce. rewrite S'. simpl. rewrite p_nonce_use, String.eqb_refl. done.
Qed.
End Order.
End Guarantees.

(** ** Examples *)

Module PermitExample.
Import GaslessExample.

(** A hash that prints the fields of the struct. *)
Definition field_text (v : SolValue) : string := match v with VString s => s | _ => "" end.

Fixpoint bits (p : positive) : string :=
  match p with
  | xI q => String "1"%char (bits q)
  | xO q => String "0"%char (bits q)
  | xH => ""
  end.

Lemma bits_inj p q : bits p = bits q -> p = q.
Proof.
  revert q. induction p as [p IH|p IH|]; intros [q|q|]; simpl; intros E; try done;
    injection E as E; f_equal; by apply IH.
Qed.

#[export] Instance printed_hash : TypedHash := {|
  hashTypedData := fun _ _ m => bits (encode (field_text <$> m.*2))
|}.

#[export] Instance printed_hash_laws : TypedHashLaws.
Proof.
  split. intros d o sp v n t o' sp' v' n' t' E. simpl in E.
  apply bits_inj in E. apply (inj encode) in E. injection E as -> _ _ En _.
  split; [done|]. apply (f_equal BigInt) in En. rewrite !BigInt_toString in En. by injection En.
Qed.

(** Signatures that name their signer, whatever the case they are written in. *)
Definition signer_of (r : string) : option address :=
  let a := toLowerCase r in if String.eqb a ZeroAddress then None else Some a.

Definition lower_signer : Solidity :=
  {| recoverTyped := fun _ _ _ _ r _ => signer_of r; fillEscrowId := fun base _ => base |}.
Definition lower_signing : Signing :=
  {| verifyTypedData := fun _ _ _ sig => match signer_of sig with
                                         | Some a => Ok a
                                         | None => Throw (Error "invalid signature")
                                         end;
     abi_encode := fun _ _ => Throw (Error "unused") |}.
Definition whole_parts : SignatureParts := {| signature_from := fun sig => Ok (27, sig, sig) |}.

Local Existing Instances lower_signer lower_signing whole_parts.

Lemma toLowerCase_idem (s : string) : toLowerCase (toLowerCase s) = toLowerCase s.
Proof.
  unfold toLowerCase. induction s as [|c s IH]; [done|]. cbn [map_string]. rewrite IH. f_equal.
  destruct c as [[] [] [] [] [] [] [] []]; reflexivity.
Qed.

Lemma lower_signer_laws : SolidityLaws.
Proof.
  split; [|done]. intros d ty m v r s a. simpl. unfold signer_of.
  destruct (String.eqb_spec (toLowerCase r) ZeroAddress); [done|]. by intros [= <-].
Qed.

Definition lower (a : address) : Prop := toLowerCase a = a.

Lemma lower_same_signer : SameSigner lower.
Proof.
  split.
  - intros d ty m sig v r s a [= <- <- <-]. simpl. by destruct (signer_of sig); [intros [= ->]|].
  - intros d ty m v r s a. simpl. unfold signer_of. destruct (String.eqb _ _); [done|].
    intros [= <-]. apply toLowerCase_idem.
  - unfold lower. intros a b <- <-. by rewrite !toLowerCase_idem.
Qed.

Lemma plain_spender_laws (self : address) : SpenderLaws (T := Plain) self (fun _ => true).
Proof.
  split. intros t from to n L _ Hn Ha. unfold tokens, plain_token in *. simpl in *.
  unfold pl_transferFrom.
  assert (forall L0, pl_balance L0 = pl_balance L ->
    exists L', pl_move t from to n L0 = Some (true, L') /\
      forall a, pl_of L' t a = pl_of L t a + moved from to a n) as Hmove.
  { intros L0 E. destruct (pl_move t from to n L0) as [[b L']|] eqn:HL.
    - pose proof (pl_move_spec _ _ _ _ _ _ _ HL) as (-> & _ & Hm). exists L'. split; [done|].
      intros a. rewrite Hm, decide_True by done. unfold pl_of. by rewrite E.
    - unfold pl_move in HL. unfold pl_of in *. rewrite E in HL.
      by rewrite (proj2 (Z.leb_le _ _)), (proj2 (Z.leb_le _ _)) in HL by lia. }
  destruct (true && bool_decide (from = self)); [by apply Hmove|].
  rewrite (proj2 (Z.leb_le _ _) Ha). by apply Hmove.
Qed.

Local Existing Instances lower_signer_laws lower_same_signer plain_spender_laws.

(** The maker has 10 units and approved the contract, which holds some ether. *)
Definition p0 : Evm Plain PermitStore :=
  {| storage := {| p_nonces := ∅; usedPermits := ∅ |}; eth := {[ "0xpermit" := 9 ]}; logs := [];
     ledger := {| pl_balance := {[ (WETH, "0xmaker") := 10%N ]};
                  pl_allowance := {[ (WETH, "0xmaker", "0xpermit") := 10 ]} |} |}.

Definition maker_permit : Permit :=
  {| permit_owner := "0xmaker"; permit_spender := "0xresolver"; permit_value := "4";
     permit_nonce := "0"; permit_deadline := of_Z 100 |}.

Definition maker_call : PermitCall :=
  {| pc_owner := "0xmaker"; pc_spender := "0xresolver"; pc_value := 4; pc_deadline := 100;
     pc_sig := (27, "0xMaker", "0xMaker"); pc_token := WETH; pc_to := "0xresolver" |}.

Definition maker_msg : Msg := {| sender := "0xresolver"; value := 0; timestamp := 50 |}.

Lemma p0_deployed : permit_deployed p0.
Proof. done. Qed.

Lemma order_permit_settles_witness :
  exists c w', transfer_call (permit_call maker_permit (27, "0xMaker", "0xMaker") ++
                 [AString WETH; AString "0xresolver"])%list = Some c /\
    transferWithPermit "0xpermit" 11155111 (fun _ => true) maker_msg c p0
      = Success (tt, w').
Proof.
  destruct (order_permit_settles "0xpermit" 11155111 (fun _ => true) lower
              (fun _ => true) maker_permit "0xMaker" WETH "0xresolver" 4 100 27 "0xMaker" "0xMaker"
              maker_msg p0 [] p0) as (c & w' & Hc & Hw & _);
    [exact p0_deployed|constructor|vm_compute; reflexivity|vm_compute; reflexivity|reflexivity
    |vm_compute; reflexivity|reflexivity|lia|vm_compute; reflexivity|vm_compute; reflexivity
    |reflexivity|reflexivity|simpl; lia|reflexivity|discriminate
    |vm_compute; split; discriminate|vm_compute; discriminate|].
  exists c, w'. split; [exact Hc|exact Hw].
Defined.

Lemma maker_spends :
  exists w, permit_trace "0xpermit" 11155111 (fun _ => true) p0 [Spend maker_msg maker_call] w.
Proof.
  edestruct (permit_works "0xpermit" 11155111 (fun _ => true) p0 [] maker_msg maker_call p0)
    as (w & Hw & _);
    [exact p0_deployed|constructor|reflexivity|simpl; lia|reflexivity|reflexivity|reflexivity
    |reflexivity|].
  exists w. by apply (permit_more _ _ _ p0 [] p0); [constructor|].
Qed.

Lemma permits_in_order_witness :
  exists w, permit_getNonce "0xmaker" (storage (T := Plain) w) = 1 /\
    pc_spender maker_call = sender maker_msg.
Proof.
  destruct maker_spends as [w Ht]. exists w.
  destruct (permits_in_order "0xpermit" 11155111 (fun _ => true) p0 [Spend maker_msg maker_call] w
              p0_deployed Ht) as (Hn & Hs & _).
  split; [rewrite Hn; reflexivity|]. exact (proj1 (proj2 (Hs 0%nat maker_msg maker_call eq_refl))).
Defined.

Lemma permit_takes_ether_witness :
  exists w', ethOf "0xthief" w' = 9 /\ ethOf (T := Plain) (C := PermitStore) "0xpermit" w' = 0.
Proof.
  destruct (permit_takes_ether "0xpermit" 11155111 (fun _ => true) p0 [] p0 "0xthief" 9 100
              (27, "0xthief", "0xthief") 50) as (w' & _ & H1 & H2);
    [exact p0_deployed|constructor|reflexivity|vm_compute; reflexivity|lia
    |vm_compute; split; discriminate|reflexivity|discriminate|].
  exists w'. split; [rewrite H1|rewrite H2]; vm_compute; reflexivity.
Defined.
End PermitExample.
