(* ===== verification/AtomicSwap.v ===== *)
(** * A swap over two chains

    A swap is one escrow on each chain under one hash lock. Against the
    interface of [Htlc]: the secret that closes one escrow closes the other, so
    who was paid on one chain cannot keep the other party from being paid on the
    other. The Ethereum contract and the Aptos module meet the condition in one
    direction only, since the module takes any 32 bytes; what the other
    direction permits is proved as well. *)

From Stdlib Require Import ZArith Lia.
From stdpp Require Import base numbers list strings gmap.
From S2P Require Import Prelude.
From S2P Require Import PartialFill.
From S2P Require Import Htlc.
From S2P Require Import Evm.
From S2P Require Import SolEscrow.
From S2P Require Import GaslessEscrow.
From S2P Require Import MoveEscrow.
From S2P Require Import GaslessSafety.

Local Open Scope string_scope.
Local Open Scope Z_scope.

(** ** Two chains *)

Section Swap.
Context {WA CA WB CB : Type}.
Context `{HA : HtlcChain WA CA, !HtlcLaws WA CA, HB : HtlcChain WB CB, !HtlcLaws WB CB}.

(** The escrow [k] of [w] is paid: claimed already, or anybody with the secret
    can claim it now. *)
Definition paid_or_payable (t : Z) (w : WB) (k : string) (lk : Lock) (secret : string) : Prop :=
  hc_cell w k = Some (Claimed lk) \/
  (hc_cell w k = Some (Open lk) /\
   forall who, hc_asset_ok (HtlcChain := HB) (lk_asset lk) = true ->
     hc_accepts (HtlcChain := HB) (lk_beneficiary lk) = true ->
     hc_accepts (HtlcChain := HB) who = true ->
     exists w', hc_exec t (hc_claim who k secret) w = Some w' /\
       hc_cell w' k = Some (Claimed lk) /\
       hc_balance w (lk_asset lk) (lk_beneficiary lk) + lk_amount lk <=
       hc_balance w' (lk_asset lk) (lk_beneficiary lk)).

(** An escrow of [A] that was claimed discloses a secret that pays the escrow of
    [B], as long as the time lock of the latter has not passed. *)
Lemma claim_pays_other (conv : string -> string) ta (a a' : WA) la tb (b b' : WB) lb T ka kb lka lkb :
  hc_ready a -> hc_ready b -> hc_cell a ka = Some (Open lka) -> hc_cell b kb = Some (Open lkb) ->
  (forall s, hc_unlocks (HtlcChain := HA) (lk_hashlock lka) s = true ->
     hc_unlocks (HtlcChain := HB) (lk_hashlock lkb) (conv s) = true) ->
  history ta a la T a' -> history tb b lb T b' ->
  hc_cell a' ka = Some (Claimed lka) -> T < lk_timelock lkb ->
  exists secret, disclosed ka secret la /\
    hc_unlocks (HtlcChain := HA) (lk_hashlock lka) secret = true /\
    paid_or_payable T b' kb lkb (conv secret).
Proof.
  intros Hra Hrb Ha Hb Hconv Hha Hhb Hcl Ht.
  destruct (open_fate _ _ _ _ _ _ _ Hha Hra Ha) as [E|[(_ & s & Hd & Hu)|[E _]]]; [congruence| |congruence].
  exists s. split_and!; [done|done|]. pose proof (history_ready _ _ _ _ _ Hrb Hhb) as Hrb'.
  destruct (open_fate _ _ _ _ _ _ _ Hhb Hrb Hb) as [Ho|[[Hc _]|[_ Hle]]]; [right|by left|lia].
  split; [done|]. intros who Hasset Hben Hwho. by apply claim_pays; auto.
Qed.

(** A value that the escrow of [A] accepts pays one party there, and the same
    party gets the escrow of [B] back after its time lock. *)
Lemma take_both ta (a : WA) tb (b : WB) ka kb lka lkb junk who :
  hc_ready a -> hc_ready b -> hc_cell a ka = Some (Open lka) -> hc_cell b kb = Some (Open lkb) ->
  hc_unlocks (HtlcChain := HA) (lk_hashlock lka) junk = true -> lk_timelock lkb <= tb ->
  hc_asset_ok (HtlcChain := HA) (lk_asset lka) = true -> hc_asset_ok (HtlcChain := HB) (lk_asset lkb) = true ->
  hc_accepts (HtlcChain := HA) (lk_beneficiary lka) = true -> hc_accepts (HtlcChain := HB) (lk_depositor lkb) = true ->
  hc_accepts (HtlcChain := HA) who = true -> hc_accepts (HtlcChain := HB) who = true ->
  exists a' b', hc_exec ta (hc_claim who ka junk) a = Some a' /\
    hc_exec tb (hc_refund who kb) b = Some b' /\
    hc_cell a' ka = Some (Claimed lka) /\ hc_cell b' kb = Some (Returned lkb) /\
    hc_balance a (lk_asset lka) (lk_beneficiary lka) + lk_amount lka <=
      hc_balance a' (lk_asset lka) (lk_beneficiary lka) /\
    hc_balance b (lk_asset lkb) (lk_depositor lkb) + lk_amount lkb <=
      hc_balance b' (lk_asset lkb) (lk_depositor lkb).
Proof.
  intros Hra Hrb Ha Hb Hj Ht Hasa Hasb Hben Hdep Hwa Hwb.
  destruct (claim_pays ta who ka junk lka a) as (a' & Ha' & Hca & Hpa); [done..|].
  destruct (refund_pays tb who kb lkb b) as (b' & Hb' & Hcb & Hpb); [done..|].
  exists a', b'. done.
Qed.
End Swap.

(** ** Ethereum and Aptos *)

Section EthereumAptos.
Context `{Ethers, Solidity} {T : Type} `{ERC20 T}.
Context (self : address) (chainId : Z) (accepts good : address -> bool) `{!TokenLaws self good}.
Context (fusion_plus : account) (users : account -> bool).
Local Abbreviation ethereum := (g_chain self chainId accepts good).
Local Abbreviation aptos := (m_chain fusion_plus users).

(** C5. Who is paid on Ethereum pays on Aptos: if an escrow of the deployed
    gasless contract and an escrow of the published module are open for the same
    swap, and whatever happens on the two chains the Ethereum escrow is then
    claimed, some transaction disclosed the preimage of its hash lock, and
    before the time lock of the Aptos escrow that escrow has been paid or pays
    its beneficiary whenever anybody presents the disclosed bytes. So the maker
    of an Ethereum order, and the resolver of an Aptos order, do not depend on
    the other party once the other party has taken its share. *)
Theorem ethereum_claim_pays_aptos (bytes_of : string -> string)
    (w0 a a' : Evm T Gasless) (v0 b b' : World) t0 l0 s0 m0 ta tb la lb now ka kb lka lkb :
  (forall s, String.length (bytes_of s) = 32%nat) ->
  deployed self w0 -> history (H := ethereum) t0 w0 l0 ta a ->
  published users v0 -> history (H := aptos) s0 v0 m0 tb b ->
  SolEscrow.cell_at (g_escrows (storage a)) ka = Some (Open lka) ->
  cell_at fusion_plus b kb = Some (Open lkb) ->
  history (H := ethereum) ta a la now a' -> history (H := aptos) tb b lb now b' ->
  SolEscrow.cell_at (g_escrows (storage a')) ka = Some (Claimed lka) -> now < lk_timelock lkb ->
  exists secret, keccak256 secret = lk_hashlock lka /\
    (exists t x, (t, x) ∈ la /\ g_op x = GWithdraw ka secret) /\
    paid_or_payable (HB := aptos) now b' kb lkb (bytes_of secret).
Proof.
  intros Hlen Hd Hh0 Hp Hm0 Ha Hb Hha Hhb Hcl Ht.
  assert (hc_ready (HtlcChain := ethereum) a) as Hra.
  { apply (history_ready (H0 := g_laws self chainId accepts good) _ _ _ _ _
      (deployed_ready self good w0 Hd) Hh0). }
  assert (hc_ready (HtlcChain := aptos) b) as Hrb.
  { apply (history_ready (H0 := m_laws fusion_plus users) _ _ _ _ _
      (published_ready fusion_plus users v0 Hp) Hm0). }
  destruct (claim_pays_other (HA := ethereum) (HB := aptos)
    (HtlcLaws0 := g_laws self chainId accepts good) (HtlcLaws1 := m_laws fusion_plus users)
    bytes_of ta a a' la tb b b' lb now ka kb lka lkb Hra Hrb Ha Hb) as (s & (t & x & Hin & Hs) & Hu & Hpay);
    [|done..|].
  - intros s _. simpl. unfold length_unlocks. by rewrite Hlen.
  - exists s. split_and!; [by apply String.eqb_eq in Hu| |done].
    exists t, x. split; [done|]. simpl in Hs. unfold g_shows in Hs.
    destruct (g_op x); try done. case_decide; by simplify_eq.
Qed.

(** The Aptos escrow is claimed and the Ethereum escrow returned, and both are
    paid out. *)
Definition has_both (a : Evm T Gasless) (b : World) ka kb lka lkb (a' : Evm T Gasless) (b' : World)
    : Prop :=
  cell_at fusion_plus b' kb = Some (Claimed lkb) /\
  SolEscrow.cell_at (g_escrows (storage a')) ka = Some (Returned lka) /\
  default 0 (coins b !! lk_beneficiary lkb) + lk_amount lkb
    <= default 0 (coins b' !! lk_beneficiary lkb) /\
  balanceOf (ledger a) (lk_asset lka) (lk_depositor lka) + lk_amount lka
    <= balanceOf (ledger a') (lk_asset lka) (lk_depositor lka).

(** C39. The other direction fails, in both roles: for an open Ethereum escrow
    and an open Aptos escrow of a swap, one party alone can have both. Anybody's
    two transactions, a [withdraw] on Aptos with 32 bytes of no meaning and a
    [refund] on Ethereum after its time lock, pay the Aptos beneficiary there and
    the Ethereum depositor here, which is the maker of an Ethereum order and the
    resolver of an Aptos order, and no secret was ever presented to the Ethereum
    contract. *)
Theorem aptos_claim_breaks_swap
    (w0 a : Evm T Gasless) (v0 b : World) t0 l0 s0 m0 ta tb now ka kb lka lkb junk who :
  deployed self w0 -> history (H := ethereum) t0 w0 l0 ta a ->
  published users v0 -> history (H := aptos) s0 v0 m0 tb b ->
  SolEscrow.cell_at (g_escrows (storage a)) ka = Some (Open lka) ->
  cell_at fusion_plus b kb = Some (Open lkb) ->
  String.length junk = 32%nat -> lk_timelock lka <= now -> good (lk_asset lka) = true ->
  users (lk_beneficiary lkb) = true -> users who = true ->
  accepts (lk_depositor lka) = true -> lk_depositor lka <> self ->
  accepts who = true -> who <> self ->
  exists a' b', withdraw fusion_plus who kb junk b = inr (tt, b') /\
    GaslessEscrow.refund self accepts {| sender := who; value := 0; timestamp := now |} ka a
      = Success (tt, a') /\
    has_both a b ka kb lka lkb a' b'.
Proof.
  intros Hd Hh0 Hp Hm0 Ha Hb Hj Ht Hgood Hub Huw Hdep Hdeps Hw Hws.
  assert (hc_ready (HtlcChain := ethereum) a) as Hra.
  { apply (history_ready (H0 := g_laws self chainId accepts good) _ _ _ _ _
      (deployed_ready self good w0 Hd) Hh0). }
  assert (hc_ready (HtlcChain := aptos) b) as Hrb.
  { apply (history_ready (H0 := m_laws fusion_plus users) _ _ _ _ _
      (published_ready fusion_plus users v0 Hp) Hm0). }
  assert (forall x, accepts x = true -> x <> self -> accepts x && negb (String.eqb x self) = true) as Hacc.
  { intros x -> Hx. by rewrite (proj2 (String.eqb_neq _ _) Hx). }
  assert (lk_asset lkb = APT) as Hapt by (apply cell_at_open in Hb as (e & _ & _ & ->); done).
  destruct (take_both (HA := aptos) (HB := ethereum)
    (HtlcLaws0 := m_laws fusion_plus users) (HtlcLaws1 := g_laws self chainId accepts good)
    now b now a kb ka lkb lka junk who Hrb Hra Hb Ha) as (b' & a' & Hb' & Ha' & Hrest);
    [simpl; unfold length_unlocks; by rewrite Hj|done|simpl; by rewrite Hapt|done|done|by apply Hacc
    |done|by apply Hacc|].
  exists a', b'. simpl in Hb', Ha'. unfold m_exec, m_run in Hb'. simpl in Hb'.
  destruct (withdraw fusion_plus who kb junk b) as [|[[] b1]]; [done|]. injection Hb' as ->.
  unfold g_exec, g_run in Ha'. simpl in Ha'. rewrite (proj2 (String.eqb_neq _ _) Hws) in Ha'. simpl in Ha'.
  destruct (GaslessEscrow.refund _ _ _ _ _) as [[[] a1]|]; [|done]. injection Ha' as ->.
  split; [done|split; [done|exact Hrest]].
Qed.
End EthereumAptos.

(** ** A concrete swap *)

(** The maker's WETH for the resolver, the resolver's APT for the maker. *)
Module SwapExample.
Import GaslessExample.
Definition eth_lock : Lock :=
  {| lk_depositor := "0xmaker"; lk_beneficiary := "0xresolver"; lk_asset := WETH; lk_amount := 4;
     lk_hashlock := keccak256 "s1"; lk_timelock := 3620 |}.

Definition apt_lock : Lock :=
  {| lk_depositor := "0xresolver"; lk_beneficiary := "0xmaker"; lk_asset := APT; lk_amount := 40;
     lk_hashlock := "hash"; lk_timelock := 1000 |}.

Definition eth_txs : list (Z * GTx) := [(10, GaslessExample.order_tx); (20, GaslessExample.fill_tx)].

Definition apt_txs : list (Z * MTx) :=
  [(1, Initialize MoveExample.fp); (2, AddResolver MoveExample.fp "0xresolver");
   (3, MoveExample.lock_tx)].

Lemma eth_run :
  history (H := g_chain "0xgasless" 11155111 GaslessExample.everyone (fun _ => true))
    0 GaslessExample.w0 eth_txs 20 GaslessExample.w2.
Proof.
  apply (history_cons (H := g_chain "0xgasless" 11155111 GaslessExample.everyone (fun _ => true))
    0 10 20 _ GaslessExample.w0 GaslessExample.w1 GaslessExample.w2);
    [lia|apply (some_default GaslessExample.w0); vm_compute; reflexivity|].
  apply (history_cons (H := g_chain "0xgasless" 11155111 GaslessExample.everyone (fun _ => true))
    10 20 20 _ GaslessExample.w1 GaslessExample.w2 GaslessExample.w2);
    [lia|apply (some_default GaslessExample.w0); vm_compute; reflexivity|apply history_nil].
Qed.

Lemma eth_open : SolEscrow.cell_at (g_escrows (storage GaslessExample.w2)) "F(0xbase,1)" = Some (Open eth_lock).
Proof. vm_compute. reflexivity. Qed.

Lemma apt_open : cell_at MoveExample.fp MoveExample.w3 "k" = Some (Open apt_lock).
Proof. vm_compute. reflexivity. Qed.

(** Somebody else's transaction on Aptos. *)
Definition later : World := MoveExample.exec 30 (AddResolver MoveExample.fp "0xother") MoveExample.w3.

(** The bytes of a word, or zeros. *)
Definition bytes_of (s : string) : string :=
  if (String.length s =? 32)%nat then s else MoveExample.zeros32.
End SwapExample.
Import GaslessExample.

Lemma ethereum_claim_pays_aptos_witness :
  exists secret, keccak256 secret = keccak256 "s1" /\
    exists w', m_exec MoveExample.fp 30
      (Withdraw "0xanyone" "k" (SwapExample.bytes_of secret)) SwapExample.later = Some w'.
Proof.
  destruct (ethereum_claim_pays_aptos "0xgasless" 11155111 GaslessExample.everyone (fun _ => true)
    MoveExample.fp MoveExample.users SwapExample.bytes_of
    GaslessExample.w0 GaslessExample.w2 GaslessExample.w3 MoveExample.w0 MoveExample.w3 SwapExample.later
    0 SwapExample.eth_txs 0 SwapExample.apt_txs 20 3 [(30, GaslessExample.claim_tx)]
    [(30, AddResolver MoveExample.fp "0xother")] 30 "F(0xbase,1)" "k"
    SwapExample.eth_lock SwapExample.apt_lock) as (secret & Hk & _ & Hpay).
  - intros s. unfold SwapExample.bytes_of. destruct (String.length s =? 32)%nat eqn:E; [|reflexivity].
    by apply Nat.eqb_eq in E.
  - exact GaslessExample.run_deployed.
  - exact SwapExample.eth_run.
  - exact MoveExample.w0_published.
  - exact MoveExample.run.
  - exact SwapExample.eth_open.
  - exact SwapExample.apt_open.
  - apply (history_cons (H := g_chain "0xgasless" 11155111 GaslessExample.everyone (fun _ => true))
      20 30 30 _ GaslessExample.w2 GaslessExample.w3 GaslessExample.w3);
      [lia|apply (some_default GaslessExample.w0); vm_compute; reflexivity|apply history_nil].
  - apply (history_cons (H := m_chain MoveExample.fp MoveExample.users)
      3 30 30 _ MoveExample.w3 SwapExample.later SwapExample.later);
      [lia|apply (some_default MoveExample.w0); vm_compute; reflexivity|apply history_nil].
  - vm_compute. reflexivity.
  - vm_compute. reflexivity.
  - exists secret. split; [exact Hk|]. destruct Hpay as [Hc|[_ Hp]].
    + exfalso. revert Hc. vm_compute. discriminate.
    + destruct (Hp "0xanyone") as (w' & Hw' & _); [reflexivity|reflexivity|reflexivity|].
      exists w'. exact Hw'.
Defined.

Lemma aptos_claim_breaks_swap_witness :
  exists (a' : Evm Plain Gasless) b', withdraw MoveExample.fp "0xanyone" "k" MoveExample.zeros32 MoveExample.w3 = inr (tt, b') /\
    SolEscrow.cell_at (g_escrows (storage a')) "F(0xbase,1)" = Some (Returned SwapExample.eth_lock).
Proof.
  destruct (aptos_claim_breaks_swap "0xgasless" 11155111 GaslessExample.everyone (fun _ => true)
    MoveExample.fp MoveExample.users GaslessExample.w0 GaslessExample.w2 MoveExample.w0 MoveExample.w3
    0 SwapExample.eth_txs 0 SwapExample.apt_txs 20 3 4000 "F(0xbase,1)" "k"
    SwapExample.eth_lock SwapExample.apt_lock MoveExample.zeros32 "0xanyone"
    GaslessExample.run_deployed SwapExample.eth_run MoveExample.w0_published MoveExample.run
    SwapExample.eth_open SwapExample.apt_open) as (a' & b' & Hw & _ & _ & Hr & _);
    [reflexivity|simpl; lia|reflexivity|reflexivity|reflexivity|reflexivity|discriminate|reflexivity
    |discriminate|].
  exists a', b'. split; [exact Hw|exact Hr].
Defined.
