(* ===== verification/Settlement.v ===== *)
(** * The resolver against the contracts

    [completeSwap] of the resolver run against nodes that execute what is
    submitted to them: the transactions of the history are replayed on two
    chains with the interface of [Htlc]. With open escrows on both sides and the
    secret of the swap, the run ends with both escrows claimed and both parties
    paid. *)

From Stdlib Require Import ZArith Lia.
From stdpp Require Import base numbers list strings gmap.
From S2P Require Import Prelude.
From S2P Require Import JsNumber.
From S2P Require Import JsString.
From S2P Require Import PartialFill.
From S2P Require Import OrderTypes.
From S2P Require Import Async.
From S2P Require Import Chain.
From S2P Require Import AptosChain.
From S2P Require Import ChainService.
From S2P Require Import FillStrategy.
From S2P Require Import Resolver.
From S2P Require Import Swap.
From S2P Require Import SwapSafety.
From S2P Require Import Htlc.
From S2P Require Import Evm.
From S2P Require Import SolEscrow.
From S2P Require Import GaslessEscrow.
From S2P Require Import MoveEscrow.
From S2P Require Import GaslessSafety.
From S2P Require Import AtomicSwap.

Local Open Scope string_scope.
Local Open Scope Z_scope.
Local Open Scope prog_scope.

Section Replay.
Context {WE CE WA CA : Type}.
Context `{HE : HtlcChain WE CE, !HtlcLaws WE CE, HA : HtlcChain WA CA, !HtlcLaws WA CA}.
(** The time of the blocks, the contract and the module, and the accounts that
    submit. *)
Context (now : Z) (contract module ethResolver aptResolver : string).

(** What a submitted transaction does to the chains. *)
Definition after_event (e : Ev ChainI) (w : WE * WA) : WE * WA :=
  match e with
  | Called (EthSend c fn [AString k; AString secret] _ _) (Ok _) =>
      if String.eqb c contract && String.eqb fn "withdraw" then
        (default w.1 (hc_exec now (hc_claim ethResolver k secret) w.1), w.2)
      else w
  | Called (AptosSubmit tx) (Ok _) =>
      match tx_arguments tx with
      | [ABytes k; ABytes secret] =>
          if String.eqb (tx_function tx) (module ++ "::escrow_v3::withdraw") then
            (w.1, default w.2 (hc_exec now (hc_claim aptResolver k secret) w.2))
          else w
      | _ => w
      end
  | _ => w
  end.

Definition replay (w0 : WE * WA) (h : list (Ev ChainI)) : WE * WA :=
  fold_left (fun w e => after_event e w) h w0.

Lemma replay_snoc w0 h e : replay w0 (h ++ [e]) = after_event e (replay w0 h).
Proof. unfold replay. by rewrite fold_left_app. Qed.

(** Nodes and services that are up: they accept what the chains execute, report
    what is there, and answer the other requests. *)
Record honest (w0 : WE * WA) (O : Oracle ChainI) : Prop := {
  ho_patch : forall h a b c d, answer O h (HttpPatchFill a b c d) = Ok tt;
  ho_send : forall h k secret w',
    hc_exec now (hc_claim ethResolver k secret) (replay w0 h).1 = Some w' ->
    exists hash, answer O h (EthSend contract "withdraw" [AString k; AString secret] 0 None) = Ok hash;
  ho_wait : forall h hash, exists r, answer O h (EthWait hash) = Ok r;
  ho_balance : forall h a, exists b, answer O h (EthBalance a) = Ok b;
  ho_read : forall h c args, exists b, answer O h (EthView c "balanceOf" args) = Ok b;
  ho_view : forall h k l, hc_cell (replay w0 h).2 k = Some (Open l) ->
    answer O h (AptosView (module ++ "::escrow_v3::escrow_exists") [ABytes k]) = Ok (ViewArray [true]);
  ho_info : forall h a, exists n, answer O h (AptosAccountInfo a) = Ok (toString n);
  ho_build : forall h fn args seq, answer O h (AptosBuild fn args seq) =
    Ok {| tx_function := fn; tx_arguments := args; tx_sequence := seq |};
  ho_submit : forall h k secret seq w',
    hc_exec now (hc_claim aptResolver k secret) (replay w0 h).2 = Some w' ->
    exists hash, answer O h (AptosSubmit
      {| tx_function := module ++ "::escrow_v3::withdraw"; tx_arguments := [ABytes k; ABytes secret];
         tx_sequence := seq |}) = Ok hash;
  ho_executed : forall h hash, exists x, answer O h (AptosWait hash false) = Ok x /\ success x = true
}.

(** An event that submits nothing. *)
Definition quiet (e : Ev ChainI) : Prop := forall w, after_event e w = w.

Section Runs.
Context `{Ethers, AptosSdk, EthersBytes} (cfg : RConfig) (w0 : WE * WA) (O : Oracle ChainI).
Context (Hon : honest w0 O).

(** [p] ends with [Ok a] and leaves the chains as they were. *)
Definition idle {A} (p : prog ChainI RState A) : Prop :=
  forall s h, exists a s' h', run O p s h = (Ok a, s', h') /\ replay w0 h' = replay w0 h.

Lemma idle_bind {A B} (m : prog ChainI RState A) (k : A -> prog ChainI RState B) :
  idle m -> (forall a, idle (k a)) -> idle (pbind m k).
Proof.
  intros Hm Hk s h. destruct (Hm s h) as (a & s1 & h1 & R1 & E1).
  destruct (Hk a s1 h1) as (b & s2 & h2 & R2 & E2). exists b, s2, h2.
  rewrite run_bind, R1, R2. split; [done|congruence].
Qed.

Lemma idle_ret {A} (a : A) : idle (Ret a).
Proof. intros s h. by exists a, s, h. Qed.

Lemma idle_get : idle get.
Proof. intros s h. by exists s, s, h. Qed.

Lemma idle_modify f : idle (modify f).
Proof. intros s h. by exists tt, (f s), h. Qed.

Lemma idle_emit e d : idle (socketEmit e d).
Proof. intros s h. exists tt, s, (h ++ [Told (I := ChainI) (Emit (msg e d))])%list. by rewrite replay_snoc. Qed.

Lemma idle_await (r : ChainReq) :
  (forall h, exists x, answer O h r = Ok x) -> (forall x, quiet (Called (I := ChainI) r x)) ->
  idle (await (I := ChainI) r).
Proof.
  intros Ha Hq s h. destruct (Ha h) as [x Hx]. exists x, s. eexists. rewrite run_await, Hx.
  split; [reflexivity|]. rewrite replay_snoc. apply Hq.
Qed.

Lemma idle_patch a b c d : idle (updateFillStatus a b c d).
Proof.
  apply (idle_await (HttpPatchFill a b c d)); [intros h; exists tt; apply (ho_patch _ _ Hon)|done].
Qed.

Lemma idle_track : idle (trackBalanceChange cfg).
Proof.
  apply idle_bind; [|intros b; apply idle_bind; [|intros c; apply idle_modify]].
  - apply (idle_await (EthBalance _)); [intros h; apply (ho_balance _ _ Hon)|done].
  - apply (idle_await (EthView _ _ _)); [intros h; apply (ho_read _ _ Hon)|done].
Qed.

Lemma idle_completion order fill : idle (announce_completion order fill).
Proof.
  unfold announce_completion. destruct (isPartialFillOrder order); [|apply idle_emit].
  apply idle_bind; [apply idle_get|]. intros s. destruct (geb _ _); apply idle_emit.
Qed.

Lemma idle_clean_up order fill dest : idle (clean_up order fill dest).
Proof.
  unfold clean_up. apply idle_bind; [apply idle_get|]. intros s.
  apply idle_bind; [|intros _; apply idle_modify].
  destruct (_ || _); [apply idle_modify|apply idle_ret].
Qed.

(** ** The two withdrawals *)

(** The contract that [withdraw_source] calls for an Ethereum order. *)
Definition source_contract (order : Order) : option string :=
  if is_gasless order then present (gaslessEscrowEnv (chainConfig cfg))
  else Some (ethEscrowAddress (chainConfig cfg)).

Lemma withdraw_source_runs (order : Order) k secret w' s h :
  fromChain order = ETHEREUM -> source_contract order = Some contract ->
  hc_exec now (hc_claim ethResolver k (hexlify secret)) (replay w0 h).1 = Some w' ->
  exists tx s' h', run O (withdraw_source cfg order k secret) s h = (Ok tx, s', h') /\
    replay w0 h' = (w', (replay w0 h).2).
Proof.
  intros Hfrom Hc Hx.
  assert (exists tx s' h', run (S := RState) O
    (tx <- ethSend contract "withdraw" [AString k; AString (hexlify secret)] 0 None; ethWait tx) s h
    = (Ok tx, s', h') /\ replay w0 h' = (w', (replay w0 h).2)) as Hrun.
  { destruct (ho_send _ _ Hon h _ _ _ Hx) as [hash Hs]. unfold ethSend, ethWait, await. cbn [pbind run].
    rewrite Hs. cbn [pbind of_result run].
    match goal with |- context [answer O ?h1 (EthWait hash)] =>
      destruct (ho_wait _ _ Hon h1 hash) as [r Hr] end.
    rewrite Hr. cbn [of_result run]. exists r, s. eexists. split; [reflexivity|].
    rewrite !replay_snoc. simpl. rewrite String.eqb_refl, Hx. done. }
  unfold withdraw_source. rewrite Hfrom. unfold source_contract in Hc.
  destruct (is_gasless order).
  - unfold withdrawGaslessEscrow. rewrite Hc. exact Hrun.
  - injection Hc as Hc. unfold withdrawEthereumEscrow. rewrite Hc. exact Hrun.
Qed.

Lemma withdrawAptos_runs k secret l w' s h :
  aptosEscrowAddress (chainConfig cfg) = module ->
  hc_cell (replay w0 h).2 k = Some (Open l) ->
  hc_exec now (hc_claim aptResolver k secret) (replay w0 h).2 = Some w' ->
  exists tx s' h', run (S := RState) O (withdrawAptosEscrow (chainConfig cfg) k secret) s h
      = (Ok tx, s', h') /\ replay w0 h' = ((replay w0 h).1, w').
Proof.
  intros Hmod Hc Hx. unfold withdrawAptosEscrow, withdrawEscrow, rethrowing, view_exists. rewrite Hmod.
  rewrite run_try, run_bind, run_try. unfold aptosView, await. cbn [run].
  rewrite (ho_view _ _ Hon h k l Hc). cbn [of_result run denies negb]. set (h1 := (h ++ [_])%list).
  assert (replay w0 h1 = replay w0 h) as E1 by (unfold h1; by rewrite replay_snoc).
  cbn [attempt_loop]. rewrite run_try. unfold withdraw_attempt.
  rewrite run_bind. unfold aptosAccountInfo, await. cbn [run].
  destruct (ho_info _ _ Hon h1 (aptosAccountAddress (chainConfig cfg))) as [n Hn]. rewrite Hn.
  cbn [of_result run]. set (h2 := (h1 ++ [_])%list).
  assert (replay w0 h2 = replay w0 h) as E2 by (unfold h2; by rewrite replay_snoc).
  rewrite run_bind, run_of_result, BigInt_toString. rewrite run_bind. unfold aptosBuild, await.
  cbn [run]. rewrite (ho_build _ _ Hon). cbn [of_result run]. set (h3 := (h2 ++ [_])%list).
  assert (replay w0 h3 = replay w0 h) as E3 by (unfold h3; by rewrite replay_snoc).
  rewrite run_bind. unfold aptosSubmit, await. cbn [run].
  rewrite <- E3 in Hx. destruct (ho_submit _ _ Hon h3 k secret (Some n) w' Hx) as [hash Hh].
  rewrite Hh. cbn [of_result run]. rewrite run_bind. cbn [wait_loop run].
  match goal with |- context [answer O ?h4 (AptosWait hash false)] =>
    destruct (ho_executed _ _ Hon h4 hash) as (x & Hw & Hsucc) end.
  rewrite Hw. cbn [run]. rewrite Hsucc. cbn [negb run].
  exists hash, s. eexists. split; [reflexivity|].
  rewrite !replay_snoc. simpl. rewrite String.eqb_refl, Hx. simpl. by rewrite E3.
Qed.

(** The steps around the withdrawals change nothing on the chains. *)
Lemma idle_run {A B} (m : prog ChainI RState A) (k : A -> prog ChainI RState B) s h :
  idle m -> exists a s' h', run O (pbind m k) s h = run O (k a) s' h' /\ replay w0 h' = replay w0 h.
Proof.
  intros Hm. destruct (Hm s h) as (a & s' & h' & R & E). exists a, s', h'.
  rewrite run_bind, R. done.
Qed.

Lemma after_source_runs (order : Order) fill secret source dest k l tx w' s h :
  toChain order = APTOS -> present (layerZeroAdapter (chainConfig cfg)) = None ->
  aptosEscrowAddress (chainConfig cfg) = module -> getBytes dest = Ok k ->
  hc_cell (replay w0 h).2 k = Some (Open l) ->
  hc_exec now (hc_claim aptResolver k secret) (replay w0 h).2 = Some w' ->
  exists s' h', run O (after_source cfg order fill secret source dest tx) s h = (Ok tt, s', h') /\
    replay w0 h' = ((replay w0 h).1, w').
Proof.
  intros Hto Hlz Hmod Hk Hc Hx. unfold after_source.
  destruct (idle_run (trackBalanceChange cfg) (fun _ => updateFillStatus (f_orderId fill) (f_id fill) "SOURCE_WITHDRAWN" [];;
    announce_withdrawal fill source secret tx;; withdraw_destination cfg order fill secret source dest;;
    updateFillStatus (f_orderId fill) (f_id fill) "COMPLETED" [];; announce_completion order fill;;
    clean_up order fill dest) s h idle_track) as (u1 & s1 & h1 & -> & E1).
  destruct (idle_run (updateFillStatus (f_orderId fill) (f_id fill) "SOURCE_WITHDRAWN" []) (fun _ =>
    announce_withdrawal fill source secret tx;; withdraw_destination cfg order fill secret source dest;;
    updateFillStatus (f_orderId fill) (f_id fill) "COMPLETED" [];; announce_completion order fill;;
    clean_up order fill dest) s1 h1 (idle_patch _ _ _ _)) as (u2 & s2 & h2 & -> & E2).
  destruct (idle_run (announce_withdrawal fill source secret tx) (fun _ =>
    withdraw_destination cfg order fill secret source dest;;
    updateFillStatus (f_orderId fill) (f_id fill) "COMPLETED" [];; announce_completion order fill;;
    clean_up order fill dest) s2 h2 (idle_emit _ _)) as (u3 & s3 & h3 & -> & E3).
  assert (replay w0 h3 = replay w0 h) as E by congruence. rewrite <- E in Hc, Hx.
  destruct (withdrawAptos_runs k secret l w' s3 h3 Hmod Hc Hx) as (tx2 & s4 & h4 & R4 & E4).
  rewrite run_bind. unfold withdraw_destination. rewrite Hto, run_try, run_bind, run_of_result, Hk.
  rewrite run_bind, R4, run_bind. unfold sendCrossChainSecretReveal. rewrite Hlz. cbn [run].
  assert (idle (updateFillStatus (f_orderId fill) (f_id fill) "COMPLETED" [];;
    announce_completion order fill;; clean_up order fill dest)) as Hrest.
  { apply idle_bind; [apply idle_patch|intros _]. apply idle_bind; [apply idle_completion|intros _].
    apply idle_clean_up. }
  destruct (Hrest s4 h4) as ([] & s5 & h5 & R5 & E5). exists s5, h5. split; [done|].
  rewrite E5, E4. by rewrite E.
Qed.

(** Everything together, on any two chains with the interface. *)
Lemma completeSwap_settles (order : Order) fill secret source dest k lka lkb s h :
  fromChain order = ETHEREUM -> toChain order = APTOS -> already_done fill = false ->
  source_contract order = Some contract -> aptosEscrowAddress (chainConfig cfg) = module ->
  present (layerZeroAdapter (chainConfig cfg)) = None -> getBytes dest = Ok k ->
  hc_ready (replay w0 h).1 -> hc_ready (replay w0 h).2 ->
  hc_cell (replay w0 h).1 source = Some (Open lka) -> hc_cell (replay w0 h).2 k = Some (Open lkb) ->
  hc_unlocks (HtlcChain := HE) (lk_hashlock lka) (hexlify secret) = true ->
  hc_unlocks (HtlcChain := HA) (lk_hashlock lkb) secret = true ->
  hc_asset_ok (HtlcChain := HE) (lk_asset lka) = true ->
  hc_asset_ok (HtlcChain := HA) (lk_asset lkb) = true ->
  hc_accepts (HtlcChain := HE) (lk_beneficiary lka) = true ->
  hc_accepts (HtlcChain := HA) (lk_beneficiary lkb) = true ->
  hc_accepts (HtlcChain := HE) ethResolver = true -> hc_accepts (HtlcChain := HA) aptResolver = true ->
  exists s' h', run O (completeSwap cfg order fill secret source dest) s h = (Ok tt, s', h') /\
    hc_cell (replay w0 h').1 source = Some (Claimed lka) /\
    hc_cell (replay w0 h').2 k = Some (Claimed lkb) /\
    hc_balance (replay w0 h).1 (lk_asset lka) (lk_beneficiary lka) + lk_amount lka <=
      hc_balance (replay w0 h').1 (lk_asset lka) (lk_beneficiary lka) /\
    hc_balance (replay w0 h).2 (lk_asset lkb) (lk_beneficiary lkb) + lk_amount lkb <=
      hc_balance (replay w0 h').2 (lk_asset lkb) (lk_beneficiary lkb).
Proof.
  intros Hfrom Hto Hnew Hcon Hmod Hlz Hk Hra Hrb Ha Hb Hua Hub Hasa Hasb Hba Hbb Hea Heb.
  destruct (claim_pays now ethResolver source (hexlify secret) lka (replay w0 h).1)
    as (a' & Hxa & Hca & Hpa); [done..|].
  destruct (claim_pays now aptResolver k secret lkb (replay w0 h).2) as (b' & Hxb & Hcb & Hpb); [done..|].
  unfold completeSwap. rewrite run_try, Hnew.
  destruct (idle_run (updateFillStatus (f_orderId fill) (f_id fill) "SOURCE_CREATED" [("sourceEscrowId", source)])
    (fun _ => withdrawTx <- withdraw_source cfg order source secret;
       after_source cfg order fill secret source dest withdrawTx) s h (idle_patch _ _ _ _))
    as (u1 & s1 & h1 & -> & E1).
  rewrite <- E1 in Hxa. destruct (withdraw_source_runs order source secret a' s1 h1 Hfrom Hcon Hxa)
    as (tx & s2 & h2 & R2 & E2). rewrite run_bind, R2.
  destruct (after_source_runs order fill secret source dest k lkb tx b' s2 h2)
    as (s3 & h3 & R3 & E3); [done..|by rewrite E2, E1|by rewrite E2, E1|].
  rewrite R3. exists s3, h3. rewrite E3, E2. done.
Qed.
End Runs.
End Replay.

(** ** The Ethereum contract and the Aptos module *)

Section EthereumAptos.
Context `{Ethers, AptosSdk, EthersBytes, Solidity} {T : Type} `{ERC20 T}.
Context (self : address) (chainId : Z) (accepts good : address -> bool) `{!TokenLaws self good}.
Context (fusion_plus : account) (users : account -> bool).
Context (cfg : RConfig) (ethResolver aptResolver : string) (now : Z).
Local Abbreviation ethereum := (g_chain self chainId accepts good).
Local Abbreviation aptos := (m_chain fusion_plus users).
Local Abbreviation replayed := (replay (HE := ethereum) (HA := aptos) now self fusion_plus
                                  ethResolver aptResolver).

(** C6. The swap settles: against nodes and an order engine that are up and
    execute what they accept, [completeSwap] of an Ethereum to Aptos order, from
    any reachable state of the gasless contract and of the Aptos module in which
    both escrows of the swap are open, with a secret that hashes to the source
    hash lock, returns normally and leaves both escrows claimed, the resolver
    with the source amount and the maker with the destination amount more. *)
Theorem swap_settles (O : Oracle ChainI) (w00 a : Evm T Gasless) (v00 b : World)
    t0 l0 ta s0 m0 tb (order : Order) (fill : RFill) (secret : bytes) (source dest k : string)
    lka lkb (s : RState) :
  honest (HE := ethereum) (HA := aptos) now self fusion_plus ethResolver aptResolver (a, b) O ->
  deployed self w00 -> history (H := ethereum) t0 w00 l0 ta a ->
  published users v00 -> history (H := aptos) s0 v00 m0 tb b ->
  fromChain order = ETHEREUM -> toChain order = APTOS -> already_done fill = false ->
  source_contract cfg order = Some self -> aptosEscrowAddress (chainConfig cfg) = fusion_plus ->
  present (layerZeroAdapter (chainConfig cfg)) = None -> getBytes dest = Ok k ->
  SolEscrow.cell_at (g_escrows (storage a)) source = Some (Open lka) ->
  MoveEscrow.cell_at fusion_plus b k = Some (Open lkb) ->
  keccak256 (hexlify secret) = lk_hashlock lka -> String.length secret = 32%nat ->
  good (lk_asset lka) = true ->
  accepts (lk_beneficiary lka) = true -> lk_beneficiary lka <> self ->
  accepts ethResolver = true -> ethResolver <> self ->
  users (lk_beneficiary lkb) = true -> users aptResolver = true ->
  exists s' h', run O (completeSwap cfg order fill secret source dest) s [] = (Ok tt, s', h') /\
    let '(a', b') := replayed (a, b) h' in
    SolEscrow.cell_at (g_escrows (storage a')) source = Some (Claimed lka) /\
    MoveEscrow.cell_at fusion_plus b' k = Some (Claimed lkb) /\
    balanceOf (ledger a) (lk_asset lka) (lk_beneficiary lka) + lk_amount lka <=
      balanceOf (ledger a') (lk_asset lka) (lk_beneficiary lka) /\
    default 0 (coins b !! lk_beneficiary lkb) + lk_amount lkb <=
      default 0 (coins b' !! lk_beneficiary lkb).
Proof.
  intros Hon Hd Hh Hp Hm Hfrom Hto Hnew Hcon Hmod Hlz Hk Ha Hb Hu Hlen Hgood Hben Hbens Her Hers Hub Hur.
  assert (forall x, accepts x = true -> x <> self -> accepts x && negb (String.eqb x self) = true) as Hacc.
  { intros x -> Hx. by rewrite (proj2 (String.eqb_neq _ _) Hx). }
  assert (lk_asset lkb = APT) as Hapt by (apply cell_at_open in Hb as (e & _ & _ & ->); done).
  destruct (completeSwap_settles (HE := ethereum) (HA := aptos)
    (HtlcLaws0 := g_laws self chainId accepts good) (HtlcLaws1 := m_laws fusion_plus users)
    now self fusion_plus ethResolver aptResolver cfg (a, b) O Hon order fill secret source dest k
    lka lkb s []) as (s' & h' & Hrun & Hca & Hcb & Hpa & Hpb); try done.
  - apply (history_ready (H0 := g_laws self chainId accepts good) _ _ _ _ _
      (deployed_ready self good w00 Hd) Hh).
  - apply (history_ready (H0 := m_laws fusion_plus users) _ _ _ _ _
      (published_ready fusion_plus users v00 Hp) Hm).
  - simpl. unfold keccak_unlocks. rewrite Hu. apply String.eqb_refl.
  - simpl. unfold length_unlocks. by rewrite Hlen.
  - simpl. by rewrite Hapt.
  - by apply Hacc.
  - by apply Hacc.
  - exists s', h'. split; [done|]. destruct (replayed (a, b) h') as [a' b']. done.
Qed.
End EthereumAptos.

(** ** A concrete settlement *)

Module SettlementExample.
Export GaslessExample.

(** The bytes [zeros32] have the hex text [s1]. *)
#[export] Instance word_bytes : EthersBytes := {|
  getBytes := fun s => Ok s;
  hexlify := fun b => if String.eqb b MoveExample.zeros32 then "s1" else b;
  solidityPacked := fun _ _ => Ok ""
|}.

#[export] Existing Instance range_sdk.

Definition config : RConfig := {|
  identity := resolver_1; ethereumAddress := "0xresolver"; aptosAddress := "0xresolver";
  wethAddress := WETH; portEnv := None; apiKey := None; permitContract := "0xpermit";
  escrowModule := MoveExample.fp;
  chainConfig := {|
    signerAddress := "0xresolver"; ethEscrowAddress := "0xgasless"; gaslessEscrowAddress := "0xg";
    gaslessEscrowEnv := Some "0xg"; layerZeroAdapter := None;
    aptosEscrowAddress := MoveExample.fp; aptosAccountAddress := "0xresolver" |}
|}.

(** Nodes that accept everything. *)
Definition obliging : Oracle ChainI := {|
  answer := fun (_ : list (Ev ChainI)) (r : ChainReq) =>
    match r as r0 return result (chain_ans r0) with
    | AptosView _ _ => Ok (ViewArray [true])
    | AptosAccountInfo _ => Ok (toString 7)
    | AptosBuild fn args seq =>
        Ok {| tx_function := fn; tx_arguments := args; tx_sequence := seq |}
    | AptosSubmit _ => Ok "0xsubmitted"
    | AptosWait hash _ => Ok {| success := true; vm_status := ""; executed_hash := hash |}
    | HttpPatchFill _ _ _ _ => Ok tt
    | EthSend _ _ _ _ _ => Ok "0xtx"
    | EthWait hash => Ok hash
    | EthBalance _ => Ok 0
    | EthView _ _ _ => Ok 0
    | _ => Throw (Error "down")
    end;
  clock := fun _ => 0
|}.

Lemma obliging_honest {WE CE WA CA : Type} `{HE : HtlcChain WE CE, HA : HtlcChain WA CA}
    now contract module r1 r2 (w : WE * WA) :
  honest now contract module r1 r2 w obliging.
Proof.
  split; intros; simpl; try done; eauto.
Qed.
End SettlementExample.
Import SettlementExample.

Lemma swap_settles_witness :
  exists s' h', run obliging (completeSwap config full_order sample_fill MoveExample.zeros32
      "F(0xbase,1)" "k") initial_state [] = (Ok tt, s', h') /\
    let '(a', b') := replay
      (HE := g_chain "0xgasless" 11155111 GaslessExample.everyone (fun _ => true))
      (HA := m_chain MoveExample.fp MoveExample.users)
      40 "0xgasless" MoveExample.fp "0xresolver" "0xresolver" (GaslessExample.w2, MoveExample.w3) h' in
    SolEscrow.cell_at (g_escrows (storage a')) "F(0xbase,1)" = Some (Claimed SwapExample.eth_lock) /\
    MoveEscrow.cell_at MoveExample.fp b' "k" = Some (Claimed SwapExample.apt_lock).
Proof.
  destruct (swap_settles "0xgasless" 11155111 GaslessExample.everyone (fun _ => true)
    MoveExample.fp MoveExample.users config "0xresolver" "0xresolver" 40 obliging
    GaslessExample.w0 GaslessExample.w2 MoveExample.w0 MoveExample.w3
    0 SwapExample.eth_txs 20 0 SwapExample.apt_txs 3 full_order sample_fill MoveExample.zeros32
    "F(0xbase,1)" "k" "k" SwapExample.eth_lock SwapExample.apt_lock initial_state)
    as (s' & h' & Hrun & Hend);
    [apply obliging_honest|exact GaslessExample.run_deployed|exact SwapExample.eth_run
    |exact MoveExample.w0_published|exact MoveExample.run|reflexivity|reflexivity|reflexivity|reflexivity
    |reflexivity|reflexivity|reflexivity|exact SwapExample.eth_open|exact SwapExample.apt_open
    |reflexivity|reflexivity|reflexivity|reflexivity|discriminate|reflexivity|discriminate
    |reflexivity|reflexivity|].
  exists s', h'. split; [exact Hrun|].
  destruct (replay _ _ _ _ _ _ _) as [a' b']. destruct Hend as (H1 & H2 & _). split; [exact H1|exact H2].
Defined.
