(* ===== verification/PageShell.v ===== *)
(** * The page around the swap

    The resolver panel [ResolverStatus.tsx], whose health checks run
    concurrently with the user's clicks, with the selection that [App.tsx] keeps
    of it. What the user selects here is what [SwapInterface] sends with an
    order. *)

From Stdlib Require Import ZArith Lia.
From stdpp Require Import base numbers list strings.
From S2P Require Import Prelude.
From S2P Require Import JsNumber.
From S2P Require Import JsString.
From S2P Require Import DutchAuction.
From S2P Require Import PartialFill.
From S2P Require Import OrderTypes.
From S2P Require Import Async.
From S2P Require Import Chain.
From S2P Require Import FillStrategy.
From S2P Require Import OrderIntake.
From S2P Require Import Web.
From S2P Require Import WebServices.
From S2P Require Import SwapPage.

Local Open Scope string_scope.
Local Open Scope Z_scope.
Local Open Scope prog_scope.

(** ** The resolver panel *)

Inductive PanelStatus := panel_active | panel_inactive | panel_offline.

Record ResolverBalance := { rb_eth : string; rb_weth : string; rb_apt : string }.

Record PanelResolver := {
  pr_id : string;
  pr_name : string;
  pr_address : string;
  pr_aptosAddress : option string;
  pr_port : Z;
  pr_strategy : Strategy;
  pr_status : PanelStatus;
  pr_fills : Z;
  pr_enabled : bool;
  pr_balances : option ResolverBalance
}.

Definition panel_row (i n addr apt : string) (port : Z) (st : Strategy) : PanelResolver :=
  {| pr_id := i; pr_name := n; pr_address := addr; pr_aptosAddress := Some apt; pr_port := port;
     pr_strategy := st; pr_status := panel_inactive; pr_fills := 0; pr_enabled := false;
     pr_balances := None |}.

Definition initial_resolvers : list PanelResolver :=
  [panel_row "resolver-1" "Resolver-1" "0x4718eAfbbDC0DdaAfeB520fF641c6aeCbA8042Fc"
     "0x2d61a25dfac21604c5eabda303c9cc9f367d6c17b9c18df424d57fee4b4a9532" 8081 aggressive;
   panel_row "resolver-2" "Resolver-2" "0x3059921A0E8362110e8141f7c1d25eeC3762294b"
     "0x2edf35335bc13bb9ab9a8a7eb3145dae745db2951ede41ac2206f48f1cd83015" 8082 patient;
   panel_row "resolver-3" "Resolver-3" "0xF288aaC4D29092Fd7eC652357D46900a4F05425B"
     "0x3f2f1a3d325df4561b8216251aec6dc6c1a6bb3ee8d0ed9004a51c73a857d9a8" 8083 opportunistic].

Definition set_status_row (st : PanelStatus) (r : PanelResolver) : PanelResolver :=
  {| pr_id := pr_id r; pr_name := pr_name r; pr_address := pr_address r;
     pr_aptosAddress := pr_aptosAddress r; pr_port := pr_port r; pr_strategy := pr_strategy r;
     pr_status := st; pr_fills := pr_fills r; pr_enabled := pr_enabled r;
     pr_balances := pr_balances r |}.

Definition set_enabled_row (b : bool) (r : PanelResolver) : PanelResolver :=
  {| pr_id := pr_id r; pr_name := pr_name r; pr_address := pr_address r;
     pr_aptosAddress := pr_aptosAddress r; pr_port := pr_port r; pr_strategy := pr_strategy r;
     pr_status := pr_status r; pr_fills := pr_fills r; pr_enabled := b;
     pr_balances := pr_balances r |}.

Definition set_balances_row (b : ResolverBalance) (r : PanelResolver) : PanelResolver :=
  {| pr_id := pr_id r; pr_name := pr_name r; pr_address := pr_address r;
     pr_aptosAddress := pr_aptosAddress r; pr_port := pr_port r; pr_strategy := pr_strategy r;
     pr_status := pr_status r; pr_fills := pr_fills r; pr_enabled := pr_enabled r;
     pr_balances := Some b |}.

Section Balances.
Context `{EthersUnits, AptosErrors} {S : Type}.

(** [balances] is filled as far as the reads succeed. *)
Definition fetchResolverBalances (resolver : PanelResolver) : wprog S ResolverBalance :=
  eth <- attempt (nodeBalance (pr_address resolver));
  match eth with
  | Throw _ => Ret {| rb_eth := "0"; rb_weth := "0"; rb_apt := "0" |}
  | Ok e =>
      weth <- attempt (contractRead "0xfFf9976782d46CC05630D1f6eBAb18b2324d6B14" "balanceOf"
                         [AString (pr_address resolver)]);
      match weth with
      | Throw _ => Ret {| rb_eth := formatEther18 e; rb_weth := "0"; rb_apt := "0" |}
      | Ok w =>
          match pr_aptosAddress resolver with
          | None => Ret {| rb_eth := formatEther18 e; rb_weth := formatEther18 w; rb_apt := "0" |}
          | Some a =>
              apt <- attempt (AptosClient.getAptBalance a);
              let text := match apt with
                          | Ok t => t
                          | Throw error => if String.eqb (message error) "Rate limited"
                                           then "Rate limited" else "Error"
                          end in
              Ret {| rb_eth := formatEther18 e; rb_weth := formatEther18 w; rb_apt := text |}
          end
      end
  end.
End Balances.

(** The body of [checkResolverHealth] for one resolver; [healthy] is
    [response.ok], or nothing when the request failed. *)
Definition checked (healthy : string -> option bool) (resolver : PanelResolver) : PanelResolver :=
  if negb (pr_enabled resolver) then set_status_row panel_inactive resolver
  else match healthy (pr_id resolver) with
       | Some true => set_status_row panel_active resolver
       | _ => set_status_row panel_offline resolver
       end.

(** The resolvers [updateBalances] asks for, and what it does with the answers. *)
Definition to_load (resolvers : list PanelResolver) : list PanelResolver :=
  List.filter (fun r => match pr_status r with panel_active => true | _ => false end) resolvers.

Definition with_balances (updates : list (string * ResolverBalance)) (prev : list PanelResolver)
    : list PanelResolver :=
  (fun r => match List.find (fun u => String.eqb u.1 (pr_id r)) updates with
            | Some u => set_balances_row u.2 r
            | None => r
            end) <$> prev.

Definition getStrategyIcon (s : string) : string :=
  if String.eqb s "aggressive" then "🚀" else if String.eqb s "patient" then "⏳"
  else if String.eqb s "opportunistic" then "🎯" else "📊".

Definition getStatusColor (s : string) : string :=
  if String.eqb s "active" then "#4CAF50" else if String.eqb s "inactive" then "#666"
  else if String.eqb s "offline" then "#F44336" else "#999".

(** [handleResolverToggle] of [App]. *)
Definition handleResolverToggle (resolverId : string) (enabled : bool) (prev : list string)
    : list string :=
  if enabled then (prev ++ [resolverId])%list
  else List.filter (fun i => negb (String.eqb i resolverId)) prev.

(** The panel in the page: the rows, the rows that the running health-check
    effect closed over, the checks under way with the rows they started from,
    the callbacks queued by [setTimeout(..., 0)], and [App]'s [activeResolvers]. *)
Record Shell := {
  sh_resolvers : list PanelResolver;
  sh_closure : list PanelResolver;
  sh_checks : list (list PanelResolver);
  sh_timers : list (string * bool);
  sh_active : list string
}.

(** The first check starts when the panel is mounted. *)
Definition initial_shell : Shell :=
  {| sh_resolvers := initial_resolvers; sh_closure := initial_resolvers;
     sh_checks := [initial_resolvers]; sh_timers := []; sh_active := [] |}.

(** [resolvers.map(r => r.enabled).join(',')] *)
Definition enabled_key (resolvers : list PanelResolver) : list bool := pr_enabled <$> resolvers.

(** A render with new rows: the health-check effect runs again, with a check at
    once, when the enabled flags changed. *)
Definition rendered (resolvers : list PanelResolver) (s : Shell) : Shell :=
  if decide (enabled_key resolvers = enabled_key (sh_closure s)) then
    {| sh_resolvers := resolvers; sh_closure := sh_closure s; sh_checks := sh_checks s;
       sh_timers := sh_timers s; sh_active := sh_active s |}
  else
    {| sh_resolvers := resolvers; sh_closure := resolvers;
       sh_checks := (sh_checks s ++ [resolvers])%list;
       sh_timers := sh_timers s; sh_active := sh_active s |}.

Definition toggleResolver (resolverId : string) (s : Shell) : Shell :=
  match List.find (fun r => String.eqb (pr_id r) resolverId) (sh_resolvers s) with
  | None => s
  | Some resolver =>
      let newEnabled := negb (pr_enabled resolver) in
      let s' := rendered ((fun r => if String.eqb (pr_id r) resolverId
                                    then set_enabled_row newEnabled r else r) <$> sh_resolvers s) s in
      {| sh_resolvers := sh_resolvers s'; sh_closure := sh_closure s'; sh_checks := sh_checks s';
         sh_timers := (sh_timers s' ++ [(resolverId, newEnabled)])%list; sh_active := sh_active s' |}
  end.

Inductive ShellEvent :=
  | Toggle (resolverId : string)
  | Fire
  | Interval
  | CheckDone (i : nat) (healthy : string -> option bool)
  | BalancesDone (updates : list (string * ResolverBalance)).

Definition shell_step (e : ShellEvent) (s : Shell) : Shell :=
  match e with
  | Toggle resolverId => toggleResolver resolverId s
  | Fire =>
      match sh_timers s with
      | [] => s
      | (i, b) :: rest =>
          {| sh_resolvers := sh_resolvers s; sh_closure := sh_closure s; sh_checks := sh_checks s;
             sh_timers := rest; sh_active := handleResolverToggle i b (sh_active s) |}
      end
  | Interval =>
      {| sh_resolvers := sh_resolvers s; sh_closure := sh_closure s;
         sh_checks := (sh_checks s ++ [sh_closure s])%list;
         sh_timers := sh_timers s; sh_active := sh_active s |}
  | CheckDone i healthy =>
      match sh_checks s !! i with
      | None => s
      | Some snapshot =>
          rendered (checked healthy <$> snapshot)
            {| sh_resolvers := sh_resolvers s; sh_closure := sh_closure s;
               sh_checks := delete i (sh_checks s); sh_timers := sh_timers s;
               sh_active := sh_active s |}
      end
  | BalancesDone updates => rendered (with_balances updates (sh_resolvers s)) s
  end.

Definition shell_run (l : list ShellEvent) (s : Shell) : Shell :=
  fold_left (fun s e => shell_step e s) l s.

(** ** The selection *)

(** The ids of the rows with their flags. *)
Definition flags (resolvers : list PanelResolver) : list (string * bool) :=
  (fun r => (pr_id r, pr_enabled r)) <$> resolvers.

(** [activeResolvers] once the queued callbacks have run. *)
Definition settled (s : Shell) : list string :=
  fold_left (fun a t => handleResolverToggle t.1 t.2 a) (sh_timers s) (sh_active s).

(** States reached when the user does not click while a health check is under
    way. *)
Inductive calm : Shell -> Prop :=
  | calm_init : calm initial_shell
  | calm_step s e :
      calm s -> (forall i, e = Toggle i -> sh_checks s = []) -> calm (shell_step e s).

Record consistent (s : Shell) : Prop := {
  co_ids : NoDup (flags (sh_resolvers s)).*1;
  co_closure : flags (sh_closure s) = flags (sh_resolvers s);
  co_checks : forall c, c ∈ sh_checks s -> flags c = flags (sh_resolvers s);
  co_once : NoDup (settled s);
  co_active : forall i, i ∈ settled s <-> (i, true) ∈ flags (sh_resolvers s)
}.

Lemma flags_checked h l : flags (checked h <$> l) = flags l.
Proof.
  unfold flags. rewrite <- list_fmap_compose. apply list_fmap_ext. intros _ r _. simpl.
  unfold checked. destruct (pr_enabled r) eqn:E; simpl; [destruct (h _) as [[]|]|]; simpl; by rewrite ?E.
Qed.

Lemma flags_balances u l : flags (with_balances u l) = flags l.
Proof.
  unfold flags, with_balances. rewrite <- list_fmap_compose. apply list_fmap_ext.
  intros _ r _. unfold compose. by destruct (List.find _ u).
Qed.

Lemma enabled_key_flags l : enabled_key l = (flags l).*2.
Proof. unfold enabled_key, flags. by rewrite <- list_fmap_compose. Qed.

(** A render with the same flags leaves the selection alone. *)
Lemma rendered_consistent l s :
  consistent s -> flags l = flags (sh_resolvers s) -> consistent (rendered l s).
Proof.
  intros [H1 H2 H3 H4 H5] Hl. unfold rendered. rewrite decide_True.
  - split; simpl; rewrite ?Hl; done.
  - by rewrite !enabled_key_flags, Hl, H2.
Qed.

(** The rows after a click. *)
Lemma flags_toggle i b l :
  flags ((fun r => if String.eqb (pr_id r) i then set_enabled_row b r else r) <$> l) =
  (fun f => if String.eqb f.1 i then (f.1, b) else f) <$> flags l.
Proof.
  unfold flags. rewrite <- !list_fmap_compose. apply list_fmap_ext. intros _ r _. simpl.
  by destruct (String.eqb (pr_id r) i).
Qed.

Lemma toggled_ids i b (fs : list (string * bool)) :
  ((fun f => if String.eqb f.1 i then (f.1, b) else f) <$> fs).*1 = fs.*1.
Proof.
  rewrite <- list_fmap_compose. apply list_fmap_ext. intros _ f _. simpl.
  by destruct (String.eqb f.1 i).
Qed.

Lemma toggled_on i b (fs : list (string * bool)) j :
  NoDup fs.*1 -> i ∈ fs.*1 ->
  (j, true) ∈ ((fun f => if String.eqb f.1 i then (f.1, b) else f) <$> fs) <->
  if decide (j = i) then b = true else (j, true) ∈ fs.
Proof.
  intros Hnd Hi. rewrite list_elem_of_fmap. split.
  - intros ([k c] & Heq & Hin). simpl in Heq. destruct (String.eqb_spec k i) as [->|Hne]; simplify_eq.
    + by rewrite decide_True.
    + by rewrite decide_False.
  - destruct (decide (j = i)) as [->|Hne].
    + intros ->. apply list_elem_of_fmap in Hi as ([k c] & -> & Hin). exists (k, c). simpl.
      by rewrite String.eqb_refl.
    + intros Hin. exists (j, true). simpl. by rewrite (proj2 (String.eqb_neq _ _) Hne).
Qed.

Lemma settled_snoc s i b :
  fold_left (fun a t => handleResolverToggle t.1 t.2 a) (sh_timers s ++ [(i, b)]) (sh_active s) =
  handleResolverToggle i b (settled s).
Proof. unfold settled. by rewrite fold_left_app. Qed.

(** One queued callback on a selection that agrees with the rows. *)
Lemma toggle_selection (a : list string) i b :
  NoDup a -> (b = true -> i ∉ a) ->
  NoDup (handleResolverToggle i b a) /\
  forall j, j ∈ handleResolverToggle i b a <-> if decide (j = i) then b = true else j ∈ a.
Proof.
  intros Hnd Hnew. unfold handleResolverToggle. destruct b.
  - split.
    + apply NoDup_app. split_and!; [done| |apply NoDup_singleton].
      intros j Hj. rewrite list_elem_of_singleton. intros ->. by apply Hnew in Hj.
    + intros j. rewrite elem_of_app, list_elem_of_singleton. case_decide; naive_solver.
  - split; [by apply NoDup_ListNoDup, List.NoDup_filter, NoDup_ListNoDup|].
    intros j. rewrite list_elem_of_In, List.filter_In, negb_true_iff, String.eqb_neq, <- list_elem_of_In.
    case_decide; [by split; [intros [_ ?]|]|by split; [intros [? _]|]].
Qed.

Lemma NoDup_fst_functional {A B} (l : list (A * B)) x y z :
  NoDup l.*1 -> (x, y) ∈ l -> (x, z) ∈ l -> y = z.
Proof.
  intros Hnd Hy Hz. apply list_elem_of_lookup in Hy as [i Hi], Hz as [j Hj].
  assert (i = j) as ->; [|by rewrite Hi in Hj; simplify_eq].
  eapply (NoDup_lookup l.*1 i j x); [done| |]; rewrite list_lookup_fmap, ?Hi, ?Hj; done.
Qed.

Lemma fst_snd_eq {A B} (l l' : list (A * B)) : l.*1 = l'.*1 -> l.*2 = l'.*2 -> l = l'.
Proof. intros E1 E2. by rewrite <- (zip_fst_snd l), <- (zip_fst_snd l'), E1, E2. Qed.

Lemma toggle_consistent i s :
  consistent s -> sh_checks s = [] -> consistent (toggleResolver i s).
Proof.
  intros [Hnd Hclo Hchk Honce Hact] Hno. unfold toggleResolver.
  destruct (List.find _ _) as [r|] eqn:Hf; [|by split].
  apply List.find_some in Hf as [Hin Hid]. apply String.eqb_eq in Hid.
  set (b := negb (pr_enabled r)). set (rows := _ <$> sh_resolvers s).
  assert ((i, pr_enabled r) ∈ flags (sh_resolvers s)) as Hold.
  { apply list_elem_of_fmap. exists r. split; [by rewrite <- Hid|by apply list_elem_of_In]. }
  assert (i ∈ (flags (sh_resolvers s)).*1) as Hi
    by (apply list_elem_of_fmap; by exists (i, pr_enabled r)).
  assert (b = true -> i ∉ settled s) as Hnew.
  { intros Hb Hin'. apply Hact in Hin'. unfold b in Hb. apply negb_true_iff in Hb. rewrite Hb in Hold.
    by pose proof (NoDup_fst_functional _ _ _ _ Hnd Hin' Hold). }
  destruct (toggle_selection (settled s) i b Honce Hnew) as [Honce' Hact'].
  pose proof (flags_toggle i b (sh_resolvers s)) as Hfl. fold rows in Hfl.
  assert (flags (sh_resolvers (rendered rows s)) = flags rows /\
    flags (sh_closure (rendered rows s)) = flags rows /\
    (forall c, c ∈ sh_checks (rendered rows s) -> flags c = flags rows) /\
    sh_timers (rendered rows s) = sh_timers s /\ sh_active (rendered rows s) = sh_active s)
    as (E1 & E2 & E3 & E4 & E5).
  { unfold rendered. case_decide as Hkey; simpl; rewrite Hno; split_and!; try done.
    - rewrite !enabled_key_flags in Hkey. symmetry. apply fst_snd_eq; [|done].
      by rewrite Hfl, toggled_ids, Hclo.
    - intros c Hc. by apply elem_of_nil in Hc.
    - intros c Hc. by apply list_elem_of_singleton in Hc as ->. }
  split; simpl; rewrite ?E1, ?E2; try done.
  - rewrite Hfl, toggled_ids. done.
  - unfold settled. simpl. rewrite E4, E5, settled_snoc. done.
  - unfold settled. simpl. rewrite E4, E5, settled_snoc. intros j. rewrite Hact', Hfl, toggled_on by done.
    case_decide; [done|apply Hact].
Qed.

Lemma calm_consistent s : calm s -> consistent s.
Proof.
  induction 1 as [|s e Hc IH Hcalm].
  - split.
    + apply (bool_decide_unpack _). vm_compute. exact Logic.I.
    + done.
    + intros c Hin. by apply list_elem_of_singleton in Hin as ->.
    + apply NoDup_nil_2.
    + intros i. split; [intros Hin; by apply elem_of_nil in Hin|].
      unfold flags, initial_shell. simpl. rewrite !elem_of_cons, elem_of_nil. naive_solver.
  - destruct e as [i| | |i h|u]; simpl.
    + apply toggle_consistent; [done|by apply (Hcalm i)].
    + destruct (sh_timers s) as [|[i b] rest] eqn:Et; [exact IH|].
      destruct IH as [H1 H2 H3 H4 H5]. unfold settled in *. rewrite Et in *. by split.
    + destruct IH as [H1 H2 H3 H4 H5]. split; simpl; try done.
      intros c. rewrite elem_of_app, list_elem_of_singleton. intros [Hin| ->]; [by apply H3|done].
    + destruct (sh_checks s !! i) as [c|] eqn:Hi; [|done].
      destruct IH as [H1 H2 H3 H4 H5].
      apply rendered_consistent; [split; simpl; try done|].
      * intros c' Hc'. apply H3. rewrite delete_take_drop in Hc'.
        rewrite <- (take_drop i (sh_checks s)). apply elem_of_app.
        apply elem_of_app in Hc' as [Hc'|Hc']; [by left|right].
        rewrite (drop_S (sh_checks s) c i Hi). by right.
      * simpl. rewrite flags_checked. apply H3. by eapply list_elem_of_lookup_2.
    + apply rendered_consistent; [done|]. apply flags_balances.
Qed.

(** ** Properties *)

(** C33. The selection is what the panel shows: as long as no resolver is toggled
    while a health check is under way, in every state that clicks, timers,
    health checks and balance updates lead to, [activeResolvers] of the page,
    once the queued callbacks have run, lists every enabled resolver exactly
    once and no other. *)
Theorem panel_selection_consistent (s : Shell) :
  calm s -> sh_timers s = [] ->
  NoDup (sh_active s) /\
  forall i, i ∈ sh_active s <-> exists r, r ∈ sh_resolvers s /\ pr_id r = i /\ pr_enabled r = true.
Proof.
  intros Hc Ht. destruct (calm_consistent s Hc) as [_ _ _ Honce Hact].
  unfold settled in *. rewrite Ht in *. split; [exact Honce|]. intros i. rewrite (Hact i).
  unfold flags. rewrite list_elem_of_fmap. split.
  - intros (r & Heq & Hin). simplify_eq. exists r. split_and!; [done|done|]. congruence.
  - intros (r & Hin & <- & Hb). exists r. by rewrite Hb.
Qed.

(** The first check asks nobody and ends at once. Then a resolver is picked, and
    another while the check of the first is under way; the check ends, with the
    second as it was before the click, and the user picks it again. *)
Definition stale_clicks : list ShellEvent :=
  [CheckDone 0 (fun _ => None); Toggle "resolver-1"; Fire; Toggle "resolver-2"; Fire;
   CheckDone 0 (fun _ => Some true); Toggle "resolver-2"; Fire].

(** The selection this leaves behind, and what it makes of the strategies. *)
Definition twice : list string := ["resolver-1"; "resolver-2"; "resolver-2"].

Lemma stale_active : sh_active (shell_run stale_clicks initial_shell) = twice.
Proof. vm_compute. reflexivity. Qed.

Lemma twice_members :
  isActiveResolver resolver_1 twice = true /\ isActiveResolver resolver_2 twice = true /\
  isActiveResolver resolver_3 twice = false.
Proof. split_and!; vm_compute; reflexivity. Qed.

Lemma twice_index :
  activeResolverIndex resolver_1 twice = Some 0%nat /\
  activeResolverIndex resolver_2 twice = Some 1%nat.
Proof. split; vm_compute; reflexivity. Qed.

Definition two_thirds : number := mul third (of_Z 2).

Lemma twice_range :
  fillRange true third 0 3 = (of_Z 0, third) /\ fillRange true third 1 3 = (third, two_thirds).
Proof. split; vm_compute; reflexivity. Qed.

Lemma third_of_rest (current : number) :
  geb current two_thirds = true -> geb current third = true /\ ltb current third = false /\
    ltb current (of_Z 0) = false.
Proof.
  assert (leb third two_thirds = true /\ leb (of_Z 0) third = true) as [H1 H2]
    by (split; vm_compute; reflexivity).
  unfold geb. intros H3. pose proof (leb_trans _ _ _ H1 H3) as H4. pose proof (leb_trans _ _ _ H2 H4).
  assert (forall x, leb x current = true -> is_number x = true -> ltb current x = false) as Hlt.
  { intros x Hx Hn. rewrite ltb_not_leb; [by rewrite Hx| |done].
    destruct current; [by destruct x as [|[]|]|done|done]. }
  split_and!; [done|by apply Hlt|by apply Hlt].
Qed.

(** A click during a health check breaks the selection: the check, which
    closed over the rows from before the click, overwrites the flag when it ends,
    while the callback has told the page; the next click on the resolver, which
    looks disabled, adds it to [activeResolvers] a second time. An order sent
    then has three parts for two resolvers, and once two thirds of it are filled
    no resolver fills the rest, whatever its balance and the required amount. *)
Theorem stale_check_duplicates (order : Order) me balance required current t1 t2 :
  activeResolvers order = Some (sh_active (shell_run stale_clicks initial_shell)) ->
  enabled_auction order = None -> partial_enabled order = true ->
  me = resolver_1 \/ me = resolver_2 \/ me = resolver_3 -> geb current two_thirds = true ->
  decide_fill me order balance required current t1 t2 = Ok (of_Z 0).
Proof.
  rewrite stale_active. intros Ha Hauc Hp Hme Hcur.
  assert (active_list order = twice) as Hl by (unfold active_list; by rewrite Ha).
  unfold decide_fill. rewrite Hl, Hauc, Hp.
  change (activeResolverCount twice) with 3%nat. change (length twice) with 3%nat.
  destruct twice_members as (E1 & E2 & E3), twice_index as [I1 I2], twice_range as [R1 R2].
  destruct (third_of_rest current Hcur) as (T1 & T2 & T3).
  change (baseFill me true current 3) with (Some third).
  destruct Hme as [->|[->| ->]]; rewrite ?E1, ?E2, ?E3; cbn [negb andb Nat.eqb]; [| |done].
  - by rewrite I1, R1, T1, T3.
  - by rewrite I2, R2, Hcur, T2.
Qed.

(** ** Examples *)

Module ShellExample.

(** The first check ends, the user picks a resolver, and the callback runs. *)
Definition picked : Shell :=
  shell_run [CheckDone 0 (fun _ => None); Toggle "resolver-2"; Fire] initial_shell.

Lemma picked_calm : calm picked.
Proof.
  unfold picked, shell_run. cbn [fold_left].
  apply calm_step; [apply calm_step; [apply calm_step; [apply calm_init|]|]|]; intros i Hi;
    try discriminate; vm_compute; reflexivity.
Qed.

Lemma panel_selection_consistent_witness :
  sh_timers picked = [] /\ NoDup (sh_active picked) /\ sh_active picked = ["resolver-2"].
Proof.
  split; [vm_compute; reflexivity|]. split; [|vm_compute; reflexivity].
  refine (proj1 (panel_selection_consistent picked picked_calm _)). vm_compute. reflexivity.
Defined.

Definition picked_order : Order := {|
  order_dto := {|
    fromChain := ETHEREUM; toChain := APTOS; fromToken := "0xweth"; toToken := "apt";
    fromAmount := "1000"; minToAmount := "900"; maker := "0xm"; receiver := "0xr";
    signature := "0x00"; deadline := of_Z 2000000000; nonce := "1";
    partialFillAllowed := true; partialFillEnabled := true; secretHash := None;
    secretHashes := None; partialFillSecrets := None; maxParts := None;
    activeResolvers := Some twice; dutchAuction := None; permit := None; permitSignature := None;
    gasless := None; gaslessData := None |};
  id := "o1"; status := PARTIALLY_FILLED; filledAmount := "667"; filledPercentage := of_Z 67;
  createdAt := 0; updatedAt := 0; fills := []
|}.

Lemma stale_check_duplicates_witness :
  decide_fill resolver_2 picked_order 900 900 (of_Z 67) (of_Z 0) (of_Z 0) = Ok (of_Z 0).
Proof.
  apply stale_check_duplicates; [by rewrite stale_active|reflexivity|reflexivity|by right; left|].
  vm_compute. reflexivity.
Defined.
End ShellExample.
