(* ===== verification/AuctionDisplay.v ===== *)
(** * The auction display

    [DutchAuctionProgress.tsx]: what the page shows of a running auction, and how
    it compares with what the resolvers compute. The display divides the clock's
    milliseconds by 1000 and keeps the fraction, while the resolvers take whole
    seconds; the comparison brackets the display between two numbers of 1024ths
    of a second, on which binary64 arithmetic is exact. *)

From Stdlib Require Import ZArith Lia.
From stdpp Require Import base numbers list strings.
From S2P Require Import Prelude.
From S2P Require Import JsNumber.
From S2P Require Import JsString.
From S2P Require Import JsFormat.
From S2P Require Import DutchAuction.
From S2P Require Import FillStrategy.
From S2P Require Import Resolver.
From S2P Require Import SwapPage.

Local Open Scope string_scope.
Local Open Scope Z_scope.

(** ** The component *)

Record ShownStatus := {
  ss_percentComplete : number;
  ss_currentRate : number;
  ss_nextRateDropIn : number;
  ss_isActive : bool
}.

(** [Math.ceil(x)] *)
Definition ceil (x : number) : number := neg (floor (neg x)).

(** [Date.now() / 1000], with [t] the clock's milliseconds *)
Definition fractional_seconds (t : Z) : number := div (of_Z t) (of_Z 1000).

Definition updateAuctionStatus (auction : DutchAuction) (t : Z) : ShownStatus :=
  let now := fractional_seconds t in
  let elapsed := sub now (startTimestamp auction) in
  let rateDrops := floor (div elapsed (decrementInterval auction)) in
  let nextDropTime :=
    add (startTimestamp auction) (mul (add rateDrops (of_Z 1)) (decrementInterval auction)) in
  {| ss_percentComplete := shown_percentage auction now;
     ss_currentRate := shown_rate auction now;
     ss_nextRateDropIn := ceil (max (of_Z 0) (sub nextDropTime now));
     ss_isActive := shown_active auction now |}.

Definition formatRate (rate : number) : string :=
  if ltb rate (lit 1 1000) then toFixed rate 6
  else if ltb rate (lit 1 100) then toFixed rate 4 else toFixed rate 2.

Definition formatTime (s : number) : string :=
  let mins := floor (div s (of_Z 60)) in
  let secs := rem s (of_Z 60) in
  if gtb mins (of_Z 0) then number_toString mins ++ "m " ++ number_toString secs ++ "s"
  else number_toString secs ++ "s".

Record ShownResolver := {
  sr_name : string;
  sr_strategy : string;
  sr_fillRange : string;
  sr_activeCondition : string;
  sr_isActive : bool;
  sr_hasFilled : bool
}.

(** [partialFills.some(f => f.resolver?.toLowerCase() === address)] *)
Definition filled_by (address : string) (resolversOfFills : list (option string)) : bool :=
  existsb (fun r => match r with
                    | Some a => String.eqb (toLowerCase a) (toLowerCase address)
                    | None => false
                    end) resolversOfFills.

Definition resolverStatuses (st : ShownStatus) (fills : list (option string)) : list ShownResolver :=
  let p := ss_percentComplete st in
  [{| sr_name := "Resolver-1"; sr_strategy := "Aggressive"; sr_fillRange := "0-33%";
      sr_activeCondition := "< 40% auction"; sr_isActive := ltb p (of_Z 40);
      sr_hasFilled := filled_by "0x4718eafbbdc0ddaafeB520ff641c6aecba8042fc" fills |};
   {| sr_name := "Resolver-2"; sr_strategy := "Patient"; sr_fillRange := "33-66%";
      sr_activeCondition := "> 60% auction"; sr_isActive := gtb p (of_Z 60);
      sr_hasFilled := filled_by "0x3059921a0e8362110e8141f7c1d25eec3762294b" fills |};
   {| sr_name := "Resolver-3"; sr_strategy := "Opportunistic"; sr_fillRange := "66-100%";
      sr_activeCondition := "30-80% auction";
      sr_isActive := gtb p (of_Z 30) && ltb p (of_Z 80);
      sr_hasFilled := filled_by "0xf288aac4d29092fd7ec652357d46900a4f05425b" fills |}].

(** ** 1024ths of a second *)

Section Ticks.
Local Opaque scale overflow.

Definition ticks (k : Z) : number := Finite (k * 2 ^ 1064).

Lemma scale_ticks : scale = 1024 * 2 ^ 1064.
Proof. rewrite scale_pow2. change 1024 with (2 ^ 10). by rewrite <- Z.pow_add_r by lia. Qed.

Lemma tick_pos : 0 < 2 ^ 1064.
Proof. by apply Z.pow_pos_nonneg. Qed.

Lemma ticks_double (k : Z) : small k -> is_double (k * 2 ^ 1064) = true.
Proof.
  unfold small. intros H. pose proof tick_pos. apply is_double_spec. split.
  - by exists k, 1064.
  - rewrite overflow_scale, scale_ticks, Z.abs_mul, (Z.abs_eq (2 ^ 1064)) by lia.
    rewrite Z.mul_assoc. apply Z.mul_lt_mono_pos_r; lia.
Qed.

Lemma of_Z_ticks (k : Z) : small k -> of_Z k = ticks (1024 * k).
Proof. intros H. rewrite of_Z_small by done. unfold ticks. rewrite scale_ticks. f_equal. ring. Qed.

Lemma sub_ticks (j k : Z) : small (j - k) -> sub (ticks j) (ticks k) = ticks (j - k).
Proof.
  intros H. unfold sub, ticks. cbn [add neg].
  replace (j * 2 ^ 1064 + - (k * 2 ^ 1064)) with ((j - k) * 2 ^ 1064) by ring.
  by apply round_double, ticks_double.
Qed.

Lemma leb_ticks (j k : Z) : leb (ticks j) (ticks k) = (j <=? k).
Proof.
  pose proof tick_pos. unfold ticks. cbn [leb].
  destruct (Z.leb_spec j k), (Z.leb_spec (j * 2 ^ 1064) (k * 2 ^ 1064)); nia.
Qed.

Lemma div_ticks (k b : Z) :
  0 < b -> small k -> small (1024 * b) -> div (ticks k) (of_Z b) = div (of_Z k) (of_Z (1024 * b)).
Proof.
  intros Hb Hk Hs. pose proof scale_pos. pose proof tick_pos.
  rewrite (of_Z_small k), (of_Z_small (1024 * b)), (of_Z_small b) by (done || (unfold small in *; lia)).
  unfold ticks. cbn [div].
  destruct (Z.eqb_spec (b * scale) 0), (Z.eqb_spec (1024 * b * scale) 0); [nia..|].
  rewrite !Z.sgn_pos, !Z.abs_eq, !Z.mul_1_l by nia.
  rewrite <- (round_cancel (k * 2 ^ 1064 * scale) (b * scale) 1024) by nia.
  f_equal; rewrite ?scale_ticks; ring.
Qed.

Lemma ceil_mono (x y : number) : leb x y = true -> leb (ceil x) (ceil y) = true.
Proof. intros H. by apply neg_anti, floor_mono, neg_anti. Qed.

Lemma ceil_ticks (k n : Z) : small n -> 1024 * (n - 1) < k <= 1024 * n -> ceil (ticks k) = of_Z n.
Proof.
  intros Hn Hk. pose proof tick_pos. rewrite of_Z_small by done. unfold ceil, ticks. cbn [neg floor].
  f_equal. replace (- (k * 2 ^ 1064) / scale) with (- n); [ring|].
  apply Z.div_unique with ((1024 * n - k) * 2 ^ 1064); rewrite scale_ticks; [left; nia|ring].
Qed.
End Ticks.

(** ** The display between two whole seconds *)

Lemma ticks_round (k : Z) : small k -> ticks k = round (k * 2 ^ 1064) 1.
Proof. intros Hk. symmetry. by apply round_double, ticks_double. Qed.

(** The display's clock is a whole second or less than one later, by at least a
    1024th, since the clock counts milliseconds. *)
Lemma fractional_bounds (t : Z) :
  timestamp t ->
  leb (ticks (1024 * (t / 1000))) (fractional_seconds t) = true /\
  leb (fractional_seconds t) (ticks (1024 * (t / 1000 + 1) - 1)) = true.
Proof.
  unfold timestamp. intros Ht. pose proof (Z.div_mod t 1000 ltac:(lia)) as Hd.
  pose proof (Z.mod_pos_bound t 1000 ltac:(lia)) as Hm. pose proof tick_pos as Hp.
  pose proof scale_pos as Hs.
  assert (fractional_seconds t = round (t * scale) 1000) as ->.
  { unfold fractional_seconds. rewrite !of_Z_small by (unfold small; lia). cbn [div].
    destruct (Z.eqb_spec (1000 * scale) 0); [lia|].
    rewrite Z.sgn_pos, Z.abs_eq, Z.mul_1_l by lia. by apply round_cancel. }
  rewrite !ticks_round by (unfold small; lia). rewrite scale_ticks.
  split; apply round_mono; nia.
Qed.

Lemma resolver_seconds (t : Z) : timestamp t -> Resolver.seconds t = of_Z (t / 1000).
Proof. unfold timestamp. intros. apply floor_div_of_Z; lia. Qed.

Lemma clock_ranges (t : Z) :
  0 <= t / 1000 -> timestamp (t + 1000) ->
  timestamp t /\ timestamp (t / 1000) /\ Resolver.seconds t = of_Z (t / 1000) /\
  Resolver.seconds (t + 1000) = of_Z (t / 1000 + 1).
Proof.
  intros Hq Ht. assert (timestamp t) as Ht'.
  { unfold timestamp in *. split; [|lia]. destruct (Z.le_gt_cases 0 t) as [|Hneg]; [done|].
    pose proof (Z.div_lt_upper_bound t 1000 0). lia. }
  rewrite !resolver_seconds by done. split_and!; [done| |done|].
  - unfold timestamp in *. split; [done|]. apply Z.div_lt_upper_bound; lia.
  - replace (t + 1000) with (t + 1 * 1000) by ring. by rewrite Z.div_add by lia.
Qed.

Section Shown.
Context (a : DutchAuction) (start dur interval t : Z).
Context (Ha : seconds_auction a start dur interval) (Hi : interval <= 2 ^ 43).
Context (Ht : timestamp t) (Hstarted : start <= t / 1000).

Let now : number := fractional_seconds t.
Let elapsed : number := sub now (startTimestamp a).
(** The whole seconds since the start, as the resolvers count them. *)
Let e : Z := t / 1000 - start.

Lemma whole_bound : 0 <= t / 1000 < 2 ^ 43 - 1 /\ 0 <= e < 2 ^ 43 - 1.
Proof.
  unfold e. unfold timestamp in Ht. pose proof (sa_start_range Ha).
  assert (0 <= t / 1000 < 2 ^ 43 - 1) by
    (split; [apply Z.div_pos; lia|apply Z.div_lt_upper_bound; lia]). lia.
Qed.

Local Ltac tiny := pose proof whole_bound; pose proof (sa_start_range Ha);
  pose proof (sa_duration_range Ha); pose proof (sa_interval_range Ha);
  unfold small, e in *; lia.

Lemma elapsed_bounds :
  leb (ticks (1024 * e)) elapsed = true /\ leb elapsed (ticks (1024 * (e + 1) - 1)) = true.
Proof.
  destruct (fractional_bounds t Ht) as [Hlo Hhi]. unfold elapsed, now.
  rewrite (sa_start Ha), of_Z_ticks by tiny.
  replace (1024 * e) with (1024 * (t / 1000) - 1024 * start) by (unfold e; ring).
  replace (1024 * (e + 1) - 1) with (1024 * (t / 1000 + 1) - 1 - 1024 * start) by (unfold e; ring).
  rewrite <- (sub_ticks (1024 * (t / 1000))), <- (sub_ticks (1024 * (t / 1000 + 1) - 1)) by tiny.
  by split; apply add_mono_l.
Qed.

Lemma elapsed_finite : is_finite elapsed = true.
Proof. destruct elapsed_bounds as [H1 H2]. by eapply leb_finite_between. Qed.

(** The display runs as long as the auction. *)
Lemma shown_active_spec : shown_active a now = (t / 1000 <? start + dur).
Proof.
  destruct elapsed_bounds as [Hlo Hhi]. unfold shown_active. fold elapsed.
  rewrite (sa_duration Ha), of_Z_ticks by tiny.
  rewrite ltb_not_leb by (done || apply finite_is_number, elapsed_finite).
  destruct (Z.ltb_spec (t / 1000) (start + dur)) as [Hr|Hr].
  - destruct (leb (ticks (1024 * dur)) elapsed) eqn:E; [|done].
    pose proof (leb_trans _ _ _ E Hhi) as Hb. rewrite leb_ticks in Hb. zbool. tiny.
  - rewrite (leb_trans _ (ticks (1024 * e)) _); [done| |done].
    rewrite leb_ticks. apply Z.leb_le. tiny.
Qed.

(** The drops it counts are those of the whole seconds. *)
Lemma shown_drops : floor (div elapsed (decrementInterval a)) = of_Z (e / interval).
Proof.
  destruct elapsed_bounds as [Hlo Hhi]. rewrite (sa_interval Ha).
  pose proof (sa_interval_range Ha) as Hr.
  assert (ltb (Finite 0) (of_Z interval) = true /\ is_finite (of_Z interval) = true) as [H0 Hf].
  { rewrite <- of_Z_0, ltb_of_Z by tiny. split; [apply Z.ltb_lt; lia|apply of_Z_finite; tiny]. }
  assert (forall k, 1024 * e <= k <= 1024 * (e + 1) - 1 ->
            floor (div (ticks k) (of_Z interval)) = of_Z (e / interval)) as Hk.
  { intros k Hk. rewrite div_ticks, floor_div_of_Z by tiny.
    rewrite <- Z.div_div by lia. do 2 f_equal. symmetry.
    apply Z.div_unique with (k - 1024 * e); lia. }
  apply leb_antisym.
  - rewrite <- (Hk (1024 * (e + 1) - 1)) by lia.
    by apply floor_mono, div_mono_pos; [..|apply elapsed_finite|].
  - rewrite <- (Hk (1024 * e)) by lia.
    by apply floor_mono, div_mono_pos; [..|apply elapsed_finite].
Qed.

(** The countdown, rounded up, is that of the whole seconds. *)
Lemma shown_countdown :
  ss_nextRateDropIn (updateAuctionStatus a t) = of_Z (interval - e mod interval).
Proof.
  destruct (fractional_bounds t Ht) as [Hlo Hhi]. fold now in Hlo, Hhi.
  pose proof whole_bound as [Hq He]. pose proof (sa_interval_range Ha) as Hr.
  pose proof (sa_start_range Ha) as Hs.
  pose proof (Z.div_mod e interval ltac:(lia)) as Hd.
  pose proof (Z.mod_pos_bound e interval ltac:(lia)) as Hm.
  assert (0 <= e / interval <= e) as Hquot
    by (split; [apply Z.div_pos; lia|apply Z.div_le_upper_bound; nia]).
  set (next := start + (e / interval + 1) * interval).
  assert (next - t / 1000 = interval - e mod interval) as Hn by (unfold next, e in *; lia).
  unfold updateAuctionStatus. cbn [ss_nextRateDropIn]. fold now. fold elapsed.
  rewrite shown_drops, (sa_start Ha), (sa_interval Ha), add_of_Z, mul_of_Z, add_of_Z
    by (unfold small; nia). fold next.
  assert (is_finite (of_Z next) = true) as Hf by (apply of_Z_finite; unfold small; nia).
  pose proof (sub_anti_r (of_Z next) _ _ Hlo Hf) as Hup.
  pose proof (sub_anti_r (of_Z next) _ _ Hhi Hf) as Hdown.
  rewrite (of_Z_ticks next) in * by (unfold small; nia).
  rewrite sub_ticks in Hup by (unfold small; lia). rewrite sub_ticks in Hdown by (unfold small; lia).
  set (left := sub (ticks (1024 * next)) now) in *. destruct (leb_is_number _ _ Hup) as [Hl _].
  rewrite of_Z_0. apply leb_antisym.
  - rewrite <- (ceil_ticks (1024 * next - 1024 * (t / 1000))) by (unfold small; lia).
    apply ceil_mono, max_lub; [|done]. change (Finite 0) with (ticks 0). rewrite leb_ticks.
    apply Z.leb_le. lia.
  - rewrite <- (ceil_ticks (1024 * next - (1024 * (t / 1000 + 1) - 1))) by (unfold small; lia).
    apply ceil_mono. eapply leb_trans; [exact Hdown|]. by apply max_r.
Qed.

Lemma shown_rate_spec : shown_rate a now = rate_after a (e / interval).
Proof. unfold shown_rate. fold elapsed. by rewrite shown_drops. Qed.

End Shown.

Section Progress.
Context (a : DutchAuction) (start dur interval : Z) (Ha : seconds_auction a start dur interval).

(** The progress at a number of seconds since the start. *)
Definition progress_at (x : number) : number :=
  min (mul (div x (duration a)) (of_Z 100)) (of_Z 100).

Lemma duration_pos : ltb (Finite 0) (duration a) = true /\ is_finite (duration a) = true.
Proof.
  pose proof (sa_duration_range Ha). rewrite (sa_duration Ha), <- of_Z_0, ltb_of_Z by (unfold small; lia).
  split; [apply Z.ltb_lt; lia|apply of_Z_finite; unfold small; lia].
Qed.

Definition moderate (x : number) : Prop :=
  leb (Finite 0) x = true /\ leb x (of_Z (2 ^ 44)) = true.

Lemma moderate_finite (x : number) : moderate x -> is_finite x = true.
Proof.
  intros [H0 H1]. eapply leb_finite_between; [exact H0|exact H1|reflexivity|].
  apply of_Z_finite. unfold small. lia.
Qed.

Lemma fraction_finite (x : number) :
  moderate x -> is_finite (div x (duration a)) = true /\ leb (Finite 0) (div x (duration a)) = true.
Proof.
  intros Hx. pose proof (moderate_finite x Hx) as Hf. destruct Hx as [H0 H1].
  destruct duration_pos as [Hd Hdf]. pose proof (sa_duration_range Ha) as Hr.
  pose proof (div_nonneg x (duration a) H0 Hf Hdf Hd) as Hn. split; [|exact Hn].
  destruct (div_of_Z_bounds (2 ^ 44) dur ltac:(lia) ltac:(lia)) as (r & E & _).
  assert (leb (div x (duration a)) (Finite r) = true) as Hle.
  { rewrite <- E, <- (sa_duration Ha).
    apply div_mono_pos; [exact H1|exact Hd|exact Hdf|exact Hf|]. apply of_Z_finite. unfold small. lia. }
  eapply leb_finite_between; [exact Hn|exact Hle|reflexivity|reflexivity].
Qed.

Lemma percent_mono (x y : number) :
  moderate x -> moderate y -> leb x y = true ->
  leb (mul (div x (duration a)) (of_Z 100)) (mul (div y (duration a)) (of_Z 100)) = true.
Proof.
  intros Hx Hy Hxy. destruct (fraction_finite x Hx), (fraction_finite y Hy), duration_pos.
  apply mul_mono_nonneg; [|vm_compute; reflexivity|vm_compute; reflexivity|assumption|assumption].
  apply div_mono_pos; [exact Hxy|assumption|assumption|by apply moderate_finite..].
Qed.

Lemma progress_mono (x y : number) :
  moderate x -> moderate y -> leb x y = true -> leb (progress_at x) (progress_at y) = true.
Proof.
  intros Hx Hy Hxy. pose proof (percent_mono x y Hx Hy Hxy) as Hm.
  destruct (leb_is_number _ _ Hm) as [Hmx Hmy]. unfold progress_at.
  assert (is_number (of_Z 100) = true) as H100 by (vm_compute; reflexivity).
  apply min_glb; [|by apply min_r].
  eapply leb_trans; [|exact Hm]. by apply min_l.
Qed.

Lemma progress_at_most (x : number) : moderate x -> leb (progress_at x) (of_Z 100) = true.
Proof.
  intros Hx. assert (leb x x = true) as Hr
    by (apply leb_refl, finite_is_number, moderate_finite, Hx).
  pose proof (percent_mono x x Hx Hx Hr) as Hm. destruct (leb_is_number _ _ Hm) as [Hmx _].
  apply min_r; [exact Hmx|vm_compute; reflexivity].
Qed.
End Progress.

(** ** What the resolvers compute *)

Lemma min_comm (x y : number) : min x y = min y x.
Proof.
  destruct (is_number x) eqn:Ex, (is_number y) eqn:Ey; [|by destruct x, y..].
  rewrite !min_spec by done. destruct (leb x y) eqn:E1, (leb y x) eqn:E2; try done.
  - by apply leb_antisym.
  - destruct (leb_total x y Ex Ey); congruence.
Qed.

Lemma leb_ltb_trans (x y z : number) : leb x y = true -> ltb y z = true -> ltb x z = true.
Proof.
  unfold ltb. intros Hxy [Hyz Hne]%andb_prop. rewrite (leb_trans _ _ _ Hxy Hyz). cbn [andb].
  destruct x as [|[]|], y as [|[]|], z as [|[]|]; cbn in *; zbool; try done; lia.
Qed.

Lemma ltb_leb_trans (x y z : number) : ltb x y = true -> leb y z = true -> ltb x z = true.
Proof.
  unfold ltb. intros [Hxy Hne]%andb_prop Hyz. rewrite (leb_trans _ _ _ Hxy Hyz). cbn [andb].
  destruct x as [|[]|], y as [|[]|], z as [|[]|]; cbn in *; zbool; try done; lia.
Qed.

Section Strategies.
Context (a : DutchAuction) (start dur interval : Z) (Ha : seconds_auction a start dur interval).

Lemma resolver_progress (s : Z) :
  timestamp s -> start <= s ->
  percentComplete (getAuctionStatus a (of_Z s)) =
    if start + dur <=? s then of_Z 100 else progress_at a (of_Z (s - start)).
Proof.
  intros Hs Hst. unfold getAuctionStatus. cbn [percentComplete].
  rewrite (after_end a start dur interval Ha s Hs). destruct (start + dur <=? s); [done|].
  pose proof (sa_start_range Ha). unfold geb.
  rewrite (sa_start Ha), leb_of_Z, sub_of_Z by (unfold timestamp, small in *; lia).
  rewrite (proj2 (Z.leb_le start s)) by lia. apply min_comm.
Qed.

Lemma resolver_active (s : Z) :
  timestamp s -> start <= s -> isActive (getAuctionStatus a (of_Z s)) = (s <? start + dur).
Proof.
  intros Hs Hst. unfold getAuctionStatus. cbn [isActive].
  rewrite (after_end a start dur interval Ha s Hs). pose proof (sa_start_range Ha). unfold geb.
  rewrite (sa_start Ha), leb_of_Z by (unfold timestamp, small in *; lia).
  rewrite (proj2 (Z.leb_le start s)) by lia. by rewrite Z.ltb_antisym.
Qed.

Lemma resolver_countdown (s : Z) :
  timestamp s -> start <= s -> s < start + dur ->
  nextRateDropIn (getAuctionStatus a (of_Z s)) = of_Z (interval - (s - start) mod interval).
Proof.
  intros Hs Hst Hr. pose proof (resolver_active s Hs Hst) as Hact.
  rewrite (proj2 (Z.ltb_lt _ _) Hr) in Hact. unfold getAuctionStatus in *.
  cbn [isActive nextRateDropIn] in *. rewrite Hact.
  by apply (next_drop a start dur interval Ha).
Qed.

Lemma resolver_rate (s : Z) :
  timestamp s -> start <= s -> s < start + dur ->
  currentRate (getAuctionStatus a (of_Z s)) = rate_after a ((s - start) / interval).
Proof.
  intros Hs Hst Hr. unfold getAuctionStatus. cbn [currentRate].
  rewrite (getCurrentRate_seconds a start dur interval Ha s Hs).
  destruct (Z.ltb_spec s start), (Z.leb_spec (start + dur) s); done || lia.
Qed.

(** The progress shown lies between those of the whole seconds around. *)
Lemma shown_progress (t : Z) :
  timestamp t -> start <= t / 1000 < start + dur ->
  leb (percentComplete (getAuctionStatus a (of_Z (t / 1000))))
    (ss_percentComplete (updateAuctionStatus a t)) = true /\
  leb (ss_percentComplete (updateAuctionStatus a t))
    (percentComplete (getAuctionStatus a (of_Z (t / 1000 + 1)))) = true.
Proof.
  intros Ht Hr. set (q := t / 1000) in *.
  destruct (whole_bound a start dur interval t Ha Ht ltac:(lia)) as [Hq He]. fold q in Hq, He.
  destruct (elapsed_bounds a start dur interval t Ha Ht ltac:(lia)) as [Hlo Hhi]. fold q in Hlo, Hhi.
  set (elapsed := sub (fractional_seconds t) (startTimestamp a)) in *.
  assert (forall k, 0 <= k <= 1024 * 2 ^ 44 -> moderate (ticks k)) as Hk.
  { intros k Hk. unfold moderate. change (Finite 0) with (ticks 0).
    rewrite of_Z_ticks, !leb_ticks by (unfold small; lia). split; apply Z.leb_le; lia. }
  assert (moderate elapsed) as Hm.
  { destruct (Hk (1024 * (q - start)) ltac:(lia)) as [H0 _].
    destruct (Hk (1024 * (q - start + 1) - 1) ltac:(lia)) as [_ H1].
    split; by eapply leb_trans. }
  change (ss_percentComplete (updateAuctionStatus a t)) with (progress_at a elapsed).
  rewrite !resolver_progress by (unfold timestamp; lia).
  rewrite (proj2 (Z.leb_gt (start + dur) q)) by lia. split.
  - apply (progress_mono a start dur interval Ha); [|done|]; rewrite of_Z_ticks by (unfold small; lia);
      [apply Hk; lia|done].
  - destruct (start + dur <=? q + 1); [by apply (progress_at_most a start dur interval Ha)|].
    apply (progress_mono a start dur interval Ha); [done|..]; rewrite of_Z_ticks by (unfold small; lia);
      [apply Hk; lia|].
    eapply leb_trans; [exact Hhi|]. rewrite leb_ticks. apply Z.leb_le. lia.
Qed.

(** On a whole second the two clocks are the same. *)
Lemma shown_progress_whole (t : Z) :
  timestamp t -> t mod 1000 = 0 -> start <= t / 1000 < start + dur ->
  ss_percentComplete (updateAuctionStatus a t) =
    percentComplete (getAuctionStatus a (of_Z (t / 1000))).
Proof.
  intros Ht H0 Hr. destruct (whole_bound a start dur interval t Ha Ht ltac:(lia)) as [Hq He].
  rewrite resolver_progress by (unfold timestamp; lia).
  rewrite (proj2 (Z.leb_gt (start + dur) (t / 1000))) by lia.
  assert (fractional_seconds t = of_Z (t / 1000)) as E.
  { unfold fractional_seconds. rewrite (Z_div_exact_full_2 t 1000) at 1 by lia.
    rewrite Z.mul_comm. apply div_of_Z_exact; unfold small; lia. }
  unfold updateAuctionStatus, shown_percentage. cbn [ss_percentComplete].
  rewrite E, (sa_start Ha), sub_of_Z by (pose proof (sa_start_range Ha); unfold small; lia). done.
Qed.
End Strategies.

(** ** Properties *)

(** C34. The display agrees with the resolvers at every millisecond, although it
    keeps the fraction of a second that they drop: it runs exactly as long as the
    auction and, while it runs, shows the rate and the countdown to the next drop
    that the resolvers compute; the progress it shows lies between the one they
    compute now and the one they compute a second later, and is equal to theirs on
    whole seconds. So Resolver-1 is shown ready only when its strategy would make
    the first fill, and Resolver-2 from the moment its strategy would or less than
    a second earlier; Resolver-3 only within its window or less than a second
    before it. *)
Theorem display_matches_strategies (a : DutchAuction) (start dur interval t : Z) fills
    (Ha : seconds_auction a start dur interval) (Hi : interval <= 2 ^ 43)
    (Ht : timestamp (t + 1000)) (Hs : start <= t / 1000) :
  let st := getAuctionStatus a (Resolver.seconds t) in
  let later := getAuctionStatus a (Resolver.seconds (t + 1000)) in
  let shown := updateAuctionStatus a t in
  ss_isActive shown = isActive st /\
  (isActive st = true ->
    ss_currentRate shown = currentRate st /\
    ss_nextRateDropIn shown = nextRateDropIn st /\
    leb (percentComplete st) (ss_percentComplete shown) = true /\
    leb (ss_percentComplete shown) (percentComplete later) = true /\
    (t mod 1000 = 0 -> ss_percentComplete shown = percentComplete st) /\
    exists r1 r2 r3, resolverStatuses shown fills = [r1; r2; r3] /\
      (sr_isActive r1 = true -> shouldFillNow aggressive st false = true) /\
      (shouldFillNow aggressive later false = true -> sr_isActive r1 = true) /\
      (shouldFillNow patient st false = true -> sr_isActive r2 = true) /\
      (sr_isActive r2 = true -> shouldFillNow patient later false = true) /\
      (gtb (percentComplete st) (of_Z 30) = true /\ ltb (percentComplete later) (of_Z 80) = true ->
        sr_isActive r3 = true) /\
      (sr_isActive r3 = true ->
        gtb (percentComplete later) (of_Z 30) = true /\
        ltb (percentComplete st) (of_Z 80) = true)).
Proof.
  destruct (clock_ranges t) as (Ht' & Hts & E1 & E2); [pose proof (sa_start_range Ha); lia|done|].
  cbv zeta. rewrite E1, E2, (resolver_active a start dur interval Ha) by done.
  split; [by apply (shown_active_spec a start dur interval t Ha Ht' Hs)|].
  intros Hrun%Z.ltb_lt.
  destruct (shown_progress a start dur interval Ha t Ht' ltac:(lia)) as [Hlo Hhi].
  split_and!.
  - rewrite (resolver_rate a start dur interval Ha) by (done || lia).
    by apply (shown_rate_spec a start dur interval t Ha Hi Ht' Hs).
  - rewrite (resolver_countdown a start dur interval Ha) by (done || lia).
    by apply (shown_countdown a start dur interval t Ha Hi Ht' Hs).
  - exact Hlo.
  - exact Hhi.
  - intros H0. by apply (shown_progress_whole a start dur interval Ha t Ht' H0).
  - do 3 eexists. split; [reflexivity|]. cbn [sr_isActive shouldFillNow]. unfold gtb.
    rewrite andb_true_iff. split_and!; [intros H..|intros [H1 H2]|intros [H1 H2]].
    + exact (leb_ltb_trans _ _ _ Hlo H).
    + exact (leb_ltb_trans _ _ _ Hhi H).
    + exact (ltb_leb_trans _ _ _ H Hlo).
    + exact (ltb_leb_trans _ _ _ H Hhi).
    + split; [exact (ltb_leb_trans _ _ _ H1 Hlo)|exact (leb_ltb_trans _ _ _ Hhi H2)].
    + split; [exact (ltb_leb_trans _ _ _ H1 Hhi)|exact (leb_ltb_trans _ _ _ Hlo H2)].
Qed.

(** ** Examples *)

Module DisplayExample.

(** A two-minute auction, half a second after three fifths of it. *)
Definition two_minutes : DutchAuction :=
  {| enabled := true; startTimestamp := of_Z 1700000000; duration := of_Z 120;
     startRate := of_Z 500; endRate := of_Z 475;
     decrementInterval := of_Z 30; decrementAmount := lit 5 2 |}.

Lemma two_minutes_ok : seconds_auction two_minutes 1700000000 120 30.
Proof. split; try reflexivity; try lia; try split; vm_compute; reflexivity. Qed.

(** The display is ahead of the strategies: it shows Resolver-2 as ready half a
    second before its strategy is. *)
Example shown_ahead :
  let shown := updateAuctionStatus two_minutes 1700000072500 in
  map sr_isActive (resolverStatuses shown []) = [false; true; true] /\
  shouldFillNow patient (getAuctionStatus two_minutes (Resolver.seconds 1700000072500)) false
    = false /\
  shouldFillNow patient (getAuctionStatus two_minutes (Resolver.seconds 1700000073000)) false
    = true.
Proof. vm_compute. split_and!; reflexivity. Qed.

Example shown_texts :
  let shown := updateAuctionStatus two_minutes 1700000072500 in
  formatRate (ss_currentRate shown) = "495.00" /\ formatTime (ss_nextRateDropIn shown) = "18s" /\
  formatTime (of_Z 75) = "1m 15s".
Proof. vm_compute. split_and!; reflexivity. Qed.

Lemma display_matches_strategies_witness :
  ss_currentRate (updateAuctionStatus two_minutes 1700000072500) =
    currentRate (getAuctionStatus two_minutes (Resolver.seconds 1700000072500)) /\
  ss_nextRateDropIn (updateAuctionStatus two_minutes 1700000072500) =
    nextRateDropIn (getAuctionStatus two_minutes (Resolver.seconds 1700000072500)).
Proof.
  assert (1700000000 <= 1700000072500 / 1000) as Hs by (vm_compute; discriminate).
  destruct (display_matches_strategies two_minutes 1700000000 120 30 1700000072500 []
              two_minutes_ok ltac:(lia) ltac:(unfold timestamp; lia) Hs) as [_ Hrun].
  destruct Hrun as (Hrate & Hdrop & _); [vm_compute; reflexivity|]. by split.
Defined.
End DisplayExample.
