(* ===== verification/AppShell.v ===== *)
(** * Accounts, balances and approval

    [App.tsx] with the accounts it connects and the balances it shows, and
    [ApprovalBanner.tsx]. Balances are read by handlers that run concurrently
    with connecting and disconnecting: timers, effects of a render and the
    refresh that a completed swap asks for. *)

From Stdlib Require Import ZArith Lia.
From stdpp Require Import base numbers list strings relations.
From S2P Require Import Prelude.
From S2P Require Import JsNumber.
From S2P Require Import JsString.
From S2P Require Import JsFormat.
From S2P Require Import OrderTypes.
From S2P Require Import Async.
From S2P Require Import Chain.
From S2P Require Import ChainService.
From S2P Require Import OrderIntake.
From S2P Require Import Web.
From S2P Require Import WebServices.

Local Open Scope string_scope.
Local Open Scope Z_scope.
Local Open Scope prog_scope.

(** ** The state *)

(** The state of [App] and its globals on [window]. A signer of the browser
    wallet is known by the address it signs for. *)
Record App := {
  app_ethAccount : option string;
  app_ethSigner : option string;
  app_ethBalance : string;
  app_aptosAccount : option string;
  app_aptosBalance : string;
  app_martianConnected : bool;
  window_martianAccount : option string
}.

Definition initial_app : App :=
  {| app_ethAccount := None; app_ethSigner := None; app_ethBalance := "0"; app_aptosAccount := None;
     app_aptosBalance := "0"; app_martianConnected := false; window_martianAccount := None |}.

Definition set_ethereum (account : option string) (a : App) : App :=
  {| app_ethAccount := account; app_ethSigner := account; app_ethBalance := app_ethBalance a;
     app_aptosAccount := app_aptosAccount a; app_aptosBalance := app_aptosBalance a;
     app_martianConnected := app_martianConnected a; window_martianAccount := window_martianAccount a |}.

Definition setEthBalance (b : string) (a : App) : App :=
  {| app_ethAccount := app_ethAccount a; app_ethSigner := app_ethSigner a; app_ethBalance := b;
     app_aptosAccount := app_aptosAccount a; app_aptosBalance := app_aptosBalance a;
     app_martianConnected := app_martianConnected a; window_martianAccount := window_martianAccount a |}.

Definition setAptosBalance (b : string) (a : App) : App :=
  {| app_ethAccount := app_ethAccount a; app_ethSigner := app_ethSigner a;
     app_ethBalance := app_ethBalance a; app_aptosAccount := app_aptosAccount a; app_aptosBalance := b;
     app_martianConnected := app_martianConnected a; window_martianAccount := window_martianAccount a |}.

Definition set_aptosAccount (x : option string) (a : App) : App :=
  {| app_ethAccount := app_ethAccount a; app_ethSigner := app_ethSigner a;
     app_ethBalance := app_ethBalance a; app_aptosAccount := x; app_aptosBalance := app_aptosBalance a;
     app_martianConnected := app_martianConnected a; window_martianAccount := window_martianAccount a |}.

Definition set_martian (connected : bool) (account : option string) (a : App) : App :=
  {| app_ethAccount := app_ethAccount a; app_ethSigner := app_ethSigner a;
     app_ethBalance := app_ethBalance a; app_aptosAccount := app_aptosAccount a;
     app_aptosBalance := app_aptosBalance a; app_martianConnected := connected;
     window_martianAccount := account |}.

(** [aptosAccount?.address || window.__martianAccount?.address] *)
Definition accountAddress (a : App) : option string :=
  match present (app_aptosAccount a) with
  | Some x => Some x
  | None => present (window_martianAccount a)
  end.

(** The body of the node's answer on an account's resources: each with its type
    and its [data.coin.value], a 64-bit amount the node prints in decimal. *)
Class AptosResources := {
  resources_json : string -> result (list (string * option Z))
}.

Definition COIN_STORE : string := "0x1::coin::CoinStore<0x1::aptos_coin::AptosCoin>".

Section App.
Context `{EthersUnits, AptosErrors, AptosResources}.

Abbreviation aprog := (wprog App).

(** ** Balances *)

(** [if (balance) setEthBalance(...)]: a balance of zero is no balance. *)
Definition updateEthBalance (signer : string) : aprog unit :=
  try_catch
    (balance <- nodeBalance signer;
     if balance =? 0 then Ret tt else modify (setEthBalance (formatEther18 balance)))
    (fun _ => Ret tt).

(** The effect on [ethSigner], run after a render that changed it. *)
Definition eth_effect : aprog unit :=
  a <- get;
  match app_ethSigner a with
  | Some signer => updateEthBalance signer
  | None => modify (setEthBalance "0")
  end.

Definition updateAptBalance (address : string) : aprog unit :=
  try_catch
    (balance <- AptosClient.getAptBalance address; modify (setAptosBalance balance))
    (fun _ => modify (setAptosBalance "0")).

(** The effect on [aptosAccount] and [martianConnected]. *)
Definition apt_effect : aprog unit :=
  a <- get;
  match accountAddress a with
  | Some address => updateAptBalance address
  | None => modify (setAptosBalance "0")
  end.

(** An answer that is not ok and a failed request both change nothing. *)
Definition refresh_apt_resources (address : string) : aprog unit :=
  try_catch
    (body <- httpGet ("https://fullnode.testnet.aptoslabs.com/v1/accounts/" ++ address ++ "/resources");
     resources <- of_result (resources_json body);
     match List.find (fun r => String.eqb r.1 COIN_STORE) resources with
     | None => Ret tt
     | Some (_, None) => Fail (Error "Cannot read properties of undefined (reading 'value')")
     | Some (_, Some value) =>
         modify (setAptosBalance (toFixed (div (of_Z value) (of_Z 100000000)) 6))
     end)
    (fun _ => Ret tt).

Definition updateAllBalances : aprog unit :=
  a <- get;
  match app_ethSigner a with
  | Some signer => updateEthBalance signer
  | None => Ret tt
  end;;
  a' <- get;
  match (match present (app_aptosAccount a) with
         | Some x => Some x
         | None => present (window_martianAccount a')
         end) with
  | Some address => refresh_apt_resources address
  | None => Ret tt
  end.

(** [handleRefreshBalances]: two reads that are not awaited; the one of the
    Aptos balance. *)
Definition refreshAptBalance (address : string) : aprog unit :=
  try_catch
    (balance <- AptosClient.getAptBalance address; modify (setAptosBalance balance))
    (fun _ => Ret tt).

(** ** Accounts *)

(** The wallet dialog, the signer and its address, as one request. *)
Definition connectEthereum : aprog unit :=
  connected <- attempt signerAddress;
  match connected with
  | Ok address => modify (set_ethereum (Some address));; eth_effect
  | Throw _ => Ret tt
  end.

Definition disconnectEthereum : aprog unit := modify (set_ethereum None);; eth_effect.

(** The wallet adapter reports another account. *)
Definition aptosAccountChanged (x : option string) : aprog unit :=
  modify (set_aptosAccount x);; apt_effect.

(** The effect runs again only when [martianConnected] changed. *)
Definition handleMartianConnected (account : option string) : aprog unit :=
  a <- get;
  modify (set_martian true account);;
  (match present account with
   | Some _ => modify (setAptosBalance "Loading...")
   | None => Ret tt
   end);;
  if app_martianConnected a then Ret tt else apt_effect.

Definition disconnectMartian : aprog unit :=
  modify (set_martian false None);; modify (setAptosBalance "0");; apt_effect.

(** Everything the page runs: clicks, timers, effects and events. *)
Inductive app_handler : aprog unit -> Prop :=
  | ah_connect : app_handler connectEthereum
  | ah_disconnect : app_handler disconnectEthereum
  | ah_eth_interval signer : app_handler (updateEthBalance signer)
  | ah_aptos x : app_handler (aptosAccountChanged x)
  | ah_apt_interval address : app_handler (updateAptBalance address)
  | ah_martian account : app_handler (handleMartianConnected account)
  | ah_martian_off : app_handler disconnectMartian
  | ah_update_all : app_handler updateAllBalances
  | ah_refresh address : app_handler (refreshAptBalance address).

(** ** Properties *)

(** The balance shown is the initial text or what the node answered for some
    account. *)
Definition eth_shown (a : App) (h : list (Ev WebI)) : Prop :=
  app_ethBalance a = "0" \/
  exists address x, x <> 0 /\ Called (I := WebI) (NodeBalance address) (Ok x) ∈ h /\
    app_ethBalance a = formatEther18 x.

Lemma eth_shown_more a h l : eth_shown a h -> eth_shown a (h ++ l).
Proof.
  intros [E|(d & x & Hx & Hin & E)]; [by left|]. right. exists d, x.
  split_and!; [done| |done]. apply elem_of_app. by left.
Qed.

Lemma eth_shown_same a a' h : app_ethBalance a' = app_ethBalance a -> eth_shown a h -> eth_shown a' h.
Proof. unfold eth_shown. by intros ->. Qed.

Lemma keeps_modify (J : App -> list (Ev WebI) -> Prop) f s h :
  J (f s) h -> keeps J (modify f : aprog unit) s h.
Proof. done. Qed.

Ltac app_keeps :=
  repeat match goal with
  | |- keeps _ (modify _) _ _ => apply keeps_modify; first
      [ eapply eth_shown_same; [reflexivity|eassumption] | left; reflexivity ]
  | |- forall _ _ _, eth_shown _ _ -> _ => intros ? ? ? ?; by apply eth_shown_more
  | |- keeps _ (if ?b then _ else _) _ _ => destruct b
  | |- _ => keeps_step
  end.

Lemma keeps_updateEthBalance signer s h :
  eth_shown s h -> keeps eth_shown (updateEthBalance signer) s h.
Proof.
  intros Hs. unfold updateEthBalance, nodeBalance, await. simpl. split; [done|].
  intros [x|e] s' h' Hs'; simpl; [|by apply eth_shown_more].
  destruct (Z.eqb_spec x 0) as [->|Hx]; simpl; [by apply eth_shown_more|].
  right. exists signer, x. split_and!; [done| |done]. apply elem_of_app. right. by left.
Qed.

Lemma keeps_eth_effect s h : eth_shown s h -> keeps eth_shown eth_effect s h.
Proof.
  intros Hs. unfold eth_effect. apply keeps_bind; [exact Hs|]. intros a s' h' Hs'.
  destruct (app_ethSigner a); [by apply keeps_updateEthBalance|by left].
Qed.

Lemma keeps_getAptBalance address s h :
  eth_shown s h -> keeps eth_shown (AptosClient.getAptBalance (S := App) address) s h.
Proof. intros Hs. unfold AptosClient.getAptBalance, aptosAmount. app_keeps. Qed.

Lemma keeps_apt_effect s h : eth_shown s h -> keeps eth_shown apt_effect s h.
Proof.
  intros Hs. unfold apt_effect, updateAptBalance.
  apply keeps_bind; [exact Hs|]. intros a s' h' Hs'.
  destruct (accountAddress a); [|app_keeps].
  apply keeps_try; [apply keeps_bind; [by apply keeps_getAptBalance|]|]; intros; app_keeps.
Qed.

Lemma handler_keeps p s h : app_handler p -> eth_shown s h -> keeps eth_shown p s h.
Proof.
  intros Hp Hs. destruct Hp.
  - unfold connectEthereum, attempt, signerAddress. apply keeps_bind; [app_keeps|].
    intros [x|e] s' h' Hs'; [|done]. apply keeps_bind; [app_keeps|]. intros. by apply keeps_eth_effect.
  - unfold disconnectEthereum. apply keeps_bind; [app_keeps|]. intros. by apply keeps_eth_effect.
  - by apply keeps_updateEthBalance.
  - unfold aptosAccountChanged. apply keeps_bind; [app_keeps|]. intros. by apply keeps_apt_effect.
  - unfold updateAptBalance. apply keeps_try; [|intros; app_keeps].
    apply keeps_bind; [by apply keeps_getAptBalance|intros; app_keeps].
  - unfold handleMartianConnected. apply keeps_bind; [exact Hs|]. intros a s' h' Hs'.
    apply keeps_bind; [app_keeps|]. intros. apply keeps_bind; [app_keeps|]. intros.
    destruct (app_martianConnected a); [done|by apply keeps_apt_effect].
  - unfold disconnectMartian. apply keeps_bind; [app_keeps|]. intros. apply keeps_bind; [app_keeps|].
    intros. by apply keeps_apt_effect.
  - unfold updateAllBalances, refresh_apt_resources, httpGet. apply keeps_bind; [exact Hs|].
    intros a s' h' Hs'. apply keeps_bind.
    + destruct (app_ethSigner a); [by apply keeps_updateEthBalance|done].
    + intros. app_keeps.
  - unfold refreshAptBalance. apply keeps_try; [|intros; app_keeps].
    apply keeps_bind; [by apply keeps_getAptBalance|intros; app_keeps].
Qed.

(** Whatever is clicked, and however the answers of the node interleave with
    connecting and disconnecting, the Ethereum balance the page shows is its
    initial text or a balance that the node reported; an empty account is never
    shown as such. *)
Theorem shown_balance_was_read (w : Pool WebI App unit) :
  rtc (step_of app_handler) {| handlers := []; fields := initial_app; log := [] |} w ->
  eth_shown (fields w) (log w).
Proof.
  intros Hsteps. eapply (pool_history_invariant eth_shown app_handler _ w).
  - intros p s h Hp Hs. by apply handler_keeps.
  - exact Hsteps.
  - by left.
  - constructor.
Qed.

(** The balance an event reports. *)
Definition reported (e : Ev WebI) : option Z :=
  match e with
  | Called r x => match r return result (web_ans r) -> option Z with
                  | NodeBalance _ => fun x => match x with Ok z => Some z | Throw _ => None end
                  | _ => fun _ => None
                  end x
  | Told _ => None
  end.

(** One answer of the node arrives for the handler in place [i], which then
    runs to its end. *)
Lemma answer_step (w : Pool WebI App unit) i r k x a :
  handlers w !! i = Some (Call r k) ->
  advance 0 (k x) (fields w) (log w ++ [Called r x])%list = (Ret tt, a, (log w ++ [Called r x])%list) ->
  step_of app_handler w
    {| handlers := <[i := Ret tt]> (handlers w); fields := a; log := (log w ++ [Called r x])%list |}.
Proof. intros Hi Ha. by eapply step_answer. Qed.

(** A balance outlives its account: an account is connected and the read of
    its balance is under way when it is disconnected; the answer, when it comes,
    is shown all the same, and connecting an account without funds then leaves
    it in place, although the node reported nothing but zero for that account.
    The page shows one account with the balance of another. *)
Theorem balance_of_another_account (first second : string) (x : Z) :
  x <> 0 ->
  exists w : Pool WebI App unit,
    rtc (step_of app_handler) {| handlers := []; fields := initial_app; log := [] |} w /\
    app_ethAccount (fields w) = Some second /\ app_ethBalance (fields w) = formatEther18 x /\
    (forall y, Called (I := WebI) (NodeBalance second) (Ok y) ∈ log w -> second <> first -> y = 0) /\
    Forall (fun p => p = Ret tt) (handlers w).
Proof.
  intros Hx. pose proof (proj2 (Z.eqb_neq x 0) Hx) as Hxb.
  eexists. split.
  { eapply rtc_l; [eapply (step_start _ _ 0 connectEthereum); [constructor|reflexivity]|].
    eapply rtc_l; [eapply (step_answer (I := WebI) _ _ 0 0 SignerAddress _ (Ok first)); reflexivity|].
    eapply rtc_l; [eapply (step_start _ _ 0 disconnectEthereum); [constructor|reflexivity]|].
    eapply rtc_l; [eapply (answer_step _ 0 (NodeBalance first) _ (Ok x)); [reflexivity|]; simpl;
                   rewrite Hxb; reflexivity|].
    eapply rtc_l; [eapply (step_start _ _ 0 connectEthereum); [constructor|reflexivity]|].
    eapply rtc_l; [eapply (step_answer (I := WebI) _ _ 0 2 SignerAddress _ (Ok second)); reflexivity|].
    eapply rtc_l; [eapply (answer_step _ 2 (NodeBalance second) _ (Ok 0)); reflexivity|].
    apply rtc_refl. }
  simpl. split_and!; [done|done| |repeat constructor].
  intros y Hin Hne. rewrite !elem_of_cons, elem_of_nil in Hin.
  destruct Hin as [E|[E|[E|[E|[]]]]]; try discriminate.
  - inversion E. congruence.
  - by apply (f_equal reported) in E; injection E.
Qed.
End App.

(** ** The approval banner *)

Module Banner.
Record Banner := {
  needsApproval : bool;
  isApproving : bool;
  currentAllowance : string;
  bannerError : string
}.

Definition initial_banner : Banner :=
  {| needsApproval := false; isApproving := false; currentAllowance := "0"; bannerError := "" |}.

Definition set_needs (b : bool) (s : Banner) : Banner :=
  {| needsApproval := b; isApproving := isApproving s; currentAllowance := currentAllowance s;
     bannerError := bannerError s |}.

Definition set_status (needs : bool) (allowance : string) (s : Banner) : Banner :=
  {| needsApproval := needs; isApproving := isApproving s; currentAllowance := allowance;
     bannerError := bannerError s |}.

Definition set_approving (b : bool) (s : Banner) : Banner :=
  {| needsApproval := needsApproval s; isApproving := b; currentAllowance := currentAllowance s;
     bannerError := bannerError s |}.

Definition set_error (e : string) (s : Banner) : Banner :=
  {| needsApproval := needsApproval s; isApproving := isApproving s;
     currentAllowance := currentAllowance s; bannerError := e |}.

Section Banner.
Context `{EthersUnits} (ethAccount : option string) (hasSigner : bool)
  (wethAddress escrowAddress : string).

Abbreviation bprog := (wprog Banner).

(** The service never throws: a failed read is no approval and an allowance
    of zero. *)
Definition checkApproval : bprog unit :=
  match present ethAccount with
  | None => Ret tt
  | Some account =>
      if negb hasSigner then Ret tt
      else
        try_catch
          (status <- WETHApprovalService.checkApproval wethAddress escrowAddress account;
           modify (set_status (negb status.1) (WETHApprovalService.formatAllowance status.2)))
          (fun _ => Ret tt)
  end.

(** The page passes no [onApprovalComplete]. *)
Definition handleApprove : bprog unit :=
  if negb hasSigner then Ret tt
  else
    modify (set_approving true);;
    modify (set_error "");;
    try_catch
      (res <- WETHApprovalService.requestApproval wethAddress escrowAddress;
       match res with
       | inl _ => modify (set_needs false);; checkApproval
       | inr text => modify (set_error (if str_truthy text then text else "Approval failed"))
       end)
      (fun error => modify (set_error (if str_truthy (message error) then message error
                                       else "Approval failed")));;
    modify (set_approving false).

Definition shown (s : Banner) : bool :=
  needsApproval s && match present ethAccount with Some _ => true | None => false end.

(** How the allowance read after an approval is shown. *)
Definition read_as (account : string) (s : Banner) (h : list (Ev WebI)) : Prop :=
  exists answer, Called (I := WebI) (ContractRead wethAddress "allowance"
                   [AString account; AString escrowAddress]) answer ∈ h /\
    match answer with
    | Ok allowance =>
        needsApproval s = negb (ether_1 <=? allowance) /\
        currentAllowance s = WETHApprovalService.formatAllowance allowance
    | Throw _ => needsApproval s = true
    end.

(** A click on the banner ends in one of two ways, whatever the wallet and
    the node answer: either the wallet sent and confirmed an approval of the
    escrow contract for every amount, no error is shown and the banner then
    says what the node reports of the allowance; or an error is shown and
    the banner stays as it was. The button is released in both. *)
Theorem approval_outcome (account : string) (s : Banner) (h : list (Ev WebI)) :
  present ethAccount = Some account -> hasSigner = true ->
  wp handleApprove (fun r s' h' => r = Ok tt /\ isApproving s' = false /\
    ((exists tx hash,
        Called (I := WebI) (WalletSend wethAddress "approve" [AString escrowAddress; AInt MaxUint256] 0)
          (Ok tx) ∈ h' /\
        Called (I := WebI) (WalletWait tx) (Ok hash) ∈ h' /\
        bannerError s' = "" /\ read_as account s' h') \/
     (bannerError s' <> "" /\ needsApproval s' = needsApproval s))) s h.
Proof.
  intros Ha Hs. unfold handleApprove. rewrite Hs. cbn [negb].
  unfold WETHApprovalService.requestApproval, checkApproval. rewrite Ha, Hs. cbn [negb].
  unfold WETHApprovalService.checkApproval.
  assert (forall t, (if str_truthy t then t else "Approval failed") <> "") as Hne
    by (intros t; destruct t; simpl; discriminate).
  web_call tx e; [|].
  2: { split_and!; [done|done|right]. split; [|done]. simpl. apply Hne. }
  web_call hash e.
  2: { split_and!; [done|done|right]. split; [|done]. simpl. apply Hne. }
  web_call allowance e; (split_and!; [done|done|left]); exists tx, hash.
  - split_and!; [set_solver|set_solver|done|]. exists (Ok allowance). split; [set_solver|]. done.
  - split_and!; [set_solver|set_solver|done|]. exists (Throw e). split; [set_solver|]. done.
Qed.
End Banner.
End Banner.

(** ** Examples *)

Module AppExample.

Definition plain_units : EthersUnits :=
  {| formatEther18 := fun z => fixed_digits z 18; parseEther := fun _ => Throw (Error "unused");
     randomBytes := fun _ => "" |}.
Definition plain_errors : AptosErrors := {| rate_limited := fun _ => false |}.
Definition no_resources : AptosResources := {| resources_json := fun _ => Ok [] |}.

Local Existing Instances plain_units plain_errors no_resources.

Lemma shown_balance_was_read_witness :
  exists w : Pool WebI App unit, length (handlers w) = 1%nat /\ eth_shown (fields w) (log w).
Proof.
  eexists. split.
  2: { eapply shown_balance_was_read. apply rtc_once.
       eapply (step_start _ _ 0 (updateEthBalance "0x1")); [constructor|reflexivity]. }
  reflexivity.
Defined.

Lemma balance_of_another_account_witness :
  exists w : Pool WebI App unit, app_ethAccount (fields w) = Some "0x2".
Proof.
  destruct (balance_of_another_account "0x1" "0x2" 7 ltac:(discriminate)) as (w & _ & Hw & _).
  exists w. exact Hw.
Defined.

(** A wallet that signs and a node that reports an unlimited allowance. *)
Definition willing_answer (r : WebReq) : result (web_ans r) :=
  match r with
  | WalletSend _ _ _ _ => Ok "0xtx"
  | WalletWait _ => Ok "0xtx"
  | ContractRead _ _ _ => Ok MaxUint256
  | _ => Throw (Error "offline")
  end.

Definition willing : Oracle WebI :=
  {| answer := fun (_ : list (Ev WebI)) => willing_answer; clock := fun _ => 0 |}.

Lemma approval_outcome_witness :
  let '(r, s, h) := run willing (Banner.handleApprove (Some "0x1") true "0xweth" "0xescrow")
                      Banner.initial_banner [] in
  r = Ok tt /\ Banner.isApproving s = false /\ Banner.needsApproval s = false.
Proof.
  pose proof (wp_run willing _ _ _ _
    (Banner.approval_outcome (Some "0x1") true "0xweth" "0xescrow" "0x1" Banner.initial_banner []
       eq_refl eq_refl)) as (Hr & Ha & _).
  split; [exact Hr|]. split; [exact Ha|]. vm_compute. reflexivity.
Defined.
End AppExample.
