(* ===== verification/OrderPanels.v ===== *)
(** * The lists of orders

    [TransactionPanel.tsx], a list of transactions kept by the socket's events,
    and [OrderHistory.tsx], the orders of the connected accounts as the order
    engine returns them. *)

From Stdlib Require Import ZArith Lia Ascii String.
From stdpp Require Import base numbers list strings relations sorting.
From S2P Require Import Prelude.
From S2P Require Import JsNumber.
From S2P Require Import JsString.
From S2P Require Import JsFormat.
From S2P Require Import JsMap.
From S2P Require Import JsDate.
From S2P Require Import Signature.
From S2P Require Import PartialFill.
From S2P Require Import OrderTypes.
From S2P Require Import OrderService.
From S2P Require Import OrderBook.
From S2P Require Import OrderApi.
From S2P Require Import Async.
From S2P Require Import ChainService.
From S2P Require Import OrderIntake.

Local Open Scope string_scope.
Local Open Scope Z_scope.
Local Open Scope prog_scope.

(** Locale-dependent texts of a time; nothing stands for an invalid date. *)
Class Locale := {
  toLocaleDateString : option Z -> string;
  toLocaleString : option Z -> string
}.

(** [s.padStart(n, '0')] *)
Definition pad_zeros (n : nat) (s : string) : string := zeros (n - String.length s) ++ s.

(** ** The transaction panel *)

Module TransactionPanel.

Inductive TxStatus := tx_pending | tx_completed | tx_failed.

#[export] Instance TxStatus_eq_dec : EqDecision TxStatus.
Proof. solve_decision. Defined.

Record Transaction := {
  tx_id : option string;
  tx_fromChain : string;
  tx_toChain : string;
  tx_fromAmount : option string;
  tx_toAmount : option string;
  tx_status : TxStatus;
  tx_timestamp : Z;
  tx_escrowCreated : bool;
  tx_sourceEscrowId : option string;
  tx_destEscrowId : option string;
  tx_secret : option string;
  tx_deadline : number
}.

(** An order as an event carries it; a field that is absent is [undefined]. *)
Record OrderData := {
  od_orderId : option string;
  od_id : option string;
  od_fromChain : option string;
  od_toChain : option string;
  od_fromAmount : option string;
  od_minToAmount : option string;
  od_deadline : option number
}.

(** [c === 'ETHEREUM' ? 'ETH' : 'APT'] *)
Definition chain_label (c : option string) : string :=
  if bool_decide (c = Some "ETHEREUM") then "ETH" else "APT".

(** [undefined * 1000] is [NaN]. *)
Definition new_transaction (i : option string) (now : Z) (d : OrderData) : Transaction :=
  {| tx_id := i; tx_fromChain := chain_label (od_fromChain d); tx_toChain := chain_label (od_toChain d);
     tx_fromAmount := od_fromAmount d; tx_toAmount := od_minToAmount d; tx_status := tx_pending;
     tx_timestamp := now; tx_escrowCreated := false; tx_sourceEscrowId := None;
     tx_destEscrowId := None; tx_secret := None;
     tx_deadline := mul (default NaN (od_deadline d)) (of_Z 1000) |}.

Inductive PanelEvent :=
  | ManualOrderCreated (orderId : string) (d : OrderData)
  | OrderCreated (d : OrderData)
  | EscrowCreated (orderId escrowId : option string)
  | EscrowWithdrawn (orderId secret : option string)
  | OrderFailed (orderId : option string)
  | SwapCompleted (orderId toAmount secret : option string).

Definition set_escrow (escrowId : option string) (t : Transaction) : Transaction :=
  {| tx_id := tx_id t; tx_fromChain := tx_fromChain t; tx_toChain := tx_toChain t;
     tx_fromAmount := tx_fromAmount t; tx_toAmount := tx_toAmount t; tx_status := tx_status t;
     tx_timestamp := tx_timestamp t; tx_escrowCreated := true;
     tx_sourceEscrowId := tx_sourceEscrowId t; tx_destEscrowId := escrowId; tx_secret := tx_secret t;
     tx_deadline := tx_deadline t |}.

Definition set_outcome (st : TxStatus) (toAmount secret : option string) (t : Transaction) : Transaction :=
  {| tx_id := tx_id t; tx_fromChain := tx_fromChain t; tx_toChain := tx_toChain t;
     tx_fromAmount := tx_fromAmount t; tx_toAmount := toAmount; tx_status := st;
     tx_timestamp := tx_timestamp t; tx_escrowCreated := tx_escrowCreated t;
     tx_sourceEscrowId := tx_sourceEscrowId t; tx_destEscrowId := tx_destEscrowId t;
     tx_secret := secret; tx_deadline := tx_deadline t |}.

(** [prev.map(tx => tx.id === i ? f(tx) : tx)] *)
Definition update_rows (i : option string) (f : Transaction -> Transaction)
    (rows : list Transaction) : list Transaction :=
  List.map (fun t => if bool_decide (tx_id t = i) then f t else t) rows.

(** [x || y] of texts. *)
Definition text_or (x y : option string) : option string :=
  match present x with Some s => Some s | None => y end.

Definition handleManualOrderCreated (now : Z) (orderId : string) (d : OrderData)
    (rows : list Transaction) : list Transaction :=
  new_transaction (Some orderId) now d :: rows.

Definition created_id (d : OrderData) : option string := text_or (od_orderId d) (od_id d).

Definition handleOrderCreated (now : Z) (d : OrderData) (rows : list Transaction) : list Transaction :=
  new_transaction (created_id d) now d :: rows.

Definition handleEscrowCreated (orderId escrowId : option string) : list Transaction -> list Transaction :=
  update_rows orderId (set_escrow escrowId).

Definition handleEscrowWithdrawn (orderId secret : option string) : list Transaction -> list Transaction :=
  update_rows orderId (fun t => set_outcome tx_completed (tx_toAmount t) secret t).

Definition handleOrderFailed (orderId : option string) : list Transaction -> list Transaction :=
  update_rows orderId (fun t => set_outcome tx_failed (tx_toAmount t) (tx_secret t) t).

Definition handleSwapCompleted (orderId toAmount secret : option string)
    : list Transaction -> list Transaction :=
  update_rows orderId (fun t =>
    set_outcome tx_completed (text_or toAmount (tx_toAmount t)) (text_or secret (tx_secret t)) t).

(** One event, with the time at which it is handled. *)
Definition panel_step (rows : list Transaction) (e : Z * PanelEvent) : list Transaction :=
  match e.2 with
  | ManualOrderCreated orderId d => handleManualOrderCreated e.1 orderId d rows
  | OrderCreated d => handleOrderCreated e.1 d rows
  | EscrowCreated orderId escrowId => handleEscrowCreated orderId escrowId rows
  | EscrowWithdrawn orderId secret => handleEscrowWithdrawn orderId secret rows
  | OrderFailed orderId => handleOrderFailed orderId rows
  | SwapCompleted orderId toAmount secret => handleSwapCompleted orderId toAmount secret rows
  end.

Definition panel_run (rows : list Transaction) (events : list (Z * PanelEvent)) : list Transaction :=
  foldl panel_step rows events.

(** ** What is shown *)

Definition formatAmount (amount : option string) (chain : string) : string :=
  let value := parseInt (default "undefined" amount) in
  if String.eqb chain "ETH" then toFixed (div value (of_Z (10 ^ 18))) 6
  else toFixed (div value (of_Z (10 ^ 8))) 4.

Definition formatTime `{Locale} (currentTime timestamp : Z) : string :=
  let diff := currentTime - timestamp in
  if diff <? 60000 then "Just now"
  else if diff <? 3600000 then number_toString (floor (div (of_Z diff) (of_Z 60000))) ++ "m ago"
  else if diff <? 86400000 then number_toString (floor (div (of_Z diff) (of_Z 3600000))) ++ "h ago"
  else toLocaleDateString (Some timestamp).

Definition formatCountdown (currentTime : Z) (deadline : number) : string :=
  let now := div (of_Z currentTime) (of_Z 1000) in
  let timeLeft := max (of_Z 0) (sub deadline now) in
  if eqb timeLeft (of_Z 0) then "Expired"
  else
    let minutes := floor (div timeLeft (of_Z 60)) in
    let seconds := floor (rem timeLeft (of_Z 60)) in
    number_toString minutes ++ ":" ++ pad_zeros 2 (number_toString seconds).

Definition getCountdownClass (currentTime : Z) (deadline : number) : string :=
  let now := div (of_Z currentTime) (of_Z 1000) in
  let timeLeft := sub deadline now in
  if ltb timeLeft (of_Z 300) then "critical"
  else if ltb timeLeft (of_Z 600) then "warning"
  else "".

Definition is_pending (t : Transaction) : bool := bool_decide (tx_status t = tx_pending).

Definition pendingTransactions : list Transaction -> list Transaction := List.filter is_pending.
Definition completedTransactions : list Transaction -> list Transaction :=
  List.filter (fun t => negb (is_pending t)).

(** The countdown of a row, with its class; only a pending row has one. *)
Definition row_countdown (currentTime : Z) (t : Transaction) : option (string * string) :=
  if is_pending t then
    Some (getCountdownClass currentTime (div (tx_deadline t) (of_Z 1000)),
          formatCountdown currentTime (div (tx_deadline t) (of_Z 1000)))
  else None.

(** The classes of the three steps of a pending row. *)
Definition row_steps (t : Transaction) : list string :=
  [(if tx_escrowCreated t then "completed" else "active");
   match present (tx_sourceEscrowId t) with Some _ => "active" | None => "" end;
   ""].

Definition status_label (t : Transaction) : string :=
  match tx_status t with
  | tx_pending => "In Progress"
  | tx_failed => "Failed"
  | tx_completed => "Completed"
  end.

Inductive Tab := tab_pending | tab_history.

Definition panel_content (tab : Tab) (rows : list Transaction) : list Transaction :=
  match tab with
  | tab_pending => pendingTransactions rows
  | tab_history => completedTransactions rows
  end.

(** ** Facts *)

(** The order an event is about. *)
Definition about (e : PanelEvent) : option string :=
  match e with
  | ManualOrderCreated orderId _ => Some orderId
  | OrderCreated d => created_id d
  | EscrowCreated orderId _ | EscrowWithdrawn orderId _ | OrderFailed orderId
  | SwapCompleted orderId _ _ => orderId
  end.

Definition row_of (i : option string) (t : Transaction) : bool := bool_decide (tx_id t = i).
Definition event_of (i : option string) (e : Z * PanelEvent) : bool := bool_decide (about e.2 = i).

Definition creates (e : PanelEvent) : bool :=
  match e with ManualOrderCreated _ _ | OrderCreated _ => true | _ => false end.

Lemma update_rows_filter i j f rows :
  (forall t, tx_id (f t) = tx_id t) ->
  List.filter (row_of i) (update_rows j f rows) =
    (if bool_decide (j = i) then update_rows j f (List.filter (row_of i) rows)
     else List.filter (row_of i) rows).
Proof.
  intros Hf. unfold update_rows. induction rows as [|t rows IH]; [by destruct (bool_decide _)|].
  cbn [List.map List.filter]. rewrite IH. clear IH.
  assert (row_of i (if bool_decide (tx_id t = j) then f t else t) = row_of i t) as ->.
  { unfold row_of. destruct (bool_decide (tx_id t = j)); by rewrite ?Hf. }
  destruct (row_of i t) eqn:Hi; [|by destruct (bool_decide _)]. apply bool_decide_eq_true in Hi as <-.
  destruct (bool_decide_reflect (tx_id t = j)) as [<-|Hj].
  - rewrite bool_decide_eq_true_2 by done. cbn [List.map]. by rewrite bool_decide_eq_true_2 by done.
  - by rewrite bool_decide_eq_false_2 by congruence.
Qed.

Lemma update_rows_length i f rows : length (update_rows i f rows) = length rows.
Proof. apply List.length_map. Qed.

Lemma set_outcome_id st a x t : tx_id (set_outcome st a x t) = tx_id t.
Proof. done. Qed.

Lemma panel_step_other i rows e :
  event_of i e = false -> List.filter (row_of i) (panel_step rows e) = List.filter (row_of i) rows.
Proof.
  unfold event_of. rewrite bool_decide_eq_false. destruct e as [now []]; unfold panel_step; simpl; intros Hi;
    unfold handleEscrowCreated, handleEscrowWithdrawn, handleOrderFailed, handleSwapCompleted;
    rewrite ?update_rows_filter, ?(bool_decide_eq_false_2 _ Hi) by done; try done.
  - unfold row_of at 1. simpl. by rewrite bool_decide_eq_false_2.
  - unfold row_of at 1. simpl. by rewrite bool_decide_eq_false_2.
Qed.

Lemma panel_step_own i rows e :
  event_of i e = true ->
  List.filter (row_of i) (panel_step rows e) = panel_step (List.filter (row_of i) rows) e.
Proof.
  unfold event_of. rewrite bool_decide_eq_true. destruct e as [now []]; unfold panel_step; simpl; intros Hi;
    unfold handleEscrowCreated, handleEscrowWithdrawn, handleOrderFailed, handleSwapCompleted;
    rewrite ?update_rows_filter, ?(bool_decide_eq_true_2 _ Hi) by done; try done.
  - unfold row_of at 1. simpl. by rewrite bool_decide_eq_true_2.
  - unfold row_of at 1. simpl. by rewrite bool_decide_eq_true_2.
Qed.

(** ** Properties *)

(** The rows of an order are a function of the events of that order: the panel
    with all its rows, looked at for one order, is the panel that received the
    events of that order alone. *)
Theorem panel_rows_independent (i : option string) (rows : list Transaction)
    (events : list (Z * PanelEvent)) :
  List.filter (row_of i) (panel_run rows events) =
  panel_run (List.filter (row_of i) rows) (List.filter (event_of i) events).
Proof.
  unfold panel_run. revert rows. induction events as [|e events IH]; intros rows; simpl; [done|].
  rewrite IH. destruct (event_of i e) eqn:He; simpl.
  - by rewrite panel_step_own.
  - by rewrite panel_step_other.
Qed.

(** The status that an event gives to its order. *)
Definition verdict (e : PanelEvent) : option TxStatus :=
  match e with
  | EscrowWithdrawn _ _ | SwapCompleted _ _ _ => Some tx_completed
  | OrderFailed _ => Some tx_failed
  | _ => None
  end.

(** A single row under an event of its order that creates nothing. *)
Lemma panel_step_row t e :
  event_of (tx_id t) e = true -> creates e.2 = false ->
  exists t', panel_step [t] e = [t'] /\ tx_id t' = tx_id t /\
    tx_status t' = default (tx_status t) (verdict e.2) /\
    tx_fromAmount t' = tx_fromAmount t /\ tx_deadline t' = tx_deadline t /\
    tx_sourceEscrowId t' = tx_sourceEscrowId t /\
    tx_escrowCreated t' = tx_escrowCreated t || match e.2 with EscrowCreated _ _ => true | _ => false end.
Proof.
  unfold event_of. rewrite bool_decide_eq_true. destruct e as [now []]; unfold panel_step; simpl; intros Hi Hc; try done;
    unfold handleEscrowCreated, handleEscrowWithdrawn, handleOrderFailed, handleSwapCompleted, update_rows;
    simpl; rewrite bool_decide_eq_true_2 by done; eexists; (split; [reflexivity|]);
    simpl; rewrite ?orb_false_r, ?orb_true_r; done.
Qed.

(** A row under the events of its order, none of which creates a row. *)
Lemma panel_run_row t own :
  Forall (fun e => event_of (tx_id t) e = true /\ creates e.2 = false) own ->
  exists t', panel_run [t] own = [t'] /\ tx_id t' = tx_id t /\
    tx_fromAmount t' = tx_fromAmount t /\ tx_deadline t' = tx_deadline t /\
    tx_status t' = default (tx_status t) (last (omap (fun e => verdict e.2) own)) /\
    tx_sourceEscrowId t' = tx_sourceEscrowId t.
Proof.
  unfold panel_run. induction own as [|e own IH] using rev_ind; intros Hown; [by exists t|].
  apply Forall_app in Hown as [Hown He]. inversion He as [|? ? [Hi Hc] _]; subst.
  destruct (IH Hown) as (t1 & E1 & Hid & Ha & Hd & Hst & Hs1).
  rewrite foldl_app, E1. simpl. rewrite <- Hid in Hi.
  destruct (panel_step_row t1 e Hi Hc) as (t2 & E2 & Hid2 & Hst2 & Ha2 & Hd2 & Hs2 & _).
  exists t2. rewrite E2. split_and!; try congruence.
  rewrite omap_app, Hst2, Hst. simpl. destruct (verdict e.2); [by rewrite last_snoc|].
  by rewrite app_nil_r.
Qed.

(** An order that is created once has one row, whatever else the panel
    receives. Its amount, its deadline and its creation never change, its status
    is the one that the last deciding event gave it (so that a failure after a
    completion shows the order as failed, and a completion after a failure as
    completed), and its step two is never shown as active: no event sets the
    source escrow. *)
Theorem panel_row_of_order (t : Transaction) (rows : list Transaction)
    (events : list (Z * PanelEvent)) :
  List.filter (row_of (tx_id t)) rows = [t] -> tx_sourceEscrowId t = None ->
  Forall (fun e => event_of (tx_id t) e = true -> creates e.2 = false) events ->
  exists t', List.filter (row_of (tx_id t)) (panel_run rows events) = [t'] /\
    tx_fromAmount t' = tx_fromAmount t /\ tx_deadline t' = tx_deadline t /\
    tx_status t' = default (tx_status t)
      (last (omap (fun e => verdict e.2) (List.filter (event_of (tx_id t)) events))) /\
    row_steps t' !! 1%nat = Some "" .
Proof.
  intros Hrows Hsrc Hall. rewrite panel_rows_independent, Hrows.
  assert (Forall (fun e => event_of (tx_id t) e = true /\ creates e.2 = false)
            (List.filter (event_of (tx_id t)) events)) as Hown.
  { apply Forall_forall. intros e He%list_elem_of_In%filter_In. destruct He as [Hin He].
    split; [done|]. rewrite Forall_forall in Hall. apply Hall; [by apply list_elem_of_In|done]. }
  destruct (panel_run_row t _ Hown) as (t' & E & _ & Ha & Hd & Hst & Hs).
  exists t'. rewrite E. split_and!; try done. unfold row_steps. by rewrite Hs, Hsrc.
Qed.

(** Every row is on exactly one of the two tabs, and the count on the first tab
    is the number of rows in progress. *)
Theorem panel_tabs_partition (rows : list Transaction) :
  panel_content tab_pending rows ++ panel_content tab_history rows ≡ₚ rows /\
  (forall t, t ∈ panel_content tab_pending rows -> t ∉ panel_content tab_history rows).
Proof.
  split.
  - induction rows as [|t rows IH]; [done|].
    unfold panel_content, pendingTransactions, completedTransactions in *. cbn [List.filter].
    destruct (is_pending t); simpl; [by f_equiv|]. rewrite <- Permutation_middle. by f_equiv.
  - intros t Hp%list_elem_of_In%filter_In Hh%list_elem_of_In%filter_In.
    destruct Hp as [_ Hp], Hh as [_ Hh]. by rewrite Hp in Hh.
Qed.

(** [order:created] as the order engine answers an order submitted on the
    socket: the identifier and nothing else. *)
Definition created_message (orderId : string) : PanelEvent :=
  OrderCreated {| od_orderId := Some orderId; od_id := None; od_fromChain := None; od_toChain := None;
                  od_fromAmount := None; od_minToAmount := None; od_deadline := None |}.

(** The row that this message creates has neither amounts nor a deadline: it is
    shown as a swap of APT for APT, of an amount that is not a number, with a
    countdown that is not a number and never expires. *)
Theorem created_message_row (orderId : string) (now currentTime : Z) :
  orderId <> "" ->
  exists t, panel_run [] [(now, created_message orderId)] = [t] /\
    tx_id t = Some orderId /\ tx_fromChain t = "APT" /\ tx_toChain t = "APT" /\
    formatAmount (tx_fromAmount t) (tx_fromChain t) = "NaN" /\
    row_countdown currentTime t = Some ("", "NaN:NaN").
Proof.
  intros Hne. eexists. split; [reflexivity|]. cbn [tx_id new_transaction].
  split; [unfold created_id, text_or; simpl; by destruct orderId|].
  repeat (split; [reflexivity|]). unfold row_countdown, formatCountdown, getCountdownClass, sub.
  cbn [is_pending new_transaction tx_status tx_deadline od_deadline default mul div]. rewrite of_Z_0.
  reflexivity.
Qed.

(** ** The countdown *)

Definition no_colon (c : ascii) : bool := negb (Ascii.eqb c ":").

Lemma countdown_not_expired (a b : string) : a ++ ":" ++ b <> "Expired".
Proof.
  intros E. apply (f_equal (all_chars no_colon)) in E. rewrite !all_chars_app in E.
  simpl in E. by rewrite andb_false_r in E.
Qed.

(** The countdown of an order says that it has expired exactly when the time of
    its deadline, in whole seconds, has come: the division of the clock and the
    subtraction are rounded, but never across a second. *)
Theorem countdown_expired (t d : Z) :
  0 <= t < 2 ^ 53 -> 0 <= d < 2 ^ 53 ->
  formatCountdown t (of_Z d) = "Expired" <-> d * 1000 <= t.
Proof.
  intros Ht Hd. destruct (div_of_Z_bounds t 1000 ltac:(lia) ltac:(lia)) as (r & Hr & Hlo & Hhi). pose proof scale_pos as Hs.
  unfold formatCountdown. rewrite Hr, (of_Z_small d), of_Z_0 by (unfold small; lia).
  assert (0 <= t / 1000 <= t) as Hq.
  { split; [apply Z.div_pos; lia|]. apply Z.div_le_upper_bound; lia. }
  destruct (sub_sign (d * scale) r ltac:(nia)) as (c & -> & Hc).
  pose proof (Z.mul_div_le t 1000 ltac:(lia)) as Hl. pose proof (Z.mul_succ_div_gt t 1000 ltac:(lia)) as Hu.
  cbn [max leb]. destruct (Z.leb_spec 0 c) as [Hc0|Hc0]; cbn [eqb].
  - destruct (Z.eqb_spec c 0) as [->|Hcne].
    + split; [intros _|done]. assert (d * scale <= r) by lia. assert (d < t / 1000 + 1) by nia. lia.
    + split; [intros E; by apply countdown_not_expired in E|].
      intros Hle. assert (r < d * scale) by lia. assert (t / 1000 < d) by nia. lia.
  - split; [intros _|by rewrite Z.eqb_refl]. assert (d * scale <= r) by lia.
    assert (d < t / 1000 + 1) by nia. lia.
Qed.

(** At a whole second the countdown shows minutes and seconds that add up to
    the time that is left. *)
Theorem countdown_text (k d : Z) :
  0 <= k < d -> d < 2 ^ 43 ->
  formatCountdown (1000 * k) (of_Z d) =
    number_toString (of_Z ((d - k) / 60)) ++ ":" ++ pad_zeros 2 (number_toString (of_Z ((d - k) mod 60))) /\
  (d - k) / 60 * 60 + (d - k) mod 60 = d - k /\ 0 <= (d - k) mod 60 < 60.
Proof.
  intros Hk Hd. unfold formatCountdown. rewrite Z.mul_comm, div_of_Z_exact by (unfold small; lia).
  rewrite sub_of_Z by (unfold small; lia).
  assert (max (of_Z 0) (of_Z (d - k)) = of_Z (d - k)) as ->.
  { rewrite !of_Z_small by (unfold small; lia). cbn [max leb]. pose proof scale_pos.
    destruct (Z.leb_spec (0 * scale) ((d - k) * scale)); [done|nia]. }
  rewrite eqb_of_Z by (unfold small; lia). destruct (Z.eqb_spec (d - k) 0); [lia|].
  rewrite floor_div_of_Z by lia. rewrite rem_of_Z by (unfold small; lia).
  pose proof (Z.mod_pos_bound (d - k) 60 ltac:(lia)). pose proof (Z.div_mod (d - k) 60 ltac:(lia)).
  rewrite floor_of_Z by (unfold small; lia). split; [done|]. lia.
Qed.

End TransactionPanel.

(** ** The order history *)

Module OrderHistory.

(** An order as the engine's JSON has it, by the fields the list reads. *)
Record HistoryOrder := {
  ho_id : string;
  ho_fromChain : string;
  ho_toChain : string;
  ho_fromAmount : string;
  ho_minToAmount : string;
  ho_status : string;
  ho_createdAt : string;
  ho_filledAmount : string
}.

(** The requests of [OrderService] that return orders. *)
Inductive HistoryReq := OrdersRequest (url : string) | OrderRequest (url : string).

Definition history_ans (r : HistoryReq) : Type :=
  match r with OrdersRequest _ => list HistoryOrder | OrderRequest _ => HistoryOrder end.

Definition HistoryI : Interface := {| Req := HistoryReq; ans := history_ans; Out := Empty_set |}.

Section Service.
Context {S : Type} (apiUrl : string).

Definition getOrder (orderId : string) : prog HistoryI S HistoryOrder :=
  await (I := HistoryI) (OrderRequest (apiUrl ++ "/api/orders/" ++ orderId)).

Definition getOrdersByMaker (mk : string) : prog HistoryI S (list HistoryOrder) :=
  await (I := HistoryI) (OrdersRequest (apiUrl ++ "/api/orders/maker/" ++ mk)).

Definition getActiveOrders : prog HistoryI S (list HistoryOrder) :=
  await (I := HistoryI) (OrdersRequest (apiUrl ++ "/api/orders")).
End Service.

Record History := { historyOrders : list HistoryOrder; isLoading : bool }.

Definition initial_history : History := {| historyOrders := []; isLoading := false |}.

Definition setOrders (os : list HistoryOrder) (s : History) : History :=
  {| historyOrders := os; isLoading := isLoading s |}.
Definition setIsLoading (b : bool) (s : History) : History :=
  {| historyOrders := historyOrders s; isLoading := b |}.

(** [new Date(b.createdAt).getTime() - new Date(a.createdAt).getTime() < 0]: a
    difference with an invalid date is [NaN], which moves nothing. *)
Definition newer (a b : HistoryOrder) : bool :=
  match getTime (ho_createdAt a), getTime (ho_createdAt b) with
  | Some ta, Some tb => tb - ta <? 0
  | _, _ => false
  end.

Section Component.
Context (apiUrl : string).

Definition orders_of (account : option string) : prog HistoryI History (list HistoryOrder) :=
  match present account with
  | Some a => getOrdersByMaker apiUrl a
  | None => Ret []
  end.

Definition loadOrders (ethAccount aptosAccount : option string) : prog HistoryI History unit :=
  modify (setIsLoading true);;
  try_catch
    (ethOrders <- orders_of ethAccount;
     aptosOrders <- orders_of aptosAccount;
     modify (setOrders (js_sort newer (ethOrders ++ aptosOrders)%list)))
    (fun _ => Ret tt);;
  modify (setIsLoading false).

(** The effect, run when an account changed. *)
Definition history_effect (ethAccount aptosAccount : option string) : prog HistoryI History unit :=
  match present ethAccount, present aptosAccount with
  | None, None => Ret tt
  | _, _ => loadOrders ethAccount aptosAccount
  end.
End Component.

(** [Number(s)]: an integer literal, or else a decimal literal that takes the
    whole text. *)
Definition literal_end (s : string) : option string :=
  if startsWith s "Infinity" then Some (String.substring 8 (String.length s - 8) s)
  else
    let (whole, r) := span_digits s in
    let (frac, r') := fraction_part r in
    if str_truthy (whole ++ frac) then
      match r' with
      | String c t =>
          if Ascii.eqb (lower_char c) "e" then
            let u := match t with String "-" u | String "+" u => u | _ => t end in
            if str_truthy (span_digits u).1 then Some (span_digits u).2 else Some r'
          else Some r'
      | EmptyString => Some r'
      end
    else None.

Definition Number_ (s : string) : number :=
  match string_to_bigint s with
  | Some z => of_Z z
  | None =>
      let t := trim s in
      let unsigned := match t with String "-" u | String "+" u => u | _ => t end in
      if bool_decide (literal_end unsigned = Some "") then parseFloat t else NaN
  end.

(** The amount in units of [10^decimals]; neither [Number] nor [toFixed]
    throws, so the [catch] is not reached. *)
Definition formatOrderAmount (amount : string) (decimals : Z) : string :=
  toFixed (div (Number_ amount) (of_Z (10 ^ decimals))) 4.

Definition getStatusBadgeClass (status : string) : string :=
  let s := toLowerCase status in
  if String.eqb s "pending" then "status-badge status-pending"
  else if String.eqb s "filled" then "status-badge status-filled"
  else if String.eqb s "cancelled" then "status-badge status-cancelled"
  else "status-badge".

Inductive HistoryView :=
  | LoadingOrders
  | NoOrders
  | OrderItems (rows : list (string * string * list string)).

(** One row: the short identifier, the badge and the details. *)
Definition history_row `{Locale} (o : HistoryOrder) : string * string * list string :=
  ("Order #" ++ String.substring 0 8 (ho_id o), getStatusBadgeClass (ho_status o),
   [ho_fromChain o; ho_toChain o; formatOrderAmount (ho_fromAmount o) 18; formatOrderAmount (ho_minToAmount o) 18;
    formatOrderAmount (ho_filledAmount o) 18; toLocaleString (getTime (ho_createdAt o))]).

Definition history_view `{Locale} (s : History) : HistoryView :=
  if isLoading s then LoadingOrders
  else match historyOrders s with
       | [] => NoOrders
       | os => OrderItems (history_row <$> os)
       end.

(** ** The engine's answers *)

Definition status_string (st : OrderStatus) : string :=
  match st with
  | PENDING => "PENDING"
  | PARTIALLY_FILLED => "PARTIALLY_FILLED"
  | FILLED => "FILLED"
  | CANCELLED => "CANCELLED"
  | EXPIRED => "EXPIRED"
  end.

(** [JSON.stringify] prints a date with [toISOString]. *)
Definition json_date (t : Z) : string :=
  match toISOString t with Ok s => s | Throw _ => "null" end.

Definition order_json (o : Order) : HistoryOrder :=
  {| ho_id := id o; ho_fromChain := chain_string (fromChain o); ho_toChain := chain_string (toChain o);
     ho_fromAmount := fromAmount o; ho_minToAmount := minToAmount o; ho_status := status_string (status o);
     ho_createdAt := json_date (createdAt o); ho_filledAmount := filledAmount o |}.

Fixpoint strip_prefix (p s : string) : option string :=
  match p, s with
  | EmptyString, _ => Some s
  | String c p', String c' s' => if Ascii.eqb c c' then strip_prefix p' s' else None
  | _, _ => None
  end.

Lemma string_app_assoc (a b c : string) : (a ++ b) ++ c = a ++ b ++ c.
Proof. induction a as [|x a IH]; [done|]. by rewrite !app_cons, IH. Qed.

Lemma strip_prefix_app p s : strip_prefix p (p ++ s) = Some s.
Proof. induction p as [|c p IH]; [done|]. rewrite app_cons. simpl. by rewrite Ascii.eqb_refl. Qed.

Definition orders_body (r : Response) : result (list HistoryOrder) :=
  match body r with DataOrders os => Ok (order_json <$> os) | _ => Throw (Error "Network Error") end.

(** The engine with the book [s] behind the routes. *)
Definition engine_answer (apiUrl : string) (s : State) (r : HistoryReq) : result (history_ans r) :=
  match r with
  | OrdersRequest url =>
      match strip_prefix (apiUrl ++ "/api/orders/maker/") url with
      | Some mk => orders_body (get_maker_orders_route mk s)
      | None => orders_body (get_active_orders_route s)
      end
  | OrderRequest url =>
      match strip_prefix (apiUrl ++ "/api/orders/") url with
      | Some i => match body (get_order_route i s) with
                  | DataOrder o => Ok (order_json o)
                  | _ => Throw (Error "Request failed with status code 404")
                  end
      | None => Throw (Error "Network Error")
      end
  end.

Definition engine (apiUrl : string) (s : State) : Oracle HistoryI :=
  {| answer := fun (_ : list (Ev HistoryI)) => engine_answer apiUrl s; clock := fun _ => 0 |}.

(** ** Properties *)

Lemma newer_json a b : common_time (createdAt a) -> common_time (createdAt b) ->
  newer (order_json a) (order_json b) = larger createdAt a b.
Proof.
  intros Ha Hb. unfold newer, order_json, json_date, larger. cbn [ho_createdAt].
  destruct (getTime_toISOString _ Ha) as (ta & -> & ->).
  destruct (getTime_toISOString _ Hb) as (tb & -> & ->).
  destruct (Z.ltb_spec (createdAt b - createdAt a) 0), (Z.ltb_spec (createdAt b) (createdAt a)); lia.
Qed.

Lemma engine_by_maker apiUrl s mk h (st : History) :
  run (engine apiUrl s) (getOrdersByMaker apiUrl mk) st h =
    (Ok (order_json <$> OrderService.getOrdersByMaker mk s), st,
     (h ++ [Called (I := HistoryI) (OrdersRequest (apiUrl ++ "/api/orders/maker/" ++ mk))
              (Ok (order_json <$> OrderService.getOrdersByMaker mk s))])%list).
Proof.
  unfold getOrdersByMaker, await. cbn [run answer engine].
  assert (engine_answer apiUrl s (OrdersRequest (apiUrl ++ "/api/orders/maker/" ++ mk)) =
          Ok (order_json <$> OrderService.getOrdersByMaker mk s)) as ->; [|done].
  unfold engine_answer. by rewrite <- (string_app_assoc apiUrl), strip_prefix_app.
Qed.

Lemma maker_ids_nodup (mk : string) (s : State) :
  wf s -> NoDup (OrderTypes.id <$> OrderService.getOrdersByMaker mk s).
Proof.
  intros W. rewrite getOrdersByMaker_ids by done.
  destruct (JsMap.get mk (ordersByMaker s)) as [ids|] eqn:E; [|constructor].
  exact (proj1 (wf_index _ W _ _ E)).
Qed.

Lemma values_by_id (s : State) (o o' : Order) :
  wf s -> o ∈ JsMap.values (orders s) -> o' ∈ JsMap.values (orders s) ->
  OrderTypes.id o = OrderTypes.id o' -> o = o'.
Proof.
  intros W [k Hk]%JsMap.elem_values [k' Hk']%JsMap.elem_values E.
  apply JsMap.elem_get in Hk, Hk'; [|apply W..].
  apply (wf_id _ W) in Hk as E1. apply (wf_id _ W) in Hk' as E2. congruence.
Qed.

(** C37. The list of a visitor who connected both accounts: against an engine
    with any book that it can reach, the load ends without an error and shows
    every order of the book whose maker is one of the two accounts and no other,
    each once when the accounts differ, the newest first; the texts of the dates
    do not lose the order. *)
Theorem history_shows_book `{Ethers, Signing} (apiUrl eth apt : string) (s : State) (st : History)
    (h : list (Ev HistoryI)) :
  reachable s -> eth <> "" -> apt <> "" ->
  (forall o : Order, o ∈ JsMap.values (orders s) -> common_time (createdAt o)) ->
  exists os h', run (engine apiUrl s) (loadOrders apiUrl (Some eth) (Some apt)) st h =
      (Ok tt, {| historyOrders := order_json <$> os; isLoading := false |}, h') /\
    StronglySorted (descending createdAt) os /\
    (forall o : Order, o ∈ os <-> o ∈ JsMap.values (orders s) /\ (maker o = eth \/ maker o = apt)) /\
    (eth <> apt -> NoDup (OrderTypes.id <$> os)).
Proof.
  intros Hr He Ha Ht. pose proof (reachable_wf _ Hr) as W.
  set (l := (OrderService.getOrdersByMaker eth s ++ OrderService.getOrdersByMaker apt s)%list).
  assert (forall o : Order, o ∈ l <-> o ∈ JsMap.values (orders s) /\ (maker o = eth \/ maker o = apt)) as Hl.
  { intros o. unfold l. rewrite elem_of_app, !getOrdersByMaker_spec by done. naive_solver. }
  exists (js_sort (larger createdAt) l). eexists. split_and!.
  - unfold loadOrders, orders_of. rewrite run_bind. cbn [modify run].
    rewrite run_bind, run_try, run_bind.
    replace (present (Some eth)) with (Some eth) by (by destruct eth).
    replace (present (Some apt)) with (Some apt) by (by destruct apt).
    rewrite engine_by_maker, run_bind, engine_by_maker. cbn [modify run].
    rewrite <- fmap_app. fold l. rewrite (js_sort_map order_json (larger createdAt) newer).
    + reflexivity.
    + intros x y Hx Hy. apply newer_json; apply Ht; by apply Hl.
  - apply js_sort_descending.
  - intros o. rewrite js_sort_perm. apply Hl.
  - intros Hne. rewrite js_sort_perm. unfold l. rewrite fmap_app.
    apply NoDup_app. split_and!; [by apply maker_ids_nodup| |by apply maker_ids_nodup].
    intros k (o & -> & Ho)%list_elem_of_fmap (o' & Hk & Ho')%list_elem_of_fmap.
    apply getOrdersByMaker_spec in Ho as [Ho Hm], Ho' as [Ho' Hm']; [|done..].
    assert (o = o') by (by eapply values_by_id). congruence.
Qed.

(** Two loads at once: the second account is connected while the orders of the
    first are still under way. The load for both accounts ends, and then the
    answer to the first load arrives and puts its shorter list in place: the
    orders of the second account are gone from the list although they were
    loaded, and nothing is under way that would bring them back. *)
Theorem stale_history (apiUrl eth apt : string) (ethOrders aptOrders : list HistoryOrder) :
  eth <> "" -> apt <> "" ->
  exists w : Pool HistoryI History unit,
    rtc (step_of (fun p => exists e a, p = history_effect apiUrl e a))
      {| handlers := []; fields := initial_history; log := [] |} w /\
    Called (I := HistoryI) (OrdersRequest (apiUrl ++ "/api/orders/maker/" ++ apt)) (Ok aptOrders) ∈ log w /\
    historyOrders (fields w) = js_sort newer ethOrders /\ isLoading (fields w) = false /\
    Forall (fun p => p = Ret tt) (handlers w).
Proof.
  intros He Ha. assert (present (Some eth) = Some eth) as Pe by (by destruct eth).
  assert (present (Some apt) = Some apt) as Pa by (by destruct apt).
  eexists. split.
  { eapply rtc_l; [eapply (step_start _ _ 0 (history_effect apiUrl (Some eth) None)); [eauto|]|].
    { unfold history_effect, loadOrders, orders_of. rewrite Pe. reflexivity. }
    eapply rtc_l; [eapply (step_start _ _ 0 (history_effect apiUrl (Some eth) (Some apt))); [eauto|]|].
    { unfold history_effect, loadOrders, orders_of. rewrite Pe, Pa. reflexivity. }
    eapply rtc_l; [eapply (step_answer (I := HistoryI) _ _ 0 1 (OrdersRequest _) _ (Ok ethOrders)); reflexivity|].
    eapply rtc_l; [eapply (step_answer (I := HistoryI) _ _ 0 1 (OrdersRequest _) _ (Ok aptOrders)); reflexivity|].
    eapply rtc_l; [eapply (step_answer (I := HistoryI) _ _ 0 0 (OrdersRequest _) _ (Ok ethOrders)); reflexivity|].
    apply rtc_refl. }
  simpl. split_and!; [set_solver|by rewrite app_nil_r|done|by repeat constructor].
Qed.

(** The list divides every amount by [10^18]. An amount of APT has eight
    decimals: every order that sells less than half a million of them is shown
    with the amount [0.0000]. *)
Theorem history_hides_apt (z : Z) : 0 <= z < 5 * 10 ^ 13 -> formatOrderAmount (toString z) 18 = "0.0000".
Proof.
  intros Hz. unfold formatOrderAmount, Number_. rewrite string_to_bigint_toString.
  set (m := div (of_Z (5 * 10 ^ 13 - 1)) (of_Z (10 ^ 18))).
  assert (exists M, m = Finite M /\ 2 * M * 10 ^ 4 < scale) as (M & Hm & HM).
  { eexists. split; [vm_compute; reflexivity|]. rewrite scale_pow2. vm_compute. reflexivity. }
  assert (is_finite (of_Z z) = true) as Hf by (apply of_Z_finite; unfold small; lia).
  assert (leb (div (of_Z z) (of_Z (10 ^ 18))) m = true) as Hle.
  { apply div_mono_pos; [|vm_compute; reflexivity..|done|vm_compute; reflexivity].
    rewrite leb_of_Z by (unfold small; lia). apply Z.leb_le. lia. }
  assert (leb (Finite 0) (div (of_Z z) (of_Z (10 ^ 18))) = true) as Hge.
  { apply div_nonneg; [|exact Hf|vm_compute; reflexivity..].
    rewrite <- of_Z_0, leb_of_Z by (unfold small; lia). apply Z.leb_le. lia. }
  clearbody m. subst m. generalize dependent (div (of_Z z) (of_Z (10 ^ 18))).
  intros [|[]|c] Hle Hge; [discriminate..|]. cbn [leb] in Hle, Hge. apply Z.leb_le in Hle, Hge. pose proof scale_pos as Hs.
  unfold toFixed. rewrite (proj2 (Z.leb_gt _ _)), (proj2 (Z.ltb_ge c 0)) by lia.
  rewrite Z.abs_eq, Z.div_small by lia. reflexivity.
Qed.

End OrderHistory.

(** ** Examples *)

Module PanelExample.

Definition sample_data : TransactionPanel.OrderData :=
  {| TransactionPanel.od_orderId := Some "o1"; TransactionPanel.od_id := None;
     TransactionPanel.od_fromChain := Some "ETHEREUM"; TransactionPanel.od_toChain := Some "APTOS";
     TransactionPanel.od_fromAmount := Some "1000000000000000000";
     TransactionPanel.od_minToAmount := Some "50000000000";
     TransactionPanel.od_deadline := Some (of_Z 1722470400) |}.

Definition sample_row : TransactionPanel.Transaction :=
  TransactionPanel.new_transaction (Some "o1") 1722470000000 sample_data.

Example row_amounts :
  TransactionPanel.formatAmount (TransactionPanel.tx_fromAmount sample_row)
    (TransactionPanel.tx_fromChain sample_row) = "1.000000" /\
  TransactionPanel.formatAmount (TransactionPanel.tx_toAmount sample_row)
    (TransactionPanel.tx_toChain sample_row) = "500.0000" /\
  TransactionPanel.row_countdown 1722470000000 sample_row = Some ("warning", "6:40").
Proof. vm_compute. done. Qed.

(** A withdrawal, then a failure of another attempt on the same order. *)
Lemma panel_row_of_order_witness :
  exists t', List.filter (TransactionPanel.row_of (Some "o1"))
      (TransactionPanel.panel_run [sample_row]
         [(1, TransactionPanel.EscrowWithdrawn (Some "o1") (Some "0x01"));
          (2, TransactionPanel.OrderFailed (Some "o1"))]) = [t'] /\
    TransactionPanel.tx_status t' = TransactionPanel.tx_failed.
Proof.
  destruct (TransactionPanel.panel_row_of_order sample_row [sample_row]
      [(1, TransactionPanel.EscrowWithdrawn (Some "o1") (Some "0x01"));
       (2, TransactionPanel.OrderFailed (Some "o1"))])
    as (t' & Ht & _ & _ & Hs & _); [reflexivity|reflexivity|repeat constructor|].
  exists t'. split; [exact Ht|exact Hs].
Defined.

Lemma countdown_expired_witness : TransactionPanel.formatCountdown 1722470400000 (of_Z 1722470400) = "Expired".
Proof. apply (TransactionPanel.countdown_expired 1722470400000 1722470400); lia. Defined.

Lemma history_shows_book_witness :
  exists os h', run (OrderHistory.engine "http://localhost:3001" OrderBook.sample_book)
      (OrderHistory.loadOrders "http://localhost:3001" (Some "0xMaker") (Some "0xOther"))
      OrderHistory.initial_history [] =
      (Ok tt, {| OrderHistory.historyOrders := OrderHistory.order_json <$> os;
                 OrderHistory.isLoading := false |}, h') /\
    (OrderBook.sample_order ∈ os).
Proof.
  destruct (@OrderHistory.history_shows_book tagged_ethers echo_signing "http://localhost:3001"
              "0xMaker" "0xOther" OrderBook.sample_book OrderHistory.initial_history [])
    as (os & h' & Hr & _ & Ho & _).
  - exact OrderBook.sample_reachable.
  - discriminate.
  - discriminate.
  - intros o Ho. vm_compute in Ho. apply list_elem_of_singleton in Ho as ->. unfold common_time. simpl. lia.
  - exists os, h'. split; [exact Hr|]. apply Ho. split; [|by left]. vm_compute. by left.
Defined.

End PanelExample.
