(* ===== verification/Wallet.v ===== *)
(** * The wallets of the browser

    What the signing utilities and the wallet test pages of the frontend ask of
    the wallet extensions, of the Aptos SDK and of the node: the objects the
    extensions put on [window], the requests with the type of their answers,
    and what is sent without waiting. *)

From Stdlib Require Import ZArith Lia Ascii String.
From stdpp Require Import base numbers list strings.
From S2P Require Import Prelude.
From S2P Require Import JsNumber.
From S2P Require Import JsString.
From S2P Require Import JsFormat.
From S2P Require Import JsMap.
From S2P Require Import Async.
From S2P Require Import Chain.

Local Open Scope string_scope.
Local Open Scope Z_scope.

(** An object that a wallet extension puts on [window]: its [name] and the
    names of its properties that are truthy, methods and flags alike. *)
Record Provider := {
  pv_name : option string;
  pv_props : list string
}.

Definition has (w : Provider) (prop : string) : bool := bool_decide (prop ∈ pv_props w).

(** The wallets on [window] by name, and [window.__martianConnected]. *)
Record Window := {
  win_wallets : JsMap.t Provider;
  win_martianConnected : bool
}.

Definition wallet_at (win : Window) (name : string) : option Provider := JsMap.get name (win_wallets win).
Definition on_window (win : Window) (name : string) : bool := JsMap.has name (win_wallets win).

(** What [account()] answers: an object, or the address itself. *)
Inductive AccountAnswer :=
  | AccountObject (address publicKey : option string)
  | AccountText (address : string).

(** A value used as an address: a text, the account object itself, or a promise
    that was not awaited. *)
Inductive AddressValue :=
  | AddressText (s : string)
  | AddressObject
  | AddressPromise.

(** The fields of a raw transaction that the code reads or sets; one that is
    absent is [undefined]. *)
Record RawTransaction := {
  raw_sender : option string;
  raw_sequence_number : option Z;
  raw_max_gas_amount : option Z;
  raw_gas_unit_price : option Z;
  raw_expiration : option Z;
  raw_fee_payer_address : option string;
  raw_args : option (list Arg)
}.

(** A transaction that the SDK built, with its BCS bytes. *)
Record BuiltTx := {
  bt_raw : option RawTransaction;
  bt_feePayerAddress : option string;
  bt_bytes : list Z
}.

(** [{ function, typeArguments, functionArguments }] *)
Record EntryCall := {
  ec_function : string;
  ec_typeArguments : list string;
  ec_arguments : list Arg
}.

(** The argument of [aptos.transaction.build.simple]; the options are the gas
    unit price and the maximal gas. *)
Record BuildSimpleData := {
  bs_sender : AddressValue;
  bs_withFeePayer : bool;
  bs_data : EntryCall;
  bs_options : option (Z * Z)
}.

(** The argument of [aptos.transaction.build.multiAgent]. *)
Record BuildMultiAgentData := {
  bm_sender : string;
  bm_secondarySigners : list string;
  bm_data : EntryCall;
  bm_maxGasAmount : Z;
  bm_gasUnitPrice : Z;
  bm_withFeePayer : bool
}.

(** What a wallet is asked to sign. *)
Inductive ToSign :=
  | SignBuilt (tx : BuiltTx)
  | SignPayload (call : EntryCall)
  | SignDetails (tx : BuiltTx) (feePayerAddress : string) (signature : option string).

(** The answer to a message to sign. *)
Record MessageAnswer := {
  ma_signature : string;
  ma_publicKey : option string
}.

Record ExecutedTx := {
  ex_success : bool;
  ex_vm_status : string;
  ex_hash : string;
  ex_gas_used : string
}.

Inductive WalletReq :=
  | Connect (wallet : string)
  | Account (wallet : string)
  | Disconnect (wallet : string)
  | WalletNetwork (wallet : string)
  | SignMessage (wallet message nonce : string)
  | SignWith (wallet : string) (what : ToSign)
  | AdapterSign (what : ToSign)
  | BuildSimple (b : BuildSimpleData)
  | BuildMultiAgent (b : BuildMultiAgentData)
  | SigningMessage (tx : BuiltTx)
  | SubmitMultiAgent (tx : BuiltTx) (sender : string) (additional : list string) (feePayer : string)
  | WaitForTransaction (hash : string)
  | FundAccount (address : string) (amount : Z)
  | AccountInfo (address : string)
  | CoinAmount (address coinType : string)
  | Delay (ms : Z).

(** [Connect] answers with the [status] of the response when there is a
    response, [Account] with nothing for [undefined], the signing requests with
    the serialized signature, the submission with the hash and [AccountInfo]
    with the sequence number and the authentication key. *)
Definition wallet_ans (r : WalletReq) : Type :=
  match r with
  | Connect _ => option (option Z)
  | Account _ => option AccountAnswer
  | Disconnect _ => unit
  | WalletNetwork _ => string
  | SignMessage _ _ _ => MessageAnswer
  | SignWith _ _ => string
  | AdapterSign _ => string
  | BuildSimple _ => BuiltTx
  | BuildMultiAgent _ => BuiltTx
  | SigningMessage _ => list Z
  | SubmitMultiAgent _ _ _ _ => string
  | WaitForTransaction _ => ExecutedTx
  | FundAccount _ _ => unit
  | AccountInfo _ => string * string
  | CoinAmount _ _ => number
  | Delay _ => unit
  end.

(** [AccountAsked] is a call of [account()] whose promise is not awaited,
    [Dispatched] an event on [window]. *)
Inductive WalletOut :=
  | AlertText (text : string)
  | AccountAsked (wallet : string)
  | Dispatched (event : string) (detail : option string).

Definition WalletI : Interface := {| Req := WalletReq; ans := wallet_ans; Out := WalletOut |}.

Abbreviation uprog S := (prog WalletI S).

Section Requests.
Context {S : Type}.

Definition connect (w : string) : uprog S (option (option Z)) := await (I := WalletI) (Connect w).
Definition account (w : string) : uprog S (option AccountAnswer) := await (I := WalletI) (Account w).
Definition disconnect (w : string) : uprog S unit := await (I := WalletI) (Disconnect w).
Definition walletNetwork (w : string) : uprog S string := await (I := WalletI) (WalletNetwork w).
Definition signMessage (w message nonce : string) : uprog S MessageAnswer :=
  await (I := WalletI) (SignMessage w message nonce).
Definition signWith (w : string) (what : ToSign) : uprog S string :=
  await (I := WalletI) (SignWith w what).
Definition adapterSign (what : ToSign) : uprog S string := await (I := WalletI) (AdapterSign what).
Definition buildSimple (b : BuildSimpleData) : uprog S BuiltTx := await (I := WalletI) (BuildSimple b).
Definition buildMultiAgent (b : BuildMultiAgentData) : uprog S BuiltTx :=
  await (I := WalletI) (BuildMultiAgent b).
Definition signingMessage (tx : BuiltTx) : uprog S (list Z) := await (I := WalletI) (SigningMessage tx).
Definition submitMultiAgent (tx : BuiltTx) (sender : string) (additional : list string)
    (feePayer : string) : uprog S string :=
  await (I := WalletI) (SubmitMultiAgent tx sender additional feePayer).
Definition waitForTransaction (hash : string) : uprog S ExecutedTx :=
  await (I := WalletI) (WaitForTransaction hash).
Definition fundAccount (address : string) (amount : Z) : uprog S unit :=
  await (I := WalletI) (FundAccount address amount).
Definition accountInfo (address : string) : uprog S (string * string) :=
  await (I := WalletI) (AccountInfo address).
Definition coinAmount (address coinType : string) : uprog S number :=
  await (I := WalletI) (CoinAmount address coinType).
Definition delay (ms : Z) : uprog S unit := await (I := WalletI) (Delay ms).
Definition alert (text : string) : uprog S unit := tell (I := WalletI) (AlertText text).
Definition dispatch (event : string) (detail : option string) : uprog S unit :=
  tell (I := WalletI) (Dispatched event detail).
End Requests.

(** What the SDK computes in the page: the account of a private key, its
    signatures, and the serialization of transactions and authenticators. All but
    the serialization may throw. *)
Class AptosAccounts := {
  address_of_key : string -> result string;
  sign_tx : string -> BuiltTx -> result string;
  sign_fee_payer : string -> BuiltTx -> result string;
  auth_bytes : string -> list Z;
  read_simple_tx : list Z -> result BuiltTx;
  read_auth : list Z -> result string
}.

(** [x.method()] of an object that is [undefined]. *)
Definition undefined_read {S A} (prop : string) : uprog S A :=
  Fail (TypeError ("Cannot read properties of undefined (reading '" ++ prop ++ "')")).

(** Symbolic execution of a goal [wp p Q s h] over this interface. *)
Ltac wallet_unfold :=
  unfold connect, account, disconnect, walletNetwork, signMessage, signWith, adapterSign, buildSimple,
    buildMultiAgent, signingMessage, submitMultiAgent, waitForTransaction, fundAccount, accountInfo,
    coinAmount, delay, alert, dispatch, undefined_read in *.
Ltac wallet_norm := wallet_unfold; wp_norm.
Ltac wallet_call x e := wallet_norm; intros [x|e]; wallet_norm.
