(* ===== verification/WalletUtils.v ===== *)
(** * Signing utilities of the frontend

    The modules of [frontend/src/utils/] that build and sign escrow
    transactions for wallets with different abilities: the builders of
    [create_escrow_user_funded], the permit text, the detection of the wallet
    and the connection to Martian. *)

From Stdlib Require Import ZArith Lia Ascii String.
From stdpp Require Import base numbers list strings sets.
From S2P Require Import Prelude.
From S2P Require Import JsNumber.
From S2P Require Import JsString.
From S2P Require Import JsFormat.
From S2P Require Import JsMap.
From S2P Require Import JsDate.
From S2P Require Import Async.
From S2P Require Import Chain.
From S2P Require Import ChainService.
From S2P Require Import EscrowEvents.
From S2P Require Import SignedOrders.
From S2P Require Import OrderIntake.
From S2P Require Import WebServices.
From S2P Require Import Wallet.

Local Open Scope string_scope.
Local Open Scope Z_scope.
Local Open Scope prog_scope.

(** ** Bytes as hex *)

(** [Array.from(u).map(b => b.toString(16).padStart(2, '0')).join('')] *)
Definition toHex (l : list Z) : string := foldr (fun b rest => hex_byte b ++ rest) "" l.

Definition is_byte (b : Z) : Prop := 0 <= b < 256.

(** The bytes that a hex text without prefix stands for. *)
Fixpoint fromHex (s : string) : option (list Z) :=
  match s with
  | EmptyString => Some []
  | String a (String b t) =>
      match digit_value a, digit_value b with
      | Some x, Some y =>
          if (x <? 16) && (y <? 16) then l ← fromHex t; Some (16 * x + y :: l) else None
      | _, _ => None
      end
  | String _ EmptyString => None
  end.

Lemma hex_digit_value n : 0 <= n < 16 -> digit_value (hex_digit n) = Some n.
Proof.
  intros Hn. assert (forallb (fun k => bool_decide (digit_value (hex_digit (Z.of_nat k)) = Some (Z.of_nat k)))
                       (seq 0 16) = true) as Hall by (vm_compute; reflexivity).
  rewrite forallb_forall in Hall. specialize (Hall (Z.to_nat n) ltac:(apply in_seq; lia)).
  rewrite Z2Nat.id in Hall by lia. by apply bool_decide_eq_true in Hall.
Qed.

Lemma fromHex_toHex l : Forall is_byte l -> fromHex (toHex l) = Some l.
Proof.
  induction 1 as [|b l Hb _ IH]; [done|]. unfold is_byte in Hb.
  assert (0 <= b / 16 < 16) as Hq by (split; [apply Z.div_pos; lia|apply Z.div_lt_upper_bound; lia]).
  pose proof (Z.mod_pos_bound b 16 ltac:(lia)) as Hm.
  change (toHex (b :: l)) with (String (hex_digit (b / 16)) (String (hex_digit (b mod 16)) (toHex l))).
  cbn [fromHex]. rewrite !hex_digit_value by done.
  rewrite !(proj2 (Z.ltb_lt _ _)) by lia. cbn [andb]. rewrite IH. simpl. do 2 f_equal.
  pose proof (Z.div_mod b 16 ltac:(lia)). lia.
Qed.

Lemma toHex_inj l k : Forall is_byte l -> Forall is_byte k -> toHex l = toHex k -> l = k.
Proof. intros Hl Hk E. assert (Some l = Some k) as [=->]; [|done]. by rewrite <- !fromHex_toHex, E. Qed.

(** ** Building the escrow transaction *)

(** The parameters with byte arrays as lists of numbers and the timelock as a
    text, as three of the utilities take them. *)
Record EscrowRequest := {
  er_escrowId : list Z;
  er_beneficiary : string;
  er_amount : string;
  er_hashlock : list Z;
  er_timelock : string;
  er_safetyDeposit : string
}.

Definition ESCROW_V2 : string :=
  "0x3f2f1a3d325df4561b8216251aec6dc6c1a6bb3ee8d0ed9004a51c73a857d9a8::escrow_v2".
Definition RESOLVER : string := "0x2d61a25dfac21604c5eabda303c9cc9f367d6c17b9c18df424d57fee4b4a9532".

(** [Array.from] of the byte arrays. *)
Definition user_funded_arguments (p : SponsoredEscrowParams) : list Arg :=
  [AInts (sp_escrowId p); AString (sp_beneficiary p); AString (sp_amount p); AInts (sp_hashlock p);
   AString (number_toString (sp_timelock p)); AString (sp_safetyDeposit p);
   AString (sp_resolverAddress p)].

Definition user_funded_call (args : list Arg) : EntryCall :=
  {| ec_function := ESCROW_V2 ++ "::create_escrow_user_funded"; ec_typeArguments := [];
     ec_arguments := args |}.

Definition request_arguments (e : EscrowRequest) : list Arg :=
  [AInts (er_escrowId e); AString (er_beneficiary e); AString (er_amount e); AInts (er_hashlock e);
   AString (er_timelock e); AString (er_safetyDeposit e); AString RESOLVER].

Definition simple (sender : AddressValue) (withFeePayer : bool) (call : EntryCall) : BuildSimpleData :=
  {| bs_sender := sender; bs_withFeePayer := withFeePayer; bs_data := call; bs_options := None |}.

(** The test transfer that the capability tests build. *)
Definition transfer_call (args : list Arg) : EntryCall :=
  {| ec_function := "0x1::aptos_account::transfer"; ec_typeArguments := []; ec_arguments := args |}.

Module SponsoredTransactionService.
Section Service.
Context {S : Type}.

(** The byte arrays are passed as they are; the gas unit price is zero. *)
Definition createUserFundedEscrowTransaction (userAddress : string) (p : SponsoredEscrowParams)
    : uprog S BuiltTx :=
  buildSimple {| bs_sender := AddressText userAddress; bs_withFeePayer := false;
                 bs_data := user_funded_call
                   [ABytes (hex_of_bytes (sp_escrowId p)); AString (sp_beneficiary p);
                    AString (sp_amount p); ABytes (hex_of_bytes (sp_hashlock p));
                    AString (number_toString (sp_timelock p)); AString (sp_safetyDeposit p);
                    AString (sp_resolverAddress p)];
                 bs_options := Some (0, 200000) |}.

Definition createSponsorshipData `{AptosAccounts} (userSignedTransaction : list Z) (userAuthenticator : string)
    : string * string :=
  (hex_of_bytes userSignedTransaction, hex_of_bytes (auth_bytes userAuthenticator)).

(** [dummy_sign] is what the SDK makes of a signer with a key of zeros whose
    [signMessage] throws. *)
Definition prepareTransactionForSigning `{AptosAccounts} (dummy_sign : BuiltTx -> result string)
    (transaction : BuiltTx) : uprog S (list Z) :=
  rawTxn <- of_result (dummy_sign transaction);
  Ret (auth_bytes rawTxn).
End Service.
End SponsoredTransactionService.

Module SponsoredTransactionV2.
Section Service.
Context {S : Type}.

Definition buildSponsoredEscrowTransaction (userAddress : string) (p : SponsoredEscrowParams)
    : uprog S BuiltTx :=
  buildSimple (simple (AddressText userAddress) true (user_funded_call (user_funded_arguments p))).

Definition getUserSignature (transaction : BuiltTx) : uprog S string :=
  Fail (Error "This should be signed by the user wallet").

Definition serializeTransactionForResolver `{AptosAccounts} (transaction : BuiltTx)
    (userAuthenticator : string) : string * string :=
  (toHex (uint8 (bt_bytes transaction)), toHex (uint8 (auth_bytes userAuthenticator))).
End Service.
End SponsoredTransactionV2.

Module DirectUserFundedTransaction.
Section Service.
Context {S : Type}.

Definition buildUserFundedTransaction (userAddress : string) (p : SponsoredEscrowParams)
    : uprog S BuiltTx :=
  buildSimple (simple (AddressText userAddress) false (user_funded_call (user_funded_arguments p))).

(** The payload for the wallet: the same call, with [type: 'entry_function_payload']. *)
Definition prepareForWallet (p : SponsoredEscrowParams) : string * EntryCall :=
  ("entry_function_payload", user_funded_call (user_funded_arguments p)).
End Service.
End DirectUserFundedTransaction.

Module MartianTransactionBuilder.

Definition buildForMartian (sender fn : string) (type_arguments : list string) (arguments : list Arg)
    (gas_unit_price max_gas_amount : option string) : string * EntryCall :=
  ("entry_function_payload",
   {| ec_function := fn; ec_typeArguments := type_arguments; ec_arguments := arguments |}).

(** Martian takes byte arrays as hex texts. *)
Definition buildMultiAgentTransaction (sender escrowModule : string) (p : SponsoredEscrowParams)
    : string * EntryCall :=
  let escrowIdHex := "0x" ++ toHex (sp_escrowId p) in
  let hashlockHex := "0x" ++ toHex (sp_hashlock p) in
  ("entry_function_payload",
   user_funded_call
     [AString escrowIdHex; AString (sp_beneficiary p); AString (sp_amount p); AString hashlockHex;
      AString (number_toString (sp_timelock p)); AString (sp_safetyDeposit p);
      AString (sp_resolverAddress p)]).
End MartianTransactionBuilder.

Module CustomWalletSigning.
Section Service.
Context {S : Type}.

Definition buildUserTransaction (userAddress : string) (e : EscrowRequest) : uprog S BuiltTx :=
  buildSimple (simple (AddressText userAddress) false (user_funded_call (request_arguments e))).

(** A spread of an absent object has no fields. *)
Definition empty_raw : RawTransaction :=
  {| raw_sender := None; raw_sequence_number := None; raw_max_gas_amount := None;
     raw_gas_unit_price := None; raw_expiration := None; raw_fee_payer_address := None;
     raw_args := None |}.

Definition set_fee_payer (feePayer : string) (r : RawTransaction) : RawTransaction :=
  {| raw_sender := raw_sender r; raw_sequence_number := raw_sequence_number r;
     raw_max_gas_amount := raw_max_gas_amount r; raw_gas_unit_price := raw_gas_unit_price r;
     raw_expiration := raw_expiration r; raw_fee_payer_address := Some feePayer;
     raw_args := raw_args r |}.

Definition convertToSponsoredTransaction (regularTx : BuiltTx) (userSignature feePayerAddress : string)
    : BuiltTx * string :=
  ({| bt_raw := Some (set_fee_payer feePayerAddress (default empty_raw (bt_raw regularTx)));
      bt_feePayerAddress := bt_feePayerAddress regularTx; bt_bytes := bt_bytes regularTx |},
   userSignature).

Definition createKeylessAccount (email : string) : string * string := ("0x0", "0x0").
End Service.
End CustomWalletSigning.

Module DirectSponsoredTransaction.
Section Service.
Context `{AptosAccounts} {S : Type}.

Definition createSponsoredEscrowWithPrivateKey (userPrivateKey : string) (e : EscrowRequest)
    : uprog S (BuiltTx * string) :=
  userAddress <- of_result (address_of_key userPrivateKey);
  transaction <- buildSimple (simple (AddressText userAddress) true (user_funded_call (request_arguments e)));
  userSignature <- of_result (sign_tx userPrivateKey transaction);
  Ret (transaction, userSignature).

Definition buildTransactionForOfflineSigning (userAddress : string) (e : EscrowRequest)
    : uprog S (list Z * list Z) :=
  transaction <- buildSimple (simple (AddressText userAddress) true (user_funded_call (request_arguments e)));
  signing <- signingMessage transaction;
  Ret (bt_bytes transaction, signing).

(** A transaction that can be built counts as support. *)
Definition testWalletSupport : uprog S bool :=
  try_catch
    (_ <- buildSimple (simple (AddressText "0x1") true (transfer_call [AString "0x2"; ANumber (of_Z 100)]));
     Ret true)
    (fun _ => Ret false).
End Service.
End DirectSponsoredTransaction.

(** [s.split('::')] *)
Fixpoint split_colons (s : string) : list string :=
  match s with
  | EmptyString => [""]
  | String ":" (String ":" t) => "" :: split_colons t
  | String c t =>
      match split_colons t with
      | w :: rest => String c w :: rest
      | [] => [String c ""]
      end
  end.

Module MultiAgentTransaction.
Section Service.
Context {S : Type}.

(** The module name is split at its [::] and put together again. *)
Definition escrow_function : string :=
  default "undefined" (split_colons ESCROW_V2 !! 0%nat) ++ "::" ++
  default "undefined" (split_colons ESCROW_V2 !! 1%nat) ++ "::create_escrow_user_funded".

Definition buildMultiAgentEscrowTransaction (userAddress : string) (p : SponsoredEscrowParams)
    : uprog S BuiltTx :=
  buildSimple (simple (AddressText userAddress) true
    {| ec_function := escrow_function; ec_typeArguments := [];
       ec_arguments := user_funded_arguments p |}).

(** The object for the wallet. *)
Record Prepared := {
  pp_sender : option string;
  pp_sequence_number : option string;
  pp_max_gas_amount : string;
  pp_gas_unit_price : string;
  pp_expiration_timestamp_secs : string;
  pp_payload : EntryCall;
  pp_fee_payer_address : option string
}.

(** [x?.toString() || d]: the text of a number is never empty. *)
Definition text_or_default (x : option Z) (d : string) : string :=
  match x with Some z => toString z | None => d end.

(** [Math.floor(Date.now() / 1000 + 3600).toString()] *)
Definition hour_from_now (t : Z) : string :=
  number_toString (floor (add (div (of_Z t) (of_Z 1000)) (of_Z 3600))).

(** No read of the body throws, so the fallback is not reached. *)
Definition prepareForWalletSigning (transaction : BuiltTx) : uprog S Prepared :=
  t <- now;
  let raw := bt_raw transaction in
  Ret {| pp_sender := raw ≫= raw_sender;
         pp_sequence_number := toString <$> (raw ≫= raw_sequence_number);
         pp_max_gas_amount := text_or_default (raw ≫= raw_max_gas_amount) "100000";
         pp_gas_unit_price := text_or_default (raw ≫= raw_gas_unit_price) "100";
         pp_expiration_timestamp_secs := text_or_default (raw ≫= raw_expiration) (hour_from_now t);
         pp_payload := {| ec_function := escrow_function; ec_typeArguments := [];
                          ec_arguments := default [] (raw ≫= raw_args) |};
         pp_fee_payer_address := match present (raw ≫= raw_fee_payer_address) with
                                 | Some a => Some a
                                 | None => bt_feePayerAddress transaction
                                 end |}.

Definition submitMultiAgentTransaction (transaction : BuiltTx) (userSignature resolverSignature : string)
    : uprog S string :=
  submitMultiAgent transaction userSignature [] resolverSignature.

Definition serializeForBackend `{AptosAccounts} (transaction : BuiltTx) (userSignature : string)
    : string * string :=
  (toHex (uint8 (bt_bytes transaction)), toHex (uint8 (auth_bytes userSignature))).
End Service.
End MultiAgentTransaction.

(** ** The builders agree *)

(** The request a program starts with. *)
Definition first_request {S A} (p : uprog S A) : option WalletReq :=
  match p with Call r _ => Some r | _ => None end.

(** The bytes that a [vector<u8>] argument stands for: an array of numbers, a
    byte array or a hex text. *)
Definition vector_of (a : Arg) : option (list Z) :=
  match a with
  | AInts l => Some l
  | ABytes s | AString s =>
      match s with
      | String "0" (String "x" t) => fromHex t
      | _ => None
      end
  | _ => None
  end.

(** The escrow that a call describes: the function, the two byte arrays and the
    other arguments. *)
Definition described (c : EntryCall) : option (string * list Z * list Z * list Arg) :=
  match ec_arguments c with
  | [i; ben; amt; hl; tl; sd; res] =>
      escrowId ← vector_of i; hashlock ← vector_of hl;
      Some (ec_function c, escrowId, hashlock, [ben; amt; tl; sd; res])
  | _ => None
  end.

Definition escrow_of (p : SponsoredEscrowParams) : string * list Z * list Z * list Arg :=
  (ESCROW_V2 ++ "::create_escrow_user_funded", sp_escrowId p, sp_hashlock p,
   [AString (sp_beneficiary p); AString (sp_amount p); AString (number_toString (sp_timelock p));
    AString (sp_safetyDeposit p); AString (sp_resolverAddress p)]).

Definition request_of (p : SponsoredEscrowParams) : EscrowRequest :=
  {| er_escrowId := sp_escrowId p; er_beneficiary := sp_beneficiary p; er_amount := sp_amount p;
     er_hashlock := sp_hashlock p; er_timelock := number_toString (sp_timelock p);
     er_safetyDeposit := sp_safetyDeposit p |}.

Lemma uint8_bytes l : Forall is_byte l -> uint8 l = l.
Proof.
  induction 1 as [|b l Hb _ IH]; [done|]. unfold uint8 in *. csimpl. rewrite IH.
  by rewrite Z.mod_small by exact Hb.
Qed.

Lemma hex_of_bytes_eq l : Forall is_byte l -> hex_of_bytes l = "0x" ++ toHex l.
Proof. intros Hl. unfold hex_of_bytes. by rewrite uint8_bytes. Qed.

(** What a builder asks of the SDK: a transaction of [user] that describes the
    escrow of [p], with the fee payed by another account or not. *)
Definition builds {S A} (user : string) (p : SponsoredEscrowParams) (feePayer : bool) (m : uprog S A) : Prop :=
  exists b, first_request m = Some (BuildSimple b) /\ bs_sender b = AddressText user /\
    bs_withFeePayer b = feePayer /\ described (bs_data b) = Some (escrow_of p).

(** The utilities are interchangeable: for the same parameters the seven
    builders ask the SDK for a transaction of the same account that describes
    the same escrow, three of them as a transaction whose fee the sender
    pays and four as one with a fee payer; and the payloads for the wallets,
    Martian's with its hex texts included, describe that escrow too. *)
Theorem builders_agree {S} `{AptosAccounts} (user key : string) (p : SponsoredEscrowParams) :
  Forall is_byte (sp_escrowId p) -> Forall is_byte (sp_hashlock p) -> sp_resolverAddress p = RESOLVER ->
  address_of_key key = Ok user ->
  builds user p false (SponsoredTransactionService.createUserFundedEscrowTransaction (S := S) user p) /\
  builds user p false (DirectUserFundedTransaction.buildUserFundedTransaction (S := S) user p) /\
  builds user p false (CustomWalletSigning.buildUserTransaction (S := S) user (request_of p)) /\
  builds user p true (SponsoredTransactionV2.buildSponsoredEscrowTransaction (S := S) user p) /\
  builds user p true (MultiAgentTransaction.buildMultiAgentEscrowTransaction (S := S) user p) /\
  builds user p true (DirectSponsoredTransaction.buildTransactionForOfflineSigning (S := S) user (request_of p)) /\
  builds user p true (DirectSponsoredTransaction.createSponsoredEscrowWithPrivateKey (S := S) key (request_of p)) /\
  described (DirectUserFundedTransaction.prepareForWallet p).2 = Some (escrow_of p) /\
  (forall sender m, described (MartianTransactionBuilder.buildMultiAgentTransaction sender m p).2 =
                    Some (escrow_of p)).
Proof.
  intros Hi Hh Hr Hk.
  assert (vector_of (AString ("0x" ++ toHex (sp_escrowId p))) = Some (sp_escrowId p)) as Ei
    by (by apply fromHex_toHex).
  assert (vector_of (AString ("0x" ++ toHex (sp_hashlock p))) = Some (sp_hashlock p)) as Eh
    by (by apply fromHex_toHex).
  split_and!.
  - eexists. split_and!; [reflexivity..|]. unfold described. cbn [bs_data ec_arguments user_funded_call].
    rewrite !hex_of_bytes_eq by done. change (vector_of (ABytes ?s)) with (vector_of (AString s)).
    by rewrite Ei, Eh.
  - by eexists.
  - eexists. split_and!; [reflexivity..|]. unfold escrow_of. by rewrite Hr.
  - by eexists.
  - by eexists.
  - eexists. split_and!; [reflexivity..|]. unfold escrow_of. by rewrite Hr.
  - unfold DirectSponsoredTransaction.createSponsoredEscrowWithPrivateKey. rewrite Hk.
    eexists. split_and!; [reflexivity..|]. unfold escrow_of. by rewrite Hr.
  - done.
  - intros sender m. unfold described. cbn [snd MartianTransactionBuilder.buildMultiAgentTransaction
      ec_arguments user_funded_call]. by rewrite Ei, Eh.
Qed.

(** Nothing is signed before the transaction is built, and what is returned is
    the signature of the transaction that was built. *)
Theorem private_key_signs_built {S} `{AptosAccounts} (key : string) (e : EscrowRequest) (s : S)
    (h : list (Ev WalletI)) :
  wp (DirectSponsoredTransaction.createSponsoredEscrowWithPrivateKey key e) (fun r s' h' =>
    s' = s /\
    match r with
    | Ok (tx, sig) => exists user, address_of_key key = Ok user /\ sign_tx key tx = Ok sig /\
        h' = (h ++ [Called (I := WalletI) (BuildSimple (simple (AddressText user) true
                      (user_funded_call (request_arguments e)))) (Ok tx)])%list
    | Throw _ => True
    end) s h.
Proof.
  unfold DirectSponsoredTransaction.createSponsoredEscrowWithPrivateKey.
  destruct (address_of_key key) as [user|err] eqn:Hu; wallet_norm; [|done].
  intros [tx|err]; wallet_norm; [|done].
  destruct (sign_tx key tx) as [sig|err] eqn:Hs; wallet_norm; [|done]. split; [done|]. by exists user.
Qed.

(** The conversion to a sponsored transaction only sets the fee payer: the
    signature handed on is the one the user gave for the transaction without
    it, and converting again replaces the fee payer. *)
Theorem conversion_keeps_signature (tx : BuiltTx) (sig fp fp' : string) :
  let '(tx1, sig1) := CustomWalletSigning.convertToSponsoredTransaction tx sig fp in
  sig1 = sig /\ bt_bytes tx1 = bt_bytes tx /\
  (bt_raw tx1 ≫= raw_fee_payer_address) = Some fp /\
  (bt_raw tx1 ≫= raw_sender) = (bt_raw tx ≫= raw_sender) /\
  (bt_raw tx1 ≫= raw_args) = (bt_raw tx ≫= raw_args) /\
  CustomWalletSigning.convertToSponsoredTransaction tx1 sig1 fp' =
    CustomWalletSigning.convertToSponsoredTransaction tx sig fp'.
Proof. by destruct tx as [[[]|] f b]. Qed.

(** ** Permit texts *)

Module PermitSigner.

Record EscrowPermitParams := {
  ep_escrowId : list Z;
  ep_amount : string;
  ep_beneficiary : string;
  ep_hashlock : list Z;
  ep_timelock : string;
  ep_nonce : string;
  ep_expiry : string
}.

(** [parts.join(':')] *)
Fixpoint join_colon (parts : list string) : string :=
  match parts with
  | [] => ""
  | [x] => x
  | x :: rest => x ++ ":" ++ join_colon rest
  end.

Definition permit_parts (params : EscrowPermitParams) : list string :=
  ["APTOS_ESCROW_PERMIT"; toHex (ep_escrowId params); ep_amount params; ep_beneficiary params;
   toHex (ep_hashlock params); ep_timelock params; ep_nonce params; ep_expiry params].

Definition generatePermitMessage (params : EscrowPermitParams) : string :=
  join_colon (permit_parts params).

(** [new TextEncoder().encode(s)] of an ASCII text. *)
Fixpoint encode (s : string) : list Z :=
  match s with
  | EmptyString => []
  | String c t => Z.of_N (N_of_ascii c) :: encode t
  end.

Definition generatePermitBytesForSigning (params : EscrowPermitParams) : list Z :=
  encode (generatePermitMessage params).

Section Signing.
Context {S : Type}.

(** [x.publicKey || (await wallet.account()).publicKey] *)
Definition public_key (wallet : string) (answered : option string) : uprog S (option string) :=
  match present answered with
  | Some k => Ret (Some k)
  | None =>
      a <- account wallet;
      match a with
      | None => undefined_read "publicKey"
      | Some (AccountObject _ k) => Ret k
      | Some (AccountText _) => Ret None
      end
  end.

(** [random] is [Math.floor(Math.random() * 1000000)]. *)
Definition signPermitWithWallet (random : Z) (permitMessage name : string) (wallet : Provider)
    : uprog S (string * option string) :=
  rethrowing
    (if has wallet "signMessage" then
       response <- signMessage name permitMessage (toString random);
       key <- public_key name (ma_publicKey response);
       Ret (ma_signature response, key)
     else Fail (Error "Wallet does not support message signing")).
End Signing.

Record PermitObject := {
  po_params : EscrowPermitParams;
  po_signature : string;
  po_publicKey : option string
}.

Definition createPermitObject (params : EscrowPermitParams) (signature : string)
    (publicKey : option string) : PermitObject :=
  {| po_params := params; po_signature := signature; po_publicKey := publicKey |}.

Definition buildApprovalTransaction (userAddress resolverAddress maxAmount : string)
    (durationSeconds : number) (contractAddress : string) : EntryCall :=
  {| ec_function := contractAddress ++ "::escrow_permit::approve_escrow_spending";
     ec_typeArguments := [];
     ec_arguments := [AString resolverAddress; AString maxAmount; AString (number_toString durationSeconds)] |}.

(** *** Reading a permit *)

Definition plain (s : string) : Prop := all_chars (fun c => negb (Ascii.eqb c ":")) s = true.

Fixpoint split_colon (s : string) : list string :=
  match s with
  | EmptyString => [""]
  | String c t =>
      match split_colon t with
      | w :: rest => if Ascii.eqb c ":" then "" :: w :: rest else String c w :: rest
      | [] => [String c ""]
      end
  end.

Definition read_permit (message : string) : option EscrowPermitParams :=
  match split_colon message with
  | ["APTOS_ESCROW_PERMIT"; i; a; b; h; t; n; e] =>
      escrowId ← fromHex i; hashlock ← fromHex h;
      Some {| ep_escrowId := escrowId; ep_amount := a; ep_beneficiary := b; ep_hashlock := hashlock;
              ep_timelock := t; ep_nonce := n; ep_expiry := e |}
  | _ => None
  end.

Lemma split_colon_ne s : split_colon s <> [].
Proof. destruct s as [|c t]; simpl; [done|]. destruct (split_colon t); [done|by case_match]. Qed.

Lemma split_plain s : plain s -> split_colon s = [s].
Proof.
  unfold plain. induction s as [|c s IH]; [done|]. simpl. intros [Hc Hs]%andb_true_iff.
  rewrite IH by done. by destruct (Ascii.eqb c ":").
Qed.

Lemma split_plain_app s t : plain s -> split_colon (s ++ ":" ++ t) = s :: split_colon t.
Proof.
  unfold plain. induction s as [|c s IH]; intros Hp.
  - change ("" ++ ":" ++ t) with (String ":" t). simpl.
    pose proof (split_colon_ne t). by destruct (split_colon t).
  - simpl in Hp. apply andb_true_iff in Hp as [Hc Hs]. rewrite app_cons. simpl.
    rewrite IH by done. by destruct (Ascii.eqb c ":").
Qed.

Lemma split_join l : l <> [] -> Forall plain l -> split_colon (join_colon l) = l.
Proof.
  intros Hne Hl. induction Hl as [|s l Hs Hl IH]; [done|]. destruct l as [|s' l].
  - by apply split_plain.
  - change (join_colon (s :: s' :: l)) with (s ++ ":" ++ join_colon (s' :: l)).
    rewrite split_plain_app by done. by rewrite IH.
Qed.

Lemma hex_digit_plain n : 0 <= n < 16 -> Ascii.eqb (hex_digit n) ":" = false.
Proof.
  intros Hn. assert (forallb (fun k => negb (Ascii.eqb (hex_digit (Z.of_nat k)) ":")) (seq 0 16) = true)
    as Hall by (vm_compute; reflexivity).
  rewrite forallb_forall in Hall. specialize (Hall (Z.to_nat n) ltac:(apply in_seq; lia)).
  rewrite Z2Nat.id in Hall by lia. by apply negb_true_iff.
Qed.

Lemma toHex_plain l : Forall is_byte l -> plain (toHex l).
Proof.
  induction 1 as [|b l Hb _ IH]; [done|]. unfold is_byte in Hb.
  change (toHex (b :: l)) with (String (hex_digit (b / 16)) (String (hex_digit (b mod 16)) (toHex l))).
  unfold plain in *. cbn [all_chars]. rewrite !hex_digit_plain, IH; [done| |].
  - apply Z.mod_pos_bound. lia.
  - split; [apply Z.div_pos; lia|apply Z.div_lt_upper_bound; lia].
Qed.

(** Texts without a colon, which amounts, addresses and times are. *)
Record plain_permit (p : EscrowPermitParams) : Prop := {
  pl_escrowId : Forall is_byte (ep_escrowId p);
  pl_hashlock : Forall is_byte (ep_hashlock p);
  pl_amount : plain (ep_amount p);
  pl_beneficiary : plain (ep_beneficiary p);
  pl_timelock : plain (ep_timelock p);
  pl_nonce : plain (ep_nonce p);
  pl_expiry : plain (ep_expiry p)
}.

(** The permit text is unambiguous: from the text that the user signs every
    term of the permit can be read back, so that no two permits have the same
    text, nor the same bytes. *)
Theorem permit_roundtrip (p : EscrowPermitParams) :
  plain_permit p -> read_permit (generatePermitMessage p) = Some p.
Proof.
  intros [Hi Hh Ha Hb Ht Hn He]. unfold read_permit, generatePermitMessage.
  rewrite split_join.
  - unfold permit_parts. rewrite !fromHex_toHex by done. by destruct p.
  - done.
  - repeat constructor; try done; by apply toHex_plain.
Qed.

Lemma encode_inj s t : encode s = encode t -> s = t.
Proof.
  revert t. induction s as [|c s IH]; intros [|d t]; simpl; [done..|]. intros [= Hc Hs].
  f_equal; [|by apply IH]. apply N2Z.inj in Hc. by rewrite <- (ascii_N_embedding c), Hc, ascii_N_embedding.
Qed.

Theorem permit_bytes_unambiguous (p q : EscrowPermitParams) :
  plain_permit p -> plain_permit q ->
  generatePermitBytesForSigning p = generatePermitBytesForSigning q -> p = q.
Proof.
  intros Hp Hq E%encode_inj. assert (Some p = Some q) as [=->]; [|done].
  by rewrite <- !permit_roundtrip, E.
Qed.

(** A signed permit: the wallet was asked to sign exactly the text of the
    permit, and the signature returned is its answer. *)
Theorem signed_permit_is_of_message {S} (random : Z) (p : EscrowPermitParams) (name : string)
    (wallet : Provider) (s : S) (h : list (Ev WalletI)) :
  wp (signPermitWithWallet random (generatePermitMessage p) name wallet) (fun r s' h' =>
    s' = s /\
    match r with
    | Ok (sig, _) => has wallet "signMessage" = true /\ exists a, ma_signature a = sig /\
        Called (I := WalletI) (SignMessage name (generatePermitMessage p) (toString random)) (Ok a) ∈ h'
    | Throw _ => True
    end) s h.
Proof.
  unfold signPermitWithWallet, rethrowing, public_key.
  destruct (has wallet "signMessage") eqn:Hs; wallet_norm; [|done].
  intros [a|e]; wallet_norm; [|done].
  destruct (present (ma_publicKey a)) as [k|]; wallet_norm.
  - split; [done|]. split; [done|]. exists a. split; [done|set_solver].
  - intros [[[ad k|t]|]|e]; wallet_norm; try done; (split; [done|]; split; [done|]; exists a);
      (split; [done|set_solver]).
Qed.
End PermitSigner.

(** ** Which wallet is there *)

Module WalletDetection.
Section Detection.
Context (win : Window).

(** [aptos.isX || window.x] *)
Definition flagged (aptos : Provider) (flag name : string) : bool := has aptos flag || on_window win name.

Definition detectWalletType : option string :=
  if on_window win "petra" then Some "petra"
  else if on_window win "martian" || win_martianConnected win then Some "martian"
  else if on_window win "pontem" then Some "pontem"
  else
    match wallet_at win "aptos" with
    | None => None
    | Some aptos =>
        if has aptos "isPetra" then Some "petra"
        else if has aptos "isMartian" then Some "martian"
        else if has aptos "isPontem" then Some "pontem"
        else if flagged aptos "isFewcha" "fewcha" then Some "fewcha"
        else if flagged aptos "isRise" "rise" then Some "rise"
        else if flagged aptos "isMSafe" "msafe" then Some "msafe"
        else if flagged aptos "isTrust" "trustwallet" then Some "trustwallet"
        else match present (pv_name aptos) with
             | Some name => Some (toLowerCase name)
             | None => Some "unknown"
             end
    end.

Definition unsupportedWallets : list string := ["petra"].
Definition supportedWallets : list string := ["msafe"; "rise"; "trustwallet"; "martian"; "nightly"].

Definition walletSupportsSponsoredTransactions : bool :=
  match present detectWalletType with
  | None => false
  | Some walletType =>
      if bool_decide (walletType ∈ unsupportedWallets) then false
      else if bool_decide (walletType ∈ supportedWallets) then true
      else true
  end.
End Detection.

Lemma toLowerCase_truthy s : str_truthy s = true -> str_truthy (toLowerCase s) = true.
Proof. by destruct s. Qed.

(** What is detected is never the empty text. *)
Lemma detected_present win t : detectWalletType win = Some t -> present (Some t) = Some t.
Proof.
  unfold detectWalletType. intros Ht.
  repeat match type of Ht with
         | (if ?b then _ else _) = _ => destruct b; [by injection Ht as <-|]
         end.
  destruct (wallet_at win "aptos") as [aptos|]; [|done].
  repeat match type of Ht with
         | (if ?b then _ else _) = _ => destruct b; [by injection Ht as <-|]
         end.
  unfold present in *. destruct (pv_name aptos) as [n|]; [|by injection Ht as <-].
  destruct (str_truthy n) eqn:Hn; injection Ht as <-; [|done]. by rewrite toLowerCase_truthy.
Qed.

(** Sponsoring is tried with every wallet that is detected, except with Petra:
    the list of supported wallets decides nothing. *)
Theorem sponsored_unless_petra (win : Window) :
  walletSupportsSponsoredTransactions win = true <->
  exists t, detectWalletType win = Some t /\ t <> "petra".
Proof.
  unfold walletSupportsSponsoredTransactions. destruct (detectWalletType win) as [t|] eqn:Ht.
  - rewrite (detected_present win t Ht). unfold unsupportedWallets.
    destruct (bool_decide_reflect (t ∈ ["petra"])) as [E|E].
    + apply list_elem_of_singleton in E as ->. naive_solver.
    + rewrite list_elem_of_singleton in E. destruct (bool_decide _); naive_solver.
  - naive_solver.
Qed.

(** Petra hides every other wallet: where its extension is installed it is
    detected, although the visitor may have connected Martian. *)
Theorem petra_hides_martian (win : Window) :
  on_window win "petra" = true ->
  detectWalletType win = Some "petra" /\ walletSupportsSponsoredTransactions win = false.
Proof.
  intros Hp. unfold walletSupportsSponsoredTransactions, detectWalletType. by rewrite Hp.
Qed.

(** Without any wallet nothing is detected: no wallet is made up. *)
Theorem detected_is_there (win : Window) (t : string) :
  detectWalletType win = Some t ->
  win_martianConnected win = true \/ exists name, on_window win name = true.
Proof.
  unfold detectWalletType. intros Ht.
  destruct (on_window win "petra") eqn:Hp; [by eauto|].
  destruct (on_window win "martian") eqn:Hm; [by eauto|].
  destruct (win_martianConnected win); [by left|].
  destruct (on_window win "pontem") eqn:Hn; [by eauto|]. simpl in Ht.
  destruct (wallet_at win "aptos") as [aptos|] eqn:Ha; [|done].
  right. exists "aptos". unfold on_window, JsMap.has. unfold wallet_at in Ha. by rewrite Ha.
Qed.
End WalletDetection.

(** ** The connection to Martian *)

Module Martian.

Definition isInstalled (win : Window) : bool := on_window win "martian".

Section Connection.
Context {S : Type} (win : Window).

(** [`${response.status}`] *)
Definition status_text (status : option Z) : string :=
  match status with Some z => toString z | None => "undefined" end.

Definition connect_error (error : exn) : exn :=
  if includes (message error) "User rejected" then Error "Connection rejected by user"
  else if includes (message error) "locked" then
    Error "Martian wallet is locked. Please unlock it and try again."
  else Error ("Failed to connect to Martian wallet: " ++
              (if str_truthy (message error) then message error else "Unknown error")).

Definition not_installed : string :=
  "Martian Wallet extension is not installed. Please install it from Chrome Web Store.".

Definition connectMartian : uprog S (option AccountAnswer) :=
  if negb (isInstalled win) then Fail (Error not_installed)
  else
    try_catch
      (response <- connect "martian";
       match response with
       | None => undefined_read "status"
       | Some status =>
           if bool_decide (status = Some 200) then account "martian"
           else Fail (Error ("Connection failed with status: " ++ status_text status))
       end)
      (fun error => Fail (connect_error error)).

(** [!!account?.address] *)
Definition has_address (a : option AccountAnswer) : bool :=
  match a with
  | Some (AccountObject (Some address) _) => str_truthy address
  | _ => false
  end.

Definition isConnected : uprog S bool :=
  if negb (isInstalled win) then Ret false
  else try_catch (a <- account "martian"; Ret (has_address a)) (fun _ => Ret false).

Definition disconnectWallet : uprog S unit :=
  match wallet_at win "martian" with
  | Some martian =>
      if has martian "disconnect" then try_catch (disconnect "martian") (fun _ => Ret tt) else Ret tt
  | None => Ret tt
  end.

Definition signTransaction (transaction : ToSign) : uprog S string :=
  if negb (isInstalled win) then Fail (Error "Martian wallet not available")
  else
    try_catch (signWith "martian" transaction)
      (fun error => Fail (Error ("Failed to sign transaction: " ++
                                 (if str_truthy (message error) then message error else "Unknown error")))).

Definition getNetwork : uprog S string :=
  match wallet_at win "martian" with
  | Some martian =>
      if has martian "network" then try_catch (walletNetwork "martian") (fun _ => Ret "unknown")
      else Fail (Error "Martian wallet not available")
  | None => Fail (Error "Martian wallet not available")
  end.

(** The listeners that the module registers when it is loaded. *)
Definition onAccountChange (address : option string) : uprog S unit :=
  dispatch "martian:accountChanged" address.
Definition onNetworkChange (network : string) : uprog S unit :=
  dispatch "martian:networkChanged" (Some network).

Definition listeners : list string :=
  match wallet_at win "martian" with
  | Some martian =>
      (if has martian "onAccountChange" then ["martian:accountChanged"] else []) ++
      (if has martian "onNetworkChange" then ["martian:networkChanged"] else [])
  | None => []
  end.
End Connection.

(** The errors that [connectMartian] can end with. *)
Definition connect_failure (e : exn) : Prop :=
  e = Error not_installed \/ e = Error "Connection rejected by user" \/
  e = Error "Martian wallet is locked. Please unlock it and try again." \/
  exists text, text <> "" /\ e = Error ("Failed to connect to Martian wallet: " ++ text).

Lemma connect_error_failure e : connect_failure (connect_error e).
Proof.
  unfold connect_error, connect_failure. case_match; [by eauto|]. case_match; [by eauto|].
  do 3 right. eexists. split; [|reflexivity]. by destruct (message e).
Qed.

Lemma includes_none (p : ascii -> bool) s c t :
  all_chars p s = true -> p c = false -> includes s (String c t) = false.
Proof.
  intros Hs Hc. induction s as [|d s IH]; [done|]. simpl in Hs. apply andb_true_iff in Hs as [Hd Hs].
  cbn [includes startsWith]. destruct (Ascii.eqb_spec c d) as [->|Hne]; [congruence|].
  cbn [andb orb]. by apply IH.
Qed.

Lemma toString_chars z : all_chars (fun c => is_digit c || Ascii.eqb c "-") (toString z) = true.
Proof.
  assert (forall s, all_chars is_digit s = true ->
            all_chars (fun c => is_digit c || Ascii.eqb c "-") s = true) as Hi.
  { intros s. apply all_chars_impl. intros c Hc. by rewrite Hc. }
  unfold toString. destruct (z <? 0); [|by apply Hi, N_toString_digits].
  rewrite all_chars_app. apply andb_true_iff. split; [done|]. apply Hi, N_toString_digits.
Qed.

(** The error of a response with another status. *)
Lemma status_error z :
  connect_error (Error ("Connection failed with status: " ++ status_text (Some z))) =
  Error ("Failed to connect to Martian wallet: Connection failed with status: " ++ toString z).
Proof.
  unfold connect_error, status_text. cbn [message].
  assert (includes (toString z) "User rejected" = false) as E1
    by (by apply (includes_none _ _ _ _ (toString_chars z))).
  assert (includes (toString z) "locked" = false) as E2
    by (by apply (includes_none _ _ _ _ (toString_chars z))).
  replace (includes ("Connection failed with status: " ++ toString z) "User rejected") with false
    by (symmetry; exact E1).
  replace (includes ("Connection failed with status: " ++ toString z) "locked") with false
    by (symmetry; exact E2).
  reflexivity.
Qed.

(** The status that an event of the connection reports. *)
Definition status_of (e : Ev WalletI) : option (option Z) :=
  match e with
  | Called r x => match r return result (wallet_ans r) -> option (option Z) with
                  | Connect _ => fun x => match x with Ok (Some st) => Some st | _ => None end
                  | _ => fun _ => None
                  end x
  | Told _ => None
  end.

(** Connecting ends with the account only after the extension answered with
    the status 200 and was then asked for the account; every other end is one of
    the errors with a text for the user, a response of another status among
    them, and the account is not asked for then. *)
Theorem connect_outcome {S} (win : Window) (s : S) (h : list (Ev WalletI)) :
  wp (connectMartian win) (fun r s' h' =>
    s' = s /\
    match r with
    | Ok a => h' = (h ++ [Called (I := WalletI) (Connect "martian") (Ok (Some (Some 200)));
                          Called (I := WalletI) (Account "martian") (Ok a)])%list
    | Throw e => connect_failure e /\
        (forall z, h' = (h ++ [Called (I := WalletI) (Connect "martian") (Ok (Some (Some z)))])%list ->
                   z <> 200 /\ e = Error ("Failed to connect to Martian wallet: Connection failed with status: "
                                          ++ toString z))
    end) s h.
Proof.
  assert (forall e z, (h ++ [Called (I := WalletI) (Connect "martian") e])%list =
            (h ++ [Called (I := WalletI) (Connect "martian") (Ok (Some (Some z)))])%list ->
            e = Ok (Some (Some z))) as Hinv.
  { intros e z E. apply app_inv_head in E. apply (f_equal (fun l => status_of <$> head l)) in E.
    simpl in E. injection E. destruct e as [[[]|]|]; simpl; congruence. }
  unfold connectMartian. destruct (isInstalled win); wallet_norm.
  2: { split; [done|]. split; [by left|]. intros z E.
       apply (f_equal length) in E. rewrite length_app in E. simpl in E. lia. }
  intros [[status|]|e]; wallet_norm.
  - case_bool_decide as Hst; [subst status|]; wallet_norm.
    + intros [a|e]; wallet_norm; split; try done; [by rewrite <- app_assoc|].
      split; [apply connect_error_failure|]. intros z E. rewrite <- app_assoc in E.
      apply (f_equal length) in E. rewrite !length_app in E. simpl in E. lia.
    + split; [done|]. split; [apply connect_error_failure|]. intros z E.
      apply Hinv in E as [= ->]. split; [congruence|]. apply status_error.
  - split; [done|]. split; [apply connect_error_failure|]. intros z E. by apply Hinv in E.
  - split; [done|]. split; [apply connect_error_failure|]. intros z E. by apply Hinv in E.
Qed.
End Martian.
