(* ===== verification/WalletTests.v ===== *)
(** * What the wallets can do

    The utilities and the page that try the wallets: message signing and session
    keys of [hybridSponsoredTransaction.ts] with its ranking of wallets, the
    signing methods of [customWalletSigning.ts] and [WalletTester.tsx]. *)

From Stdlib Require Import ZArith Lia Ascii String.
From stdpp Require Import base numbers list strings sets sorting.
From S2P Require Import Prelude.
From S2P Require Import JsNumber.
From S2P Require Import JsString.
From S2P Require Import JsFormat.
From S2P Require Import JsMap.
From S2P Require Import JsDate.
From S2P Require Import Async.
From S2P Require Import Chain.
From S2P Require Import ChainService.
From S2P Require Import SignedOrders.
From S2P Require Import OrderIntake.
From S2P Require Import WebServices.
From S2P Require Import Wallet.
From S2P Require Import WalletUtils.

Local Open Scope string_scope.
Local Open Scope Z_scope.
Local Open Scope prog_scope.

Definition newline : string := String (ascii_of_N 10) "".

(** A method of [window.aptos] is called: without the object the read throws. *)
Definition of_aptos {S A} (win : Window) (prop : string) (k : Provider -> uprog S A) : uprog S A :=
  match wallet_at win "aptos" with
  | Some aptos => k aptos
  | None => undefined_read prop
  end.

(** ** Message signing and session keys *)

Module Hybrid.

Definition escrow_message (e : EscrowRequest) : string :=
  "Aptos Escrow Creation:" ++ newline ++
  "Escrow ID: " ++ toHex (uint8 (er_escrowId e)) ++ newline ++
  "Beneficiary: " ++ er_beneficiary e ++ newline ++
  "Amount: " ++ er_amount e ++ newline ++
  "Timelock: " ++ er_timelock e ++ newline ++
  "Safety Deposit: " ++ er_safetyDeposit e ++ newline ++ newline ++
  "I authorize the creation of this escrow with my APT funds.".

(** A key generated by the SDK, with its public key. *)
Record SessionKeyPair := { sk_private : string; sk_public : string }.

Record SessionKey := { session_key : string; session_expiry : number; session_signature : string }.

(** [new Date(x).toISOString()] of a number: the time is truncated, and [NaN] is
    no time. *)
Definition iso_of_number (x : number) : result string :=
  match x with
  | Finite m => toISOString (Z.quot m scale)
  | _ => Throw (RangeError "Invalid time value")
  end.

Section Service.
Context {S : Type} (win : Window).

Definition getUserSignatureForEscrow (e : EscrowRequest) : uprog S (string * option string * string) :=
  let message := escrow_message e in
  rethrowing
    (of_aptos win "signMessage" (fun _ =>
       t <- now;
       res <- signMessage "aptos" message (toString t);
       key <- PermitSigner.public_key "aptos" (ma_publicKey res);
       Ret (ma_signature res, key, message))).

Record MetaTransaction := {
  mt_user : string;
  mt_userSignature : string;
  mt_userPublicKey : string;
  mt_function : string;
  mt_arguments : EscrowRequest
}.

Definition createMetaTransaction (userAddress userSignature userPublicKey : string) (e : EscrowRequest)
    : MetaTransaction * (string * string) :=
  ({| mt_user := userAddress; mt_userSignature := userSignature; mt_userPublicKey := userPublicKey;
      mt_function := "create_escrow_with_authorization"; mt_arguments := e |},
   (userSignature, userPublicKey)).

Definition session_message (key : SessionKeyPair) (until : string) : string :=
  "Authorize session key for Fusion+ swaps:" ++ newline ++
  "Session Key: " ++ sk_public key ++ newline ++
  "Valid Until: " ++ until ++ newline ++
  "Permissions: Create escrows up to 10 APT".

Definition createSessionKey (key : SessionKeyPair) (duration : number) : uprog S SessionKey :=
  rethrowing
    (t <- now;
     let expiry := add (floor (div (of_Z t) (of_Z 1000))) duration in
     until <- of_result (iso_of_number (mul expiry (of_Z 1000)));
     of_aptos win "signMessage" (fun _ =>
       t' <- now;
       res <- signMessage "aptos" (session_message key until) (toString t');
       Ret {| session_key := sk_private key; session_expiry := expiry;
              session_signature := ma_signature res |})).

(** Nothing is done with MSafe beyond looking for it. *)
Definition tryMSafeImplementation : uprog S bool := Ret (on_window win "msafe").

(** *** Ranking the wallets *)

Record Capabilities := {
  cap_signMessage : bool;
  cap_signTransaction : bool;
  cap_sponsoredTx : bool;
  cap_multiAgent : bool
}.

Definition no_capabilities : Capabilities :=
  {| cap_signMessage := false; cap_signTransaction := false; cap_sponsoredTx := false;
     cap_multiAgent := false |}.

Definition capabilities_of (wallet : Provider) (sponsored : bool) : Capabilities :=
  {| cap_signMessage := has wallet "signMessage"; cap_signTransaction := has wallet "signTransaction";
     cap_sponsoredTx := sponsored; cap_multiAgent := has wallet "signMultiAgentTransaction" |}.

Definition wallets : list string := ["aptos"; "petra"; "martian"; "pontem"; "msafe"; "nightly"].

Definition points (b : bool) (n : Z) : Z := if b then n else 0.

Definition score (c : Capabilities) : Z :=
  points (cap_sponsoredTx c) 4 + points (cap_multiAgent c) 3 + points (cap_signTransaction c) 2 +
  points (cap_signMessage c) 1.

(** [Object.values(c).filter(Boolean).length] *)
Definition count (c : Capabilities) : Z :=
  points (cap_signMessage c) 1 + points (cap_signTransaction c) 1 + points (cap_sponsoredTx c) 1 +
  points (cap_multiAgent c) 1.

(** The test transaction does not depend on the wallet. *)
Definition build_test : uprog S bool :=
  try_catch
    (_ <- buildSimple (simple (AddressText "0x1") true (transfer_call [AString "0x2"; ANumber (of_Z 1)]));
     Ret true)
    (fun _ => Ret false).

(** [if (!bestWallet || score > count(best)) best = this one] *)
Definition better (best : option string * Capabilities) (name : string) (c : Capabilities)
    : option string * Capabilities :=
  match best.1 with
  | None => (Some name, c)
  | Some _ => if count best.2 <? score c then (Some name, c) else best
  end.

Fixpoint rank (names : list string) (best : option string * Capabilities)
    : uprog S (option string * Capabilities) :=
  match names with
  | [] => Ret best
  | name :: rest =>
      match wallet_at win name with
      | None => rank rest best
      | Some wallet =>
          sponsored <- build_test;
          rank rest (better best name (capabilities_of wallet sponsored))
      end
  end.

Definition detectBestWallet : uprog S (string * Capabilities) :=
  best <- rank wallets (None, no_capabilities);
  Ret (default "none" best.1, best.2).
End Service.

(** The signature that is returned is the wallet's answer to the text with the
    terms of the escrow, and the text is returned with it. *)
Theorem escrow_signature_of_terms {S} (win : Window) (e : EscrowRequest) (s : S) (h : list (Ev WalletI)) :
  wp (getUserSignatureForEscrow win e) (fun r s' h' =>
    s' = s /\
    match r with
    | Ok (sig, _, text) => text = escrow_message e /\ exists nonce a, ma_signature a = sig /\
        Called (I := WalletI) (SignMessage "aptos" text nonce) (Ok a) ∈ h'
    | Throw _ => True
    end) s h.
Proof.
  unfold getUserSignatureForEscrow, of_aptos, PermitSigner.public_key, rethrowing.
  destruct (wallet_at win "aptos") as [aptos|]; wallet_norm; [|done].
  intros t. wallet_norm. intros [a|err]; wallet_norm; [|done].
  destruct (present (ma_publicKey a)) as [k|]; wallet_norm.
  - split; [done|]. split; [done|]. exists (toString t), a. split; [done|set_solver].
  - intros [[[ad k|x]|]|err]; wallet_norm; try done; (split; [done|]; split; [done|]);
      exists (toString t), a; (split; [done|set_solver]).
Qed.

(** *** The ranking *)

Lemma count_bound c : 0 <= count c <= 4.
Proof. destruct c as [[] [] [] []]; vm_compute; split; discriminate. Qed.

(** A wallet that can sign anything at all outranks whatever was best, when
    the test transaction can be built: five points against a count of at
    most four. *)
Lemma sponsored_outranks c best :
  cap_sponsoredTx c = true -> cap_signMessage c || cap_signTransaction c || cap_multiAgent c = true ->
  count best < score c.
Proof.
  intros Hs Hc. pose proof (count_bound best).
  destruct c as [[] [] [] []]; simpl in *; try discriminate; unfold score; simpl; lia.
Qed.

Definition able (w : Provider) : bool :=
  has w "signMessage" || has w "signTransaction" || has w "signMultiAgentTransaction".

Lemma build_test_ok {S} (O : Oracle WalletI) (s : S) h :
  (forall h' b, exists tx, answer O h' (BuildSimple b) = Ok tx) ->
  exists h', run O build_test s h = (Ok true, s, h').
Proof.
  intros Hb. unfold build_test, buildSimple, await. cbn [pbind try_catch run].
  destruct (Hb h (simple (AddressText "0x1") true (transfer_call [AString "0x2"; ANumber (of_Z 1)])))
    as [tx Htx]. rewrite Htx. by eexists.
Qed.

Lemma rank_app {S} (O : Oracle WalletI) (win : Window) l1 l2 best (s : S) h :
  exists best' h', run O (rank win (l1 ++ l2) best) s h = run O (rank win l2 best') s h'.
Proof.
  revert best h. induction l1 as [|n l1 IH]; intros best h; cbn [app rank]; [by eexists _, _|].
  destruct (wallet_at win n) as [w|]; [|apply IH]. rewrite run_bind.
  unfold build_test, buildSimple, await. cbn [pbind try_catch run].
  destruct (answer O h _) as [tx|e]; cbn [of_result pbind try_catch run]; apply IH.
Qed.

Lemma rank_absent {S} (O : Oracle WalletI) (win : Window) l best (s : S) h :
  Forall (fun n => wallet_at win n = None) l -> run O (rank win l best) s h = (Ok best, s, h).
Proof. induction 1 as [|n l Hn _ IH]; [done|]. cbn [rank]. by rewrite Hn. Qed.

(** The ranking compares the points of a wallet with the number of abilities of
    the best so far, not with its points. Where the test transaction can be
    built, which says nothing about the wallet, the wallet that comes last in the
    list among those installed is chosen as soon as it can sign anything,
    whatever the ones before it can do. *)
Theorem last_wallet_wins {S} (O : Oracle WalletI) (win : Window) (before after : list string)
    (n : string) (w : Provider) (s : S) (h : list (Ev WalletI)) :
  (forall h' b, exists tx, answer O h' (BuildSimple b) = Ok tx) ->
  wallets = (before ++ n :: after)%list -> wallet_at win n = Some w -> able w = true ->
  Forall (fun m => wallet_at win m = None) after ->
  exists h', run O (detectBestWallet win) s h = (Ok (n, capabilities_of w true), s, h').
Proof.
  intros Hb Hl Hw Ha Hafter. unfold detectBestWallet. rewrite run_bind, Hl.
  destruct (rank_app O win before (n :: after) (None, no_capabilities) s h) as (best & h1 & ->).
  cbn [rank]. rewrite Hw, run_bind. destruct (build_test_ok O s h1 Hb) as [h2 ->].
  assert (better best n (capabilities_of w true) = (Some n, capabilities_of w true)) as ->.
  { unfold better. destruct best as [[b|] c]; [|done]. cbn [fst snd].
    rewrite (proj2 (Z.ltb_lt _ _)); [done|]. by apply sponsored_outranks. }
  rewrite rank_absent by done. by eexists.
Qed.

(** Without an installed wallet the answer is [none], and nothing is built. *)
Theorem no_wallet_none {S} (O : Oracle WalletI) (win : Window) (s : S) (h : list (Ev WalletI)) :
  Forall (fun n => wallet_at win n = None) wallets ->
  run O (detectBestWallet win) s h = (Ok ("none", no_capabilities), s, h).
Proof. intros Hw. unfold detectBestWallet. rewrite run_bind. by rewrite rank_absent. Qed.
End Hybrid.

(** ** The signing methods of one wallet *)

Module SigningMethods.

Record Methods := {
  supportsWithFeePayer : bool;
  supportsMultiAgent : bool;
  supportsRawSigning : bool;
  walletName : string
}.

Section Service.
Context {S : Type} (win : Window).

(** [aptos?.name], or the first of two wallets that is there. *)
Definition wallet_name : string :=
  match (match wallet_at win "aptos" with Some aptos => present (pv_name aptos) | None => None end) with
  | Some name => name
  | None =>
      if on_window win "petra" then "petra"
      else if on_window win "martian" then "martian"
      else "unknown"
  end.

(** [account()] is called but not awaited: the sender is a promise. *)
Definition ask_account : uprog S AddressValue :=
  of_aptos win "account" (fun aptos =>
    if has aptos "account" then tell (I := WalletI) (AccountAsked "aptos");; Ret AddressPromise
    else Fail (TypeError "walletWindow.aptos.account is not a function")).

Definition test_fee_payer : uprog S bool :=
  try_catch
    (sender <- ask_account;
     testTx <- buildSimple (simple sender true (transfer_call [AString "0x1"; ANumber (of_Z 1)]));
     _ <- signWith "aptos" (SignBuilt testTx);
     Ret true)
    (fun _ => Ret false).

Definition test_method (prop : string) : uprog S bool :=
  try_catch (of_aptos win prop (fun aptos => Ret (has aptos prop))) (fun _ => Ret false).

Definition testSigningMethods : uprog S Methods :=
  feePayer <- test_fee_payer;
  multiAgent <- test_method "signMultiAgentTransaction";
  raw <- test_method "signMessage";
  Ret {| supportsWithFeePayer := feePayer; supportsMultiAgent := multiAgent; supportsRawSigning := raw;
         walletName := wallet_name |}.
End Service.

(** The test never fails, and reports support for a fee payer only after the
    wallet signed a transaction built with one; the sender of that transaction
    is never an address, since the account is not awaited. *)
Theorem signing_methods_outcome {S} (win : Window) (s : S) (h : list (Ev WalletI)) :
  wp (testSigningMethods win) (fun r s' h' =>
    s' = s /\ exists m, r = Ok m /\ walletName m = wallet_name win /\
      (supportsWithFeePayer m = true ->
       exists tx sig, Called (I := WalletI) (BuildSimple (simple AddressPromise true
                        (transfer_call [AString "0x1"; ANumber (of_Z 1)]))) (Ok tx) ∈ h' /\
         Called (I := WalletI) (SignWith "aptos" (SignBuilt tx)) (Ok sig) ∈ h') /\
      (supportsMultiAgent m = true \/ supportsRawSigning m = true -> on_window win "aptos" = true)) s h.
Proof.
  unfold testSigningMethods, test_fee_payer, test_method, ask_account, of_aptos, on_window, JsMap.has.
  change (JsMap.get "aptos" (win_wallets win)) with (wallet_at win "aptos").
  destruct (wallet_at win "aptos") as [aptos|]; wallet_norm.
  2: { split; [done|]. eexists. split; [done|]. split; [done|]. split; [done|]. by intros [|]. }
  destruct (has aptos "account"); wallet_norm.
  2: { split; [done|]. eexists. split; [done|]. split; [done|]. by split. }
  intros [tx|e]; wallet_norm.
  2: { split; [done|]. eexists. split; [done|]. split; [done|]. by split. }
  intros [sig|e]; wallet_norm; (split; [done|]; eexists; split; [done|]; split; [done|]; split); try done.
  intros _. exists tx, sig. split; set_solver.
Qed.
End SigningMethods.

(** ** The wallet tester *)

Module Tester.

Record TestCapabilities := {
  tc_signMessage : bool;
  tc_signTransaction : bool;
  tc_signTransactionWithPayload : bool;
  tc_sponsoredTransaction : bool;
  tc_multiAgentTransaction : bool;
  tc_error : option string
}.

Record WalletTestResult := {
  tr_name : string;
  tr_connected : bool;
  tr_address : AddressValue;
  tr_capabilities : TestCapabilities
}.

Definition no_test_capabilities : TestCapabilities :=
  {| tc_signMessage := false; tc_signTransaction := false; tc_signTransactionWithPayload := false;
     tc_sponsoredTransaction := false; tc_multiAgentTransaction := false; tc_error := None |}.

Definition set_tc_error (e : option string) (c : TestCapabilities) : TestCapabilities :=
  {| tc_signMessage := tc_signMessage c; tc_signTransaction := tc_signTransaction c;
     tc_signTransactionWithPayload := tc_signTransactionWithPayload c;
     tc_sponsoredTransaction := tc_sponsoredTransaction c;
     tc_multiAgentTransaction := tc_multiAgentTransaction c; tc_error := e |}.

Definition set_tc_sign (b : bool) (c : TestCapabilities) : TestCapabilities :=
  {| tc_signMessage := tc_signMessage c; tc_signTransaction := b;
     tc_signTransactionWithPayload := tc_signTransactionWithPayload c;
     tc_sponsoredTransaction := tc_sponsoredTransaction c;
     tc_multiAgentTransaction := tc_multiAgentTransaction c; tc_error := tc_error c |}.

Definition set_tc_sponsored (b : bool) (c : TestCapabilities) : TestCapabilities :=
  {| tc_signMessage := tc_signMessage c; tc_signTransaction := tc_signTransaction c;
     tc_signTransactionWithPayload := tc_signTransactionWithPayload c;
     tc_sponsoredTransaction := b; tc_multiAgentTransaction := tc_multiAgentTransaction c;
     tc_error := tc_error c |}.

Definition set_tc_multi (b : bool) (c : TestCapabilities) : TestCapabilities :=
  {| tc_signMessage := tc_signMessage c; tc_signTransaction := tc_signTransaction c;
     tc_signTransactionWithPayload := tc_signTransactionWithPayload c;
     tc_sponsoredTransaction := tc_sponsoredTransaction c; tc_multiAgentTransaction := b;
     tc_error := tc_error c |}.

Definition set_tc_payload (b : bool) (c : TestCapabilities) : TestCapabilities :=
  {| tc_signMessage := tc_signMessage c; tc_signTransaction := tc_signTransaction c;
     tc_signTransactionWithPayload := b; tc_sponsoredTransaction := tc_sponsoredTransaction c;
     tc_multiAgentTransaction := tc_multiAgentTransaction c; tc_error := tc_error c |}.

Definition test_result (name : string) (connected : bool) (address : AddressValue) (c : TestCapabilities)
    : WalletTestResult :=
  {| tr_name := name; tr_connected := connected; tr_address := address; tr_capabilities := c |}.

(** The state of the page. *)
Record Page := {
  pg_results : list WalletTestResult;
  pg_testing : bool;
  pg_current : option WalletTestResult
}.

Definition initial_page : Page := {| pg_results := []; pg_testing := false; pg_current := None |}.

Definition setResults (l : list WalletTestResult) (s : Page) : Page :=
  {| pg_results := l; pg_testing := pg_testing s; pg_current := pg_current s |}.
Definition setTesting (b : bool) (s : Page) : Page :=
  {| pg_results := pg_results s; pg_testing := b; pg_current := pg_current s |}.
Definition setCurrentWalletResult (r : option WalletTestResult) (s : Page) : Page :=
  {| pg_results := pg_results s; pg_testing := pg_testing s; pg_current := r |}.

Section Tests.
Context (win : Window).

(** [window[walletName] || window.aptos], with the name it is found under. *)
Definition find_wallet (walletName : string) : option (string * Provider) :=
  match wallet_at win walletName with
  | Some w => Some (walletName, w)
  | None => match wallet_at win "aptos" with Some w => Some ("aptos", w) | None => None end
  end.

(** [account.address || account] *)
Definition address_of (a : AccountAnswer) : AddressValue :=
  match a with
  | AccountObject (Some s) _ => if str_truthy s then AddressText s else AddressObject
  | AccountObject None _ => AddressObject
  | AccountText s => AddressText s
  end.

(** The address as an argument; an object is shown by its text. *)
Definition arg_of (a : AddressValue) : Arg :=
  match a with AddressText s => AString s | _ => AString "[object Object]" end.

(** Connecting: the outcome, and the result when it failed, in which
    [connected] is already set if only the account was missing. *)
Definition connect_wallet (name walletName : string) : uprog Page (WalletTestResult + AddressValue) :=
  connected <- attempt (connect name);
  match connected with
  | Throw e =>
      Ret (inl (test_result walletName false (AddressText "")
                  (set_tc_error (Some ("Connection failed: " ++ message e)) no_test_capabilities)))
  | Ok _ =>
      acc <- attempt (account name);
      match acc with
      | Ok (Some a) => Ret (inr (address_of a))
      | Ok None =>
          Ret (inl (test_result walletName true (AddressText "")
                      (set_tc_error (Some ("Connection failed: " ++
                         "Cannot read properties of undefined (reading 'address')")) no_test_capabilities)))
      | Throw e =>
          Ret (inl (test_result walletName true (AddressText "")
                      (set_tc_error (Some ("Connection failed: " ++ message e)) no_test_capabilities)))
      end
  end.

(** The transfer of one octa to oneself. *)
Definition self_transfer (address : AddressValue) (feePayer : bool) : BuildSimpleData :=
  simple address feePayer (transfer_call [arg_of address; ANumber (of_Z 1)]).

Definition test_regular (name : string) (w : Provider) (address : AddressValue) (c : TestCapabilities)
    : uprog Page TestCapabilities :=
  try_catch
    (tx <- buildSimple (self_transfer address false);
     if has w "signTransaction" then
       _ <- signWith name (SignBuilt tx);
       Ret (set_tc_sign true c)
     else if has w "signAndSubmitTransaction" then
       Ret (set_tc_error (Some "Only supports signAndSubmitTransaction") c)
     else Ret c)
    (fun _ => Ret c).

Definition test_sponsored (name : string) (w : Provider) (address : AddressValue) (c : TestCapabilities)
    : uprog Page TestCapabilities :=
  try_catch
    (tx <- buildSimple (self_transfer address true);
     if has w "signTransaction" then
       _ <- signWith name (SignBuilt tx);
       Ret (set_tc_sponsored true c)
     else Ret c)
    (fun e => if includes (message e) "blank" || includes (message e) "popup"
              then Ret (set_tc_error (Some "Blank popup - no support") c) else Ret c).

Definition test_payload (name : string) (w : Provider) (address : AddressValue) (c : TestCapabilities)
    : uprog Page TestCapabilities :=
  try_catch
    (if has w "signTransaction" then
       _ <- signWith name (SignPayload (transfer_call [arg_of address; AString "1"]));
       Ret (set_tc_payload true c)
     else Ret c)
    (fun _ => Ret c).

Definition testWallet (walletName : string) : uprog Page WalletTestResult :=
  match find_wallet walletName with
  | None => Ret (test_result walletName false (AddressText "")
                   (set_tc_error (Some "Wallet not found") no_test_capabilities))
  | Some (name, w) =>
      connected <- connect_wallet name walletName;
      match connected with
      | inl failed => Ret failed
      | inr address =>
          c1 <- test_regular name w address no_test_capabilities;
          c2 <- test_sponsored name w address c1;
          let c3 := if has w "signMultiAgentTransaction" then set_tc_multi true c2 else c2 in
          c4 <- test_payload name w address c3;
          Ret (test_result walletName true address c4)
      end
  end.

Definition walletNames : list string :=
  ["petra"; "martian"; "pontem"; "fewcha"; "rise"; "nightly"; "msafe"; "blocto"; "spacecy"; "okx";
   "bitget"; "trustwallet"; "aptos"].

(** The loop; an error of the delay ends it, with the results so far. *)
Fixpoint test_names (names : list string) (done : list WalletTestResult) : uprog Page (list WalletTestResult) :=
  match names with
  | [] => Ret done
  | name :: rest =>
      r <- testWallet name;
      let done' := (done ++ [r])%list in
      modify (setResults done');;
      waited <- attempt (delay 1000);
      match waited with
      | Ok _ => test_names rest done'
      | Throw _ => Ret done'
      end
  end.

(** [Object.values(c).filter(v => v === true).length]; the error is a text. *)
Definition test_score (r : WalletTestResult) : Z :=
  let c := tr_capabilities r in
  Hybrid.points (tc_signMessage c) 1 + Hybrid.points (tc_signTransaction c) 1 +
  Hybrid.points (tc_signTransactionWithPayload c) 1 + Hybrid.points (tc_sponsoredTransaction c) 1 +
  Hybrid.points (tc_multiAgentTransaction c) 1.

Definition best_wallet (l : list WalletTestResult) : option WalletTestResult :=
  head (js_sort (larger test_score)
          (List.filter (fun r => tr_connected r && tc_sponsoredTransaction (tr_capabilities r)) l)).

(** The best wallet is only logged. *)
Definition testAllWallets : uprog Page (option WalletTestResult) :=
  modify (setTesting true);;
  modify (setResults []);;
  results <- test_names walletNames [];
  modify (setTesting false);;
  Ret (best_wallet results).

(** *** The wallet connected through the adapter *)

(** What [useWallet] gives: the account's address, the wallet with its name and
    whether it has [signAndSubmitTransaction], and whether there is a
    [signTransaction]. *)
Record Adapter := {
  ad_account : option string;
  ad_wallet : option (string * bool);
  ad_signTransaction : bool
}.

(** [window[wallet.name.toLowerCase()] || window.aptos] with a
    [signTransaction]. *)
Definition window_signer (walletName : string) : option string :=
  match find_wallet (toLowerCase walletName) with
  | Some (name, w) => if has w "signTransaction" then Some name else None
  | None => None
  end.

Definition current_regular (a : Adapter) (address walletName : string) (submits : bool)
    (c : TestCapabilities) : uprog Page TestCapabilities :=
  try_catch
    (regularTx <- buildSimple (self_transfer (AddressText address) false);
     if ad_signTransaction a then
       _ <- rethrowing (adapterSign (SignBuilt regularTx));
       Ret (set_tc_sign true c)
     else if submits then Fail (Error "Wallet only supports signAndSubmitTransaction")
     else
       match window_signer walletName with
       | Some name =>
           _ <- signWith name (SignBuilt regularTx);
           Ret (set_tc_sign true c)
       | None => Fail (Error "No sign transaction method available")
       end)
    (fun e => Ret (set_tc_error (Some ("Regular tx failed: " ++ error_text e)) c)).

Definition current_sponsored (a : Adapter) (address walletName : string) (c : TestCapabilities)
    : uprog Page TestCapabilities :=
  try_catch
    (sponsoredTx <- buildSimple (self_transfer (AddressText address) true);
     if ad_signTransaction a then
       _ <- rethrowing (adapterSign (SignBuilt sponsoredTx));
       Ret (set_tc_sponsored true c)
     else
       match window_signer walletName with
       | Some name =>
           _ <- signWith name (SignBuilt sponsoredTx);
           Ret (set_tc_sponsored true c)
       | None => Ret c
       end)
    (fun e => match present (tc_error c) with
              | Some _ => Ret c
              | None => Ret (set_tc_error (Some ("Sponsored tx failed: " ++ error_text e)) c)
              end).

Definition testCurrentWallet (a : Adapter) : uprog Page unit :=
  match ad_account a, ad_wallet a with
  | Some address, Some (walletName, submits) =>
      modify (setTesting true);;
      modify (setCurrentWalletResult None);;
      c1 <- current_regular a address walletName submits no_test_capabilities;
      c2 <- current_sponsored a address walletName c1;
      modify (setCurrentWalletResult (Some (test_result
        (if str_truthy walletName then walletName else "Unknown") true (AddressText address) c2)));;
      modify (setTesting false)
  | _, _ => alert "Please connect a wallet first"
  end.

Definition manualTestSponsoredTx (a : Adapter) : uprog Page unit :=
  match ad_account a, ad_wallet a with
  | Some address, Some (walletName, _) =>
      try_catch
        (tx <- buildSimple (simple (AddressText address) true
                 {| ec_function := "0x1::coin::transfer";
                    ec_typeArguments := ["0x1::aptos_coin::AptosCoin"];
                    ec_arguments := [AString address; AString "1"] |});
         _ <- (if ad_signTransaction a then adapterSign (SignBuilt tx)
               else match window_signer walletName with
                    | Some name => signWith name (SignBuilt tx)
                    | None => Fail (Error "No signing method available")
                    end);
         alert "Success! This wallet supports sponsored transactions!")
        (fun e => alert ("Failed: " ++ error_text e))
  | _, _ => alert "Please connect a wallet first"
  end.
End Tests.

(** *** Properties *)

(** A transaction with a fee payer was built, and it was signed. *)
Definition signed_sponsored (h : list (Ev WalletI)) : Prop :=
  exists b tx sig, bs_withFeePayer b = true /\
    Called (I := WalletI) (BuildSimple b) (Ok tx) ∈ h /\
    ((exists name, Called (I := WalletI) (SignWith name (SignBuilt tx)) (Ok sig) ∈ h) \/
     Called (I := WalletI) (AdapterSign (SignBuilt tx)) (Ok sig) ∈ h).

Lemma signed_sponsored_more h l : signed_sponsored h -> signed_sponsored (h ++ l)%list.
Proof.
  intros (b & tx & sig & Hb & Hin & Hs). exists b, tx, sig. split; [done|]. split; [set_solver|].
  destruct Hs as [[name Hs]|Hs]; [left; exists name|right]; set_solver.
Qed.

(** What holds of a result at the end of a test. *)
Definition sound_result (n : string) (r : WalletTestResult) (h : list (Ev WalletI)) : Prop :=
  tr_name r = n /\
  (tc_sponsoredTransaction (tr_capabilities r) = true -> signed_sponsored h) /\
  (tc_error (tr_capabilities r) = Some "Wallet not found" -> tr_connected r = false).

Lemma wp_test_regular name w a (s : Page) h :
  wp (test_regular name w a no_test_capabilities) (fun r s' h' => s' = s /\
    (exists l, h' = (h ++ l)%list) /\
    exists c, r = Ok c /\ tc_sponsoredTransaction c = false /\ tc_error c <> Some "Wallet not found") s h.
Proof.
  unfold test_regular. wallet_norm. intros [tx|e]; wallet_norm.
  2: { split; [done|]. split; [by eexists|]. by eexists. }
  destruct (has w "signTransaction"); wallet_norm.
  - intros [sig|e]; wallet_norm; (split; [done|]; split; [eexists; by rewrite <- app_assoc|]; by eexists).
  - destruct (has w "signAndSubmitTransaction"); wallet_norm;
      (split; [done|]; split; [by eexists|]; by eexists).
Qed.

Lemma wp_test_sponsored name w a c (s : Page) h :
  tc_sponsoredTransaction c = false -> tc_error c <> Some "Wallet not found" ->
  wp (test_sponsored name w a c) (fun r s' h' => s' = s /\
    (exists l, h' = (h ++ l)%list) /\
    exists c', r = Ok c' /\ (tc_sponsoredTransaction c' = true -> signed_sponsored h') /\
      tc_error c' <> Some "Wallet not found") s h.
Proof.
  intros Hc He. unfold test_sponsored. wallet_norm. intros [tx|e]; wallet_norm.
  2: { destruct (_ || _); wallet_norm; (split; [done|]; split; [by eexists|]; eexists; split; [done|]);
         simpl; split; [congruence|done|congruence|done]. }
  destruct (has w "signTransaction"); wallet_norm.
  - intros [sig|e]; wallet_norm.
    + split; [done|]. split; [eexists; by rewrite <- app_assoc|]. eexists. split; [done|].
      split; [|done]. intros _. exists (self_transfer a true), tx, sig. split; [done|].
      split; [set_solver|]. left. exists name. set_solver.
    + destruct (_ || _); wallet_norm; (split; [done|]; split; [eexists; by rewrite <- app_assoc|];
        eexists; split; [done|]); simpl; split; [congruence|done|congruence|done].
  - split; [done|]. split; [by eexists|]. eexists. split; [done|]. split; [congruence|done].
Qed.

Lemma wp_test_payload name w a c (s : Page) h :
  wp (test_payload name w a c) (fun r s' h' => s' = s /\
    (exists l, h' = (h ++ l)%list) /\
    exists c', r = Ok c' /\ tc_sponsoredTransaction c' = tc_sponsoredTransaction c /\
      tc_error c' = tc_error c) s h.
Proof.
  unfold test_payload. destruct (has w "signTransaction"); wallet_norm.
  - intros [sig|e]; wallet_norm; (split; [done|]; split; [by eexists|]; by eexists).
  - split; [done|]. split; [exists []; by rewrite app_nil_r|]. by eexists.
Qed.

Lemma wp_connect_wallet name n (s : Page) h :
  wp (connect_wallet name n) (fun r s' h' => s' = s /\ (exists l, h' = (h ++ l)%list) /\
    exists x, r = Ok x /\
      match x with
      | inl res => sound_result n res h'
      | inr _ => True
      end) s h.
Proof.
  unfold connect_wallet, attempt. wallet_norm.
  assert (forall e b, sound_result n (test_result n b (AddressText "")
            (set_tc_error (Some ("Connection failed: " ++ e)) no_test_capabilities)) h) as Hs0.
  { intros e b. split; [done|]. simpl. split; done. }
  assert (forall r l, sound_result n r h -> sound_result n r (h ++ l)%list) as Hmore.
  { intros r l (Hn & Hs & He). split; [done|]. split; [|done]. intros Hc. by apply signed_sponsored_more, Hs. }
  intros [st|e]; wallet_norm.
  - intros [[a|]|e]; wallet_norm; (split; [done|]; split; [eexists; by rewrite <- app_assoc|]);
      eexists; (split; [done|]); [done|..]; rewrite <- app_assoc; apply Hmore, Hs0.
  - split; [done|]. split; [by eexists|]. eexists. split; [done|]. apply Hmore, Hs0.
Qed.

(** A test of one wallet never throws, and a wallet is reported to support
    sponsored transactions only after it signed one. *)
Theorem test_wallet_sound (win : Window) (n : string) (s : Page) (h : list (Ev WalletI)) :
  wp (testWallet win n) (fun r s' h' => s' = s /\ (exists l, h' = (h ++ l)%list) /\
    exists x, r = Ok x /\ sound_result n x h') s h.
Proof.
  unfold testWallet. destruct (find_wallet win n) as [[name w]|]; wallet_norm.
  2: { split; [done|]. split; [exists []; by rewrite app_nil_r|]. by eexists. }
  apply wp_bind. eapply wp_mono; [|apply wp_connect_wallet].
  intros r s1 h1 (-> & [l1 ->] & [res|a] & -> & Hx).
  { wallet_norm. split; [done|]. split; [by eexists|]. by eexists. }
  apply wp_bind. eapply wp_mono; [|apply wp_test_regular].
  intros r s2 h2 (-> & [l2 ->] & c1 & -> & Hc1 & He1).
  apply wp_bind. eapply wp_mono; [|by apply wp_test_sponsored].
  intros r s3 h3 (-> & [l3 ->] & c2 & -> & Hc2 & He2).
  apply wp_bind. eapply wp_mono; [|apply wp_test_payload].
  intros r s4 h4 (-> & [l4 ->] & c4 & -> & Hc4 & He4). wallet_norm.
  split; [done|]. split; [eexists; by rewrite <- !app_assoc|]. eexists. split; [done|].
  split; [done|]. simpl. rewrite Hc4, He4.
  destruct (has w "signMultiAgentTransaction"); simpl;
    (split; [intros Hs; by apply signed_sponsored_more, Hc2|by intros Hw]).
Qed.

(** The loop: one sound result for each name tested, in order. *)
Lemma wp_test_names win names done (s : Page) h :
  Forall (fun x => sound_result (tr_name x) x h) done -> pg_results s = done ->
  wp (test_names win names done) (fun r s' h' =>
    pg_testing s' = pg_testing s /\ pg_current s' = pg_current s /\
    exists l, r = Ok l /\ pg_results s' = l /\
      (exists k, (tr_name <$> l) = ((tr_name <$> done) ++ take k names)%list) /\
      Forall (fun x => sound_result (tr_name x) x h') l) s h.
Proof.
  revert done s h. induction names as [|n names IH]; intros done s h Hd Hres; cbn [test_names].
  { wallet_norm. split_and!; [done..|]. exists done. split_and!; [done..| |done].
    exists 0%nat. by rewrite take_0, app_nil_r. }
  apply wp_bind. eapply wp_mono; [|apply test_wallet_sound].
  intros r s1 h1 (-> & [l1 ->] & x & -> & Hx). unfold attempt. wallet_norm.
  assert (forall e, Forall (fun y => sound_result (tr_name y) y ((h ++ l1) ++ [e])%list) (done ++ [x])) as Hd'.
  { intros e. apply Forall_app. split.
    - eapply Forall_impl; [exact Hd|]. intros y (Hn & Hs & He). split; [done|]. split; [|done].
      intros Hc. rewrite <- app_assoc. by apply signed_sponsored_more, Hs.
    - apply Forall_singleton. destruct Hx as (Hn & Hs & He). split; [done|]. split; [|done].
      intros Hc. by apply signed_sponsored_more, Hs. }
  destruct Hx as (Hn & _ & _). intros [[]|e]; wallet_norm.
  - eapply wp_mono; [|apply IH; [apply Hd'|done]].
    intros r s' h' (Ht & Hc & l & -> & Hl & [k Hk] & Hall). split_and!; [done..|].
    exists l. split_and!; [done..| |done]. exists (S k). rewrite Hk, fmap_app. simpl.
    by rewrite Hn, <- app_assoc.
  - split_and!; [done..|]. eexists. split_and!; [done|done| |apply Hd']. exists 1%nat.
    rewrite fmap_app. simpl. by rewrite Hn, take_0.
Qed.

(** The test of all wallets ends, with the button released, and shows one result
    per wallet tested, in the order of the list. Only a wallet that signed a
    transaction with a fee payer is recommended, and no other such wallet has
    more abilities. *)
Theorem test_all_outcome (win : Window) (s : Page) (h : list (Ev WalletI)) :
  wp (testAllWallets win) (fun r s' h' =>
    pg_testing s' = false /\
    (exists k, (tr_name <$> pg_results s') = take k walletNames) /\
    Forall (fun x => sound_result (tr_name x) x h') (pg_results s') /\
    exists best, r = Ok best /\
      match best with
      | Some b => b ∈ pg_results s' /\ tc_sponsoredTransaction (tr_capabilities b) = true /\
          (forall x, x ∈ pg_results s' -> tr_connected x = true ->
             tc_sponsoredTransaction (tr_capabilities x) = true -> test_score x <= test_score b)
      | None => forall x, x ∈ pg_results s' -> tr_connected x = true ->
          tc_sponsoredTransaction (tr_capabilities x) = false
      end) s h.
Proof.
  unfold testAllWallets. wallet_norm. apply wp_bind.
  eapply wp_mono; [|apply wp_test_names; done]. intros r s1 h1 (Ht & Hc & l & -> & Hl & [k Hk] & Hall).
  wallet_norm. cbn [pg_results setTesting]. subst l. split; [done|].
  split; [by exists k|]. split; [done|]. eexists. split; [done|].
  unfold best_wallet. set (f := List.filter _ (pg_results s1)).
  assert (forall x, x ∈ f <-> x ∈ pg_results s1 /\ tr_connected x = true /\
            tc_sponsoredTransaction (tr_capabilities x) = true) as Hf.
  { intros x. unfold f. by rewrite list_elem_of_In, filter_In, andb_true_iff, list_elem_of_In. }
  destruct (head (js_sort (larger test_score) f)) as [b|] eqn:Hb.
  - apply js_sort_head in Hb as [Hin Hmax]. apply Hf in Hin as (Hin & _ & Hsp).
    split; [done|]. split; [done|]. intros x Hx Hcx Hsx. apply Hmax, Hf. done.
  - intros x Hx Hcx. destruct (tc_sponsoredTransaction (tr_capabilities x)) eqn:E; [|done].
    assert (x ∈ f) as Hxf by (by apply Hf). rewrite <- (js_sort_perm (larger test_score)) in Hxf.
    destruct (js_sort (larger test_score) f); [by apply elem_of_nil in Hxf|done].
Qed.

Definition relabel (n : string) (r : WalletTestResult) : WalletTestResult :=
  test_result n (tr_connected r) (tr_address r) (tr_capabilities r).

(** A wallet that is not installed is tested all the same when any generic
    provider is there: the test asks that provider, and reports its answers
    under the name of the missing wallet. *)
Theorem missing_wallet_reported (O : Oracle WalletI) (win : Window) (n : string) (s : Page)
    (h : list (Ev WalletI)) :
  wallet_at win n = None -> on_window win "aptos" = true ->
  exists r h', run O (testWallet win "aptos") s h = (Ok r, s, h') /\
    run O (testWallet win n) s h = (Ok (relabel n r), s, h').
Proof.
  intros Hn Ha. unfold testWallet, find_wallet. rewrite Hn.
  unfold on_window, JsMap.has in Ha. change (JsMap.get "aptos" (win_wallets win)) with (wallet_at win "aptos") in Ha.
  destruct (wallet_at win "aptos") as [w|]; [|done].
  unfold connect_wallet, attempt, connect, account, await. cbn [pbind try_catch run].
  destruct (answer O h (Connect "aptos")) as [st|e]; cbn [of_result pbind try_catch run]; [|by eexists _, _].
  destruct (answer O _ (Account "aptos")) as [[a|]|e]; cbn [of_result pbind try_catch run];
    [|by eexists _, _..].
  rewrite !run_bind.
  match goal with |- context [run O (test_regular _ _ _ _) s ?hh] => generalize hh; intros h0 end.
  pose proof (wp_run O _ _ _ _ (wp_test_regular "aptos" w (address_of a) s h0)) as W1.
  destruct (run O (test_regular "aptos" w (address_of a) no_test_capabilities) s h0) as [[r1 s1] h1].
  cbn [fst snd] in W1. destruct W1 as (-> & _ & c1 & -> & Hc1 & He1).
  rewrite !run_bind. pose proof (wp_run O _ _ _ _ (wp_test_sponsored "aptos" w (address_of a) c1 s h1 Hc1 He1)) as W2.
  destruct (run O (test_sponsored "aptos" w (address_of a) c1) s h1) as [[r2 s2] h2]. cbn [fst snd] in W2.
  destruct W2 as (-> & _ & c2 & -> & _ & _). rewrite !run_bind.
  set (c3 := if has w "signMultiAgentTransaction" then _ else _).
  pose proof (wp_run O _ _ _ _ (wp_test_payload "aptos" w (address_of a) c3 s h2)) as W3.
  destruct (run O (test_payload "aptos" w (address_of a) c3) s h2) as [[r3 s3] h3]. cbn [fst snd] in W3.
  destruct W3 as (-> & _ & c4 & -> & _). by eexists _, _.
Qed.

(** The test of the connected wallet ends with the button released, and its
    result claims the support of sponsored transactions only after one was
    signed. *)
Theorem test_current_outcome (win : Window) (a : Adapter) (address name : string) (submits : bool)
    (s : Page) (h : list (Ev WalletI)) :
  ad_account a = Some address -> ad_wallet a = Some (name, submits) ->
  wp (testCurrentWallet win a) (fun r s' h' => r = Ok tt /\ pg_testing s' = false /\
    pg_results s' = pg_results s /\
    exists x, pg_current s' = Some x /\
      (tc_sponsoredTransaction (tr_capabilities x) = true -> signed_sponsored h')) s h.
Proof.
  intros Ha Hw. unfold testCurrentWallet. rewrite Ha, Hw. wallet_norm. apply wp_bind.
  eapply wp_mono with (Q := fun r s' h' => pg_results s' = pg_results s /\
    exists c, r = Ok c /\ tc_sponsoredTransaction c = false).
  - intros r s1 h1 (Hp & c1 & -> & Hc1). apply wp_bind.
    eapply wp_mono with (Q := fun r s' h' => pg_results s' = pg_results s1 /\
      exists c, r = Ok c /\ (tc_sponsoredTransaction c = true -> signed_sponsored h')).
    + intros r s2 h2 (Hp2 & c2 & -> & Hc2). wallet_norm. split_and!; [done|done| |].
      { simpl. congruence. }
      eexists. split; [reflexivity|]. exact Hc2.
    + unfold current_sponsored, rethrowing. wallet_norm. intros [tx|e]; wallet_norm.
      2: { destruct (present (tc_error c1)); wallet_norm; (split; [done|]; eexists; split; [done|]);
             simpl; congruence. }
      destruct (ad_signTransaction a); wallet_norm.
      * intros [sig|e]; wallet_norm.
        -- split; [done|]. eexists. split; [done|]. intros _.
           exists (self_transfer (AddressText address) true), tx, sig. split; [done|].
           split; [set_solver|]. right. set_solver.
        -- destruct (present (tc_error c1)); wallet_norm; (split; [done|]; eexists; split; [done|]);
             simpl; congruence.
      * destruct (window_signer win name) as [nm|]; wallet_norm.
        2: { split; [done|]. eexists. split; [done|]. congruence. }
        intros [sig|e]; wallet_norm.
        -- split; [done|]. eexists. split; [done|]. intros _.
           exists (self_transfer (AddressText address) true), tx, sig. split; [done|].
           split; [set_solver|]. left. exists nm. set_solver.
        -- destruct (present (tc_error c1)); wallet_norm; (split; [done|]; eexists; split; [done|]);
             simpl; congruence.
  - unfold current_regular, rethrowing. wallet_norm. intros [tx|e]; wallet_norm.
    2: { split; [done|]. by eexists. }
    destruct (ad_signTransaction a); wallet_norm.
    + intros [sig|e]; wallet_norm; (split; [done|]; by eexists).
    + destruct submits; wallet_norm; [split; [done|]; by eexists|].
      destruct (window_signer win name) as [nm|]; wallet_norm; [|split; [done|]; by eexists].
      intros [sig|e]; wallet_norm; (split; [done|]; by eexists).
Qed.

(** The manual test ends with one dialog, and with the text of success only after
    a transaction with a fee payer was signed. *)
Theorem manual_test_outcome (win : Window) (a : Adapter) (s : Page) (h : list (Ev WalletI)) :
  wp (manualTestSponsoredTx win a) (fun r s' h' => r = Ok tt /\ s' = s /\
    exists l text, h' = (h ++ l ++ [Told (I := WalletI) (AlertText text)])%list /\
      (text = "Success! This wallet supports sponsored transactions!" -> signed_sponsored h')) s h.
Proof.
  unfold manualTestSponsoredTx. set (P := fun h' : list (Ev WalletI) => exists l text,
    h' = (h ++ l ++ [Told (I := WalletI) (AlertText text)])%list /\
    (text = "Success! This wallet supports sponsored transactions!" -> signed_sponsored h')).
  assert (forall l e h', h' = (h ++ l ++ [Told (I := WalletI) (AlertText ("Failed: " ++ e))])%list -> P h')
    as Hfail by (intros l e h' ->; by exists l, ("Failed: " ++ e)).
  destruct (ad_account a) as [address|].
  2: { wallet_norm. split_and!; [done..|]. by exists [], "Please connect a wallet first". }
  destruct (ad_wallet a) as [[name submits]|].
  2: { wallet_norm. split_and!; [done..|]. by exists [], "Please connect a wallet first". }
  set (b := simple _ true _). wallet_norm.
  intros [tx|e]; [|split_and!; [done..|]; eapply (Hfail [_]); by rewrite <- app_assoc].
  assert (forall sig ev2 h', (ev2 = Called (I := WalletI) (AdapterSign (SignBuilt tx)) (Ok sig) \/
      exists nm, ev2 = Called (I := WalletI) (SignWith nm (SignBuilt tx)) (Ok sig)) ->
    h' = (h ++ [Called (I := WalletI) (BuildSimple b) (Ok tx); ev2] ++
          [Told (I := WalletI) (AlertText "Success! This wallet supports sponsored transactions!")])%list ->
    P h') as Hsig.
  { intros sig ev2 h' Hev ->. eexists _, _. split; [reflexivity|]. intros _.
    exists b, tx, sig. split; [done|]. split; [set_solver|].
    destruct Hev as [->|[nm ->]]; [right; set_solver|left; exists nm; set_solver]. }
  destruct (ad_signTransaction a); [|destruct (window_signer win name) as [nm|]]; wallet_norm.
  - intros [sig|e]; wallet_norm; (split_and!; [done..|]).
    + eapply Hsig; [by left|]. by rewrite <- !app_assoc.
    + eapply (Hfail [_; _]). by rewrite <- !app_assoc.
  - intros [sig|e]; wallet_norm; (split_and!; [done..|]).
    + eapply Hsig; [right; by exists nm|]. by rewrite <- !app_assoc.
    + eapply (Hfail [_; _]). by rewrite <- !app_assoc.
  - split_and!; [done..|]. eapply (Hfail [_]). by rewrite <- app_assoc.
Qed.
End Tester.
