(* ===== verification/SponsoredPages.v ===== *)
(** * The pages that try sponsored transactions

    [SponsoredTxTest.tsx], [SponsoredTxTestMock.tsx], [SponsoredTxTestSimple.tsx]
    and [SponsoredTxTestSDK.tsx]: four pages that build the multi-agent escrow
    transaction whose fee the resolver pays, with a wallet, without keys, with
    the keys of both sides, and from end to end with fresh accounts. *)

From Stdlib Require Import ZArith Lia Ascii String.
From stdpp Require Import base numbers list strings sets.
From S2P Require Import Prelude.
From S2P Require Import JsNumber.
From S2P Require Import JsString.
From S2P Require Import JsFormat.
From S2P Require Import Async.
From S2P Require Import Chain.
From S2P Require Import ChainService.
From S2P Require Import EscrowEvents.
From S2P Require Import SignedOrders.
From S2P Require Import WebServices.
From S2P Require Import Wallet.
From S2P Require Import WalletUtils.

Local Open Scope string_scope.
Local Open Scope Z_scope.
Local Open Scope prog_scope.

(** ** What the pages share *)

(** The status line, the error line and the details shown, of the type [D]. *)
Record TestPage (D : Type) := {
  tp_status : string;
  tp_error : string;
  tp_details : option D
}.
Arguments tp_status {D}.
Arguments tp_error {D}.
Arguments tp_details {D}.

Definition initial_test {D} : TestPage D := {| tp_status := ""; tp_error := ""; tp_details := None |}.

Definition setStatus {D} (t : string) (p : TestPage D) : TestPage D :=
  {| tp_status := t; tp_error := tp_error p; tp_details := tp_details p |}.
Definition setError {D} (t : string) (p : TestPage D) : TestPage D :=
  {| tp_status := tp_status p; tp_error := t; tp_details := tp_details p |}.
Definition setTxDetails {D} (d : D) (p : TestPage D) : TestPage D :=
  {| tp_status := tp_status p; tp_error := tp_error p; tp_details := Some d |}.

Definition quote : string := String (ascii_of_N 34) "".

(** [err.message || text] *)
Definition message_or (e : exn) (text : string) : string :=
  if str_truthy (message e) then message e else text.

(** [Math.floor(Date.now() / 1000) + 3600] *)
Definition hour_later (t : Z) : number := add (seconds t) (of_Z 3600).

(** The payload of all four pages; the random bytes are arguments. *)
Definition multi_agent_call (contracts : Contracts) (escrowId : list Z) (beneficiary : string)
    (hashlock : list Z) (timelock : number) : EntryCall :=
  {| ec_function := APTOS_ESCROW contracts ++ "::escrow_v2::create_escrow_multi_agent";
     ec_typeArguments := [];
     ec_arguments := [AInts escrowId; AString beneficiary; AString "1000000"; AInts hashlock;
                      AString (number_toString timelock); AString "100000"] |}.

Definition multi_agent (sender resolver : string) (call : EntryCall) : BuildMultiAgentData :=
  {| bm_sender := sender; bm_secondarySigners := [resolver]; bm_data := call;
     bm_maxGasAmount := 200000; bm_gasUnitPrice := 100; bm_withFeePayer := true |}.

(** ** With a wallet *)

Module WithWallet.

Record BuiltDetails := {
  bd_transaction : BuiltTx;
  bd_feePayerAddress : string;
  bd_signature : option string
}.

Section Page.
Context (contracts : Contracts) (escrowId hashlock : list Z) (accountAddress : option string)
  (canSign : bool).

Abbreviation wpage := (uprog (TestPage BuiltDetails)).

Definition testSponsoredTransaction : wpage unit :=
  match accountAddress with
  | None => modify (setError "Please connect your wallet first")
  | Some address =>
      try_catch
        (modify (setStatus "Building transaction...");;
         modify (setError "");;
         t <- now;
         let payload := multi_agent_call contracts escrowId address hashlock (hour_later t) in
         modify (setStatus "Building multi-agent transaction...");;
         tx <- buildMultiAgent (multi_agent address (RESOLVER_APTOS contracts) payload);
         modify (setTxDetails {| bd_transaction := tx; bd_feePayerAddress := RESOLVER_APTOS contracts;
                                 bd_signature := None |});;
         modify (setStatus ("Transaction built. Click " ++ quote ++ "Sign Transaction" ++ quote ++
                            " to test signing...")))
        (fun err => modify (setError (message_or err "Failed to build transaction")))
  end.

(** The wallet is given the details, not the transaction. After a failed
    simulation the payload of the transaction is read for the log. *)
Definition signBuiltTransaction : wpage unit :=
  p <- get;
  match tp_details p, accountAddress, canSign with
  | Some d, Some _, true =>
      try_catch
        (modify (setStatus "Requesting signature from wallet...");;
         modify (setError "");;
         signedTx <- adapterSign (SignDetails (bd_transaction d) (bd_feePayerAddress d) (bd_signature d));
         modify (setStatus "Transaction signed successfully! Check console for details.");;
         modify (setTxDetails {| bd_transaction := bd_transaction d;
                                 bd_feePayerAddress := bd_feePayerAddress d;
                                 bd_signature := Some signedTx |}))
        (fun err =>
           modify (setError (message_or err "Failed to sign transaction"));;
           if includes (message err) "Simulation" then
             modify (setStatus "Simulation failed. Trying alternative approach...");;
             match bt_raw (bd_transaction d) with
             | Some _ => Ret tt
             | None => undefined_read "payload"
             end
           else Ret tt)
  | _, _, _ => modify (setError "No transaction to sign or wallet not connected")
  end.

Definition testSimulation : wpage unit :=
  p <- get;
  match tp_details p, accountAddress with
  | Some _, Some _ =>
      modify (setStatus "Simulating transaction...");;
      modify (setError "");;
      modify (setStatus "Note: Simulation may fail without all signer public keys")
  | _, _ => modify (setError "Build a transaction first")
  end.
End Page.

(** Building, then signing: a signature is shown only when the wallet gave it
    for the transaction that is shown, and that transaction was built for the
    connected account with the resolver as second signer and fee payer. *)
Definition shown_signature (contracts : Contracts) (address : string) (p : TestPage BuiltDetails)
    (h : list (Ev WalletI)) : Prop :=
  match tp_details p with
  | None => True
  | Some d =>
      (exists call, Called (I := WalletI) (BuildMultiAgent (multi_agent address (RESOLVER_APTOS contracts) call))
                      (Ok (bd_transaction d)) ∈ h) /\
      bd_feePayerAddress d = RESOLVER_APTOS contracts /\
      match bd_signature d with
      | None => True
      | Some sig => exists before, Called (I := WalletI)
          (AdapterSign (SignDetails (bd_transaction d) (RESOLVER_APTOS contracts) before)) (Ok sig) ∈ h
      end
  end.

Lemma shown_signature_more contracts address p p' h l :
  tp_details p' = tp_details p -> shown_signature contracts address p h ->
  shown_signature contracts address p' (h ++ l)%list.
Proof.
  unfold shown_signature. intros ->. destruct (tp_details p) as [d|]; [|done].
  intros ((call & Hin) & Hf & Hs). split; [exists call; set_solver|]. split; [done|].
  destruct (bd_signature d); [|done]. destruct Hs as [b Hb]. exists b. set_solver.
Qed.

Theorem wallet_page_invariant (contracts : Contracts) (escrowId hashlock : list Z) (address : string)
    (canSign : bool) (m : uprog (TestPage BuiltDetails) unit) :
  m = testSponsoredTransaction contracts escrowId hashlock (Some address) \/
  m = signBuiltTransaction (Some address) canSign \/ m = testSimulation (Some address) ->
  holds (shown_signature contracts address) m.
Proof.
  assert (forall p p' h, tp_details p' = tp_details p -> shown_signature contracts address p h ->
            shown_signature contracts address p' h) as Hsame.
  { intros p p' h Hd Hp. rewrite <- (app_nil_r h). by eapply shown_signature_more. }
  intros Hm p h Hp. destruct Hm as [ -> | [ -> | -> ] ].
  - unfold testSponsoredTransaction. wallet_norm. intros t. wallet_norm. intros [tx|e]; wallet_norm.
    + unfold shown_signature. simpl. split; [|done].
      eexists. apply elem_of_app. right. by apply list_elem_of_singleton.
    + by eapply shown_signature_more; [|exact Hp].
  - unfold signBuiltTransaction. wallet_norm. destruct (tp_details p) as [d|] eqn:Hd.
    2: { wallet_norm. by eapply Hsame; [|exact Hp]. }
    destruct canSign; wallet_norm; [|by eapply Hsame; [|exact Hp]].
    unfold shown_signature in Hp. rewrite Hd in Hp. destruct Hp as ((call & Hin) & Hf & Hs).
    intros [sig|e]; wallet_norm.
    + unfold shown_signature. simpl. split; [exists call; set_solver|]. split; [done|].
      exists (bd_signature d). rewrite Hf. set_solver.
    + assert (shown_signature contracts address p
                (h ++ [Called (I := WalletI) (AdapterSign (SignDetails (bd_transaction d) (bd_feePayerAddress d)
                        (bd_signature d))) (Throw e)])%list) as Hp'.
      { eapply shown_signature_more; [reflexivity|]. unfold shown_signature. rewrite Hd.
        split; [by exists call|done]. }
      destruct (includes (message e) "Simulation"); wallet_norm; [|by eapply Hsame; [|exact Hp']].
      destruct (bt_raw (bd_transaction d)); wallet_norm; by eapply Hsame; [|exact Hp'].
  - unfold testSimulation. wallet_norm. destruct (tp_details p) as [d|] eqn:Hd; wallet_norm;
      by eapply Hsame; [|exact Hp].
Qed.
End WithWallet.

(** ** Without keys *)

Module Mock.

(** [bcsToHex] of the transaction is the hex of its bytes. *)
Inductive MockDetails :=
  | MockTransaction (sender : string) (secondarySigners : list string) (feePayerAddress : string)
      (rawTransactionHex : string) (payload : EntryCall) (escrowId hashlock : string) (timelock : number)
  | MockAccount (address sequenceNumber authenticationKey balance : string).

Section Page.
Context (contracts : Contracts) (escrowId hashlock : list Z) (userAddress : string).

Abbreviation mpage := (uprog (TestPage MockDetails)).

Definition buildMockTransaction : mpage unit :=
  if negb (str_truthy userAddress) then modify (setError "Please provide your wallet address")
  else
    try_catch
      (modify (setStatus "Building mock multi-agent transaction...");;
       modify (setError "");;
       t <- now;
       let timelock := hour_later t in
       let payload := multi_agent_call contracts escrowId userAddress hashlock timelock in
       modify (setStatus "Building transaction structure...");;
       transaction <- buildMultiAgent (multi_agent userAddress (RESOLVER_APTOS contracts) payload);
       modify (setTxDetails (MockTransaction userAddress [RESOLVER_APTOS contracts]
         "0x0 (will be set by resolver)" ("0x" ++ toHex (bt_bytes transaction)) payload
         ("0x" ++ toHex escrowId) ("0x" ++ toHex hashlock) timelock));;
       modify (setStatus
         "✅ Mock transaction built successfully! This shows what would be sent to the wallet."))
      (fun err => modify (setError (message_or err "Failed to build transaction"))).

Definition testAccountInfo : mpage unit :=
  if negb (str_truthy userAddress) then modify (setError "Please provide your wallet address")
  else
    try_catch
      (modify (setStatus "Fetching account info...");;
       modify (setError "");;
       info <- accountInfo userAddress;
       balance <- coinAmount userAddress "0x1::aptos_coin::AptosCoin";
       modify (setStatus "✅ Account info fetched successfully!");;
       modify (setTxDetails (MockAccount userAddress info.1 info.2
         (number_toString (div balance (of_Z 100000000)) ++ " APT"))))
      (fun err => modify (setError (message_or err "Failed to fetch account info"))).
End Page.
End Mock.

(** ** With the keys of both sides *)

Module WithKeys.

Record KeyDetails := {
  kd_sender : string;
  kd_secondarySigners : list string;
  kd_feePayerAddress : string;
  kd_payload : EntryCall;
  kd_escrowId : string;
  kd_hashlock : string;
  kd_timelock : number
}.

Section Page.
Context `{AptosAccounts} (contracts : Contracts) (escrowId hashlock : list Z)
  (userAddress userPrivateKey resolverPrivateKey : string).

Abbreviation kpage := (uprog (TestPage KeyDetails)).

Definition testMultiAgentTransaction : kpage unit :=
  if negb (str_truthy userAddress && str_truthy userPrivateKey && str_truthy resolverPrivateKey) then
    modify (setError "Please provide all required information")
  else
    try_catch
      (modify (setStatus "Setting up accounts...");;
       modify (setError "");;
       userAccount <- of_result (address_of_key userPrivateKey);
       resolverAccount <- of_result (address_of_key resolverPrivateKey);
       if negb (String.eqb userAccount userAddress) then
         modify (setError "User private key does not match the provided address")
       else if negb (String.eqb resolverAccount (RESOLVER_APTOS contracts)) then
         modify (setError "Resolver private key does not match the expected resolver address")
       else
         modify (setStatus "Building multi-agent transaction...");;
         t <- now;
         let timelock := hour_later t in
         let payload := multi_agent_call contracts escrowId userAddress hashlock timelock in
         transaction <- buildMultiAgent (multi_agent userAccount resolverAccount payload);
         modify (setStatus "Transaction built successfully!");;
         modify (setTxDetails
           {| kd_sender := userAccount; kd_secondarySigners := [resolverAccount];
              kd_feePayerAddress := match present (bt_feePayerAddress transaction) with
                                    | Some a => a
                                    | None => "0x0"
                                    end;
              kd_payload := payload; kd_escrowId := "0x" ++ toHex escrowId;
              kd_hashlock := "0x" ++ toHex hashlock; kd_timelock := timelock |});;
         modify (setStatus "Now you can test signing this transaction with the actual resolver backend!"))
      (fun err => modify (setError (message_or err "Failed in transaction flow"))).
End Page.

(** Nothing is built unless both keys are those of the expected accounts; then
    the transaction is one of the user, who is also the beneficiary, with the
    resolver as second signer. *)
Theorem keys_checked_before_build `{AptosAccounts} (contracts : Contracts) (escrowId hashlock : list Z)
    (user userKey resolverKey : string) (p : TestPage KeyDetails) (h : list (Ev WalletI)) :
  wp (testMultiAgentTransaction contracts escrowId hashlock user userKey resolverKey) (fun r p' h' =>
    r = Ok tt /\
    (h' = h /\ tp_error p' <> "" \/
     address_of_key userKey = Ok user /\ address_of_key resolverKey = Ok (RESOLVER_APTOS contracts) /\
     exists t x, h' = (h ++ [Called (I := WalletI) (BuildMultiAgent (multi_agent user (RESOLVER_APTOS contracts)
                    (multi_agent_call contracts escrowId user hashlock (hour_later t)))) x])%list /\
       match x with
       | Ok _ => tp_error p' = "" /\ exists d, tp_details p' = Some d /\ kd_sender d = user
       | Throw _ => tp_error p' <> "" /\ tp_details p' = tp_details p
       end)) p h.
Proof.
  unfold testMultiAgentTransaction.
  assert (forall e t, t <> "" -> message_or e t <> "") as Hne.
  { intros e t Ht. unfold message_or. by destruct (message e). }
  destruct (str_truthy user && str_truthy userKey && str_truthy resolverKey); wallet_norm; [|by split; [|left]].
  destruct (address_of_key userKey) as [ua|e] eqn:Eu; wallet_norm.
  2: { split; [done|]. left. split; [done|]. by apply Hne. }
  destruct (address_of_key resolverKey) as [ra|e] eqn:Er; wallet_norm.
  2: { split; [done|]. left. split; [done|]. by apply Hne. }
  destruct (String.eqb_spec ua user) as [->|]; wallet_norm; [|by split; [|left]].
  destruct (String.eqb_spec ra (RESOLVER_APTOS contracts)) as [->|]; wallet_norm; [|by split; [|left]].
  intros t. wallet_norm. intros [tx|e]; wallet_norm; (split; [done|]; right; split_and!; [done..|]);
    eexists t, _; (split; [reflexivity|]).
  - split; [done|]. by eexists.
  - split; [by apply Hne|done].
Qed.
End WithKeys.

(** ** From end to end *)

Module EndToEnd.

Record SdkDetails := {
  sd_executed : ExecutedTx;
  sd_escrowId : string;
  sd_hashlock : string;
  sd_timelock : number
}.

(** A fresh account, with its key. *)
Record TestAccount := { ta_key : string; ta_address : string }.

Record SdkPage := {
  sdk_page : TestPage SdkDetails;
  sdk_accounts : option (TestAccount * TestAccount)
}.

Definition on_page (f : TestPage SdkDetails -> TestPage SdkDetails) (p : SdkPage) : SdkPage :=
  {| sdk_page := f (sdk_page p); sdk_accounts := sdk_accounts p |}.
Definition setTestAccounts (a r : TestAccount) (p : SdkPage) : SdkPage :=
  {| sdk_page := sdk_page p; sdk_accounts := Some (a, r) |}.

Definition nl : string := String (ascii_of_N 10) "".

Section Page.
Context `{AptosAccounts} (contracts : Contracts) (escrowId hashlock : list Z).

Abbreviation spage := (uprog SdkPage).

(** [alice] and [resolver] are the accounts that the SDK generates. *)
Definition setupTestAccounts (alice resolver : TestAccount) : spage unit :=
  try_catch
    (modify (on_page (setStatus "Creating test accounts..."));;
     modify (on_page (setError ""));;
     modify (on_page (setStatus "Funding test accounts..."));;
     fundAccount (ta_address alice) 100000000;;
     fundAccount (ta_address resolver) 100000000;;
     modify (setTestAccounts alice resolver);;
     modify (on_page (setStatus ("Test accounts created and funded:" ++ nl ++
       "        Alice (User): " ++ ta_address alice ++ nl ++
       "        Resolver: " ++ ta_address resolver))))
    (fun err => modify (on_page (setError (message_or err "Failed to setup test accounts")))).

Definition build_for (alice resolver : TestAccount) (timelock : number) : spage BuiltTx :=
  buildMultiAgent (multi_agent (ta_address alice) (ta_address resolver)
    (multi_agent_call contracts escrowId (ta_address alice) hashlock timelock)).

Definition testMultiAgentSponsoredTransaction : spage unit :=
  p <- get;
  match sdk_accounts p with
  | None => modify (on_page (setError "Please setup test accounts first"))
  | Some (alice, resolver) =>
      try_catch
        (modify (on_page (setStatus "Building multi-agent transaction..."));;
         modify (on_page (setError ""));;
         t <- now;
         let timelock := hour_later t in
         modify (on_page (setStatus "Building multi-agent transaction with fee payer..."));;
         transaction <- build_for alice resolver timelock;
         modify (on_page (setStatus "Signing transaction with all parties..."));;
         aliceAuth <- of_result (sign_tx (ta_key alice) transaction);
         resolverAuth <- of_result (sign_tx (ta_key resolver) transaction);
         feePayerAuth <- of_result (sign_fee_payer (ta_key resolver) transaction);
         modify (on_page (setStatus "Submitting multi-agent transaction..."));;
         hash <- submitMultiAgent transaction aliceAuth [resolverAuth] feePayerAuth;
         modify (on_page (setStatus ("Transaction submitted! Hash: " ++ hash)));;
         modify (on_page (setStatus "Waiting for transaction confirmation..."));;
         executed <- waitForTransaction hash;
         if ex_success executed then
           modify (on_page (setStatus ("✅ Transaction confirmed successfully!" ++ nl ++
             "          Hash: " ++ ex_hash executed ++ nl ++
             "          Gas used: " ++ ex_gas_used executed ++ nl ++
             "          Gas paid by: Resolver (" ++ ta_address resolver ++ ")")));;
           modify (on_page (setTxDetails
             {| sd_executed := executed; sd_escrowId := "0x" ++ toHex escrowId;
                sd_hashlock := "0x" ++ toHex hashlock; sd_timelock := timelock |}))
         else modify (on_page (setError ("Transaction failed: " ++ ex_vm_status executed))))
        (fun err => modify (on_page (setError (message_or err "Failed in transaction flow"))))
  end.

(** The bytes go from the frontend to the backend, which reads them back. *)
Definition testSerializationFlow : spage unit :=
  p <- get;
  match sdk_accounts p with
  | None => modify (on_page (setError "Please setup test accounts first"))
  | Some (alice, resolver) =>
      try_catch
        (modify (on_page (setStatus "Testing serialization flow (like frontend/backend split)..."));;
         modify (on_page (setError ""));;
         t <- now;
         transaction <- build_for alice resolver (hour_later t);
         aliceAuth <- of_result (sign_tx (ta_key alice) transaction);
         let transactionBytes := bt_bytes transaction in
         let aliceAuthBytes := auth_bytes aliceAuth in
         modify (on_page (setStatus "Simulating backend processing..."));;
         deserializedTx <- of_result (read_simple_tx transactionBytes);
         deserializedAuth <- of_result (read_auth aliceAuthBytes);
         resolverAuth <- of_result (sign_tx (ta_key resolver) deserializedTx);
         feePayerAuth <- of_result (sign_fee_payer (ta_key resolver) deserializedTx);
         hash <- submitMultiAgent deserializedTx deserializedAuth [resolverAuth] feePayerAuth;
         modify (on_page (setStatus ("✅ Serialization flow successful! Tx: " ++ hash))))
        (fun err => modify (on_page (setError (message_or err "Failed in serialization flow"))))
  end.
End Page.

(** What is submitted by a run is the transaction that was built in that run,
    signed by the user as sender and by the resolver twice: as second signer and
    as fee payer. *)
Definition submitted_by `{AptosAccounts} (alice resolver : TestAccount) (tx : BuiltTx) (h : list (Ev WalletI))
    : Prop :=
  exists b sa ra fa hash,
    Called (I := WalletI) (BuildMultiAgent b) (Ok tx) ∈ h /\ bm_sender b = ta_address alice /\
    bm_secondarySigners b = [ta_address resolver] /\
    sign_tx (ta_key alice) tx = Ok sa /\ sign_tx (ta_key resolver) tx = Ok ra /\
    sign_fee_payer (ta_key resolver) tx = Ok fa /\
    Called (I := WalletI) (SubmitMultiAgent tx sa [ra] fa) (Ok hash) ∈ h /\
    exists executed, Called (I := WalletI) (WaitForTransaction hash) (Ok executed) ∈ h /\
      ex_success executed = true.

(** The page shows the details of an execution only when the transaction it
    built was submitted with the three signatures and executed with success; in
    every other case it shows an error and leaves the details as they were. *)
Theorem sdk_flow_outcome `{AptosAccounts} (contracts : Contracts) (escrowId hashlock : list Z)
    (alice resolver : TestAccount) (p : SdkPage) (h : list (Ev WalletI)) :
  sdk_accounts p = Some (alice, resolver) ->
  wp (testMultiAgentSponsoredTransaction contracts escrowId hashlock) (fun r p' h' =>
    r = Ok tt /\
    (tp_error (sdk_page p') = "" /\ (exists d, tp_details (sdk_page p') = Some d /\
       ex_success (sd_executed d) = true) /\ (exists tx, submitted_by alice resolver tx h') \/
     tp_error (sdk_page p') <> "" /\ tp_details (sdk_page p') = tp_details (sdk_page p))) p h.
Proof.
  intros Ha. unfold testMultiAgentSponsoredTransaction, build_for. wallet_norm. rewrite Ha. wallet_norm.
  assert (forall e t, t <> "" -> message_or e t <> "") as Hne.
  { intros e t Ht. unfold message_or. by destruct (message e). }
  assert (forall e, message_or e "Failed in transaction flow" <> "") as Hf by (intros; by apply Hne).
  intros t. wallet_norm. intros [tx|e]; wallet_norm; [|split; [done|]; right; split; [apply Hf|done]].
  destruct (sign_tx (ta_key alice) tx) as [sa|e] eqn:Ea; wallet_norm; [|split; [done|]; right; split; [apply Hf|done]].
  destruct (sign_tx (ta_key resolver) tx) as [ra|e] eqn:Er; wallet_norm; [|split; [done|]; right; split; [apply Hf|done]].
  destruct (sign_fee_payer (ta_key resolver) tx) as [fa|e] eqn:Ef; wallet_norm; [|split; [done|]; right; split; [apply Hf|done]].
  intros [hash|e]; wallet_norm; [|split; [done|]; right; split; [apply Hf|done]].
  intros [ex|e]; wallet_norm; [|split; [done|]; right; split; [apply Hf|done]].
  destruct (ex_success ex) eqn:Ex; wallet_norm; (split; [done|]).
  2: { right. split; [discriminate|done]. }
  left.
  split; [done|]. split; [by eexists|]. exists tx, (multi_agent (ta_address alice) (ta_address resolver)
    (multi_agent_call contracts escrowId (ta_address alice) hashlock (hour_later t))), sa, ra, fa, hash.
  split_and!; try done; [set_solver|set_solver|]. exists ex. split; [set_solver|done].
Qed.

(** Where the bytes of a transaction and of an authenticator can be read back,
    the split between frontend and backend changes nothing: what the backend
    submits is the transaction that was built, with the user's signature. *)
Theorem serialization_transparent `{AptosAccounts} (contracts : Contracts) (escrowId hashlock : list Z)
    (alice resolver : TestAccount) (p : SdkPage) (h : list (Ev WalletI)) :
  (forall tx, read_simple_tx (bt_bytes tx) = Ok tx) -> (forall a, read_auth (auth_bytes a) = Ok a) ->
  sdk_accounts p = Some (alice, resolver) ->
  wp (testSerializationFlow contracts escrowId hashlock) (fun r p' h' =>
    r = Ok tt /\ sdk_accounts p' = sdk_accounts p /\
    (forall tx sa l fa x, Called (I := WalletI) (SubmitMultiAgent tx sa l fa) x ∈ h' ->
       Called (I := WalletI) (SubmitMultiAgent tx sa l fa) x ∈ h \/
       (exists b, Called (I := WalletI) (BuildMultiAgent b) (Ok tx) ∈ h') /\
       sign_tx (ta_key alice) tx = Ok sa)) p h.
Proof.
  intros Ht Hau Ha. unfold testSerializationFlow, build_for. wallet_norm. rewrite Ha. wallet_norm.
  intros t. wallet_norm.
  assert (forall b x, forall tx sa l fa y,
            Called (I := WalletI) (SubmitMultiAgent tx sa l fa) y ∈ (h ++ [Called (I := WalletI) (BuildMultiAgent b) x])%list ->
            Called (I := WalletI) (SubmitMultiAgent tx sa l fa) y ∈ h) as Hold.
  { intros b x tx sa l fa y [Hin|Hin%list_elem_of_singleton]%elem_of_app; [done|discriminate]. }
  intros [tx|e]; wallet_norm; [|split_and!; [done..|]; intros; left; by eapply Hold].
  destruct (sign_tx (ta_key alice) tx) as [sa|e] eqn:Ea; wallet_norm;
    [|split_and!; [done..|]; intros; left; by eapply Hold].
  rewrite Ht, Hau. wallet_norm.
  destruct (sign_tx (ta_key resolver) tx) as [ra|e]; wallet_norm;
    [|split_and!; [done..|]; intros; left; by eapply Hold].
  destruct (sign_fee_payer (ta_key resolver) tx) as [fa|e]; wallet_norm;
    [|split_and!; [done..|]; intros; left; by eapply Hold].
  intros x. destruct x as [hash|e]; wallet_norm; (split_and!; [done..|]);
    intros tx' sa' l fa' x' [Hin|Hin%list_elem_of_singleton]%elem_of_app;
    try (left; by eapply Hold); right;
    injection Hin; intros; subst; (split; [|done]); eexists; apply elem_of_app; left;
    apply elem_of_app; right; by apply list_elem_of_singleton.
Qed.
End EndToEnd.
