(* ===== verification/SwapForm.v ===== *)
(** * The form of the swap page

    The inputs of [SwapInterface.tsx] before a swap is started: the direction,
    the amount, the quoted rate that is fetched every thirty seconds and
    whenever the direction changes, the estimate, and the WETH balance. The
    fetches run concurrently with the user's clicks; what the form holds is what
    [handleSwap] makes an order of. *)

From Stdlib Require Import ZArith Lia Ascii String.
From stdpp Require Import base numbers list strings relations.
From S2P Require Import Prelude.
From S2P Require Import JsNumber.
From S2P Require Import JsString.
From S2P Require Import JsFormat.
From S2P Require Import OrderTypes.
From S2P Require Import Async.
From S2P Require Import ChainService.
From S2P Require Import OrderIntake.
From S2P Require Import SwapPage.

Local Open Scope string_scope.
Local Open Scope Z_scope.
Local Open Scope prog_scope.

(** ** The state *)

Record Form := {
  fm_fromChain : Chain;
  fm_toChain : Chain;
  fm_fromAmount : string;
  fm_estimatedOutput : string;
  fm_exchangeRate : option number;
  fm_wethBalance : string
}.

Definition initial_form : Form :=
  {| fm_fromChain := ETHEREUM; fm_toChain := APTOS; fm_fromAmount := ""; fm_estimatedOutput := "";
     fm_exchangeRate := None; fm_wethBalance := "0" |}.

(** [priceService.getUSDPrice(token)], which answers 0 when the price cannot be
    read, and [wethService.getBalance(account)]. *)
Inductive FormReq := UsdPrice (token : string) | WethBalance (account : string).

Definition form_ans (r : FormReq) : Type :=
  match r with UsdPrice _ => number | WethBalance _ => Z end.

Definition FormI : Interface := {| Req := FormReq; ans := form_ans; Out := Empty_set |}.

Abbreviation fprog := (prog FormI Form).

(** A new rate or amount, with the effect on both: the estimate is computed
    anew from the values of the render. *)
Definition setExchangeRate (rate : number) (s : Form) : Form :=
  {| fm_fromChain := fm_fromChain s; fm_toChain := fm_toChain s; fm_fromAmount := fm_fromAmount s;
     fm_estimatedOutput := estimate (fm_fromAmount s) (Some rate) (fm_estimatedOutput s);
     fm_exchangeRate := Some rate; fm_wethBalance := fm_wethBalance s |}.

Definition setFromAmount (amount : string) (s : Form) : Form :=
  {| fm_fromChain := fm_fromChain s; fm_toChain := fm_toChain s; fm_fromAmount := amount;
     fm_estimatedOutput := estimate amount (fm_exchangeRate s) (fm_estimatedOutput s);
     fm_exchangeRate := fm_exchangeRate s; fm_wethBalance := fm_wethBalance s |}.

Definition setWethBalance (b : string) (s : Form) : Form :=
  {| fm_fromChain := fm_fromChain s; fm_toChain := fm_toChain s; fm_fromAmount := fm_fromAmount s;
     fm_estimatedOutput := fm_estimatedOutput s; fm_exchangeRate := fm_exchangeRate s;
     fm_wethBalance := b |}.

(** The rate is kept. *)
Definition switchChains (s : Form) : Form :=
  {| fm_fromChain := fm_toChain s; fm_toChain := fm_fromChain s; fm_fromAmount := "";
     fm_estimatedOutput := ""; fm_exchangeRate := fm_exchangeRate s; fm_wethBalance := fm_wethBalance s |}.

(** ** The handlers *)

(** [fromChain] is the direction of the render in which the effect ran; the
    cleanup of the effect stops the timer, not a fetch that is under way. *)
Definition fetchRates (fromChain : Chain) : fprog unit :=
  try_catch
    (wethRate <- await (I := FormI) (UsdPrice "ETH");
     aptRate <- await (I := FormI) (UsdPrice "APT");
     modify (setExchangeRate (page_rate fromChain wethRate aptRate)))
    (fun _ => Ret tt).

Definition fetchWethBalance `{EthersUnits} (ethAccount : option string) (hasSigner : bool) : fprog unit :=
  match present ethAccount with
  | Some account =>
      if hasSigner then
        try_catch
          (balance <- await (I := FormI) (WethBalance account);
           modify (setWethBalance (formatEther18 balance)))
          (fun _ => Ret tt)
      else Ret tt
  | None => Ret tt
  end.

(** A click on the arrows: the state, and then the effect of the new direction. *)
Definition click_switch : fprog unit :=
  modify switchChains;;
  s <- get;
  fetchRates (fm_fromChain s).

Definition type_amount (amount : string) : fprog unit := modify (setFromAmount amount).

(** Everything that runs on the form: the effect on the first render and its
    timer, which fetch for the direction that is set when they start, clicks and
    typing. *)
Definition fetch_now : fprog unit := s <- get; fetchRates (fm_fromChain s).

Inductive form_handler `{EthersUnits} : fprog unit -> Prop :=
  | fh_fetch : form_handler fetch_now
  | fh_switch : form_handler click_switch
  | fh_type amount : form_handler (type_amount amount)
  | fh_weth account signer : form_handler (fetchWethBalance account signer).

(** ** Properties *)

(** The estimate belongs to the amount and the rate that are shown. *)
Definition estimated (s : Form) : Prop :=
  match fm_exchangeRate s with
  | Some r =>
      truthy r = true -> str_truthy (fm_fromAmount s) = true -> parseFloat (fm_fromAmount s) <> NaN ->
      fm_estimatedOutput s = toFixed (mul (parseFloat (fm_fromAmount s)) r) 6
  | None => fm_estimatedOutput s = ""
  end.

Lemma estimate_spec amount r old :
  truthy r = true -> str_truthy amount = true -> parseFloat amount <> NaN ->
  estimate amount (Some r) old = toFixed (mul (parseFloat amount) r) 6.
Proof. intros Hr Ha Hn. unfold estimate. rewrite Ha, Hr. simpl. by destruct (parseFloat amount). Qed.

Section Invariant.
Context `{EthersUnits}.

Lemma estimated_rate rate s : estimated (setExchangeRate rate s).
Proof. intros Hr Ha Hn. by apply estimate_spec. Qed.

Lemma estimated_amount amount s : estimated s -> estimated (setFromAmount amount s).
Proof.
  unfold estimated. simpl. destruct (fm_exchangeRate s) as [r|]; [|done].
  intros _ Hr Ha Hn. by apply estimate_spec.
Qed.

Lemma estimated_switch s : estimated s -> estimated (switchChains s).
Proof. unfold estimated. simpl. by destruct (fm_exchangeRate s). Qed.

Lemma fetchRates_stable c : stable estimated (fetchRates c).
Proof.
  unfold fetchRates. repeat stable_step. intros s' _. apply estimated_rate.
Qed.

(** However fetches, clicks and typing interleave, the estimate that the form
    shows is the amount times the rate it shows, to six decimals. *)
Theorem estimate_follows_rate (w : Pool FormI Form unit) :
  rtc (step_of form_handler) {| handlers := []; fields := initial_form; log := [] |} w ->
  estimated (fields w).
Proof.
  intros Hsteps. eapply (pool_invariant estimated form_handler _ w); [|exact Hsteps|done|constructor].
  intros p Hp. destruct Hp as [| |amount|acc sig].
  - unfold fetch_now. stable_step; [stable_step|]. apply fetchRates_stable.
  - unfold click_switch. stable_step; [apply stable_modify, estimated_switch|].
    stable_step; [stable_step|]. apply fetchRates_stable.
  - apply stable_modify, estimated_amount.
  - unfold fetchWethBalance. repeat stable_step. by intros s' Hs.
Qed.

Lemma answer_form (w : Pool FormI Form unit) i r k x p' s' h' :
  handlers w !! i = Some (Call r k) ->
  advance 0 (k x) (fields w) (log w ++ [Called r x])%list = (p', s', h') ->
  step_of form_handler w {| handlers := <[i := p']> (handlers w); fields := s'; log := h' |}.
Proof. intros Hi Ha. by eapply step_answer. Qed.

(** The form after a fetch that a turn of the direction overtook: [w] and [a]
    are the prices that both fetches read, [amount] is typed at the end. *)
Definition overtaken (w a : number) (amount : string) : Form :=
  setFromAmount amount
    (setExchangeRate (page_rate ETHEREUM w a)
       (setExchangeRate (page_rate APTOS w a) (switchChains initial_form))).

Lemma overtaken_reached (w a : number) (amount : string) :
  exists p : Pool FormI Form unit,
    rtc (step_of form_handler) {| handlers := []; fields := initial_form; log := [] |} p /\
    fields p = overtaken w a amount /\ Forall (fun q => q = Ret tt) (handlers p).
Proof.
  eexists. split.
  { eapply rtc_l; [eapply (step_start _ _ 0 fetch_now); [constructor|reflexivity]|].
    eapply rtc_l; [eapply (step_start _ _ 0 click_switch); [constructor|reflexivity]|].
    eapply rtc_l; [eapply (answer_form _ 1 (UsdPrice "ETH") _ (Ok w)); reflexivity|].
    eapply rtc_l; [eapply (answer_form _ 1 (UsdPrice "APT") _ (Ok a)); reflexivity|].
    eapply rtc_l; [eapply (answer_form _ 0 (UsdPrice "ETH") _ (Ok w)); reflexivity|].
    eapply rtc_l; [eapply (answer_form _ 0 (UsdPrice "APT") _ (Ok a)); reflexivity|].
    eapply rtc_l; [eapply (step_start _ _ 0 (type_amount amount)); [constructor|reflexivity]|].
    apply rtc_refl. }
  split; [reflexivity|]. by repeat constructor.
Qed.

(** C35. The rate of the other direction: the prices are being read when the
    visitor turns the direction. The fetch for the new direction ends first, then
    the old one, and leaves its rate in place: the form sells APT at the price
    of ETH in APT, and nothing is under way that would correct it before
    the next timer. The estimate of the amount typed then, from which the least
    amount of the order is computed, uses that rate. *)
Theorem rate_of_other_direction (w a : number) (amount : string) :
  exists p : Pool FormI Form unit,
    rtc (step_of form_handler) {| handlers := []; fields := initial_form; log := [] |} p /\
    fm_fromChain (fields p) = APTOS /\ fm_toChain (fields p) = ETHEREUM /\
    fm_exchangeRate (fields p) = Some (page_rate ETHEREUM w a) /\
    fm_fromAmount (fields p) = amount /\
    fm_estimatedOutput (fields p) = estimate amount (Some (page_rate ETHEREUM w a)) "" /\
    Forall (fun q => q = Ret tt) (handlers p).
Proof.
  destruct (overtaken_reached w a amount) as (p & Hp & Hf & Hq).
  exists p. rewrite Hf. by split_and!.
Qed.
End Invariant.

(** A price that could not be read counts as 0. When it is the price of APT the
    rate of a sale of ETH is infinite, so is the estimate, and the order
    that is made of it asks for an infinite amount. *)
Theorem unread_price_infinite `{EthersUnits} (w : number) (amount : string) :
  ltb (of_Z 0) w = true -> is_finite w = true ->
  ltb (of_Z 0) (parseFloat amount) = true -> is_finite (parseFloat amount) = true ->
  str_truthy amount = true ->
  page_rate ETHEREUM w (of_Z 0) = Infinity false /\
  estimate amount (Some (page_rate ETHEREUM w (of_Z 0))) "" = "Infinity" /\
  min_to_amount APTOS "Infinity" = Ok "Infinity".
Proof.
  intros Hw Hfw Ha Hfa Hs. rewrite of_Z_0 in *.
  assert (page_rate ETHEREUM w (Finite 0) = Infinity false) as E.
  { destruct w as [| |x]; try done. unfold ltb in Hw. cbn [leb eqb] in Hw. apply andb_true_iff in Hw as [H1 H2].
    unfold page_rate. cbn [div]. rewrite Z.eqb_refl.
    apply Z.leb_le in H1. apply negb_true_iff, Z.eqb_neq in H2.
    destruct (Z.eqb_spec x 0); [lia|]. by rewrite (proj2 (Z.ltb_ge x 0)) by lia. }
  split; [done|]. split; [|vm_compute; reflexivity]. rewrite E. unfold estimate. rewrite Hs. cbn [truthy andb].
  destruct (parseFloat amount) as [| |x]; try done. unfold ltb in Ha. cbn [leb eqb] in Ha.
  apply andb_true_iff in Ha as [H1 H2]. apply Z.leb_le in H1. apply negb_true_iff, Z.eqb_neq in H2.
  cbn [mul]. destruct (Z.eqb_spec x 0); [lia|]. by rewrite (proj2 (Z.ltb_ge x 0)) by lia.
Qed.

(** ** Examples *)

Module FormExample.

Definition plain_units : EthersUnits :=
  {| formatEther18 := fun z => fixed_digits z 18; parseEther := fun _ => Throw (Error "unused");
     randomBytes := fun _ => "" |}.

(** With ETH at 3000 dollars and APT at 5, selling 10 APT: the rate of the other
    direction estimates 6000 WETH, where 0.016667 is the value. *)
Example inverted_estimate :
  estimate "10" (Some (page_rate ETHEREUM (of_Z 3000) (of_Z 5))) "" = "6000.000000" /\
  estimate "10" (Some (page_rate APTOS (of_Z 3000) (of_Z 5))) "" = "0.016667".
Proof. vm_compute. done. Qed.

Local Existing Instance plain_units.

Lemma estimate_follows_rate_witness :
  exists w : Pool FormI Form unit, fm_fromAmount (fields w) = "10" /\ estimated (fields w).
Proof.
  destruct (overtaken_reached (of_Z 3000) (of_Z 5) "10") as (p & Hp & Hf & _).
  exists p. split; [by rewrite Hf|]. apply estimate_follows_rate. exact Hp.
Defined.

Lemma unread_price_infinite_witness :
  page_rate ETHEREUM (of_Z 3000) (of_Z 0) = Infinity false.
Proof. apply (unread_price_infinite (of_Z 3000) "1"); vm_compute; reflexivity. Defined.
End FormExample.
